(* ===== verification/_CoqProject ===== *)
-Q . S2P
Prelude.v
Machine.v
IbltTable.v
IbltCells.v
IbltAlgebra.v
IbltRefine.v
IbltPeel.v
Keys.v
IbltSync.v
Sketch.v
Strings.v
Text.v
Effects.v
Bitcoin.v
Content.v
Db.v
DbContent.v
DbContentSpec.v
Wallet.v
DbWallet.v
Trunk.v
Store.v
StoreTables.v
StoreSpec.v
StoreLedger.v
Messages.v
Toy.v
StoreExamples.v
Updater.v
UpdaterSpec.v
UpdaterSync.v
UpdaterPoll.v
UpdaterSession.v
UpdaterExamples.v
BlockDownload.v
BlockDownloadSpec.v
BlockDownloadStart.v
Address.v
AddressSpec.v
Discovery.v
DiscoverySpec.v
DiscoverySync.v
Network.v
NetworkSpec.v
Framing.v
ResumeSpec.v
SendTx.v
SendTxSpec.v
Api.v
ApiSpec.v
Isolation.v
Provenance.v
Main.v
CommandLine.v
Startup.v
StartupSpec.v
MainSpec.v
ReopenSpec.v
ToyNetwork.v
BlockDownloadExamples.v
NetworkExamples.v
WalletSpec.v
PublicationSpec.v
PublicationReach.v
WalletExamples.v
ServiceExamples.v
ReachExamples.v
