(* ===== verification/Prelude.v ===== *)
(** * defiads: a verification library

    defiads is a node of a peer-to-peer network that distributes textual ads, each
    paid for by bitcoins locked in a transaction that commits to it.  This library
    models the program of src/src/ (Rust) as executable functions and proves what
    its parts promise.

    ** The program and the files that model it

    A node follows the bitcoin chain, keeps the ads that valid transactions fund,
    and synchronises them with its peers.

    - Invertible Bloom lookup tables and sketches (iblt.rs) find the difference of two
      sets of keys.  IbltTable.v: [Iblt], [BucketIterator], [IBLTIterator];
      IbltCells.v, IbltAlgebra.v, IbltRefine.v, IbltPeel.v, IbltSync.v: theorems.
      Sketch.v: [min_sketch], [estimate_diff_size] in binary32 (Machine.v).
      Keys.v: the two types of keys (content.rs, discovery.rs), instances of the
      class [IBLTKey] against which the tables are proved.
    - Ads and contents (ad.rs, content.rs, text.rs): Strings.v, Text.v, Content.v.
    - The database (db.rs) is a record of finite maps, Db.v: the content table in
      DbContent.v, publications, coins, accounts, own transactions and the last
      processed block in DbWallet.v, the slots of known addresses in Address.v.
    - The wallet (wallet.rs): Wallet.v, and the creation of the first one in Main.v.
    - The trunk of the chain (trunk.rs, ChainDBTrunk of p2p_bitcoin.rs): Trunk.v.
    - The content store (store.rs): Store.v.  It ties database, wallet, cached tables
      and sketch together; chain events and received contents reach it.
    - The updater (updater.rs, messages.rs): Messages.v, Updater.v.  It exchanges
      contents with peers: a poll, a table, a request, the contents.
    - The discovery (discovery.rs): Address.v, Discovery.v.  It exchanges addresses of
      nodes in the same way.
    - The block download (blockdownload.rs): BlockDownload.v.  It follows headers,
      asks for blocks and passes both to the store.
    - The relay (sendtx.rs): SendTx.v.  It serves and announces transactions.
    - The two networks (p2p_bitcoin.rs, p2p_defiads.rs, find_peers.rs): Network.v has
      the driver of the store, the pools of addresses, [KeepConnected], the walk
      back after a re-org and the codec of messages; Startup.v has [start] of both
      networks with all that they set up, and how [main] calls them.
    - The interface (api.rs, error.rs): Api.v; the main program (main.rs): its options
      and their values in CommandLine.v, what it starts in Main.v.

    Files named *Spec.v, StoreTables.v, StoreLedger.v, Isolation.v, Provenance.v,
    PublicationReach.v, Framing.v, UpdaterSync.v, UpdaterPoll.v, UpdaterSession.v,
    DiscoverySync.v and BlockDownloadStart.v hold theorems; *Examples.v apply them to
    concrete inputs, with the instances of Toy.v and ToyNetwork.v.

    ** How state and effects are modelled

    A function that may fail or panic answers in [res] (below): [Err] is Rust's
    [Err], [Panicked] an unwinding panic.  A method on [&mut self] is an [action]
    (Effects.v) on the record of the struct's fields; a handler is the action on one
    message.  [transaction] and [uncommitted] say what the database keeps.  What is
    sent to peers is a list in the state, in order.  Integers are [Z] with the
    wrap-around of their width written out ([u8] to [u64], [i32], [i64] in
    Machine.v; overflow wraps, as in a release build); strings are lists of scalar
    values; digests vectors of 32 bytes.  Random draws and the clock are arguments.

    Code that is not in the repository is a class with laws: [SipHasher], [Snap]
    (snappy), [Bitcoin] (hashes, hex, scripts, keys, proofs), [Cbor], [SQLite] (the
    order of rows), [WalletCrate], [AccountStorage] and [WalletKeys]
    (bitcoin_wallet), [HeaderChain], [Peers] and [Timeouts] (murmel), [LruCaches]
    (lru_cache), [MessageBuffer] (murmel's buffer and serde_cbor), [Clap] (clap) and
    [Parsers] (the text forms of addresses and networks).  The laws are what these
    crates document: decoding what was encoded, permutations for sorting, a weight
    above zero without an upper bound, keys that are read back from their text - but
    for those of regtest, whose text is that of testnet -, and so on.

    ** What the theorems show

    - Tables and sketches: every operation on well-formed tables refines a signed
      multiset of entries; peeling a difference is sound, ends on tables that were
      built by insertions, and is complete or reports; a table that a peer made up
      may be peeled for ever, and keys with equal cells go unreported; the sketch
      extended key by key is the sketch of the set.
    - Store: in every reachable state the cached tables are those of the stored
      contents; what each chain event removes; which contents are accepted, and
      which make [add_content] panic half way, because their ads can not be stored
      or their funders' keys not be tweaked; truncation keeps the most valuable
      contents within the limit; adding a stored content again counts its key once
      more in every table.
    - The node as a whole: the contents of the store implement an abstract ledger
      (StoreLedger.v), and so they do under any interleaving of the calls of both
      networks, the block download and the clients (Isolation.v): no request of a
      client and no learned address touches them.  Each cached table is that of the
      ledger's keys, with one count more for each content that was accepted though
      it was stored.  Each content that is stored was offered with a proof that its
      funder locked the amount for its term, and no later event was to remove it;
      without truncations these are all that is stored (Provenance.v).  Both hold for
      any sequence of calls, up to the first that fails or is [refused]: content that
      can not be stored, tables without cells, more than 2^64 bytes.
    - Publication: what the wallet funded is stored when its transaction is confirmed
      (PublicationSpec.v), against the class [CommitLaws] of what bitcoin_wallet's
      script keys promise; connecting a block keeps tables and sketch right, and
      the ad gets to a peer that connects (PublicationReach.v, which puts wallet,
      store and updater together).
    - Exchange: the messages move the store along its own steps (a refinement),
      but for a content delivered again, whose key is counted twice; two
      nodes that connect have each other's contents after four rounds of messages
      (UpdaterSession.v, built of the single exchange of UpdaterSync.v and the polls of
      UpdaterPoll.v); a poll between equal nodes costs one message each; requests for
      unknown contents panic.
    - Wallet and interface: what a payment spends and pays, fees that wrap around,
      terms that are capped or cut; a request without the key changes nothing; a
      malformed amount withdraws everything; a withdrawal is served to peers.
    - Restart (ReopenSpec.v, against the class [StorageLaws] of what bitcoin_wallet
      restores): the wallet of the first run is the one the next run opens, but on
      regtest, where the next run panics; deposit addresses are handed out again.
    - Command line (CommandLine.v, against the class [ClapLaws]): which command lines
      are read, where the others panic, and what a node without options does
      ([default_start]).
    - Relay: requests are answered exactly, the cache stays well-formed, a
      transaction is relayed once.
    - Block download and start: blocks are passed on in the order of their headers;
      a restart loses no block and repeats none where the times of the headers pass
      the wallet's birth once ([passes_birth], ResumeSpec.v; the example
      [wanted_dropped_at_restart] shows a loss where they do not); which blocks are
      wanted at start and after a re-scan; what a header on a fork and a re-org
      lead to, while the node runs and while it was down.
    - Framing (Framing.v, against the class [MessageBufferLaws]): however the bytes of
      encoded messages are cut into pieces, the receiver decodes the messages in
      order; a part of a message is waited for, whatever its length.
    - Connections (StartupSpec.v): from the command line on, which peers a started
      node connects to, and that it never connects to one of them again.
    - Addresses: what a slot keeps; what a node learns of a peer's table, as a function
      of its own (DiscoverySync.v), and what it can not change; a ban lasts a day,
      whatever addresses are heard of, unless one takes its slot ([undisturbed],
      NetworkSpec.v); the choice of further peers.

    ** Fuel

    Loops that are not structural take fuel.  The wallet's loop ends after
    two passes, whatever the rate, unless the fee of the signed transaction is
    computed as zero, which takes a weight of 2^57 ([withdraw_spec]).  [grow_size]
    ends within 16 steps of its maximum ([grow_size_spec]).  The iterator of a
    table's difference needs at most |A|+|B|+2 steps ([reconcile_spec]); for other
    tables no fuel is enough ([peeling_diverges]).  The walk from the tip needs two
    steps more than the chain has headers ([wanted_at_start_spec]) unless it does
    not end ([stale_processed_diverges]); the walk back at start one more than the
    left branch is long; a pass over a queue of headers takes one header, so the
    length of the queue bounds the passes.  A receiver decodes at most one message
    more often than messages were sent ([drain_stream]).

    ** Not modelled

    Threads and locks (a call on the store runs to its end, as under its write lock;
    calls of different threads are interleaved as sequences of calls in Isolation.v;
    the poisoning of a lock by a panic), sockets, the futures executor and murmel's
    dispatcher, the HTTP server, how clap splits the command line, logging, files and
    directories, I/O errors of SQLite, the texts of the wallet's dialogue, and the
    feature bitcoinconsensus, which is off by default.  The text form of addresses ([NetAddress::to_string],
    [from_str]) is std's: a row of the address table holds the address that its text
    parses to. *)

From stdpp Require Export base tactics list numbers sorting vector gmap strings.
From Hammer Require Export Tactics.

(** ** Fallible computations

    A Rust function that returns [Result<T, E>] and may panic is a value of
    [res E T]: [Ok] and [Err] are the two constructors of [Result], [Panicked]
    is an unwinding panic with the kind of check that failed.  The [?] operator
    and the propagation of panics are both [mbind]. *)

Inductive panic : Type :=
  | AssertionFailed        (* assert!, assert_eq! *)
  | IndexOutOfBounds       (* a[i], slices *)
  | RemainderByZero        (* x % 0 *)
  | DivisionByZero         (* x / 0 *)
  | UnwrapOnNone           (* Option::unwrap / expect *)
  | UnwrapOnErr            (* Result::unwrap / expect *)
  | ExplicitPanic.         (* panic! *)

#[export] Instance panic_eq_dec : EqDecision panic.
Proof. solve_decision. Defined.

Inductive res (E A : Type) : Type :=
  | Ok (a : A)
  | Err (e : E)
  | Panicked (p : panic).

Arguments Ok {E A} a.
Arguments Err {E A} e.
Arguments Panicked {E A} p.

#[export] Instance res_eq_dec {E A} `{EqDecision E, EqDecision A} : EqDecision (res E A).
Proof. solve_decision. Defined.

#[export] Instance Ok_inj {E A} : Inj (=) (=) (@Ok E A).
Proof. by intros x y [= ->]. Qed.

#[export] Instance res_ret {E} : MRet (res E) := fun A a => Ok a.
#[export] Instance res_bind {E} : MBind (res E) := fun A B k m =>
  match m with
  | Ok a => k a
  | Err e => Err e
  | Panicked p => Panicked p
  end.
#[export] Instance res_fmap {E} : FMap (res E) := fun A B f m =>
  match m with
  | Ok a => Ok (f a)
  | Err e => Err e
  | Panicked p => Panicked p
  end.

(** [.unwrap()] and [.expect(..)] on a [Result], on an [Option], and [From]
    conversions of the error by the [?] operator. *)
Definition expect {E E' A} (m : res E A) : res E' A :=
  match m with
  | Ok a => Ok a
  | Err _ => Panicked UnwrapOnErr
  | Panicked p => Panicked p
  end.

Definition unwrap {E A} (m : option A) : res E A :=
  match m with
  | Some a => Ok a
  | None => Panicked UnwrapOnNone
  end.

(** [.unwrap()] of a [Result] whose error carries nothing the program looks at. *)
Definition unwrap_result {E A} (m : option A) : res E A :=
  match m with
  | Some a => Ok a
  | None => Panicked UnwrapOnErr
  end.

Definition map_err {E E' A} (f : E -> E') (m : res E A) : res E' A :=
  match m with
  | Ok a => Ok a
  | Err e => Err (f e)
  | Panicked p => Panicked p
  end.

Definition assert {E} (b : bool) : res E unit :=
  if b then Ok () else Panicked AssertionFailed.

(** [for x in l { body }] over a state that the body threads. *)
Fixpoint for_each {E S A} (l : list A) (body : S -> A -> res E S) (s : S) : res E S :=
  match l with
  | [] => Ok s
  | x :: l' => s' ← body s x; for_each l' body s'
  end.

(** [arr[i]] and [arr[i] = x] of a Rust array, vector or slice. *)
Definition index {E A} (l : list A) (i : nat) : res E A :=
  match l !! i with
  | Some a => Ok a
  | None => Panicked IndexOutOfBounds
  end.

Definition index_set {E A} (l : list A) (i : nat) (x : A) : res E (list A) :=
  match l !! i with
  | Some _ => Ok (<[i := x]> l)
  | None => Panicked IndexOutOfBounds
  end.

(** A call has panicked. *)
Definition is_panicked {E A} (m : res E A) : bool :=
  match m with Panicked _ => true | _ => false end.

(** ** Automation *)

Create HintDb defiads.
Create Rewrite HintDb defiads_rw.

(** Case analysis on the scrutinee of a match, a boolean test or a [decide] in
    the goal, with the equation recorded. *)
Ltac case_all :=
  repeat (case_match || case_decide || case_bool_decide); simplify_eq/=.

(** Invert equations between results of the monad. *)
Ltac res_inv :=
  repeat match goal with
  | H : (_ ≫= _) = _ |- _ => unfold mbind, res_bind in H
  | H : match ?m with Ok _ => _ | Err _ => _ | Panicked _ => _ end = _ |- _ =>
      destruct m eqn:?; simplify_eq/=
  end.

(** ** Lemmas on the monad *)

Section Monad.
Context {E : Type}.

Lemma bind_ok {A B} (a : A) (k : A -> res E B) : (Ok a ≫= k) = k a.
Proof. done. Qed.

Lemma bind_assoc {A B C} (m : res E A) (k : A -> res E B) (h : B -> res E C) :
  ((m ≫= k) ≫= h) = (m ≫= λ a, k a ≫= h).
Proof. by destruct m. Qed.

Lemma bind_ok_inv {A B} (m : res E A) (k : A -> res E B) b :
  (m ≫= k) = Ok b -> exists a, m = Ok a /\ k a = Ok b.
Proof. destruct m; naive_solver. Qed.

Lemma for_each_app {S A} (l1 l2 : list A) (body : S -> A -> res E S) s :
  for_each (l1 ++ l2) body s = (for_each l1 body s ≫= for_each l2 body).
Proof.
  revert s. induction l1 as [|x l1 IH]; intros s; simpl; [done|].
  destruct (body s x); simpl; auto.
Qed.

(** Two bodies that agree on the states a loop invariant allows run alike. *)
Lemma for_each_pure {S A} (P : S -> Prop) (l : list A)
    (body : S -> A -> res E S) (f : S -> A -> S) s :
  P s ->
  (forall s x, P s -> x ∈ l -> body s x = Ok (f s x) /\ P (f s x)) ->
  for_each l body s = Ok (foldl f s l) /\ P (foldl f s l).
Proof.
  revert s. induction l as [|x l IH]; intros s HP Hb; simpl; [done|].
  destruct (Hb s x HP) as [-> HP']; [apply list_elem_of_here|]. simpl.
  apply IH; [done|]. intros s' y Hs' Hy. apply Hb; [done|]. by apply list_elem_of_further.
Qed.

Lemma index_Some {A} (l : list A) i x : l !! i = Some x -> index (E:=E) l i = Ok x.
Proof. unfold index. by intros ->. Qed.

Lemma index_set_lt {A} (l : list A) i (x : A) :
  i < length l -> index_set (E:=E) l i x = Ok (<[i := x]> l).
Proof.
  intros Hi. unfold index_set. destruct (lookup_lt_is_Some_2 l i Hi) as [y ->]. done.
Qed.
End Monad.

#[export] Hint Rewrite @bind_ok @bind_assoc : defiads_rw.
#[export] Hint Resolve index_Some index_set_lt : defiads.

(** ** Lemmas on lists *)

Lemma permutation_cons_of_elem {A} `{EqDecision A} (x : A) (l : list A) :
  x ∈ l -> exists l', l ≡ₚ x :: l'.
Proof.
  intros (l1 & l2 & ->)%list_elem_of_split. exists (l1 ++ l2).
  by rewrite Permutation_middle.
Qed.

(** The numbers [0 .. n-1] with the elements of a list: [iter().enumerate()]. *)
Definition enumerate {A} (l : list A) : list (nat * A) := imap pair l.

Lemma lookup_enumerate {A} (l : list A) i : enumerate l !! i = pair i <$> l !! i.
Proof. unfold enumerate. by rewrite list_lookup_imap. Qed.

Lemma elem_of_enumerate {A} (l : list A) i x : (i, x) ∈ enumerate l <-> l !! i = Some x.
Proof.
  rewrite list_elem_of_lookup. setoid_rewrite lookup_enumerate. split.
  - intros (j & Hj). destruct (l !! j) eqn:?; naive_solver.
  - intros Hi. exists i. by rewrite Hi.
Qed.

Lemma filter_ext_elem {A} (P Q : A -> Prop) `{forall x, Decision (P x), forall x, Decision (Q x)}
    (l : list A) :
  (forall x, x ∈ l -> P x <-> Q x) -> filter P l = filter Q l.
Proof.
  induction l as [|x l IH]; intros HPQ; [done|]. rewrite !filter_cons.
  rewrite (decide_ext (P x) (Q x)) by (apply HPQ, list_elem_of_here).
  rewrite IH; [done|]. intros y Hy. apply HPQ. by apply list_elem_of_further.
Qed.

Lemma filter_eq_singleton {A} `{EqDecision A} (x : A) (l : list A) :
  NoDup l -> x ∈ l -> filter (λ y, y = x) l = [x].
Proof.
  intros Hnd Hx. apply list_elem_of_split in Hx as (l1 & l2 & ->).
  apply NoDup_app in Hnd as (_ & Hd & Hnd). apply NoDup_cons in Hnd as [Hx2 _].
  assert (forall l, x ∉ l -> filter (λ y, y = x) l = []) as Hnil.
  { intros l Hl. apply elem_of_nil_inv. intros y [-> Hy]%list_elem_of_filter. done. }
  rewrite filter_app, filter_cons_True by done.
  rewrite (Hnil l1), (Hnil l2); [done|done|]. intros Hx1. apply (Hd x Hx1). set_solver.
Qed.

Lemma fst_enumerate {A} (l : list A) : fst <$> enumerate l = seq 0 (length l).
Proof.
  apply list_eq. intros i. rewrite list_lookup_fmap, lookup_enumerate.
  destruct (l !! i) as [x|] eqn:Hi; simpl.
  - apply lookup_lt_Some in Hi. by rewrite lookup_seq_lt.
  - apply lookup_ge_None in Hi. by rewrite lookup_seq_ge.
Qed.

Lemma NoDup_fst_filter_enumerate {A} (P : nat * A -> Prop) `{forall x, Decision (P x)} (l : list A) :
  NoDup (fst <$> filter P (enumerate l)).
Proof.
  eapply sublist_NoDup; [apply (NoDup_seq 0 (length l))|].
  rewrite <- fst_enumerate. apply fmap_sublist, sublist_filter.
Qed.

Lemma NoDup_singleton_eq {A} (x : A) (l : list A) :
  NoDup l -> (forall y, y ∈ l <-> y = x) -> l = [x].
Proof.
  intros Hnd Hl. apply Permutation_singleton_r, NoDup_Permutation; [done|apply NoDup_singleton|].
  intros y. rewrite list_elem_of_singleton. apply Hl.
Qed.

Lemma filter_all {A} (P : A -> Prop) `{forall x, Decision (P x)} (l : list A) :
  (forall x, x ∈ l -> P x) -> filter P l = l.
Proof.
  induction l as [|x l IH]; intros HP; [done|]. rewrite filter_cons_True by (apply HP, list_elem_of_here).
  f_equal. apply IH. intros y Hy. apply HP. by apply list_elem_of_further.
Qed.

Lemma filter_none {A} (P : A -> Prop) `{forall x, Decision (P x)} (l : list A) :
  (forall x, x ∈ l -> ~ P x) -> filter P l = [].
Proof.
  induction l as [|x l IH]; intros HP; [done|]. rewrite filter_cons_False by (apply HP, list_elem_of_here).
  apply IH. intros y Hy. apply HP. by apply list_elem_of_further.
Qed.

(** A loop that pushes what a call answers for each element. *)
Lemma for_each_collect {E A B} (f : A -> res E B) (g : A -> B) (l : list A) (acc : list B) :
  (forall x, x ∈ l -> f x = Ok (g x)) ->
  for_each l (λ acc x, y ← f x; Ok (acc ++ [y])) acc = Ok (acc ++ (g <$> l)).
Proof.
  revert acc. induction l as [|x l IH]; intros acc Hf; [by rewrite app_nil_r|]. cbn [for_each].
  rewrite (Hf x) by apply list_elem_of_here. cbn [mbind res_bind].
  rewrite IH by (intros y Hy; apply Hf; by apply list_elem_of_further).
  by rewrite fmap_cons, <- (assoc_L (++)).
Qed.
