(* ===== verification/Machine.v ===== *)
(** * Machine integers, byte orders and single-precision floats

    The integers of the program are [Z] with the wrap-around of the release
    build written out ([cargo build --release] leaves overflow checks off);
    [usize] values that index vectors are [nat].  [f32] is the IEEE 754 binary32
    format of the Standard Library's [SpecFloat]. *)

From S2P Require Import Prelude.
From Stdlib Require Import SpecFloat.
#[local] Open Scope Z_scope.
#[local] Ltac Zify.zify_post_hook ::= Z.to_euclidean_division_equations.

(** ** Wrapping conversions, the [as] casts and the release-mode arithmetic *)

Definition u8 (z : Z) : Z := z mod 2 ^ 8.
Definition u16 (z : Z) : Z := z mod 2 ^ 16.
Definition u32 (z : Z) : Z := z mod 2 ^ 32.
Definition u64 (z : Z) : Z := z mod 2 ^ 64.
Definition i32 (z : Z) : Z := (z + 2 ^ 31) mod 2 ^ 32 - 2 ^ 31.
Definition i64 (z : Z) : Z := (z + 2 ^ 63) mod 2 ^ 64 - 2 ^ 63.

(** [i32::abs], which wraps at [i32::MIN] in a release build. *)
Definition i32_abs (z : Z) : Z := i32 (Z.abs z).

Definition is_u8 (z : Z) : Prop := 0 <= z < 2 ^ 8.
Definition is_u16 (z : Z) : Prop := 0 <= z < 2 ^ 16.
Definition is_u32 (z : Z) : Prop := 0 <= z < 2 ^ 32.
Definition is_u64 (z : Z) : Prop := 0 <= z < 2 ^ 64.
Definition is_i32 (z : Z) : Prop := - 2 ^ 31 <= z < 2 ^ 31.

(** ** Byte orders (the byteorder crate's [write_u16] and [write_u64]) *)

Definition le_bytes16 (z : Z) : list Z := [z mod 256; (z / 256) mod 256].
Definition be_bytes64 (z : Z) : list Z :=
  (λ s, Z.land (Z.shiftr z s) 255) <$> [56; 48; 40; 32; 24; 16; 8; 0].
Definition le_u16 (b0 b1 : Z) : Z := b0 + 256 * b1.

(** ** [f32] *)

Definition f32 : Type := spec_float.
Definition f32_of_Z (z : Z) : f32 := binary_normalize 24 128 z 0 false.
Definition f32_add : f32 -> f32 -> f32 := SFadd 24 128.
Definition f32_sub : f32 -> f32 -> f32 := SFsub 24 128.
Definition f32_mul : f32 -> f32 -> f32 := SFmul 24 128.
Definition f32_div : f32 -> f32 -> f32 := SFdiv 24 128.

(** [x as u32]: round towards zero, saturate, NaN is 0. *)
Definition f32_to_u32 (x : f32) : Z :=
  match x with
  | S754_zero _ => 0
  | S754_nan => 0
  | S754_infinity s => if s then 0 else 2 ^ 32 - 1
  | S754_finite s m e =>
      if s then 0 else Z.min (2 ^ 32 - 1) (Z.shiftl (Zpos m) e)
  end.

(** ** Lemmas *)

Lemma u8_range z : is_u8 (u8 z).
Proof. unfold is_u8, u8. lia. Qed.
Lemma u16_range z : is_u16 (u16 z).
Proof. unfold is_u16, u16. lia. Qed.
Lemma u32_range z : is_u32 (u32 z).
Proof. unfold is_u32, u32. lia. Qed.
Lemma u64_range z : is_u64 (u64 z).
Proof. unfold is_u64, u64. lia. Qed.
Lemma i32_range z : is_i32 (i32 z).
Proof. unfold is_i32, i32. lia. Qed.

Lemma u16_small z : is_u16 z -> u16 z = z.
Proof. unfold is_u16, u16. lia. Qed.
Lemma u32_small z : is_u32 z -> u32 z = z.
Proof. unfold is_u32, u32. lia. Qed.
Lemma u64_small z : is_u64 z -> u64 z = z.
Proof. unfold is_u64, u64. lia. Qed.
Lemma i32_small z : is_i32 z -> i32 z = z.
Proof. unfold is_i32, i32. lia. Qed.

#[export] Hint Resolve u8_range u16_range u32_range u64_range i32_range : defiads.
#[export] Hint Resolve u16_small u32_small u64_small i32_small : defiads.

Lemma i32_add_l a b : i32 (i32 a + b) = i32 (a + b).
Proof. unfold i32. lia. Qed.
Lemma i32_add_r a b : i32 (a + i32 b) = i32 (a + b).
Proof. unfold i32. lia. Qed.
Lemma i32_opp z : i32 (- i32 z) = i32 (- z).
Proof. unfold i32. lia. Qed.

Lemma i32_abs_1 z : is_i32 z -> i32_abs z = 1 <-> z = 1 \/ z = -1.
Proof. unfold is_i32, i32_abs, i32. lia. Qed.

(** A 16-bit value survives a trip through its two little-endian bytes. *)
Lemma le_u16_bytes z : is_u16 z -> le_u16 (z mod 256) ((z / 256) mod 256) = z.
Proof. unfold is_u16, le_u16. lia. Qed.

Lemma le_bytes16_u8 z : Forall is_u8 (le_bytes16 z).
Proof. unfold le_bytes16, is_u8. repeat constructor; lia. Qed.
