(* ===== verification/IbltTable.v ===== *)
(** * Invertible Bloom lookup tables: data and operations (src/iblt.rs)

    The tables, the bucket iterator that names the cells of a key, insertion,
    deletion, subtraction of tables, and the destructive iterator that peels
    entries off a table.  The theorems are in IbltAlgebra.v and IbltPeel.v. *)

From S2P Require Import Prelude Machine.
#[local] Open Scope Z_scope.

(** ** Interfaces *)

(** The siphasher crate: a [SipHasher::new_with_keys(k0, k1)] that is fed the
    given chunks, one [write] each, and then finished. *)
Class SipHasher : Type := sip_hash : Z -> Z -> list (list Z) -> Z.

(** The trait [IBLTKey]: a key is equality-comparable, has a default, a
    [^=] and a keyed 64-bit hash. *)
Class IBLTKey (K : Type) : Type := {
  key_eq_dec :: EqDecision K;
  key_default : K;
  key_xor : K -> K -> K;
  hash_to_u64_with_keys : Z -> Z -> K -> Z
}.

(** What a table asks of its keys: [^=] makes them a group of exponent two
    whose neutral element is [Default::default()]. *)
Class IBLTKeyLaws (K : Type) `{IBLTKey K} : Prop := {
  key_xor_comm : forall x y, key_xor x y = key_xor y x;
  key_xor_assoc : forall x y z, key_xor (key_xor x y) z = key_xor x (key_xor y z);
  key_xor_default : forall x, key_xor key_default x = x;
  key_xor_self : forall x, key_xor x x = key_default
}.

(** ** Data *)

Definition K_MAX : nat := 6.

Record Bucket (K : Type) : Type := mkBucket { keysum : K; hashsum : Z; count : Z }.
Arguments mkBucket {K} keysum hashsum count.
Arguments keysum {K} _.
Arguments hashsum {K} _.
Arguments count {K} _.

Record IBLT (K : Type) : Type := mkIBLT {
  buckets : list (Bucket K);
  k0 : Z;
  k1 : Z;
  k : nat;
  ksequence : list (Z * Z)
}.
Arguments mkIBLT {K} buckets k0 k1 k ksequence.
Arguments buckets {K} _.
Arguments k0 {K} _.
Arguments k1 {K} _.
Arguments k {K} _.
Arguments ksequence {K} _.

#[export] Instance Bucket_eq_dec {K} `{EqDecision K} : EqDecision (Bucket K).
Proof. solve_decision. Defined.
#[export] Instance IBLT_eq_dec {K} `{EqDecision K} : EqDecision (IBLT K).
Proof. solve_decision. Defined.

Definition set_buckets {K} (t : IBLT K) (bs : list (Bucket K)) : IBLT K :=
  mkIBLT bs (k0 t) (k1 t) (k t) (ksequence t).

(** [#[derive(Default)]] of a bucket. *)
Definition Bucket_default {K} `{IBLTKey K} : Bucket K := mkBucket key_default 0 0.

(** Items of the table iterator. *)
Inductive IBLTEntry (K : Type) : Type :=
  | Inserted (key : K)
  | Deleted (key : K).
Arguments Inserted {K} key.
Arguments Deleted {K} key.

Inductive IBLTError : Type := IncompleteIteration.

#[export] Instance IBLTEntry_eq_dec {K} `{EqDecision K} : EqDecision (IBLTEntry K).
Proof. solve_decision. Defined.
#[export] Instance IBLTError_eq_dec : EqDecision IBLTError.
Proof. solve_decision. Defined.

(** ** Hash functions of a table *)

Section Hashing.
Context `{SipHasher}.

Definition hash_slice_to_u64_with_keys (k0 k1 : Z) (s : list Z) : Z :=
  sip_hash k0 k1 [s].

Fixpoint generate_ksequence (k : nat) (k0 k1 : Z) : list (Z * Z) :=
  match k with
  | O => []
  | S k' =>
      let k0 := hash_slice_to_u64_with_keys k0 k1 (be_bytes64 k0) in
      let k1 := hash_slice_to_u64_with_keys k0 k1 (be_bytes64 k1) in
      (k0, k1) :: generate_ksequence k' k0 k1
  end.
End Hashing.

(** ** [BucketIterator]: the distinct cells of a key, in increasing order *)

Module BucketIterator.
Record t : Type := mk { cells : list nat; pos : nat; last : nat; k : nat }.

Section Ops.
Context {K : Type} `{IBLTKey K} {E : Type}.

Definition new (iblt : IBLT K) (key : K) : res E t :=
  let len := length (IbltTable.buckets iblt) in
  buckets ← for_each (enumerate (ksequence iblt)) (λ buckets '(i, (k0, k1)),
    cell ← (if decide (len = O) then Panicked RemainderByZero
            else Ok (Z.to_nat (hash_to_u64_with_keys k0 k1 key mod Z.of_nat len)));
    index_set buckets i cell) (replicate K_MAX O);
  let k := length (ksequence iblt) in
  Ok (mk (merge_sort Nat.le (take k buckets) ++ drop k buckets) 0 0 k).
End Ops.

(** The inner [while]: skip the copies of [last]; [fuel] bounds [k - pos]. *)
Fixpoint skip_copies (fuel : nat) (cells : list nat) (k last pos : nat) : nat :=
  match fuel with
  | O => pos
  | S fuel =>
      if decide (pos < k)%nat then
        match cells !! pos with
        | Some c => if decide (last = c) then skip_copies fuel cells k last (S pos) else pos
        | None => pos
        end
      else pos
  end.

Definition next (it : t) : option nat * t :=
  let pos := if decide (0 < pos it)%nat
             then skip_copies (k it) (cells it) (k it) (last it) (pos it)
             else pos it in
  if decide (pos = k it) then (None, mk (cells it) pos (last it) (k it))
  else
    let last := default O (cells it !! pos) in
    (Some last, mk (cells it) (S pos) last (k it)).

(** The items of the iterator; [fuel] bounds their number. *)
Fixpoint collect (fuel : nat) (it : t) : list nat :=
  match fuel with
  | O => []
  | S fuel =>
      match next it with
      | (None, _) => []
      | (Some n, it') => n :: collect fuel it'
      end
  end.

(** A [for] loop over the iterator: at most [k] items. *)
Definition items (it : t) : list nat := collect (S (k it)) it.
End BucketIterator.

(** ** [impl IBLT] *)

Module Iblt.
Section Ops.
Context `{SipHasher} {K : Type} `{IBLTKey K} {E : Type}.

Definition new (m : Z) (k : nat) (k0 k1 : Z) : res E (IBLT K) :=
  _ ← assert (bool_decide (k <= K_MAX)%nat);
  Ok (mkIBLT (replicate (Z.to_nat m) Bucket_default) k0 k1 k
             (generate_ksequence k k0 k1)).

Definition len (t : IBLT K) : Z := u32 (Z.of_nat (length (buckets t))).

Definition keyhash (t : IBLT K) (key : K) : Z :=
  hash_to_u64_with_keys (k0 t) (k1 t) key.

(** [let ref mut bucket = self.buckets[n]; ..] *)
Definition modify_bucket (f : Bucket K -> Bucket K) (t : IBLT K) (n : nat) : res E (IBLT K) :=
  b ← index (buckets t) n;
  Ok (set_buckets t (<[n := f b]> (buckets t))).

Definition insert (t : IBLT K) (key : K) : res E (IBLT K) :=
  let keyhash := keyhash t key in
  it ← BucketIterator.new t key;
  for_each (BucketIterator.items it) (modify_bucket (λ bucket,
    mkBucket (key_xor (keysum bucket) key)
             (Z.lxor (hashsum bucket) keyhash)
             (i32 (count bucket + 1)))) t.

Definition delete (t : IBLT K) (key : K) : res E (IBLT K) :=
  let keyhash := keyhash t key in
  it ← BucketIterator.new t key;
  for_each (BucketIterator.items it) (modify_bucket (λ bucket,
    mkBucket (key_xor (keysum bucket) key)
             (Z.lxor (hashsum bucket) keyhash)
             (i32 (count bucket - 1)))) t.

Definition substract_bucket (b ob : Bucket K) : Bucket K :=
  mkBucket (key_xor (keysum b) (keysum ob))
           (Z.lxor (hashsum b) (hashsum ob))
           (i32 (count b - count ob)).

Definition substract (t other : IBLT K) : res E (IBLT K) :=
  _ ← assert (bool_decide (length (buckets t) = length (buckets other)));
  _ ← assert (bool_decide (k0 t = k0 other));
  _ ← assert (bool_decide (k1 t = k1 other));
  _ ← assert (bool_decide (k t = k other));
  for_each (enumerate (buckets t)) (λ t '(i, b),
    ob ← index (buckets other) i;
    Ok (set_buckets t (<[i := substract_bucket b ob]> (buckets t)))) t.
End Ops.
End Iblt.

(** ** [IBLTIterator]: peeling *)

Module IBLTIterator.
Record t (K : Type) : Type := mk { iblt : IBLT K; queue : list nat; incomplete : bool }.
Arguments mk {K} iblt queue incomplete.
Arguments iblt {K} _.
Arguments queue {K} _.
Arguments incomplete {K} _.

Section Ops.
Context {K : Type} `{IBLTKey K} {E : Type}.

Definition is_pure (t : IBLT K) (bucket : Bucket K) : bool :=
  bool_decide (i32_abs (count bucket) = 1) &&
  bool_decide (hashsum bucket = Iblt.keyhash t (keysum bucket)).

Definition new (iblt : IBLT K) : t K :=
  mk iblt (fst <$> filter (λ '(_, bucket), is_pure iblt bucket = true)
                          (enumerate (buckets iblt))) false.

(** [while let Some(i) = self.queue.pop_front()] up to the first cell whose
    count is still 1 or -1; what is left of the queue comes with it. *)
Fixpoint pop_cell (iblt : IBLT K) (queue : list nat) : res E (option (Bucket K * list nat)) :=
  match queue with
  | [] => Ok None
  | i :: queue =>
      b ← index (buckets iblt) i;
      if decide (i32_abs (count b) = 1) then Ok (Some (b, queue))
      else pop_cell iblt queue
  end.

(** The body of [for n in self.iblt.buckets(&key)]. *)
Definition peel_cell (key : K) (keyhash c : Z) (it : t K) (n : nat) : res E (t K) :=
  b ← index (buckets (iblt it)) n;
  let bucket := mkBucket (key_xor (keysum b) key)
                         (Z.lxor (hashsum b) keyhash)
                         (i32 (count b - c)) in
  let iblt := set_buckets (iblt it) (<[n := bucket]> (buckets (iblt it))) in
  let queue := if is_pure iblt bucket then queue it ++ [n] else queue it in
  Ok (mk iblt queue (incomplete it)).

Definition next (it : t K) : res E (option (IBLTEntry K + IBLTError) * t K) :=
  if incomplete it then Ok (None, it)
  else
    popped ← pop_cell (iblt it) (queue it);
    match popped with
    | Some (bucket, queue) =>
        let c := count bucket in
        let key := keysum bucket in
        let keyhash := Iblt.keyhash (iblt it) key in
        cells ← BucketIterator.new (iblt it) key;
        it' ← for_each (BucketIterator.items cells) (peel_cell key keyhash c)
                       (mk (iblt it) queue (incomplete it));
        Ok (Some (inl (if decide (c = 1) then Inserted key else Deleted key)), it')
    | None =>
        let it := mk (iblt it) [] (incomplete it) in
        if forallb (λ bucket, bool_decide (count bucket = 0)) (buckets (iblt it))
        then Ok (None, it)
        else Ok (Some (inr IncompleteIteration), mk (iblt it) [] true)
    end.

(** Repeated calls of [next], as a [for] loop makes them, until it answers
    [None]; [None] of the result when the fuel runs out first. *)
Fixpoint run (fuel : nat) (it : t K) : res E (option (list (IBLTEntry K + IBLTError))) :=
  match fuel with
  | O => Ok None
  | S fuel =>
      '(item, it') ← next it;
      match item with
      | None => Ok (Some [])
      | Some x => rest ← run fuel it'; Ok (option_map (cons x) rest)
      end
  end.

(** [fuel] successive calls of [next], the items in order. *)
Fixpoint nexts (fuel : nat) (it : t K) : res E (list (option (IBLTEntry K + IBLTError)) * t K) :=
  match fuel with
  | O => Ok ([], it)
  | S fuel =>
      '(item, it') ← next it;
      '(items, it'') ← nexts fuel it';
      Ok (item :: items, it'')
  end.
End Ops.
End IBLTIterator.
