(* ===== verification/IbltCells.v ===== *)
(** * The cells of a key

    The bucket iterator of src/iblt.rs fills a fixed array, sorts a prefix of it
    and skips equal neighbours.  Here it is shown to enumerate, in increasing
    order and without repetition, the set of cells that the hash functions of
    the table name, for every table a node can build; the algebra of tables
    in IbltAlgebra.v is stated with that reference list. *)

From S2P Require Import Prelude Machine IbltTable.

(** ** Parameters of a table: what the operations never change *)

Record params : Type := mkParams {
  p_k0 : Z; p_k1 : Z; p_k : nat; p_ks : list (Z * Z); p_len : nat
}.

Definition params_of {K} (t : IBLT K) : params :=
  mkParams (k0 t) (k1 t) (k t) (ksequence t) (length (buckets t)).

(** The array of the iterator holds at most [K_MAX] cells and the remainder needs
    a bucket; [wf_params] is what [IBLT::new] establishes for [m > 0]. *)
Definition wf_params (p : params) : Prop :=
  length (p_ks p) <= K_MAX /\ p_len p <> 0.

#[export] Instance wf_params_dec p : Decision (wf_params p).
Proof. unfold wf_params. apply _. Defined.

Section Cells.
Context {K : Type} `{IBLTKey K}.

Definition cell_of (p : params) (key : K) (kk : Z * Z) : nat :=
  Z.to_nat (hash_to_u64_with_keys (fst kk) (snd kk) key mod Z.of_nat (p_len p)).

(** The reference: the distinct cells of the key, sorted. *)
Definition key_cells (p : params) (key : K) : list nat :=
  merge_sort Nat.le (remove_dups (cell_of p key <$> p_ks p)).

Definition p_keyhash (p : params) (key : K) : Z :=
  hash_to_u64_with_keys (p_k0 p) (p_k1 p) key.

Lemma elem_of_key_cells p key n :
  n ∈ key_cells p key <-> exists kk, kk ∈ p_ks p /\ cell_of p key kk = n.
Proof.
  unfold key_cells. rewrite merge_sort_Permutation, elem_of_remove_dups, list_elem_of_fmap.
  naive_solver.
Qed.

Lemma NoDup_key_cells p key : NoDup (key_cells p key).
Proof. unfold key_cells. rewrite merge_sort_Permutation. apply NoDup_remove_dups. Qed.

Lemma key_cells_lt p key n : p_len p <> 0 -> n ∈ key_cells p key -> n < p_len p.
Proof.
  intros Hp (kk & _ & <-)%elem_of_key_cells. unfold cell_of.
  pose proof (Z.mod_pos_bound (hash_to_u64_with_keys kk.1 kk.2 key) (Z.of_nat (p_len p))).
  lia.
Qed.

Lemma key_cells_nonempty p key : p_ks p <> [] -> exists n, n ∈ key_cells p key.
Proof.
  destruct (p_ks p) as [|kk ks] eqn:Hks; [done|]. intros _.
  exists (cell_of p key kk). apply elem_of_key_cells. exists kk. rewrite Hks. set_solver.
Qed.
End Cells.

(** ** Skipping equal neighbours *)

Fixpoint dedup_from (o : option nat) (l : list nat) : list nat :=
  match l with
  | [] => []
  | x :: l => if decide (o = Some x) then dedup_from o l else x :: dedup_from (Some x) l
  end.

Lemma dedup_from_length o l : length (dedup_from o l) <= length l.
Proof. revert o. induction l as [|x l IH]; intros o; simpl; [done|]. case_decide; simpl; [etrans; [apply IH|lia]|]. pose proof (IH (Some x)). lia. Qed.

Lemma elem_of_dedup_from o l n : n ∈ dedup_from o l -> n ∈ l.
Proof. revert o. induction l as [|x l IH]; intros o; simpl; [done|]. case_decide; set_solver. Qed.

Lemma dedup_from_elem_of o l n : n ∈ l -> n ∈ dedup_from o l \/ o = Some n.
Proof.
  revert o. induction l as [|x l IH]; intros o; [set_solver|]. simpl.
  rewrite elem_of_cons. intros [-> | Hn]; case_decide; subst.
  - by right.
  - left. set_solver.
  - by apply IH.
  - destruct (IH (Some x) Hn) as [? | [= ->]]; set_solver.
Qed.

(** On a sorted list what remains is strictly increasing and above the start. *)
Lemma dedup_from_sorted l :
  StronglySorted Nat.le l ->
  forall o, (forall y, o = Some y -> Forall (Nat.le y) l) ->
  StronglySorted lt (dedup_from o l) /\
  (forall y, o = Some y -> Forall (lt y) (dedup_from o l)).
Proof.
  induction 1 as [|x l Hl IH Hx]; intros o Ho; simpl; [by split; [constructor|]|].
  case_decide as Hox.
  - apply IH. intros y Hy. specialize (Ho y Hy). by apply Forall_cons in Ho as [_ ?].
  - destruct (IH (Some x)) as [Hs Hlt]; [by intros y [= <-]|].
    specialize (Hlt x eq_refl). split; [by constructor|].
    intros y Hy. specialize (Ho y Hy). apply Forall_cons in Ho as [Hyx _].
    assert (y < x) as Hlt' by (destruct (decide (y = x)); [congruence|unfold Nat.le in *; lia]).
    constructor; [done|]. eapply Forall_impl; [exact Hlt|]. simpl. lia.
Qed.

Lemma strictly_sorted_NoDup l : StronglySorted lt l -> NoDup l.
Proof.
  induction 1 as [|x l _ IH Hx]; constructor; [|done].
  intros Hin. rewrite Forall_forall in Hx. specialize (Hx x Hin). lia.
Qed.

Lemma StronglySorted_impl {A} (R S : A -> A -> Prop) l :
  (forall x y, R x y -> S x y) -> StronglySorted R l -> StronglySorted S l.
Proof. intros HRS. induction 1; constructor; [done|]. eapply Forall_impl; eauto. Qed.

(** ** The iterator against the reference *)

Section IteratorSpec.
Context {E : Type}.

(** What [skip_copies] consumes is what [dedup_from] drops. *)
Lemma skip_copies_spec fuel l junk lst pos :
  length l - pos <= fuel -> pos <= length l ->
  let pos' := BucketIterator.skip_copies fuel (l ++ junk) (length l) lst pos in
  pos' <= length l /\ pos <= pos' /\
  dedup_from (Some lst) (drop pos l) = dedup_from (Some lst) (drop pos' l) /\
  (forall x, l !! pos' = Some x -> lst <> x).
Proof.
  revert pos. induction fuel as [|fuel IH]; intros pos Hf Hp; simpl.
  - repeat split; [lia..|]. intros x Hx%lookup_lt_Some. lia.
  - case_decide as Hlt; [|repeat split; [lia..|]; intros x Hx%lookup_lt_Some; lia].
    rewrite lookup_app_l by done.
    destruct (lookup_lt_is_Some_2 l pos Hlt) as [c Hc]. rewrite Hc.
    case_decide as Heq; [subst c|repeat split; [lia..|naive_solver]].
    destruct (IH (S pos)) as (H1 & H2 & H3 & H4); [lia..|].
    repeat split; [done|lia| |done].
    rewrite <- H3. rewrite (drop_S _ _ _ Hc). simpl. by rewrite decide_True.
Qed.

(** Each [next] yields the head of what is left after skipping. *)
Lemma collect_spec fuel l junk lst pos :
  length l - pos < fuel -> pos <= length l ->
  BucketIterator.collect fuel (BucketIterator.mk (l ++ junk) pos lst (length l)) =
  dedup_from (if decide (0 < pos) then Some lst else None) (drop pos l).
Proof.
  revert lst pos. induction fuel as [|fuel IH]; intros lst pos Hf Hp; [lia|].
  simpl. unfold BucketIterator.next. simpl.
  set (o := if decide (0 < pos) then Some lst else None).
  set (pos' := if decide (0 < pos) then _ else pos).
  assert (pos' <= length l /\ pos <= pos' /\
    dedup_from o (drop pos l) = dedup_from o (drop pos' l) /\
    (forall x, l !! pos' = Some x -> o <> Some x)) as (H1 & H2 & -> & H4).
  { subst o pos'. case_decide; [|naive_solver].
    destruct (skip_copies_spec (length l) l junk lst pos) as (? & ? & ? & Hne); [lia..|].
    repeat split; [done..|]. intros x Hx [= ->]. by eapply Hne. }
  clearbody o pos'. case_decide as Hpos.
  - subst. by rewrite drop_ge.
  - rewrite lookup_app_l by lia.
    destruct (lookup_lt_is_Some_2 l pos') as [c Hc]; [lia|]. rewrite Hc. simpl.
    rewrite IH by lia. rewrite (drop_S _ _ _ Hc). simpl.
    rewrite (decide_False (P := o = Some c)) by eauto. done.
Qed.

Context {K : Type} `{IBLTKey K}.

(** The loop that fills the array. *)
Lemma fill_cells_spec (t : IBLT K) key ks pre m :
  length ks <= m -> length (buckets t) <> 0 ->
  for_each (E:=E) (imap (λ i x, (length pre + i, x)) ks) (λ buckets '(i, (k0, k1)),
      cell ← (if decide (length (IbltTable.buckets t) = O) then Panicked RemainderByZero
              else Ok (Z.to_nat (hash_to_u64_with_keys k0 k1 key
                                   mod Z.of_nat (length (IbltTable.buckets t)))));
      index_set buckets i cell) (pre ++ replicate m 0) =
  Ok (pre ++ (cell_of (params_of t) key <$> ks) ++ replicate (m - length ks) 0).
Proof.
  revert pre m. induction ks as [|[a b] ks IH]; intros pre m Hm Hl; simpl.
  { by rewrite Nat.sub_0_r. }
  destruct m as [|m]; simpl in Hm; [lia|].
  rewrite decide_False by done. simpl. rewrite Nat.add_0_r.
  rewrite index_set_lt by (rewrite length_app; simpl; lia).
  rewrite insert_app_r_alt, Nat.sub_diag by lia. simpl.
  replace (pre ++ _ :: replicate m 0) with
    ((pre ++ [cell_of (params_of t) key (a, b)]) ++ replicate m 0)
    by (rewrite <- app_assoc; done).
  etrans; [|rewrite (cons_middle _ pre), app_assoc; apply IH; [lia|done]].
  f_equal. apply imap_ext. intros i x _. simpl. rewrite length_app. simpl. f_equal. lia.
Qed.

Lemma key_cells_sorted (p : params) (key : K) : StronglySorted lt (key_cells p key).
Proof.
  assert (StronglySorted Nat.le (key_cells p key)) as Hs.
  { apply (StronglySorted_merge_sort Nat.le). }
  pose proof (NoDup_key_cells p key) as Hnd.
  induction Hs as [|x l Hl IH Hx]; constructor; [by apply IH; inversion Hnd|].
  apply NoDup_cons in Hnd as [Hnx _].
  rewrite Forall_forall in Hx |- *. intros y Hy. specialize (Hx y Hy).
  assert (x <> y) by congruence. unfold Nat.le in *. lia.
Qed.

(** The iterator answers, and its items are the reference list. *)
Lemma bucket_items (t : IBLT K) (key : K) :
  wf_params (params_of t) ->
  exists it, BucketIterator.new (E:=E) t key = Ok it /\
             BucketIterator.items it = key_cells (params_of t) key.
Proof.
  intros [Hk Hl]. unfold BucketIterator.new.
  pose proof (fill_cells_spec t key (ksequence t) [] K_MAX Hk Hl) as Hfill.
  cbn [app length] in Hfill. unfold enumerate. setoid_rewrite Hfill. simpl.
  eexists. split; [done|]. unfold BucketIterator.items. cbn [BucketIterator.k].
  set (l := cell_of (params_of t) key <$> ksequence t).
  assert (length (ksequence t) = length l) as Hlen by (unfold l; by rewrite length_fmap).
  rewrite Hlen, take_app_length.
  set (srt := merge_sort Nat.le l).
  assert (length l = length srt) as -> by (unfold srt; by rewrite merge_sort_Permutation).
  rewrite collect_spec by lia. simpl. rewrite drop_0.
  assert (StronglySorted Nat.le srt) as Hsrt by apply (StronglySorted_merge_sort Nat.le).
  destruct (dedup_from_sorted srt Hsrt None) as [Hss _]; [done|].
  apply (StronglySorted_unique Nat.le).
  1: eapply StronglySorted_impl; [|exact Hss]; unfold Nat.le; lia.
  1: eapply StronglySorted_impl; [|apply key_cells_sorted]; unfold Nat.le; lia.
  apply NoDup_Permutation; [by apply strictly_sorted_NoDup|apply NoDup_key_cells|].
  intros n. rewrite elem_of_key_cells.
  transitivity (n ∈ l); [|unfold l; rewrite list_elem_of_fmap; naive_solver].
  split.
  - intros Hn%elem_of_dedup_from. unfold srt in Hn. by rewrite merge_sort_Permutation in Hn.
  - intros Hn. destruct (dedup_from_elem_of None srt n) as [|]; [|done..].
    unfold srt. by rewrite merge_sort_Permutation.
Qed.
End IteratorSpec.
