(* ===== verification/IbltAlgebra.v ===== *)
(** * The algebra of tables

    A table is the sum, cell by cell, of a list of signed entries.  [represents]
    is that abstraction; [insert], [delete] and [substract] of src/iblt.rs are
    refined by consing and appending entries.  Buckets form a commutative group
    (counts modulo 2^32), so tables do not see the order of operations, and
    opposite entries cancel. *)

From S2P Require Import Prelude Machine IbltTable IbltCells.
#[local] Open Scope Z_scope.

Section Algebra.
Context {K : Type} `{!IBLTKey K}.

(** ** Entries *)

Definition entry_key (e : IBLTEntry K) : K :=
  match e with Inserted key | Deleted key => key end.
Definition entry_sign (e : IBLTEntry K) : Z :=
  match e with Inserted _ => 1 | Deleted _ => -1 end.
Definition entry_inv (e : IBLTEntry K) : IBLTEntry K :=
  match e with Inserted key => Deleted key | Deleted key => Inserted key end.

(** ** Buckets as a group *)

Definition bucket_add (a b : Bucket K) : Bucket K :=
  mkBucket (key_xor (keysum a) (keysum b)) (Z.lxor (hashsum a) (hashsum b))
           (i32 (count a + count b)).
Definition bucket_inv (a : Bucket K) : Bucket K :=
  mkBucket (keysum a) (hashsum a) (i32 (- count a)).
Definition bucket_of (p : params) (e : IBLTEntry K) : Bucket K :=
  mkBucket (entry_key e) (p_keyhash p (entry_key e)) (entry_sign e).

(** The entries that fall into a cell, and their sum. *)
Definition hits (p : params) (j : nat) (e : IBLTEntry K) : Prop :=
  j ∈ key_cells p (entry_key e).
#[export] Instance hits_dec p j e : Decision (hits p j e).
Proof. unfold hits. apply _. Defined.

Definition bucket_sum (p : params) (L : list (IBLTEntry K)) : Bucket K :=
  foldr (λ e, bucket_add (bucket_of p e)) Bucket_default L.
Definition cell (p : params) (j : nat) (L : list (IBLTEntry K)) : Bucket K :=
  bucket_sum p (filter (hits p j) L).

(** The abstraction relation. *)
Definition represents (t : IBLT K) (L : list (IBLTEntry K)) : Prop :=
  wf_params (params_of t) /\
  buckets t = (λ j, cell (params_of t) j L) <$> seq 0 (length (buckets t)).
End Algebra.

Section AlgebraLaws.
Context {K : Type} `{!IBLTKey K, !IBLTKeyLaws K}.
Implicit Types (p : params) (L : list (IBLTEntry K)) (e : IBLTEntry K).

Lemma key_xor_default_r (x : K) : key_xor x key_default = x.
Proof. by rewrite key_xor_comm, key_xor_default. Qed.

Lemma Bucket_ext (a b : Bucket K) :
  keysum a = keysum b -> hashsum a = hashsum b -> count a = count b -> a = b.
Proof. destruct a, b; simpl; intros; by subst. Qed.

Lemma bucket_add_comm (a b : Bucket K) : bucket_add a b = bucket_add b a.
Proof.
  apply Bucket_ext; simpl; [apply key_xor_comm|apply Z.lxor_comm|by rewrite Z.add_comm].
Qed.

Lemma bucket_add_assoc (a b c : Bucket K) :
  bucket_add (bucket_add a b) c = bucket_add a (bucket_add b c).
Proof.
  apply Bucket_ext; simpl; [apply key_xor_assoc|apply Z.lxor_assoc|].
  rewrite i32_add_l, i32_add_r. f_equal. lia.
Qed.

Lemma bucket_add_default (b : Bucket K) : is_i32 (count b) -> bucket_add Bucket_default b = b.
Proof.
  intros Hb. apply Bucket_ext; simpl; [apply key_xor_default|done|].
  by rewrite Z.add_0_l, i32_small.
Qed.

Lemma bucket_add_inv (p : params) e (b : Bucket K) :
  is_i32 (count b) ->
  bucket_add (bucket_of p e) (bucket_add (bucket_of p (entry_inv e)) b) = b.
Proof.
  intros Hb. rewrite <- bucket_add_assoc.
  assert (bucket_add (bucket_of p e) (bucket_of p (entry_inv e)) = Bucket_default) as ->.
  { apply Bucket_ext; destruct e; simpl; auto using key_xor_self, Z.lxor_nilpotent. }
  by apply bucket_add_default.
Qed.

Lemma bucket_sum_range p L : is_i32 (count (bucket_sum p L)).
Proof. destruct L; simpl; [done|apply i32_range]. Qed.

Lemma cell_range p j L : is_i32 (count (cell p j L)).
Proof. apply bucket_sum_range. Qed.

(** ** Sums *)

#[export] Instance bucket_sum_proper p : Proper ((≡ₚ) ==> (=)) (bucket_sum (K:=K) p).
Proof.
  intros L L' HL. induction HL as [|e L L' _ IH|e e' L|]; simpl; [done|by rewrite IH| |congruence].
  rewrite <- !bucket_add_assoc. f_equal. apply bucket_add_comm.
Qed.

#[export] Instance cell_proper p j : Proper ((≡ₚ) ==> (=)) (cell (K:=K) p j).
Proof. intros L L' HL. unfold cell. by rewrite HL. Qed.

Lemma cell_nil p j : cell (K:=K) p j [] = Bucket_default.
Proof. done. Qed.

Lemma cell_cons_hit p j e L :
  hits p j e -> cell p j (e :: L) = bucket_add (bucket_of p e) (cell p j L).
Proof. intros. unfold cell. by rewrite filter_cons_True. Qed.

Lemma cell_cons_miss p j e L : ~ hits p j e -> cell p j (e :: L) = cell p j L.
Proof. intros. unfold cell. by rewrite filter_cons_False. Qed.

Lemma cell_app p j L1 L2 : cell p j (L1 ++ L2) = bucket_add (cell p j L1) (cell p j L2).
Proof.
  induction L1 as [|e L1 IH]; simpl.
  - by rewrite cell_nil, bucket_add_default by apply cell_range.
  - destruct (decide (hits p j e)).
    + by rewrite !cell_cons_hit, IH, bucket_add_assoc.
    + by rewrite !cell_cons_miss.
Qed.

Lemma hits_inv p j e : hits p j (entry_inv e) <-> hits p j e.
Proof. by destruct e. Qed.

(** Opposite entries cancel. *)
Lemma cell_cancel p j e L : cell p j (e :: entry_inv e :: L) = cell p j L.
Proof.
  destruct (decide (hits p j e)).
  - rewrite !cell_cons_hit by (rewrite ?hits_inv; done).
    apply bucket_add_inv, cell_range.
  - by rewrite !cell_cons_miss by (rewrite ?hits_inv; done).
Qed.

Lemma cell_inv p j L : cell p j (entry_inv <$> L) = bucket_inv (cell p j L).
Proof.
  induction L as [|e L IH]; [done|]. rewrite fmap_cons.
  destruct (decide (hits p j e)).
  - rewrite !cell_cons_hit by (rewrite ?hits_inv; done). rewrite IH.
    apply Bucket_ext; [by destruct e..|]. simpl. rewrite i32_opp, i32_add_r.
    f_equal. destruct e; simpl; lia.
  - rewrite !cell_cons_miss by (rewrite ?hits_inv; done). done.
Qed.

Lemma substract_bucket_add (a b : Bucket K) :
  Iblt.substract_bucket a b = bucket_add a (bucket_inv b).
Proof. apply Bucket_ext; simpl; [done..|]. rewrite i32_add_r. f_equal. Qed.

(** ** Consequences for tables *)

Lemma represents_lookup (t : IBLT K) L j :
  represents t L -> (j < length (buckets t))%nat ->
  buckets t !! j = Some (cell (params_of t) j L).
Proof.
  intros [_ Ht] Hj. rewrite Ht, list_lookup_fmap, lookup_seq_lt by done. done.
Qed.

Lemma represents_intro (t : IBLT K) L :
  wf_params (params_of t) ->
  (forall j b, buckets t !! j = Some b -> b = cell (params_of t) j L) -> represents t L.
Proof.
  intros Hw Hb. split; [done|]. apply list_eq. intros j.
  rewrite list_lookup_fmap. destruct (buckets t !! j) as [b|] eqn:Hj.
  - rewrite lookup_seq_lt by (by eapply lookup_lt_Some). simpl. f_equal. by apply Hb.
  - by rewrite lookup_seq_ge by (by apply lookup_ge_None).
Qed.

#[export] Instance represents_proper (t : IBLT K) : Proper ((≡ₚ) ==> iff) (represents t).
Proof.
  intros L L' HL. unfold represents.
  enough (forall j, cell (params_of t) j L = cell (params_of t) j L') as Hc
    by (by setoid_rewrite Hc).
  intros j. by rewrite HL.
Qed.

(** Tables with equal parameters and contents are equal. *)
Lemma represents_unique (t t' : IBLT K) L :
  represents t L -> represents t' L -> params_of t = params_of t' -> t = t'.
Proof.
  intros [_ Ht] [_ Ht'] Hp. destruct t, t'. unfold params_of in *. simpl in *.
  injection Hp as -> -> -> -> Hl. f_equal. rewrite Ht, Ht', Hl. done.
Qed.

Lemma represents_cancel (t : IBLT K) e L :
  represents t (e :: entry_inv e :: L) <-> represents t L.
Proof. unfold represents. by setoid_rewrite cell_cancel. Qed.
End AlgebraLaws.

#[export] Hint Resolve cell_range bucket_sum_range : defiads.
