(* ===== verification/IbltRefine.v ===== *)
(** * The table operations refine lists of signed entries

    [IBLT::new], [insert], [delete] and [substract] of src/iblt.rs never panic on
    well-formed tables, keep the parameters of the table and act on the
    represented list of entries as the empty list, a cons, and an append of
    the inverse; the test-only [sync] is in IbltPeel.v. *)

From S2P Require Import Prelude Machine IbltTable IbltCells IbltAlgebra.
#[local] Open Scope Z_scope.

Section Loops.
Context {K : Type} `{!IBLTKey K} {E : Type}.

(** The loop of [insert] and [delete] over distinct cells. *)
Lemma modify_cells_spec (f : Bucket K -> Bucket K) (ns : list nat) (t : IBLT K) :
  NoDup ns -> Forall (λ n, (n < length (buckets t))%nat) ns ->
  exists t', for_each (E:=E) ns (Iblt.modify_bucket f) t = Ok t' /\
    params_of t' = params_of t /\
    forall j, buckets t' !! j = (if decide (j ∈ ns) then f else id) <$> buckets t !! j.
Proof.
  revert t. induction ns as [|n ns IH]; intros t Hnd Hlt; simpl.
  { exists t. repeat split. intros j. by destruct (buckets t !! j). }
  apply NoDup_cons in Hnd as [Hn Hnd]. apply Forall_cons in Hlt as [Hl Hlt].
  destruct (lookup_lt_is_Some_2 _ _ Hl) as [b Hb].
  unfold Iblt.modify_bucket at 2. rewrite (index_Some _ _ _ Hb). simpl.
  destruct (IH (set_buckets t (<[n:=f b]> (buckets t)))) as (t' & -> & Hp & Hj); [done| |].
  { simpl. by rewrite length_insert. }
  exists t'. split; [done|]. split.
  { rewrite Hp. unfold params_of, set_buckets. simpl. by rewrite length_insert. }
  intros j. rewrite Hj. simpl. destruct (decide (j = n)) as [->|Hne].
  - rewrite list_lookup_insert_eq by done. rewrite (decide_False (P := n ∈ ns)) by done.
    rewrite decide_True by set_solver. by rewrite Hb.
  - rewrite list_lookup_insert_ne by done.
    rewrite (decide_ext (j ∈ n :: ns) (j ∈ ns)) by set_solver. done.
Qed.
End Loops.

Section Refinement.
Context `{SipHasher} {K : Type} `{!IBLTKey K, !IBLTKeyLaws K} {E : Type}.
Implicit Types (t : IBLT K) (L : list (IBLTEntry K)) (key : K).

Lemma key_cells_bounds t key :
  wf_params (params_of t) ->
  Forall (λ n, (n < length (buckets t))%nat) (key_cells (params_of t) key).
Proof. intros [_ Hl]. apply Forall_forall. intros n Hn. by apply key_cells_lt in Hn. Qed.

(** The common part of [insert] and [delete]. *)
Lemma modify_represents t L (e : IBLTEntry K) (f : Bucket K -> Bucket K) :
  represents t L ->
  (forall b, f b = bucket_add b (bucket_of (params_of t) e)) ->
  exists t', (it ← BucketIterator.new (E:=E) t (entry_key e);
              for_each (BucketIterator.items it) (Iblt.modify_bucket f) t) = Ok t' /\
             params_of t' = params_of t /\ represents t' (e :: L).
Proof.
  intros Ht Hf. pose proof Ht as [Hw _].
  destruct (bucket_items (E:=E) t (entry_key e) Hw) as (it & -> & Hit). simpl. rewrite Hit.
  destruct (modify_cells_spec (E:=E) f (key_cells (params_of t) (entry_key e)) t)
    as (t' & Hloop & Hp & Hj); [apply NoDup_key_cells|by apply key_cells_bounds|].
  exists t'. split; [done|]. split; [done|].
  apply represents_intro; [by rewrite Hp|]. intros j b. rewrite Hj, Hp.
  intros (b' & Hb' & ->)%fmap_Some.
  assert (b' = cell (params_of t) j L) as ->.
  { rewrite (represents_lookup t L) in Hb'; [by injection Hb'|done|by eapply lookup_lt_Some]. }
  case_decide as Hh; unfold id.
  - by rewrite Hf, cell_cons_hit, bucket_add_comm.
  - by rewrite cell_cons_miss.
Qed.

Lemma insert_represents t L key :
  represents t L ->
  exists t', Iblt.insert (E:=E) t key = Ok t' /\ params_of t' = params_of t /\
             represents t' (Inserted key :: L).
Proof. intros Ht. by apply (modify_represents t L (Inserted key)). Qed.

Lemma delete_represents t L key :
  represents t L ->
  exists t', Iblt.delete (E:=E) t key = Ok t' /\ params_of t' = params_of t /\
             represents t' (Deleted key :: L).
Proof. intros Ht. by apply (modify_represents t L (Deleted key)). Qed.

Lemma generate_ksequence_length n a b : length (generate_ksequence n a b) = n.
Proof. revert a b. induction n as [|n IH]; intros; simpl; [done|]. by rewrite IH. Qed.

Definition new_params (m : Z) (n : nat) (a b : Z) : params :=
  mkParams a b n (generate_ksequence n a b) (Z.to_nat m).

Lemma new_represents m n a b :
  0 < m -> (n <= K_MAX)%nat ->
  exists t, Iblt.new (K:=K) (E:=E) m n a b = Ok t /\ params_of t = new_params m n a b /\
            represents t [].
Proof.
  intros Hm Hn. unfold Iblt.new. rewrite bool_decide_eq_true_2 by done. simpl.
  eexists. split; [done|]. unfold params_of, new_params. simpl. rewrite length_replicate.
  split; [done|]. apply represents_intro.
  - unfold wf_params. simpl. rewrite generate_ksequence_length, length_replicate. lia.
  - intros j bk [-> _]%lookup_replicate. done.
Qed.

(** The loop of [substract] walks its own buckets while it updates them. *)
Lemma substract_loop (bs obs : list (Bucket K)) (pre : list (Bucket K)) t other :
  buckets t = pre ++ bs -> length bs = length obs ->
  buckets other = take (length pre) (buckets other) ++ obs ->
  (length pre <= length (buckets other))%nat ->
  for_each (E:=E) (imap (λ i x, ((length pre + i)%nat, x)) bs) (λ t '(i, b),
      ob ← index (buckets other) i;
      Ok (set_buckets t (<[i := Iblt.substract_bucket b ob]> (buckets t)))) t
  = Ok (set_buckets t (pre ++ zip_with Iblt.substract_bucket bs obs)).
Proof.
  revert pre obs t. induction bs as [|b bs IH]; intros pre [|ob obs] t Hb Hl Ho Hle;
    simpl in *; try done.
  { unfold set_buckets. rewrite <- Hb. by destruct t. }
  rewrite Nat.add_0_r.
  assert (buckets other !! length pre = Some ob) as Hob.
  { rewrite Ho, lookup_app_r; rewrite length_take_le by done; [|done]. by rewrite Nat.sub_diag. }
  rewrite (index_Some _ _ _ Hob). simpl.
  rewrite Hb, insert_app_r_alt, Nat.sub_diag by done. simpl.
  etrans; [|etrans; [apply (IH (pre ++ [Iblt.substract_bucket b ob]) obs)|]].
  - f_equal. apply imap_ext. intros i x _. simpl. rewrite length_app. simpl. f_equal. lia.
  - simpl. by rewrite <- app_assoc.
  - by injection Hl.
  - rewrite length_app. simpl. rewrite Nat.add_1_r, (take_S_r _ _ ob) by done.
    rewrite <- app_assoc. done.
  - rewrite length_app. simpl. apply lookup_lt_Some in Hob. lia.
  - unfold set_buckets. simpl. by rewrite <- app_assoc.
Qed.

Lemma substract_represents t1 t2 L1 L2 :
  represents t1 L1 -> represents t2 L2 -> params_of t1 = params_of t2 ->
  exists t, Iblt.substract (E:=E) t1 t2 = Ok t /\ params_of t = params_of t1 /\
            represents t (L1 ++ (entry_inv <$> L2)).
Proof.
  intros H1 H2 Hp. pose proof H1 as [Hw _].
  unfold Iblt.substract. pose proof Hp as [= H0' H1' Hk' _ Hl'].
  rewrite !bool_decide_eq_true_2 by done. cbn [assert mbind res_bind].
  eexists. split; [apply (substract_loop (buckets t1) (buckets t2) [] t1 t2); simpl; first [done|lia]|].
  set (t := set_buckets _ _).
  assert (params_of t = params_of t1) as Hpt.
  { unfold params_of, t. simpl. rewrite length_zip_with. f_equal. lia. }
  split; [done|]. apply represents_intro; [by rewrite Hpt|].
  intros j b Hj. rewrite Hpt, cell_app, cell_inv.
  unfold t in Hj. simpl in Hj. apply lookup_zip_with_Some in Hj as (b1 & b2 & -> & Hb1 & Hb2).
  rewrite substract_bucket_add. f_equal.
  - rewrite (represents_lookup t1 L1) in Hb1; [by injection Hb1|done|by eapply lookup_lt_Some].
  - f_equal. rewrite (represents_lookup t2 L2) in Hb2; [|done|by eapply lookup_lt_Some].
    rewrite Hp. by injection Hb2.
Qed.
End Refinement.
