(* ===== verification/IbltPeel.v ===== *)
(** * Peeling a table: soundness, termination, completeness

    [IBLTIterator] (src/iblt.rs) peels entries off a table.  Its correctness
    rests on the check sum: [honest] says that no sum of several entries looks
    like a single one.  Under that hypothesis the iterator lists entries the
    table represents, each once, and stops; what it fails to list it reports
    whenever a count is left over, and a table that was only inserted into is
    listed completely unless the error is reported. *)

From S2P Require Import Prelude Machine IbltTable IbltCells IbltAlgebra IbltRefine.
#[local] Open Scope Z_scope.

Section Purity.
Context {K : Type} `{!IBLTKey K}.

Definition pure (p : params) (b : Bucket K) : bool :=
  bool_decide (i32_abs (count b) = 1) && bool_decide (hashsum b = p_keyhash p (keysum b)).

Definition cell_size (p : params) (j : nat) (L : list (IBLTEntry K)) : nat :=
  length (filter (hits p j) L).

(** The check sum does not lie on sub-collections of [L]. *)
Definition honest (p : params) (L : list (IBLTEntry K)) : Prop :=
  forall S j, S ⊆+ L -> (j < p_len p)%nat -> pure p (cell p j S) = true ->
  cell_size p j S = 1%nat.

(** An executable form of [honest], for concrete tables. *)
Definition sublists {A} (L : list A) : list (list A) :=
  foldr (λ x acc, acc ++ (cons x <$> acc)) [[]] L.
Definition honestb (p : params) (L : list (IBLTEntry K)) : bool :=
  forallb (λ S, forallb (λ j, negb (pure p (cell p j S)) || bool_decide (cell_size p j S = 1%nat))
                        (seq 0 (p_len p))) (sublists L).
End Purity.

Section PurityLaws.
Context {K : Type} `{!IBLTKey K, !IBLTKeyLaws K}.
Implicit Types (p : params) (L R S : list (IBLTEntry K)) (e : IBLTEntry K).

#[export] Instance cell_size_proper p j : Proper ((≡ₚ) ==> (=)) (cell_size (K:=K) p j).
Proof. intros L L' HL. unfold cell_size. by rewrite HL. Qed.

Lemma sublists_sublist S L : S `sublist_of` L -> S ∈ sublists L.
Proof.
  induction 1 as [|x S L _ IH|x S L _ IH]; simpl; [set_solver|..]; rewrite elem_of_app.
  - right. by apply list_elem_of_fmap_2.
  - by left.
Qed.

Lemma honestb_honest p L : honestb p L = true -> honest p L.
Proof.
  unfold honestb. rewrite forallb_forall. intros Hb S j HS Hj Hp.
  apply submseteq_sublist_r in HS as (S' & HSS & Hsub).
  rewrite HSS in Hp |- *.
  specialize (Hb S' (proj1 (list_elem_of_In _ _) (sublists_sublist _ _ Hsub))).
  rewrite forallb_forall in Hb. specialize (Hb j). rewrite Hp in Hb.
  rewrite <- bool_decide_eq_true. apply Hb, in_seq. lia.
Qed.

Lemma honest_submseteq p L L' : L' ⊆+ L -> honest p L -> honest p L'.
Proof. intros HL Hh S j HS. apply Hh. by transitivity L'. Qed.

Lemma pure_bucket_of p e : pure p (bucket_of p e) = true.
Proof.
  unfold pure. rewrite andb_true_iff, !bool_decide_eq_true. split; [|done].
  by destruct e.
Qed.

Lemma pure_count p (b : Bucket K) : pure p b = true -> i32_abs (count b) = 1.
Proof. unfold pure. rewrite andb_true_iff, !bool_decide_eq_true. naive_solver. Qed.

(** A cell with no entry is the default, a cell with one entry is that entry. *)
Lemma cell_size_0 p j R : cell_size p j R = O -> cell p j R = Bucket_default.
Proof. intros Hl%length_zero_iff_nil. unfold cell. by rewrite Hl. Qed.

Lemma cell_size_1 p j R :
  cell_size p j R = 1%nat ->
  exists e R', R ≡ₚ e :: R' /\ hits p j e /\ cell p j R = bucket_of p e /\
               cell_size p j R' = O.
Proof.
  unfold cell_size. intros Hl.
  destruct (filter (hits p j) R) as [|e [|]] eqn:Hf; simplify_eq/=.
  assert (e ∈ filter (hits p j) R) as [Hh He]%list_elem_of_filter
    by (rewrite Hf; apply list_elem_of_singleton; done).
  apply list_elem_of_split in He as (R1 & R2 & ->).
  exists e, (R1 ++ R2). rewrite Permutation_middle. split_and!; [done|done| |].
  - unfold cell. rewrite Hf. simpl. rewrite bucket_add_comm. apply bucket_add_default.
    by destruct e.
  - pose proof (f_equal length Hf) as Hl'.
    rewrite filter_app, filter_cons_True, length_app in Hl' by done. simpl in Hl'.
    rewrite filter_app, length_app. lia.
Qed.

(** Purity is exactly "one entry", on sub-collections of an honest list. *)
Lemma honest_pure p L R j :
  honest p L -> R ⊆+ L -> (j < p_len p)%nat ->
  pure p (cell p j R) = true <-> cell_size p j R = 1%nat.
Proof.
  intros Hh HR Hj. split; [by apply Hh|].
  intros (e & R' & _ & _ & -> & _)%cell_size_1. apply pure_bucket_of.
Qed.

Lemma cell_size_cons p j e R :
  cell_size p j (e :: R) = if decide (hits p j e) then S (cell_size p j R) else cell_size p j R.
Proof.
  unfold cell_size. case_decide; [by rewrite filter_cons_True|by rewrite filter_cons_False].
Qed.
End PurityLaws.

(** ** One step of the iterator *)

Section PeelLoop.
Context {K : Type} `{!IBLTKey K, !IBLTKeyLaws K} {E : Type}.
Implicit Types (t : IBLT K) (e : IBLTEntry K) (q : list nat).

(** The loop over the cells of the popped key removes its entry from each of
    them, and queues those that became pure. *)
Lemma peel_loop_spec e ns t q :
  NoDup ns -> Forall (λ n, (n < length (buckets t))%nat) ns ->
  let upd b := bucket_add b (bucket_of (params_of t) (entry_inv e)) in
  let kh := p_keyhash (params_of t) (entry_key e) in
  exists t', for_each (E:=E) ns (IBLTIterator.peel_cell (entry_key e) kh (entry_sign e))
               (IBLTIterator.mk t q false) =
      Ok (IBLTIterator.mk t' (q ++ filter (λ n, pure (params_of t)
            (from_option upd Bucket_default (buckets t !! n)) = true) ns) false) /\
    params_of t' = params_of t /\
    forall j, buckets t' !! j = (if decide (j ∈ ns) then upd else id) <$> buckets t !! j.
Proof.
  intros Hnd Hlt upd kh. revert t q Hlt upd kh.
  induction ns as [|n ns IH]; intros t q Hlt upd kh; simpl.
  { exists t. rewrite app_nil_r. repeat split. intros j. by destruct (buckets t !! j). }
  apply NoDup_cons in Hnd as [Hn Hnd]. apply Forall_cons in Hlt as [Hl Hlt].
  destruct (lookup_lt_is_Some_2 _ _ Hl) as [b Hb].
  unfold IBLTIterator.peel_cell at 2. simpl. rewrite (index_Some _ _ _ Hb). simpl.
  set (b' := mkBucket _ _ _).
  assert (b' = upd b) as -> by (apply Bucket_ext; by destruct e).
  set (t1 := set_buckets t _).
  assert (params_of t1 = params_of t) as Hp1
    by (unfold params_of, t1; simpl; by rewrite length_insert).
  destruct (IH Hnd t1 (if IBLTIterator.is_pure t1 (upd b) then q ++ [n] else q))
    as (t' & Heq & Hp & Hj); [by unfold t1; simpl; rewrite length_insert|].
  rewrite Hp1 in *. exists t'. split; [|split; [done|]].
  - etrans; [exact Heq|]. do 2 f_equal. rewrite filter_cons, Hb. simpl.
    change (IBLTIterator.is_pure t1 (upd b)) with (pure (params_of t1) (upd b)). rewrite Hp1.
    rewrite (filter_ext_elem _ (λ n, pure (params_of t)
              (from_option upd Bucket_default (buckets t !! n)) = true) ns).
    + case_decide as Hpure; [rewrite Hpure; by rewrite <- app_assoc|].
      by destruct (pure (params_of t) (upd b)).
    + intros n' Hn'. unfold t1. simpl. rewrite list_lookup_insert_ne by (intros ->; done). done.
  - intros j. rewrite Hj. unfold t1. simpl. destruct (decide (j = n)) as [->|Hne].
    + rewrite list_lookup_insert_eq by done. rewrite (decide_False (P := n ∈ ns)) by done.
      rewrite decide_True by set_solver. by rewrite Hb.
    + rewrite list_lookup_insert_ne by done.
      rewrite (decide_ext (j ∈ n :: ns) (j ∈ ns)) by set_solver. done.
Qed.
End PeelLoop.

Section Peel.
Context {K : Type} `{!IBLTKey K, !IBLTKeyLaws K} {E : Type}.
Variables (p : params) (L : list (IBLTEntry K)).
Hypotheses (Hwf : wf_params p) (Hhonest : honest p L).

Implicit Types (t : IBLT K) (R Y : list (IBLTEntry K)) (e : IBLTEntry K) (q : list nat).

(** What the queue of the iterator promises about the entries still there. *)
Definition queue_ok (R : list (IBLTEntry K)) (q : list nat) : Prop :=
  (forall i, i ∈ q -> (i < p_len p)%nat /\ (cell_size p i R <= 1)%nat) /\
  (forall i, (i < p_len p)%nat -> cell_size p i R = 1%nat -> i ∈ q).

(** The invariant: yielded and remaining entries make up [L]. *)
Definition iter_inv (it : IBLTIterator.t K) (Y R : list (IBLTEntry K)) : Prop :=
  params_of (IBLTIterator.iblt it) = p /\ represents (IBLTIterator.iblt it) R /\
  Y ++ R ≡ₚ L /\ queue_ok R (IBLTIterator.queue it) /\ IBLTIterator.incomplete it = false.

Lemma remaining_submseteq Y R : Y ++ R ≡ₚ L -> R ⊆+ L.
Proof. intros <-. apply submseteq_inserts_l. done. Qed.

Lemma table_lookup t R i :
  params_of t = p -> represents t R -> (i < p_len p)%nat -> buckets t !! i = Some (cell p i R).
Proof. intros <- Ht Hi. by apply represents_lookup. Qed.

(** Stale cells are skipped; the first live one holds exactly one entry. *)
Lemma pop_cell_spec t R q :
  params_of t = p -> represents t R ->
  (forall i, i ∈ q -> (i < p_len p)%nat /\ (cell_size p i R <= 1)%nat) ->
  (IBLTIterator.pop_cell (E:=E) t q = Ok None /\ forall i, i ∈ q -> cell_size p i R = O) \/
  exists q1 i q2, q = q1 ++ i :: q2 /\ (forall i, i ∈ q1 -> cell_size p i R = O) /\
    cell_size p i R = 1%nat /\
    IBLTIterator.pop_cell (E:=E) t q = Ok (Some (cell p i R, q2)).
Proof.
  intros Hp Ht. induction q as [|i q IH]; intros Hq; simpl; [left; split; [done|set_solver]|].
  destruct (Hq i) as [Hi Hs]; [set_solver|].
  rewrite (index_Some _ _ _ (table_lookup t R i Hp Ht Hi)). simpl.
  destruct (cell_size p i R) as [|[|]] eqn:Hsz; [| |lia].
  - rewrite cell_size_0 by done. rewrite decide_False by done.
    destruct IH as [[-> Hall] | (q1 & i' & q2 & -> & H1 & H2 & H3)]; [set_solver|..].
    + left. split; [done|]. set_solver.
    + right. exists (i :: q1), i', q2. rewrite H3. set_solver.
  - right. exists [], i, q.
    pose proof (cell_size_1 p i R Hsz) as (e & R' & _ & _ & He & _).
    rewrite decide_True; [set_solver|]. rewrite He. eapply pure_count, (pure_bucket_of p).
Qed.

(** Removing a popped entry from the table. *)
Lemma peel_entry t R e R' :
  params_of t = p -> represents t R -> R ≡ₚ e :: R' ->
  forall q, exists t' cells,
    BucketIterator.new (E:=E) t (entry_key e) = Ok cells /\
    for_each (E:=E) (BucketIterator.items cells)
      (IBLTIterator.peel_cell (entry_key e) (p_keyhash p (entry_key e)) (entry_sign e))
      (IBLTIterator.mk t q false) =
    Ok (IBLTIterator.mk t' (q ++ filter (λ n, pure p (cell p n R') = true)
                                  (key_cells p (entry_key e))) false) /\
    params_of t' = p /\ represents t' R'.
Proof.
  intros Hp Ht HR q.
  destruct (bucket_items (E:=E) t (entry_key e)) as (cells & Hnew & Hitems); [by rewrite Hp|].
  destruct (peel_loop_spec (E:=E) e (key_cells p (entry_key e)) t q) as (t' & Hloop & Hp' & Hj).
  { apply NoDup_key_cells. }
  { rewrite <- Hp. apply key_cells_bounds. by rewrite Hp. }
  assert (forall n, n ∈ key_cells p (entry_key e) ->
    bucket_add (cell p n R) (bucket_of p (entry_inv e)) = cell p n R') as Hupd.
  { intros n Hn. rewrite bucket_add_comm, HR, cell_cons_hit by done.
    rewrite <- (bucket_add_inv p (entry_inv e)) by apply cell_range. by destruct e. }
  exists t', cells. rewrite Hitems, Hp in *. split; [done|]. split; [|split; [done|]].
  - rewrite Hloop. do 3 f_equal. apply filter_ext_elem. intros n Hn.
    rewrite (table_lookup t R n) by (done || by apply key_cells_lt in Hn; [|apply Hwf]).
    simpl. by rewrite Hupd.
  - apply represents_intro; [by rewrite Hp'|]. intros j b.
    rewrite Hj, Hp'. intros (b' & Hb' & ->)%fmap_Some.
    assert (b' = cell p j R) as ->.
    { rewrite (table_lookup t R j) in Hb'; [by injection Hb'|done..|].
      rewrite <- Hp. by eapply lookup_lt_Some. }
    case_decide as Hh; unfold id; [by apply Hupd|]. by rewrite HR, cell_cons_miss.
Qed.

(** The queue after a peel. *)
Lemma queue_ok_peel Y R e R' q1 i q2 :
  Y ++ R ≡ₚ L -> R ≡ₚ e :: R' -> hits p i e -> cell_size p i R' = O ->
  (forall i, i ∈ q1 -> cell_size p i R = O) ->
  queue_ok R (q1 ++ i :: q2) ->
  queue_ok R' (q2 ++ filter (λ n, pure p (cell p n R') = true) (key_cells p (entry_key e))).
Proof.
  intros HL HR Hi Hi0 Hq1 [Hs Hc].
  assert (R' ⊆+ L) as Hsub.
  { etrans; [|by eapply remaining_submseteq]. rewrite HR. by apply submseteq_cons. }
  split.
  - intros j [Hj | [Hpure Hj]%list_elem_of_filter]%elem_of_app.
    + destruct (Hs j) as [? Hle]; [set_solver|]. split; [done|].
      rewrite HR, cell_size_cons in Hle. case_decide; lia.
    + apply key_cells_lt in Hj; [|apply Hwf]. split; [done|].
      apply (honest_pure p L) in Hpure; [lia|done..].
  - intros j Hj Hsz. apply elem_of_app. destruct (decide (hits p j e)) as [Hh|Hh].
    + right. apply list_elem_of_filter. split; [|done]. by apply (honest_pure p L).
    + left. assert (cell_size p j R = 1%nat) as HszR
        by (rewrite HR, cell_size_cons; by rewrite decide_False).
      specialize (Hc j Hj HszR). apply elem_of_app in Hc as [Hc|Hc].
      * apply Hq1 in Hc. lia.
      * apply elem_of_cons in Hc as [->|?]; [lia|done].
Qed.

(** No cell holds exactly one of the remaining entries. *)
Definition stuck (R : list (IBLTEntry K)) : Prop :=
  forall j, (j < p_len p)%nat -> cell_size p j R <> 1%nat.

Definition balanced (R : list (IBLTEntry K)) : Prop :=
  forall j, (j < p_len p)%nat -> count (cell p j R) = 0.

Lemma counts_balanced t R :
  params_of t = p -> represents t R ->
  forallb (λ bucket, bool_decide (count bucket = 0)) (buckets t) = true <-> balanced R.
Proof.
  intros Hp Ht. rewrite forallb_forall. setoid_rewrite bool_decide_eq_true. split.
  - intros Hall j Hj. apply Hall, list_elem_of_In, list_elem_of_lookup.
    exists j. by apply table_lookup.
  - intros Hb b Hin%list_elem_of_In. apply list_elem_of_lookup in Hin as [j Hj].
    assert (j < p_len p)%nat as Hlt by (rewrite <- Hp; by eapply lookup_lt_Some).
    rewrite (table_lookup t R j) in Hj by done. injection Hj as <-. by apply Hb.
Qed.

Lemma next_spec it Y R :
  iter_inv it Y R ->
  (exists e R' it', IBLTIterator.next (E:=E) it = Ok (Some (inl e), it') /\
     R ≡ₚ e :: R' /\ iter_inv it' (Y ++ [e]) R') \/
  (stuck R /\ balanced R /\ exists it', IBLTIterator.next (E:=E) it = Ok (None, it')) \/
  (stuck R /\ ~ balanced R /\ exists it',
     IBLTIterator.next (E:=E) it = Ok (Some (inr IncompleteIteration), it') /\
     IBLTIterator.incomplete it' = true).
Proof.
  intros (Hp & Ht & HL & [Hs Hc] & Hinc). unfold IBLTIterator.next. rewrite Hinc.
  destruct (pop_cell_spec _ _ _ Hp Ht Hs) as [[-> Hq] | (q1 & i & q2 & Hq & Hq1 & Hi & ->)];
    cbn [mbind res_bind].
  - right. assert (stuck R) as Hst by (intros j Hj Hsz; specialize (Hc j Hj Hsz); apply Hq in Hc; lia).
    cbn [IBLTIterator.iblt]. pose proof (counts_balanced _ _ Hp Ht) as Hb.
    destruct (forallb _ _) eqn:Hf; [left; naive_solver|right].
    split_and!; [done|intros ?%Hb; done|eauto].
  - left. destruct (cell_size_1 p i R Hi) as (e & R' & HR & Hh & Hcell & Hi0).
    rewrite Hcell. cbn [bucket_of keysum count].
    replace (Iblt.keyhash (IBLTIterator.iblt it) (entry_key e)) with (p_keyhash p (entry_key e))
      by (rewrite <- Hp; done).
    destruct (peel_entry _ _ e R' Hp Ht HR q2) as (t' & cells & -> & Hloop & Hp' & Ht').
    cbn [mbind res_bind]. rewrite Hloop. cbn [mbind res_bind].
    eexists e, R', _. split; [|split; [done|]].
    { do 4 f_equal. by destruct e. }
    split_and!; [done|done| | |done].
    + rewrite <- app_assoc. simpl. by rewrite <- HR.
    + rewrite Hq in *. by eapply queue_ok_peel.
Qed.

(** The queue the constructor builds. *)
Lemma new_inv t :
  params_of t = p -> represents t L -> iter_inv (IBLTIterator.new t) [] L.
Proof.
  intros Hp Ht. unfold iter_inv. simpl. split_and!; [done|done|done| |done].
  assert (forall i, i ∈ (fst <$> filter (λ '(_, bucket), IBLTIterator.is_pure t bucket = true)
                    (enumerate (buckets t))) <->
            (i < p_len p)%nat /\ pure p (cell p i L) = true) as Hq.
  { intros i. rewrite list_elem_of_fmap. split.
    - intros ([i' b] & -> & [Hpure Hb%elem_of_enumerate]%list_elem_of_filter).
      assert (i' < p_len p)%nat as Hlt by (rewrite <- Hp; by eapply lookup_lt_Some).
      rewrite (table_lookup t L i') in Hb by done. injection Hb as <-.
      change (IBLTIterator.is_pure t) with (pure (params_of t)) in Hpure. by rewrite Hp in Hpure.
    - intros [Hlt Hpure]. exists (i, cell p i L). split; [done|].
      apply list_elem_of_filter. split.
      + change (IBLTIterator.is_pure t) with (pure (params_of t)). by rewrite Hp.
      + apply elem_of_enumerate. by apply table_lookup. }
  split; intros i; rewrite Hq.
  - intros [Hlt Hpure]. apply (honest_pure p L) in Hpure; [|done..]. split; [done|lia].
  - intros Hlt Hsz. split; [done|]. by apply (honest_pure p L).
Qed.

(** ** The whole loop *)

Definition final_items (Y : list (IBLTEntry K)) (ok : bool) : list (IBLTEntry K + IBLTError) :=
  (inl <$> Y) ++ (if ok then [] else [inr IncompleteIteration]).

Lemma run_incomplete it fuel :
  IBLTIterator.incomplete it = true -> (0 < fuel)%nat ->
  IBLTIterator.run (E:=E) fuel it = Ok (Some []).
Proof.
  intros Hi Hf. destruct fuel; [lia|]. simpl. unfold IBLTIterator.next. by rewrite Hi.
Qed.

Lemma run_spec n : forall it Y R, length R = n -> iter_inv it Y R ->
  exists Y' R' ok, Y ++ Y' ++ R' ≡ₚ L /\ stuck R' /\ (ok = true <-> balanced R') /\
    forall fuel, (n + 2 <= fuel)%nat ->
      IBLTIterator.run (E:=E) fuel it = Ok (Some (final_items Y' ok)).
Proof.
  induction n as [n IH] using lt_wf_ind. intros it Y R Hn Hinv.
  pose proof Hinv as (_ & _ & HL & _ & _).
  destruct (next_spec it Y R Hinv) as [(e & R1 & it' & Hnext & HR & Hinv') |
    [(Hst & Hb & it' & Hnext) | (Hst & Hb & it' & Hnext & Hinc)]].
  - assert (length R1 < n)%nat as Hlt by (rewrite <- Hn, HR; simpl; lia).
    destruct (IH _ Hlt it' _ R1 eq_refl Hinv') as (Y' & R' & ok & HL' & Hst & Hok & Hrun).
    exists (e :: Y'), R', ok. split_and!; [by rewrite <- app_assoc in HL'|done|done|].
    intros [|fuel] Hf; [lia|]. cbn [IBLTIterator.run]. rewrite Hnext. cbn [mbind res_bind].
    rewrite Hrun by lia. done.
  - exists [], R, true. split_and!; [done|done|naive_solver|].
    intros [|fuel] Hf; [lia|]. cbn [IBLTIterator.run]. by rewrite Hnext.
  - exists [], R, false. split_and!; [done|done|naive_solver|].
    intros [|fuel] Hf; [lia|]. cbn [IBLTIterator.run]. rewrite Hnext. cbn [mbind res_bind].
    rewrite run_incomplete by (done || lia). done.
Qed.

Lemma peel_run t :
  params_of t = p -> represents t L ->
  exists Y R ok, Y ++ R ≡ₚ L /\ stuck R /\ (ok = true <-> balanced R) /\
    forall fuel, (length L + 2 <= fuel)%nat ->
      IBLTIterator.run (E:=E) fuel (IBLTIterator.new t) = Ok (Some (final_items Y ok)).
Proof. intros Hp Ht. exact (run_spec _ _ [] L eq_refl (new_inv t Hp Ht)). Qed.
End Peel.
