(* ===== verification/Keys.v ===== *)
(** * The two key types of the tables

    [ContentKey] (src/content.rs) is a 32-byte digest, [NetAddress]
    (src/discovery.rs) eight 16-bit address segments and a port.  Both are
    discharged against the interface [IBLTKey] of IbltTable.v, and both satisfy
    its laws.  The hash is the siphasher crate's, a parameter; [PolyHasher] is a
    concrete keyed hash that the examples of the library compute with. *)

From S2P Require Import Prelude Machine IbltTable.
#[local] Open Scope Z_scope.

(** ** Element-wise [^=] of arrays *)

Definition array_xor {n} (a b : vec Z n) : vec Z n := vzip_with Z.lxor a b.

Lemma array_xor_comm {n} (a b : vec Z n) : array_xor a b = array_xor b a.
Proof. apply vec_eq. intros i. unfold array_xor. rewrite !vlookup_zip_with. apply Z.lxor_comm. Qed.
Lemma array_xor_assoc {n} (a b c : vec Z n) :
  array_xor (array_xor a b) c = array_xor a (array_xor b c).
Proof. apply vec_eq. intros i. unfold array_xor. rewrite !vlookup_zip_with. apply Z.lxor_assoc. Qed.
Lemma array_xor_zero {n} (a : vec Z n) : array_xor (vreplicate n 0) a = a.
Proof.
  apply vec_eq. intros i. unfold array_xor. by rewrite vlookup_zip_with, vlookup_replicate.
Qed.
Lemma array_xor_self {n} (a : vec Z n) : array_xor a a = vreplicate n 0.
Proof.
  apply vec_eq. intros i. unfold array_xor. rewrite vlookup_zip_with, vlookup_replicate.
  apply Z.lxor_nilpotent.
Qed.

(** ** [ContentKey] *)

Definition DIGEST_LEN : nat := 32.

(** A [sha256::Hash] or a [sha256d::Hash]: 32 bytes. *)
Notation digest := (vec Z DIGEST_LEN).

Record ContentKey : Type := mkContentKey { ck_digest : digest }.

#[export] Instance ContentKey_eq_dec : EqDecision ContentKey.
Proof. solve_decision. Defined.
#[export] Program Instance ContentKey_countable : Countable ContentKey :=
  inj_countable' ck_digest mkContentKey _.
Next Obligation. by intros []. Qed.

(** [digest.copy_from_slice(&hash[..])] *)
Definition digest_of_list (l : list Z) : digest :=
  fun_to_vec (λ i : fin DIGEST_LEN, default 0 (l !! (fin_to_nat i))).

Module ContentKeyOps.
Definition new {E} (hash : list Z) : res E ContentKey :=
  _ ← assert (bool_decide (length hash = DIGEST_LEN));
  Ok (mkContentKey (digest_of_list hash)).

Definition bitxor_assign (a rhs : ContentKey) : ContentKey :=
  mkContentKey (array_xor (ck_digest a) (ck_digest rhs)).

Definition hash_to_u64_with_keys `{SipHasher} (k0 k1 : Z) (key : ContentKey) : Z :=
  sip_hash k0 k1 [vec_to_list (ck_digest key)].

Lemma digest_of_vec (d : digest) : digest_of_list (vec_to_list d) = d.
Proof.
  apply vec_eq. intros i. unfold digest_of_list. rewrite lookup_fun_to_vec.
  by rewrite (proj1 (vlookup_lookup d i (d !!! i)) eq_refl).
Qed.

(** [ContentKey::new(&digest[..])] never fails on a digest. *)
Lemma new_digest {E} (d : digest) : new (E:=E) (vec_to_list d) = Ok (mkContentKey d).
Proof.
  unfold new. rewrite length_vec_to_list, bool_decide_eq_true_2 by done. simpl.
  by rewrite digest_of_vec.
Qed.
End ContentKeyOps.

#[export] Instance ContentKey_IBLTKey `{SipHasher} : IBLTKey ContentKey := {
  key_default := mkContentKey (vreplicate DIGEST_LEN 0);
  key_xor := ContentKeyOps.bitxor_assign;
  hash_to_u64_with_keys := ContentKeyOps.hash_to_u64_with_keys
}.

#[export] Instance ContentKey_laws `{SipHasher} : IBLTKeyLaws ContentKey.
Proof.
  split.
  - intros [x] [y]. apply (f_equal mkContentKey), array_xor_comm.
  - intros [x] [y] [z]. apply (f_equal mkContentKey), array_xor_assoc.
  - intros [x]. apply (f_equal mkContentKey), array_xor_zero.
  - intros [x]. apply (f_equal mkContentKey), array_xor_self.
Qed.

(** ** Socket addresses *)

(** [std::net::SocketAddr]: an IPv4 address of four octets, or an IPv6 address
    of eight segments with flow information and scope, and a port. *)
Inductive SocketAddr : Type :=
  | V4 (octets : vec Z 4) (port : Z)
  | V6 (segments : vec Z 8) (port flowinfo scope_id : Z).

#[export] Instance SocketAddr_eq_dec : EqDecision SocketAddr.
Proof. solve_decision. Defined.
#[export] Instance SocketAddr_countable : Countable SocketAddr.
Proof.
  refine (inj_countable' (λ a, match a with V4 o p => inl (o, p) | V6 s p f i => inr (s, p, f, i) end)
    (λ x, match x with inl (o, p) => V4 o p | inr (s, p, f, i) => V6 s p f i end) _).
  by intros [].
Defined.

(** ** [NetAddress] *)

Record NetAddress : Type := mkNetAddress { address : vec Z 8; port : Z }.

#[export] Instance NetAddress_eq_dec : EqDecision NetAddress.
Proof. solve_decision. Defined.
#[export] Program Instance NetAddress_countable : Countable NetAddress :=
  inj_countable' (λ a, (address a, port a)) (λ x, mkNetAddress x.1 x.2) _.
Next Obligation. by intros []. Qed.

Module NetAddressKey.
Definition bitxor_assign (a rhs : NetAddress) : NetAddress :=
  mkNetAddress (array_xor (address a) (address rhs)) (Z.lxor (port a) (port rhs)).

Definition hash_to_u64_with_keys `{SipHasher} (k0 k1 : Z) (key : NetAddress) : Z :=
  sip_hash k0 k1 ((le_bytes16 <$> vec_to_list (address key)) ++ [le_bytes16 (port key)]).
End NetAddressKey.

#[export] Instance NetAddress_IBLTKey `{SipHasher} : IBLTKey NetAddress := {
  key_default := mkNetAddress (vreplicate 8 0) 0;
  key_xor := NetAddressKey.bitxor_assign;
  hash_to_u64_with_keys := NetAddressKey.hash_to_u64_with_keys
}.

#[export] Instance NetAddress_laws `{SipHasher} : IBLTKeyLaws NetAddress.
Proof.
  split.
  - intros [x p] [y q]. apply (f_equal2 mkNetAddress); [apply array_xor_comm|apply Z.lxor_comm].
  - intros [x p] [y q] [z r]. apply (f_equal2 mkNetAddress); [apply array_xor_assoc|apply Z.lxor_assoc].
  - intros [x p]. apply (f_equal2 mkNetAddress); [apply array_xor_zero|done].
  - intros [x p]. apply (f_equal2 mkNetAddress); [apply array_xor_self|apply Z.lxor_nilpotent].
Qed.

(** ** A concrete hash for examples: a polynomial in the bytes, seeded with the keys *)

Definition PolyHasher : SipHasher := λ k0 k1 chunks,
  foldl (λ acc b, (acc * 31 + b) mod 4093) ((k0 + 3 * k1 + 7) mod 4093) (concat chunks).

(** The digest whose bytes are all [b], as in the tests of src/iblt.rs. *)
Definition key_of_byte (b : Z) : ContentKey := mkContentKey (vreplicate DIGEST_LEN b).
