(* ===== verification/IbltSync.v ===== *)
(** * Reconciling two sets with tables

    Tables that two nodes build from their sets of keys (the loop of
    [compute_content_iblt], src/db.rs) are subtracted and peeled, as the updater
    does with the table of a peer (src/updater.rs).  Also here: the two ways the
    reconciliation goes wrong, one by a table that no node builds (peeling
    does not end) and one by keys that share their cells (nothing is
    listed and no error is reported). *)

From S2P Require Import Prelude Machine IbltTable IbltCells IbltAlgebra IbltRefine IbltPeel Keys.
#[local] Open Scope Z_scope.

Section Build.
Context `{SipHasher} {K : Type} `{!IBLTKey K} {E : Type}.

(** [let mut iblt = IBLT::new(..); for key in .. { iblt.insert(key) }] *)
Definition build (m : Z) (n : nat) (a b : Z) (keys : list K) : res E (IBLT K) :=
  t ← Iblt.new m n a b;
  for_each keys Iblt.insert t.

(** What separates two sets: entries only the first has, entries only the
    second has. *)
Definition set_diff (A B : list K) : list (IBLTEntry K) :=
  (Inserted <$> list_difference A B) ++ (Deleted <$> list_difference B A).
End Build.

Section BuildLaws.
Context `{SipHasher} {K : Type} `{!IBLTKey K, !IBLTKeyLaws K} {E : Type}.
Implicit Types (A B : list K).

Lemma insert_all_represents A t L :
  represents t L ->
  exists t', for_each (E:=E) A Iblt.insert t = Ok t' /\ params_of t' = params_of t /\
             represents t' ((Inserted <$> A) ++ L).
Proof.
  revert t L. induction A as [|x A IH]; intros t L Ht; [by exists t|].
  cbn [for_each]. destruct (insert_represents (E:=E) t L x Ht) as (t1 & -> & Hp1 & H1).
  destruct (IH _ _ H1) as (t' & Hloop & Hp' & H'). exists t'.
  split; [done|]. split; [congruence|].
  rewrite fmap_cons, <- app_comm_cons. by rewrite Permutation_middle.
Qed.

Lemma build_represents m n a b A :
  0 < m -> (n <= K_MAX)%nat ->
  exists t, build (E:=E) m n a b A = Ok t /\ params_of t = new_params m n a b /\
            represents t (Inserted <$> A).
Proof.
  intros Hm Hn. unfold build.
  destruct (new_represents (E:=E) m n a b Hm Hn) as (t & -> & Hp & Ht). simpl.
  destruct (insert_all_represents A t [] Ht) as (t' & -> & Hp' & H'). exists t'.
  rewrite app_nil_r in H'. split; [done|]. split; [congruence|done].
Qed.

Lemma represents_cancel_all t A L1 L2 :
  represents t ((Inserted <$> A) ++ L1 ++ (Deleted <$> A) ++ L2) <-> represents t (L1 ++ L2).
Proof.
  induction A as [|x A IH]; [done|]. rewrite <- IH, !fmap_cons.
  etrans; [|apply (represents_cancel t (Inserted x))]. apply represents_proper.
  rewrite <- !app_comm_cons. apply perm_skip. simpl entry_inv.
  rewrite !(assoc_L (++)). by rewrite <- Permutation_middle, <- (assoc_L (++) _ (Deleted <$> A)).
Qed.

Lemma split_difference A B : NoDup A -> NoDup B ->
  exists C, A ≡ₚ C ++ list_difference A B /\ B ≡ₚ C ++ list_difference B A.
Proof.
  intros HA HB. exists (list_intersection A B).
  split; (apply NoDup_Permutation; [done| |]).
  1, 3: apply NoDup_app; split_and!; eauto using NoDup_list_intersection, NoDup_list_difference.
  1, 2: intros x; rewrite list_elem_of_intersection, list_elem_of_difference; naive_solver.
  all: intros x; rewrite elem_of_app, list_elem_of_intersection, list_elem_of_difference;
    destruct (decide (x ∈ A)), (decide (x ∈ B)); naive_solver.
Qed.

Lemma entry_inv_inserted A : entry_inv <$> (Inserted <$> A) = Deleted <$> A.
Proof. by rewrite <- list_fmap_compose. Qed.

(** Subtracting the table of [B] from the table of [A] is a table of their
    difference. *)
Lemma substract_set_diff ta tb A B :
  NoDup A -> NoDup B ->
  represents ta (Inserted <$> A) -> represents tb (Inserted <$> B) ->
  params_of ta = params_of tb ->
  exists t, Iblt.substract (E:=E) ta tb = Ok t /\ params_of t = params_of ta /\
            represents t (set_diff A B).
Proof.
  intros HA HB Ha Hb Hp.
  destruct (substract_represents (E:=E) ta tb _ _ Ha Hb Hp) as (t & Ht & Hpt & Hr).
  exists t. split; [done|]. split; [done|].
  destruct (split_difference A B HA HB) as (C & HCA & HCB).
  rewrite entry_inv_inserted in Hr. unfold set_diff.
  set (DA := list_difference A B) in *. set (DB := list_difference B A) in *.
  clearbody DA DB. rewrite HCA, HCB, !fmap_app, <- (assoc_L (++)) in Hr. 
  exact (proj1 (represents_cancel_all _ _ _ _) Hr).
Qed.

Lemma set_diff_length A B : NoDup A -> NoDup B ->
  (length (set_diff A B) <= length A + length B)%nat.
Proof.
  intros HA HB. destruct (split_difference A B HA HB) as (C & ->%Permutation_length & ->%Permutation_length).
  unfold set_diff. rewrite !length_app, !length_fmap. lia.
Qed.

#[local] Instance Inserted_inj : Inj (=) (=) (@Inserted K).
Proof. by intros x y [= ->]. Qed.
#[local] Instance Deleted_inj : Inj (=) (=) (@Deleted K).
Proof. by intros x y [= ->]. Qed.

Lemma NoDup_set_diff A B : NoDup A -> NoDup B -> NoDup (set_diff A B).
Proof.
  intros HA HB. unfold set_diff. apply NoDup_app. split_and!.
  - apply (NoDup_fmap_2 _), NoDup_list_difference, HA.
  - intros e (x & -> & _)%list_elem_of_fmap (y & Heq & _)%list_elem_of_fmap. done.
  - apply (NoDup_fmap_2 _), NoDup_list_difference, HB.
Qed.

Lemma elem_of_set_diff A B e :
  e ∈ set_diff A B <->
  match e with
  | Inserted x => x ∈ A /\ x ∉ B
  | Deleted x => x ∈ B /\ x ∉ A
  end.
Proof.
  unfold set_diff. rewrite elem_of_app, !list_elem_of_fmap.
  setoid_rewrite list_elem_of_difference. destruct e; naive_solver.
Qed.

(** ** Tables that were only inserted into *)

Lemma cell_inserted_count p j A :
  count (cell p j (Inserted <$> A)) = i32 (Z.of_nat (cell_size p j (Inserted <$> A))).
Proof.
  unfold cell_size. induction A as [|x A IH]; [done|]. rewrite fmap_cons.
  destruct (decide (hits p j (Inserted x))).
  - rewrite cell_cons_hit, filter_cons_True by done. simpl. rewrite IH, i32_add_r.
    f_equal. lia.
  - by rewrite cell_cons_miss, filter_cons_False.
Qed.

Lemma inserted_balanced_nil p A :
  wf_params p -> p_ks p <> [] -> Z.of_nat (length A) < 2 ^ 31 ->
  balanced p (Inserted <$> A) -> A = [].
Proof.
  intros [_ Hl] Hks Hlen Hb. destruct A as [|x A]; [done|]. exfalso.
  destruct (key_cells_nonempty p x Hks) as [j Hj].
  specialize (Hb j (key_cells_lt p x j Hl Hj)). rewrite cell_inserted_count in Hb.
  assert (cell_size p j (Inserted <$> x :: A) <= length (x :: A))%nat as Hle.
  { unfold cell_size. etrans; [apply length_filter|]. by rewrite length_fmap. }
  rewrite i32_small in Hb by (unfold is_i32; lia).
  rewrite fmap_cons, cell_size_cons, decide_True in Hb by done. lia.
Qed.
End BuildLaws.

(** ** Peeling a table in which a key is missing from one of its cells *)

Section Lone.
Context {K : Type} `{!IBLTKey K, !IBLTKeyLaws K} {E : Type}.
Variables (p : params) (x : K) (i : nat).
Hypotheses (Hwf : wf_params p) (Hi : i ∈ key_cells p x).

(** [x] sits in cell [i] alone; [others] is what remains when it is peeled. *)
Definition lone (t : IBLT K) : Prop :=
  params_of t = p /\ forall j, (j < p_len p)%nat ->
    buckets t !! j = Some (if decide (j = i) then bucket_of p (Inserted x) else Bucket_default).
Definition others (t : IBLT K) : Prop :=
  params_of t = p /\ forall j, (j < p_len p)%nat ->
    buckets t !! j = Some (if decide (j ∈ key_cells p x /\ j <> i)
                           then bucket_of p (Deleted x) else Bucket_default).

Lemma pop_stale (t : IBLT K) q1 j q2 :
  (forall i, i ∈ q1 -> buckets t !! i = Some Bucket_default) ->
  forall e, buckets t !! j = Some (bucket_of p e) ->
  IBLTIterator.pop_cell (E:=E) t (q1 ++ j :: q2) = Ok (Some (bucket_of p e, q2)).
Proof.
  intros Hq e Hj. induction q1 as [|s q1 IH]; simpl.
  - rewrite (index_Some _ _ _ Hj). simpl. rewrite decide_True; [done|]. by destruct e.
  - rewrite (index_Some _ _ _ (Hq s (list_elem_of_here _ _))). simpl.
    apply IH. set_solver.
Qed.

(** One call of [next] that peels the entry [e] of [x]. *)
Lemma next_peel (t : IBLT K) q1 j q2 e :
  entry_key e = x -> params_of t = p ->
  (forall i, i ∈ q1 -> buckets t !! i = Some Bucket_default) ->
  buckets t !! j = Some (bucket_of p e) ->
  exists t', IBLTIterator.next (E:=E) (IBLTIterator.mk t (q1 ++ j :: q2) false) =
    Ok (Some (inl e), IBLTIterator.mk t' (q2 ++ filter (λ n, pure p
          (from_option (λ b, bucket_add b (bucket_of p (entry_inv e))) Bucket_default
             (buckets t !! n)) = true) (key_cells p x)) false) /\
    params_of t' = p /\
    forall k, buckets t' !! k =
      (if decide (k ∈ key_cells p x) then λ b, bucket_add b (bucket_of p (entry_inv e)) else id)
        <$> buckets t !! k.
Proof.
  intros Hx Hp Hq Hj. unfold IBLTIterator.next. cbn [IBLTIterator.incomplete IBLTIterator.iblt IBLTIterator.queue].
  rewrite (pop_stale t q1 j q2 Hq e Hj). cbn [mbind res_bind bucket_of keysum count].
  destruct (bucket_items (E:=E) t (entry_key e)) as (cells & Hnew & Hitems); [by rewrite Hp|].
  rewrite Hnew. cbn [mbind res_bind]. rewrite Hitems, Hp.
  destruct (peel_loop_spec (E:=E) e (key_cells p (entry_key e)) t q2) as (t' & Hloop & Hp' & Hj').
  { apply NoDup_key_cells. }
  { rewrite <- Hp. apply key_cells_bounds. by rewrite Hp. }
  rewrite Hp in Hloop, Hj', Hp'.
  replace (Iblt.keyhash t (entry_key e)) with (p_keyhash p (entry_key e)) by (rewrite <- Hp; done).
  rewrite Hloop. cbn [mbind res_bind]. rewrite Hx in *.
  exists t'. split; [|by split]. do 3 f_equal. destruct e; simpl in Hx; by subst.
Qed.

Lemma pure_default_inv : pure p (Bucket_default (K:=K)) = false.
Proof. done. Qed.

Lemma add_inv_same e : bucket_add (bucket_of p e) (bucket_of p (entry_inv e)) = Bucket_default (K:=K).
Proof.
  rewrite <- (bucket_add_inv p e Bucket_default) by done. f_equal.
  rewrite bucket_add_comm. symmetry. apply bucket_add_default. by destruct e.
Qed.

Lemma add_ins_del :
  bucket_add (bucket_of p (Inserted x)) (bucket_of p (Deleted x)) = Bucket_default.
Proof. apply (add_inv_same (Inserted x)). Qed.
Lemma add_del_ins :
  bucket_add (bucket_of p (Deleted x)) (bucket_of p (Inserted x)) = Bucket_default.
Proof. apply (add_inv_same (Deleted x)). Qed.

Lemma add_default_of e : bucket_add Bucket_default (bucket_of p e) = bucket_of (K:=K) p e.
Proof. apply bucket_add_default. by destruct e. Qed.

(** Peeling from [lone] lists [x] as inserted and reaches [others], which has
    all the other cells of [x] in its queue. *)
Lemma next_lone t q1 :
  lone t -> (forall s, s ∈ q1 -> s <> i /\ (s < p_len p)%nat) ->
  exists t', IBLTIterator.next (E:=E) (IBLTIterator.mk t (q1 ++ [i]) false) =
    Ok (Some (inl (Inserted x)),
        IBLTIterator.mk t' (filter (λ n, n <> i) (key_cells p x)) false) /\ others t'.
Proof.
  intros [Hp Ht] Hq. pose proof (key_cells_lt p x i (proj2 Hwf) Hi) as Hil.
  destruct (next_peel t q1 i [] (Inserted x)) as (t' & Hn & Hp' & Hb); [done..| | |].
  { intros s [Hs Hl]%Hq. rewrite (Ht s Hl). by rewrite decide_False. }
  { rewrite (Ht i Hil). by rewrite decide_True. }
  exists t'. rewrite Hn. split; [|split; [done|]].
  - do 3 f_equal. apply filter_ext_elem. intros n Hn'.
    rewrite (Ht n) by (apply (key_cells_lt p x); [apply Hwf|done]). simpl.
    case_decide as Hni.
    + rewrite add_ins_del. simpl. naive_solver.
    + rewrite (add_default_of (Deleted x)), pure_bucket_of. done.
  - intros j Hj. rewrite Hb, (Ht j Hj). simpl.
    destruct (decide (j ∈ key_cells p x)) as [Hjx|Hjx].
    + case_decide as Hji; [rewrite decide_False by naive_solver; by rewrite add_ins_del|].
      rewrite decide_True by done. by rewrite (add_default_of (Deleted x)).
    + rewrite (decide_False (P := _ /\ _)) by naive_solver.
      by rewrite decide_False by (intros ->; done).
Qed.

(** Peeling from [others] lists [x] as deleted and is back at [lone]. *)
Lemma next_others t n ns :
  others t -> filter (λ n, n <> i) (key_cells p x) = n :: ns ->
  exists t', IBLTIterator.next (E:=E) (IBLTIterator.mk t (n :: ns) false) =
    Ok (Some (inl (Deleted x)), IBLTIterator.mk t' (ns ++ [i]) false) /\ lone t'.
Proof.
  intros [Hp Ht] Hf.
  assert (n ∈ filter (λ n, n <> i) (key_cells p x)) as [Hni Hn]%list_elem_of_filter
    by (rewrite Hf; set_solver).
  pose proof (key_cells_lt p x n (proj2 Hwf) Hn) as Hnl.
  destruct (next_peel t [] n ns (Deleted x)) as (t' & Hnx & Hp' & Hb); [done|done|set_solver| |].
  { rewrite (Ht n Hnl). by rewrite decide_True. }
  exists t'. cbn [app] in Hnx. rewrite Hnx. split; [|split; [done|]].
  - do 4 f_equal.
    rewrite (filter_ext_elem _ (λ n, n = i)).
    + apply filter_eq_singleton; [apply NoDup_key_cells|done].
    + intros k Hk. rewrite (Ht k) by (apply (key_cells_lt p x); [apply Hwf|done]). simpl.
      case_decide as Hki.
      * rewrite add_del_ins. simpl. naive_solver.
      * rewrite (add_default_of (Inserted x)), pure_bucket_of. split; [intros _|done]. destruct (decide (k = i)); tauto.
  - intros j Hj. rewrite Hb, (Ht j Hj). simpl.
    destruct (decide (j ∈ key_cells p x)) as [Hjx|Hjx].
    + case_decide as Hji.
      * rewrite (decide_False (P := j = i)) by tauto. by rewrite add_del_ins.
      * rewrite decide_True by (destruct (decide (j = i)); tauto). by rewrite (add_default_of (Inserted x)).
    + rewrite (decide_False (P := _ /\ _)) by tauto.
      by rewrite decide_False by (intros ->; done).
Qed.
End Lone.

(** ** Theorems *)

Section Theorems.
Context `{SipHasher} {K : Type} `{!IBLTKey K, !IBLTKeyLaws K} {E : Type}.

(** C7: two nodes build tables of their key sets [A] and [B] with the same
    parameters; subtracting the second from the first and iterating never
    panics and ends within [|A| + |B| + 2] calls of [next].  The items are
    distinct entries of the set difference, with the right sign; they are
    followed by [IncompleteIteration] exactly when the entries not listed leave
    a non-zero count in some bucket. *)
Theorem reconcile_spec (m : Z) (n : nat) (a b : Z) (A B : list K) :
  0 < m -> (n <= K_MAX)%nat -> NoDup A -> NoDup B ->
  honest (new_params m n a b) (set_diff A B) ->
  exists ta tb t Y R ok,
    build (E:=E) m n a b A = Ok ta /\ build (E:=E) m n a b B = Ok tb /\
    Iblt.substract (E:=E) ta tb = Ok t /\
    Y ++ R ≡ₚ set_diff A B /\ (ok = true <-> balanced (new_params m n a b) R) /\
    forall fuel, (length A + length B + 2 <= fuel)%nat ->
      IBLTIterator.run (E:=E) fuel (IBLTIterator.new t) =
      Ok (Some ((inl <$> Y) ++ (if ok then [] else [inr IncompleteIteration]))).
Proof.
  intros Hm Hn HA HB Hh.
  destruct (build_represents (E:=E) m n a b A Hm Hn) as (ta & Hta & Hpa & Hra).
  destruct (build_represents (E:=E) m n a b B Hm Hn) as (tb & Htb & Hpb & Hrb).
  destruct (substract_set_diff (E:=E) ta tb A B) as (t & Ht & Hp & Hr); [done..|congruence|].
  rewrite Hpa in Hp. pose proof (proj1 Hr) as Hw. rewrite Hp in Hw.
  destruct (peel_run (E:=E) _ _ Hw Hh t Hp Hr) as (Y & R & ok & HYR & _ & Hok & Hrun).
  exists ta, tb, t, Y, R, ok. split_and!; [done..|].
  intros fuel Hf. apply Hrun. pose proof (set_diff_length A B HA HB). lia.
Qed.

(** A table that was only inserted into is listed completely, in some
    order and without error, or the iteration ends with the error. *)
Theorem list_all_or_error (m : Z) (n : nat) (a b : Z) (A : list K) :
  0 < m -> (0 < n <= K_MAX)%nat -> Z.of_nat (length A) < 2 ^ 31 ->
  honest (new_params m n a b) (Inserted <$> A) ->
  exists t ks, build (E:=E) m n a b A = Ok t /\ ks ⊆+ A /\
    ((ks ≡ₚ A /\ forall fuel, (length A + 2 <= fuel)%nat ->
       IBLTIterator.run (E:=E) fuel (IBLTIterator.new t) = Ok (Some (inl <$> (Inserted <$> ks)))) \/
     (~ ks ≡ₚ A /\ forall fuel, (length A + 2 <= fuel)%nat ->
       IBLTIterator.run (E:=E) fuel (IBLTIterator.new t) =
       Ok (Some ((inl <$> (Inserted <$> ks)) ++ [inr IncompleteIteration])))).
Proof.
  intros Hm Hn Hlen Hh.
  destruct (build_represents (E:=E) m n a b A Hm (proj2 Hn)) as (t & Ht & Hp & Hr).
  pose proof (proj1 Hr) as Hw. rewrite Hp in Hw.
  destruct (peel_run (E:=E) _ _ Hw Hh t Hp Hr) as (Y & R & ok & HYR & _ & Hok & Hrun).
  rewrite length_fmap in Hrun.
  assert (exists ks rs, Y = Inserted <$> ks /\ R = Inserted <$> rs /\ A ≡ₚ ks ++ rs)
    as (ks & rs & -> & -> & HA).
  { apply Permutation_map_inv in HYR as (l & Hl & Hperm).
    symmetry in Hl. apply fmap_app_inv in Hl as (ks & rs & -> & -> & ->). by exists ks, rs. }
  exists t, ks. split; [done|]. split; [rewrite HA; by apply submseteq_inserts_r|].
  destruct ok.
  - left. rewrite HA. assert (rs = []) as ->.
    { eapply inserted_balanced_nil; [done| | |by apply Hok].
      - unfold new_params. simpl. intros Hnil%(f_equal length).
        rewrite generate_ksequence_length in Hnil. simpl in Hnil. lia.
      - apply Permutation_length in HA. rewrite length_app in HA. lia. }
    rewrite app_nil_r. split; [done|]. intros fuel Hf. rewrite Hrun by done.
    unfold final_items. by rewrite app_nil_r.
  - right. split; [|done]. intros Hperm. rewrite HA in Hperm.
    assert (rs = []) as ->.
    { apply Permutation_length in Hperm. rewrite length_app in Hperm.
      destruct rs; [done|]. simpl in Hperm. lia. }
    enough (false = true) by done. apply Hok. intros j _. done.
Qed.

(** a table depends on the set of keys only: any two enumerations of the
    keys build equal tables. *)
Theorem build_order_irrelevant (m : Z) (n : nat) (a b : Z) (A A' : list K) :
  0 < m -> (n <= K_MAX)%nat -> A ≡ₚ A' -> build (E:=E) m n a b A = build m n a b A'.
Proof.
  intros Hm Hn HA.
  destruct (build_represents (E:=E) m n a b A Hm Hn) as (t & -> & Hp & Hr).
  destruct (build_represents (E:=E) m n a b A' Hm Hn) as (t' & -> & Hp' & Hr').
  f_equal. apply (represents_unique _ _ (Inserted <$> A)); [done| |congruence].
  eapply represents_proper; [|exact Hr']. by rewrite HA.
Qed.

(** deleting a key undoes its insertion, wherever it happened in the history of
    the table. *)
Theorem delete_undoes_insert (t t' : IBLT K) (keys : list K) (key : K) :
  represents t [] ->
  for_each (E:=E) (key :: keys) Iblt.insert t = Ok t' ->
  Iblt.delete (E:=E) t' key = for_each keys Iblt.insert t.
Proof.
  intros Ht Hall.
  destruct (insert_all_represents (E:=E) (key :: keys) t [] Ht) as (t1 & H1 & Hp1 & Hr1).
  assert (t1 = t') as -> by congruence.
  destruct (insert_all_represents (E:=E) keys t [] Ht) as (t2 & -> & Hp2 & Hr2).
  destruct (delete_represents (E:=E) t' _ key Hr1) as (t3 & -> & Hp3 & Hr3).
  f_equal. apply (represents_unique _ _ ((Inserted <$> keys) ++ [])); [|done|congruence].
  apply (represents_cancel t3 (Deleted key)). done.
Qed.

(** C32: peeling does not end on a table that lacks a key in all but one of the
    key's cells, which no sequence of insertions and deletions builds but a
    peer can send: the key is listed as inserted and as deleted for ever, for
    every hash function that gives it two cells. *)
Theorem peeling_diverges (t : IBLT K) (x : K) (i : nat) :
  wf_params (params_of t) -> i ∈ key_cells (params_of t) x ->
  (1 < length (key_cells (params_of t) x))%nat ->
  lone (params_of t) x i t ->
  forall fuel, IBLTIterator.run (E:=E) fuel (IBLTIterator.new t) = Ok None.
Proof.
  intros Hw Hi Hlen Hlone fuel. set (p := params_of t) in *.
  assert (exists n ns, filter (λ n, n <> i) (key_cells p x) = n :: ns) as (n & ns & Hf).
  { destruct (filter (λ n, n <> i) (key_cells p x)) as [|n ns] eqn:Hf; [|by eauto].
    exfalso. assert (forall y, y ∈ key_cells p x -> y = i) as Hall.
    { intros y Hy. destruct (decide (y = i)) as [|Hne]; [done|].
      assert (y ∈ filter (λ n, n <> i) (key_cells p x)) as Hin
        by (apply list_elem_of_filter; done). rewrite Hf in Hin. set_solver. }
    pose proof (NoDup_key_cells p x) as Hnd.
    destruct (key_cells p x) as [|c1 [|c2 l]]; simpl in Hlen; [lia..|].
    apply NoDup_cons in Hnd as [Hc _]. apply Hc.
    rewrite (Hall c1), (Hall c2) by set_solver. set_solver. }
  assert (forall fuel t' q1, lone p x i t' -> (forall s, s ∈ q1 -> s <> i /\ (s < p_len p)%nat) ->
    IBLTIterator.run (E:=E) fuel (IBLTIterator.mk t' (q1 ++ [i]) false) = Ok None) as Hrun.
  { clear fuel. intros fuel. induction fuel as [fuel IH] using lt_wf_ind. intros t' q1 Ht' Hq.
    destruct fuel as [|fuel]; [done|]. cbn [IBLTIterator.run].
    destruct (next_lone (E:=E) p x i Hw Hi t' q1 Ht' Hq) as (t2 & -> & H2).
    cbn [mbind res_bind]. rewrite Hf.
    destruct fuel as [|fuel]; [done|]. cbn [IBLTIterator.run].
    destruct (next_others (E:=E) p x i Hw Hi t2 n ns H2 Hf) as (t3 & -> & H3).
    cbn [mbind res_bind]. rewrite IH; [done|lia|done|].
    intros s Hs. assert (s ∈ filter (λ n, n <> i) (key_cells p x)) as [? Hsx]%list_elem_of_filter
      by (rewrite Hf; set_solver). split; [done|]. by apply (key_cells_lt p x); [apply Hw|]. }
  assert (IBLTIterator.new t = IBLTIterator.mk t ([] ++ [i]) false) as ->; [|apply (Hrun _ t []); [done|set_solver]].
  unfold IBLTIterator.new. f_equal.
  apply NoDup_singleton_eq; [apply NoDup_fst_filter_enumerate|]. intros y.
  pose proof (key_cells_lt p x i (proj2 Hw) Hi) as Hil. destruct Hlone as [_ Hlone].
  rewrite list_elem_of_fmap. split.
  - intros ([y' bk] & -> & [Hpure Hy%elem_of_enumerate]%list_elem_of_filter). simpl.
    rewrite (Hlone y') in Hy by (by eapply lookup_lt_Some). by case_decide; simplify_eq.
  - intros ->. exists (i, bucket_of p (Inserted x)). split; [done|].
    apply list_elem_of_filter. split; [apply (pure_bucket_of p)|].
    apply elem_of_enumerate. rewrite (Hlone i Hil). by rewrite decide_True.
Qed.

(** Two sets that differ in keys with equal cells look equal: the
    iterator lists nothing and reports no error, because it only tests
    the counts of the buckets. *)
Theorem shared_cells_unreported (m : Z) (n : nat) (a b : Z) (x y : K) :
  0 < m -> (n <= K_MAX)%nat ->
  key_cells (new_params m n a b) x = key_cells (new_params m n a b) y ->
  exists tx ty t, build (E:=E) m n a b [x] = Ok tx /\ build (E:=E) m n a b [y] = Ok ty /\
    Iblt.substract (E:=E) tx ty = Ok t /\
    forall fuel, (0 < fuel)%nat ->
      IBLTIterator.run (E:=E) fuel (IBLTIterator.new t) = Ok (Some []).
Proof.
  intros Hm Hn Hxy.
  destruct (build_represents (E:=E) m n a b [x] Hm Hn) as (tx & Htx & Hpx & Hrx).
  destruct (build_represents (E:=E) m n a b [y] Hm Hn) as (ty & Hty & Hpy & Hry).
  destruct (substract_represents (E:=E) tx ty _ _ Hrx Hry) as (t & Ht & Hp & Hr); [congruence|].
  exists tx, ty, t. split_and!; [done..|]. intros fuel Hfuel.
  assert (forall i bk, buckets t !! i = Some bk -> count bk = 0) as Hcount.
  { intros i bk Hi. rewrite (represents_lookup t _ i Hr) in Hi by (by eapply lookup_lt_Some).
    injection Hi as <-. rewrite Hp, Hpx. unfold cell. simpl.
    rewrite !filter_cons. unfold hits. simpl.
    repeat case_decide; try done; by rewrite Hxy in *. }
  assert (IBLTIterator.new t = IBLTIterator.mk t [] false) as ->.
  { unfold IBLTIterator.new. f_equal. apply elem_of_nil_inv.
    intros y' ([i' bk'] & -> & Hin)%list_elem_of_fmap. revert i' bk' Hin.
    intros i bk [Hpure Hi%elem_of_enumerate]%list_elem_of_filter.
    apply Hcount in Hi. apply (pure_count (params_of t)) in Hpure. by rewrite Hi in Hpure. }
  destruct fuel as [|fuel]; [lia|]. simpl. unfold IBLTIterator.next. simpl.
  assert (forallb (λ bucket, bool_decide (count bucket = 0)) (buckets t) = true) as ->; [|done].
  apply forallb_forall. intros bk (i & Hi)%list_elem_of_In%list_elem_of_lookup.
  rewrite bool_decide_eq_true. by eapply Hcount.
Qed.

(** [BucketIterator] enumerates the cells that the hash functions of the
    table name for a key, in strictly increasing order, and does not panic
    when the table has a bucket and at most [K_MAX] hash functions. *)
Theorem bucket_iterator_enumerates (t : IBLT K) (key : K) :
  wf_params (params_of t) ->
  exists it, BucketIterator.new (E:=E) t key = Ok it /\
    StronglySorted lt (BucketIterator.items it) /\
    forall c, c ∈ BucketIterator.items it <->
      exists a b, (a, b) ∈ ksequence t /\
        Z.of_nat c = hash_to_u64_with_keys a b key mod Z.of_nat (length (buckets t)).
Proof.
  intros Hw. destruct (bucket_items (E:=E) t key Hw) as (it & Hit & Hitems). exists it.
  split; [done|]. rewrite Hitems. split; [apply key_cells_sorted|]. intros c.
  rewrite elem_of_key_cells. destruct Hw as [_ Hl]. unfold cell_of.
  split; [intros ([a b] & Hab & <-); exists a, b|intros (a & b & Hab & Hc); exists (a, b)];
    (split; [done|]); simpl in *;
    pose proof (Z.mod_pos_bound (hash_to_u64_with_keys a b key) (Z.of_nat (length (buckets t))));
    lia.
Qed.

(** On tables that represent lists of signed entries, [insert], [delete]
    and [substract] never panic and act as adding an entry, adding the opposite
    entry, and adding the opposites of the other table's entries. *)
Theorem operations_refine_entries (t t' : IBLT K) (L L' : list (IBLTEntry K)) (key : K) :
  represents t L -> represents t' L' -> params_of t = params_of t' ->
  (exists u, Iblt.insert (E:=E) t key = Ok u /\ represents u (Inserted key :: L)) /\
  (exists u, Iblt.delete (E:=E) t key = Ok u /\ represents u (Deleted key :: L)) /\
  (exists u, Iblt.substract (E:=E) t t' = Ok u /\ represents u (L ++ (entry_inv <$> L'))).
Proof.
  intros Ht Ht' Hp. split_and!.
  - destruct (insert_represents (E:=E) t L key Ht) as (u & ? & _ & ?). by exists u.
  - destruct (delete_represents (E:=E) t L key Ht) as (u & ? & _ & ?). by exists u.
  - destruct (substract_represents (E:=E) t t' L L' Ht Ht' Hp) as (u & ? & _ & ?). by exists u.
Qed.
End Theorems.

(** ** Concrete instances *)

Module Examples.
#[local] Existing Instance PolyHasher.

Definition keys12 : list ContentKey := key_of_byte <$> [1; 2].
Definition keys26 : list ContentKey := key_of_byte <$> [2; 6].
Definition table0 : IBLT ContentKey :=
  mkIBLT (replicate 5 Bucket_default) 0 0 3 (generate_ksequence 3 0 0).
Definition table12 : IBLT ContentKey :=
  match build (E:=unit) 5 3 0 0 keys12 with Ok t => t | _ => table0 end.
(** A table that holds key 1 in its first cell only. *)
Definition lone_table : IBLT ContentKey :=
  let p := new_params 5 3 0 0 in
  let c := default 0%nat (head (key_cells p (key_of_byte 1))) in
  mkIBLT (<[c := bucket_of p (Inserted (key_of_byte 1))]> (replicate 5 Bucket_default))
         0 0 3 (generate_ksequence 3 0 0).

Lemma keys12_NoDup : NoDup keys12.
Proof. apply (bool_decide_unpack _). by vm_compute. Qed.
Lemma keys26_NoDup : NoDup keys26.
Proof. apply (bool_decide_unpack _). by vm_compute. Qed.
Lemma table0_represents : represents table0 [].
Proof. split; [vm_compute; repeat constructor; discriminate|reflexivity]. Qed.

Lemma reconcile_spec_witness :
  exists ta tb t Y R ok,
    build (E:=unit) 5 3 0 0 keys12 = Ok ta /\ build (E:=unit) 5 3 0 0 keys26 = Ok tb /\
    Iblt.substract (E:=unit) ta tb = Ok t /\
    Y ++ R ≡ₚ set_diff keys12 keys26 /\ (ok = true <-> balanced (new_params 5 3 0 0) R) /\
    forall fuel, (length keys12 + length keys26 + 2 <= fuel)%nat ->
      IBLTIterator.run (E:=unit) fuel (IBLTIterator.new t) =
      Ok (Some ((inl <$> Y) ++ (if ok then [] else [inr IncompleteIteration]))).
Proof.
  apply (reconcile_spec (E:=unit) 5 3 0 0 keys12 keys26).
  - lia.
  - unfold K_MAX. lia.
  - apply keys12_NoDup.
  - apply keys26_NoDup.
  - apply honestb_honest. vm_compute. reflexivity.
Defined.

Lemma list_all_or_error_witness :
  exists t ks, build (E:=unit) 5 3 0 0 keys12 = Ok t /\ ks ⊆+ keys12 /\
    ((ks ≡ₚ keys12 /\ forall fuel, (length keys12 + 2 <= fuel)%nat ->
       IBLTIterator.run (E:=unit) fuel (IBLTIterator.new t) = Ok (Some (inl <$> (Inserted <$> ks)))) \/
     (~ ks ≡ₚ keys12 /\ forall fuel, (length keys12 + 2 <= fuel)%nat ->
       IBLTIterator.run (E:=unit) fuel (IBLTIterator.new t) =
       Ok (Some ((inl <$> (Inserted <$> ks)) ++ [inr IncompleteIteration])))).
Proof.
  apply (list_all_or_error (E:=unit) 5 3 0 0 keys12).
  - lia.
  - unfold K_MAX. lia.
  - vm_compute. reflexivity.
  - apply honestb_honest. vm_compute. reflexivity.
Defined.

Lemma build_order_irrelevant_witness :
  build (E:=unit) 5 3 0 0 keys12 = build 5 3 0 0 (reverse keys12).
Proof.
  apply (build_order_irrelevant (E:=unit) 5 3 0 0); [lia|unfold K_MAX; lia|].
  symmetry. apply reverse_Permutation.
Defined.

Lemma delete_undoes_insert_witness :
  Iblt.delete (E:=unit) table12 (key_of_byte 1) = for_each [key_of_byte 2] Iblt.insert table0.
Proof.
  apply (delete_undoes_insert (E:=unit) table0 table12 [key_of_byte 2] (key_of_byte 1)).
  - apply table0_represents.
  - vm_compute. reflexivity.
Defined.

Lemma lone_table_wf : wf_params (params_of lone_table).
Proof. split; vm_compute; [lia|discriminate]. Qed.
Lemma lone_table_cells : key_cells (params_of lone_table) (key_of_byte 1) = [0; 1; 2]%nat.
Proof. vm_compute. reflexivity. Qed.
Lemma lone_table_buckets : buckets lone_table =
  <[0%nat := bucket_of (params_of lone_table) (Inserted (key_of_byte 1))]>
    (replicate 5 Bucket_default).
Proof. vm_compute. reflexivity. Qed.
Lemma lone_table_lone : lone (params_of lone_table) (key_of_byte 1) 0 lone_table.
Proof.
  split; [done|]. intros j Hj. rewrite lone_table_buckets.
  change (p_len (params_of lone_table)) with 5%nat in Hj.
  case_decide as Hj2; [by subst; rewrite list_lookup_insert_eq by (rewrite length_replicate; lia)|].
  by rewrite list_lookup_insert_ne, lookup_replicate_2 by lia.
Qed.

Lemma peeling_diverges_witness :
  IBLTIterator.run (E:=unit) 1000 (IBLTIterator.new lone_table) = Ok None.
Proof.
  apply (peeling_diverges (E:=unit) lone_table (key_of_byte 1) 0).
  - apply lone_table_wf.
  - rewrite lone_table_cells. apply list_elem_of_here.
  - rewrite lone_table_cells. simpl. lia.
  - apply lone_table_lone.
Defined.

Lemma shared_cells_unreported_witness :
  key_of_byte 1 <> key_of_byte 2 /\
  exists tx ty t, build (E:=unit) 1 3 0 0 [key_of_byte 1] = Ok tx /\
    build (E:=unit) 1 3 0 0 [key_of_byte 2] = Ok ty /\ Iblt.substract (E:=unit) tx ty = Ok t /\
    forall fuel, (0 < fuel)%nat ->
      IBLTIterator.run (E:=unit) fuel (IBLTIterator.new t) = Ok (Some []).
Proof.
  split; [discriminate|].
  apply (shared_cells_unreported (E:=unit) 1 3 0 0 (key_of_byte 1) (key_of_byte 2)).
  - lia.
  - unfold K_MAX. lia.
  - vm_compute. reflexivity.
Defined.

Lemma bucket_iterator_enumerates_witness :
  exists it, BucketIterator.new (E:=unit) table0 (key_of_byte 1) = Ok it /\
    StronglySorted lt (BucketIterator.items it) /\
    forall c, c ∈ BucketIterator.items it <->
      exists a b, (a, b) ∈ ksequence table0 /\
        Z.of_nat c = hash_to_u64_with_keys a b (key_of_byte 1) mod Z.of_nat (length (buckets table0)).
Proof.
  apply (bucket_iterator_enumerates (E:=unit) table0 (key_of_byte 1)), table0_represents.
Defined.

Lemma operations_refine_entries_witness :
  (exists u, Iblt.insert (E:=unit) table0 (key_of_byte 1) = Ok u /\
     represents u [Inserted (key_of_byte 1)]) /\
  (exists u, Iblt.delete (E:=unit) table0 (key_of_byte 1) = Ok u /\
     represents u [Deleted (key_of_byte 1)]) /\
  (exists u, Iblt.substract (E:=unit) table0 table0 = Ok u /\ represents u []).
Proof.
  apply (operations_refine_entries (E:=unit) table0 table0 [] [] (key_of_byte 1));
    [apply table0_represents..|reflexivity].
Defined.
End Examples.
