(* ===== verification/Sketch.v ===== *)
(** * Min-sketches of key sets (src/iblt.rs)

    [min_sketch], [add_to_min_sketch] and [estimate_diff_size].  A sketch is the
    pointwise minimum of the keys' hashes, so it depends on the set of keys
    only and can be extended key by key; the estimate is computed in [f32]
    exactly as the code does. *)

From S2P Require Import Prelude Machine IbltTable IbltRefine Keys.
#[local] Open Scope Z_scope.

Section Sketch.
Context `{SipHasher} {K : Type} `{!IBLTKey K} {E : Type}.

Definition add_to_min_sketch (min_hashes : list Z) (key : K) (ksequence : list (Z * Z)) :
    res E (list Z) :=
  for_each (enumerate ksequence) (λ min_hashes '(i, (k0, k1)),
    m ← index min_hashes i;
    index_set min_hashes i (Z.min m (hash_to_u64_with_keys k0 k1 key))) min_hashes.

Definition min_sketch (n : nat) (k0 k1 : Z) (ids : list K) :
    res E (list Z * list (Z * Z) * Z) :=
  let ksequence := generate_ksequence n k0 k1 in
  '(min_hashes, n_keys) ← for_each ids (λ '(min_hashes, n_keys) id,
    min_hashes ← add_to_min_sketch min_hashes id ksequence;
    Ok (min_hashes, u32 (n_keys + 1))) (replicate n 18446744073709551615, 0);
  Ok (min_hashes, ksequence, n_keys).
End Sketch.

(** [((1.0-r)/(1.0+r)*(al + bl) as f32) as u32], with [r] the share of equal hashes. *)
Definition equal_hashes (sa sb : list Z) : Z :=
  Z.of_nat (length (filter (λ '(a, b), a = b) (zip sa sb))).

Definition estimate_diff_size {E} (sa : list Z) (al : Z) (sb : list Z) (bl : Z) : res E Z :=
  _ ← assert (bool_decide (length sa = length sb));
  let k := Z.of_nat (length sa) in
  let r := f32_div (f32_of_Z (equal_hashes sa sb)) (f32_of_Z k) in
  let one := f32_of_Z 1 in
  Ok (f32_to_u32 (f32_mul (f32_div (f32_sub one r) (f32_add one r)) (f32_of_Z (u32 (al + bl))))).

(** ** Specification *)

Section Spec.
Context `{SipHasher} {K : Type} `{!IBLTKey K} {E : Type}.

Definition hash_by (key : K) (kk : Z * Z) : Z := hash_to_u64_with_keys (fst kk) (snd kk) key.

(** The reference sketch: for each pair of keys the least hash over the set. *)
Definition sketch_of (ks : list (Z * Z)) (ids : list K) : list Z :=
  (λ kk, foldr (λ id m, Z.min m (hash_by id kk)) 18446744073709551615 ids) <$> ks.

Lemma sketch_of_length ks ids : length (sketch_of ks ids) = length ks.
Proof. unfold sketch_of. by rewrite length_fmap. Qed.

#[export] Instance sketch_of_proper ks : Proper ((≡ₚ) ==> (=)) (sketch_of ks).
Proof.
  intros ids ids' Hids. unfold sketch_of. apply list_fmap_ext. intros i kk _.
  induction Hids as [|id ids ids' _ IH|id id' ids|]; simpl; [done|by rewrite IH|lia|congruence].
Qed.

Lemma add_loop_spec (key : K) ks pre post :
  length post = length ks ->
  for_each (E:=E) (imap (λ i x, ((length pre + i)%nat, x)) ks) (λ min_hashes '(i, (k0, k1)),
    m ← index min_hashes i;
    index_set min_hashes i (Z.min m (hash_to_u64_with_keys k0 k1 key))) (pre ++ post) =
  Ok (pre ++ zip_with (λ m kk, Z.min m (hash_by key kk)) post ks).
Proof.
  revert pre post. induction ks as [|[a b] ks IH]; intros pre [|m post] Hl; simpl in *; try done.
  rewrite Nat.add_0_r. rewrite (index_Some _ _ m) by (by rewrite list_lookup_middle).
  cbn [mbind res_bind]. rewrite index_set_lt by (rewrite length_app; simpl; lia).
  cbn [mbind res_bind]. rewrite insert_app_r_alt, Nat.sub_diag by lia. simpl.
  etrans; [|etrans; [apply (IH (pre ++ [Z.min m (hash_by key (a, b))]) post); lia|]].
  - rewrite <- app_assoc. f_equal. apply imap_ext. intros i x _. simpl.
    rewrite length_app. simpl. f_equal. lia.
  - by rewrite <- app_assoc.
Qed.

Lemma add_to_min_sketch_spec ks ids (key : K) :
  add_to_min_sketch (E:=E) (sketch_of ks ids) key ks = Ok (sketch_of ks (key :: ids)).
Proof.
  unfold add_to_min_sketch. etrans; [apply (add_loop_spec key ks [])|].
  { apply sketch_of_length. }
  f_equal. clear. change ([] ++ ?l) with l. unfold sketch_of.
  induction ks as [|kk ks IH]; [done|]. rewrite !fmap_cons. cbn [zip_with]. by rewrite IH.
Qed.

Lemma min_sketch_spec n a b (ids : list K) :
  min_sketch (E:=E) n a b ids =
  Ok (sketch_of (generate_ksequence n a b) ids, generate_ksequence n a b,
      u32 (Z.of_nat (length ids))).
Proof.
  unfold min_sketch. set (ks := generate_ksequence n a b).
  assert (replicate n 18446744073709551615 = sketch_of ks []) as ->.
  { rewrite <- (generate_ksequence_length n a b). fold ks. clearbody ks. clear.
    induction ks as [|kk ks IH]; [done|]. cbn [length replicate]. by rewrite IH. }
  enough (forall done n0, for_each (E:=E) ids (λ '(min_hashes, n_keys) id,
      min_hashes ← add_to_min_sketch min_hashes id ks; Ok (min_hashes, u32 (n_keys + 1)))
      (sketch_of ks done, u32 n0) =
    Ok (sketch_of ks (ids ++ done), u32 (n0 + Z.of_nat (length ids)))) as Hloop.
  { change (sketch_of ks [], 0) with (sketch_of ks [], u32 0).
    rewrite (Hloop [] 0). cbn [mbind res_bind]. by rewrite app_nil_r. }
  induction ids as [|id ids IH]; intros done n0; simpl.
  { by rewrite Z.add_0_r. }
  rewrite add_to_min_sketch_spec. cbn [mbind res_bind].
  replace (u32 (u32 n0 + 1)) with (u32 (n0 + 1)) by (unfold u32; by rewrite Zplus_mod_idemp_l).
  rewrite IH. do 2 f_equal; [by rewrite Permutation_middle|f_equal; lia].
Qed.
End Spec.

(** ** What the two nodes get out of their sketches *)

Section Estimate.
Context `{SipHasher} {K : Type} `{!IBLTKey K} {E : Type}.

Lemma add_to_min_sketch_length_panics (key : K) mins kk ks :
  is_panicked (add_to_min_sketch (E:=E) mins key (kk :: ks)) = false -> mins <> [].
Proof. by destruct mins, kk. Qed.

Lemma equal_hashes_refl s : equal_hashes s s = Z.of_nat (length s).
Proof.
  unfold equal_hashes. f_equal. induction s as [|a s IH]; [done|].
  simpl. rewrite filter_cons_True by done. simpl. by rewrite IH.
Qed.

Lemma zero_share_estimate (n : Z) : f32_to_u32 (f32_mul (SpecFloat.S754_zero false) (f32_of_Z n)) = 0.
Proof. by destruct (f32_of_Z n). Qed.

(** The sketch sizes of the program: SKETCH_SIZE of the discovery (10) and
    MIN_SKETCH_SIZE of the store (20). *)
Definition share_estimate (k x : Z) : Z :=
  let r := f32_div (f32_of_Z k) (f32_of_Z k) in
  let one := f32_of_Z 1 in
  f32_to_u32 (f32_mul (f32_div (f32_sub one r) (f32_add one r)) (f32_of_Z x)).

Lemma full_share (k x : Z) :
  (let r := f32_div (f32_of_Z k) (f32_of_Z k) in
   f32_div (f32_sub (f32_of_Z 1) r) (f32_add (f32_of_Z 1) r)) = SpecFloat.S754_zero false ->
  share_estimate k x = 0.
Proof. cbv zeta. intros Hr. unfold share_estimate. cbv zeta. rewrite Hr. apply zero_share_estimate. Qed.

Lemma full_share_10 x : share_estimate (Z.of_nat 10) x = 0.
Proof. apply full_share. by vm_compute. Qed.
Lemma full_share_20 x : share_estimate (Z.of_nat 20) x = 0.
Proof. apply full_share. by vm_compute. Qed.

Lemma estimate_self s c :
  estimate_diff_size (E:=E) s c s c = Ok (share_estimate (Z.of_nat (length s)) (u32 (c + c))).
Proof.
  unfold estimate_diff_size, share_estimate. rewrite bool_decide_eq_true_2 by done.
  cbn [assert mbind res_bind]. by rewrite equal_hashes_refl.
Qed.

(** Sketches made of the same set of keys, in whatever order the two nodes
    list them, are equal, count the same keys, and estimate an empty difference;
    a sketch of another length makes the estimate panic. *)
Theorem estimate_same_set n a b (ids ids' : list K) (other : list Z) :
  n ∈ [10; 20]%nat -> ids ≡ₚ ids' ->
  exists s c, min_sketch (E:=E) n a b ids = Ok (s, generate_ksequence n a b, c) /\
    min_sketch (E:=E) n a b ids' = Ok (s, generate_ksequence n a b, c) /\
    estimate_diff_size (E:=E) s c s c = Ok 0 /\
    (length other <> n -> estimate_diff_size (E:=E) s c other c = Panicked AssertionFailed).
Proof.
  intros Hn Hids. set (ks := generate_ksequence n a b).
  assert (length (sketch_of ks ids) = n) as Hlen.
  { by rewrite sketch_of_length; apply generate_ksequence_length. }
  exists (sketch_of ks ids), (u32 (Z.of_nat (length ids))). split_and!.
  - apply min_sketch_spec.
  - rewrite min_sketch_spec. by rewrite <- (sketch_of_proper ks _ _ Hids), <- (Permutation_length Hids).
  - rewrite estimate_self, Hlen. f_equal.
    rewrite !elem_of_cons in Hn. destruct Hn as [Hn10|[Hn20|Hn]]; [| |by apply not_elem_of_nil in Hn].
    + rewrite Hn10. exact (full_share_10 _).
    + rewrite Hn20. exact (full_share_20 _).
  - intros Ho. unfold estimate_diff_size. rewrite bool_decide_eq_false_2; [done|]. congruence.
Qed.

(** C36: The sketch that the store extends key by key with [add_to_min_sketch] is
    the sketch of the whole set, each entry the least hash of a key, whatever
    the order; the count wraps at 32 bits. *)
Theorem sketch_incremental n a b (ids : list K) (key : K) :
  min_sketch (E:=E) n a b ids =
    Ok (sketch_of (generate_ksequence n a b) ids, generate_ksequence n a b,
        u32 (Z.of_nat (length ids))) /\
  add_to_min_sketch (E:=E) (sketch_of (generate_ksequence n a b) ids) key (generate_ksequence n a b) =
    Ok (sketch_of (generate_ksequence n a b) (key :: ids)) /\
  forall i kk m, generate_ksequence n a b !! i = Some kk ->
    sketch_of (generate_ksequence n a b) ids !! i = Some m ->
    m <= 18446744073709551615 /\ (forall id, id ∈ ids -> m <= hash_by id kk) /\
    (m = 18446744073709551615 \/ exists id, id ∈ ids /\ m = hash_by id kk).
Proof.
  split; [apply min_sketch_spec|]. split; [apply add_to_min_sketch_spec|].
  intros i kk m Hkk. unfold sketch_of. rewrite list_lookup_fmap, Hkk. simpl.
  intros [= <-]. clear. induction ids as [|id ids IH]; simpl; [set_solver by lia|].
  destruct IH as (IH1 & IH2 & IH3). split; [lia|]. split.
  - intros id'. rewrite elem_of_cons. intros [->|Hid]; [lia|]. specialize (IH2 id' Hid). lia.
  - destruct (Z.min_spec (foldr (λ id m, Z.min m (hash_by id kk)) 18446744073709551615 ids) (hash_by id kk))
      as [[_ ->]|[_ ->]]; [|right; exists id; set_solver].
    destruct IH3 as [?|(id' & ? & ?)]; [by left|right; exists id'; set_solver].
Qed.
End Estimate.

Module SketchExamples.
#[local] Existing Instance PolyHasher.

Lemma estimate_same_set_witness :
  exists s c, min_sketch (E:=unit) 10 5 6 [key_of_byte 1; key_of_byte 2] =
      Ok (s, generate_ksequence 10 5 6, c) /\
    min_sketch (E:=unit) 10 5 6 [key_of_byte 2; key_of_byte 1] = Ok (s, generate_ksequence 10 5 6, c) /\
    estimate_diff_size (E:=unit) s c s c = Ok 0 /\
    (length [7] <> 10%nat -> estimate_diff_size (E:=unit) s c [7] c = Panicked AssertionFailed).
Proof.
  apply (estimate_same_set 10 5 6 [key_of_byte 1; key_of_byte 2] [key_of_byte 2; key_of_byte 1] [7]).
  - set_solver.
  - apply perm_swap.
Defined.

Lemma sketch_incremental_witness :
  min_sketch (E:=unit) 3 5 6 [key_of_byte 1; key_of_byte 2] =
    Ok (sketch_of (generate_ksequence 3 5 6) [key_of_byte 1; key_of_byte 2], generate_ksequence 3 5 6,
        u32 (Z.of_nat (length [key_of_byte 1; key_of_byte 2]))) /\
  add_to_min_sketch (E:=unit) (sketch_of (generate_ksequence 3 5 6) [key_of_byte 1; key_of_byte 2])
      (key_of_byte 3) (generate_ksequence 3 5 6) =
    Ok (sketch_of (generate_ksequence 3 5 6) [key_of_byte 3; key_of_byte 1; key_of_byte 2]) /\
  forall i kk m, generate_ksequence 3 5 6 !! i = Some kk ->
    sketch_of (generate_ksequence 3 5 6) [key_of_byte 1; key_of_byte 2] !! i = Some m ->
    m <= 18446744073709551615 /\
    (forall id, id ∈ [key_of_byte 1; key_of_byte 2] -> m <= hash_by id kk) /\
    (m = 18446744073709551615 \/
     exists id, id ∈ [key_of_byte 1; key_of_byte 2] /\ m = hash_by id kk).
Proof. exact (sketch_incremental 3 5 6 [key_of_byte 1; key_of_byte 2] (key_of_byte 3)). Defined.
End SketchExamples.
