(* ===== verification/Strings.v ===== *)
(** * Rust strings: Unicode scalar values, UTF-8 and UTF-16

    A [String] or [&str] is the list of its scalar values.  The encoders are
    those of the standard library ([str::as_bytes], [str::encode_utf16]) and the
    decoders accept what [String::from_utf8] and [String::from_utf16] accept:
    no overlong forms, no lone surrogates, nothing above U+10FFFF. *)

From S2P Require Import Prelude Machine.
#[local] Open Scope Z_scope.
#[local] Ltac Zify.zify_post_hook ::= Z.to_euclidean_division_equations.

Definition str : Type := list Z.

Definition is_scalar (c : Z) : bool :=
  ((0 <=? c) && (c <? 55296)) || ((57344 <=? c) && (c <? 1114112)).
Definition valid_str (s : str) : Prop := Forall (λ c, is_scalar c = true) s.

#[export] Instance valid_str_dec s : Decision (valid_str s).
Proof. unfold valid_str. apply _. Defined.

(** ** UTF-8 *)

Definition utf8_char (c : Z) : list Z :=
  if c <? 128 then [c]
  else if c <? 2048 then [192 + c / 64; 128 + c mod 64]
  else if c <? 65536 then [224 + c / 4096; 128 + (c / 64) mod 64; 128 + c mod 64]
  else [240 + c / 262144; 128 + (c / 4096) mod 64; 128 + (c / 64) mod 64; 128 + c mod 64].

(** [s.as_bytes()] *)
Definition utf8 (s : str) : list Z := concat (utf8_char <$> s).

Definition is_cont (b : Z) : bool := (128 <=? b) && (b <? 192).

(** [String::from_utf8] *)
Fixpoint from_utf8 (bs : list Z) : option str :=
  match bs with
  | [] => Some []
  | b0 :: r0 =>
      if b0 <? 128 then cons b0 <$> from_utf8 r0
      else
        match r0 with
        | [] => None
        | b1 :: r1 =>
            if (194 <=? b0) && (b0 <? 224) then
              if is_cont b1 then cons ((b0 - 192) * 64 + (b1 - 128)) <$> from_utf8 r1 else None
            else
              match r1 with
              | [] => None
              | b2 :: r2 =>
                  if (224 <=? b0) && (b0 <? 240) then
                    let c := (b0 - 224) * 4096 + (b1 - 128) * 64 + (b2 - 128) in
                    if is_cont b1 && is_cont b2 && (2048 <=? c) && is_scalar c
                    then cons c <$> from_utf8 r2 else None
                  else
                    match r2 with
                    | [] => None
                    | b3 :: r3 =>
                        let c := (b0 - 240) * 262144 + (b1 - 128) * 4096 + (b2 - 128) * 64 + (b3 - 128) in
                        if (240 <=? b0) && is_cont b1 && is_cont b2 && is_cont b3 &&
                           (65536 <=? c) && is_scalar c
                        then cons c <$> from_utf8 r3 else None
                    end
              end
        end
  end.

(** ** UTF-16 *)

Definition utf16_char (c : Z) : list Z :=
  if c <? 65536 then [c]
  else [55296 + (c - 65536) / 1024; 56320 + (c - 65536) mod 1024].

(** [s.encode_utf16()] *)
Definition encode_utf16 (s : str) : list Z := concat (utf16_char <$> s).

Definition is_high (u : Z) : bool := (55296 <=? u) && (u <? 56320).
Definition is_low (u : Z) : bool := (56320 <=? u) && (u <? 57344).

(** [String::from_utf16] *)
Fixpoint from_utf16 (us : list Z) : option str :=
  match us with
  | [] => Some []
  | u :: r =>
      if is_high u then
        match r with
        | v :: r' => if is_low v
                     then cons (65536 + (u - 55296) * 1024 + (v - 56320)) <$> from_utf16 r'
                     else None
        | [] => None
        end
      else if is_low u then None
      else cons u <$> from_utf16 r
  end.

(** ** Lemmas *)

Ltac zbool :=
  repeat match goal with
  | |- context [?a <? ?b] =>
      first [ rewrite (proj2 (Z.ltb_lt a b)) by lia | rewrite (proj2 (Z.ltb_ge a b)) by lia ]
  | |- context [?a <=? ?b] =>
      first [ rewrite (proj2 (Z.leb_le a b)) by lia | rewrite (proj2 (Z.leb_gt a b)) by lia ]
  end.

Lemma is_scalar_spec c :
  is_scalar c = true <-> 0 <= c < 55296 \/ 57344 <= c < 1114112.
Proof. unfold is_scalar. rewrite orb_true_iff, !andb_true_iff. lia. Qed.

Lemma from_utf8_char c rest :
  is_scalar c = true -> from_utf8 (utf8_char c ++ rest) = cons c <$> from_utf8 rest.
Proof.
  intros Hs. pose proof (proj1 (is_scalar_spec c) Hs) as Hc. unfold utf8_char.
  destruct (Z.ltb_spec c 128); [|destruct (Z.ltb_spec c 2048); [|destruct (Z.ltb_spec c 65536)]];
    cbn [app from_utf8]; unfold is_cont.
  - by zbool.
  - zbool. simpl. do 2 f_equal. lia.
  - replace ((224 + c / 4096 - 224) * 4096 + (128 + (c / 64) mod 64 - 128) * 64 +
             (128 + c mod 64 - 128)) with c by lia.
    zbool. simpl. by rewrite Hs.
  - replace ((240 + c / 262144 - 240) * 262144 + (128 + (c / 4096) mod 64 - 128) * 4096 +
             (128 + (c / 64) mod 64 - 128) * 64 + (128 + c mod 64 - 128)) with c by lia.
    zbool. simpl. by rewrite Hs.
Qed.

(** Decoding undoes encoding. *)
Lemma from_utf8_utf8 s : valid_str s -> from_utf8 (utf8 s) = Some s.
Proof.
  unfold utf8. induction 1 as [|c s Hc Hs IH]; [done|].
  rewrite fmap_cons. cbn [concat]. by rewrite from_utf8_char, IH.
Qed.

Lemma from_utf16_char c rest :
  is_scalar c = true -> from_utf16 (utf16_char c ++ rest) = cons c <$> from_utf16 rest.
Proof.
  intros Hs. pose proof (proj1 (is_scalar_spec c) Hs) as Hc. unfold utf16_char.
  destruct (Z.ltb_spec c 65536); cbn [app from_utf16]; unfold is_high, is_low.
  - destruct Hc as [Hc|Hc]; zbool; done.
  - zbool. simpl. do 2 f_equal. lia.
Qed.

Lemma from_utf16_encode s : valid_str s -> from_utf16 (encode_utf16 s) = Some s.
Proof.
  unfold encode_utf16. induction 1 as [|c s Hc Hs IH]; [done|].
  rewrite fmap_cons. cbn [concat]. by rewrite from_utf16_char, IH.
Qed.

Lemma encode_utf16_u16 s : valid_str s -> Forall is_u16 (encode_utf16 s).
Proof.
  unfold encode_utf16. induction 1 as [|c s Hc%is_scalar_spec Hs IH]; [constructor|].
  rewrite fmap_cons. cbn [concat]. apply Forall_app. split; [|done].
  unfold utf16_char, is_u16. destruct (Z.ltb_spec c 65536); repeat constructor; lia.
Qed.

Lemma utf8_u8 s : valid_str s -> Forall is_u8 (utf8 s).
Proof.
  unfold utf8. induction 1 as [|c s Hc%is_scalar_spec Hs IH]; [constructor|].
  rewrite fmap_cons. cbn [concat]. apply Forall_app. split; [|done].
  unfold utf8_char, is_u8.
  destruct (Z.ltb_spec c 128); [|destruct (Z.ltb_spec c 2048); [|destruct (Z.ltb_spec c 65536)]];
    repeat constructor; lia.
Qed.

(** What the decoders accept is valid. *)
Lemma fmap_cons_Some (o : option str) (c : Z) (s : str) :
  cons c <$> o = Some s -> exists s', o = Some s' /\ s = c :: s'.
Proof. destruct o; naive_solver. Qed.

Lemma from_utf8_valid bs s : Forall is_u8 bs -> from_utf8 bs = Some s -> valid_str s.
Proof.
  remember (length bs) as n eqn:Hn. revert bs Hn s.
  induction (lt_wf n) as [n _ IH]. intros bs -> s Hb. unfold valid_str.
  destruct bs as [|b0 r0]; simpl; [naive_solver|].
  apply Forall_cons in Hb as [Hb0 Hr0]. unfold is_u8 in Hb0.
  destruct (Z.ltb_spec b0 128).
  { intros (s' & Hs' & ->)%fmap_cons_Some. constructor; [apply is_scalar_spec; lia|].
    eapply (IH (length r0)); eauto. }
  destruct r0 as [|b1 r1]; [done|]. apply Forall_cons in Hr0 as [Hb1 Hr1].
  destruct ((194 <=? b0) && (b0 <? 224)) eqn:H2.
  { destruct (is_cont b1) eqn:Hc1; [|done]. unfold is_cont in Hc1.
    apply andb_true_iff in H2, Hc1.
    intros (s' & Hs' & ->)%fmap_cons_Some. constructor; [apply is_scalar_spec; lia|].
    eapply (IH (length r1)); eauto. simpl. lia. }
  destruct r1 as [|b2 r2]; [done|]. apply Forall_cons in Hr1 as [Hb2 Hr2].
  destruct ((224 <=? b0) && (b0 <? 240)) eqn:H3.
  { case_match eqn:Hg; [|done]. apply andb_true_iff in Hg as [_ Hg].
    intros (s' & Hs' & ->)%fmap_cons_Some. constructor; [done|].
    eapply (IH (length r2)); eauto. simpl. lia. }
  destruct r2 as [|b3 r3]; [done|]. apply Forall_cons in Hr2 as [Hb3 Hr3].
  case_match eqn:Hg; [|done]. apply andb_true_iff in Hg as [_ Hg].
  intros (s' & Hs' & ->)%fmap_cons_Some. constructor; [done|].
  eapply (IH (length r3)); eauto. simpl. lia.
Qed.

Lemma from_utf16_valid us s : Forall is_u16 us -> from_utf16 us = Some s -> valid_str s.
Proof.
  remember (length us) as n eqn:Hn. revert us Hn s.
  induction (lt_wf n) as [n _ IH]. intros us -> s Hu. unfold valid_str.
  destruct us as [|u r]; simpl; [naive_solver|].
  apply Forall_cons in Hu as [Hu Hr]. unfold is_u16 in Hu.
  destruct (is_high u) eqn:Hh; unfold is_high in Hh.
  - destruct r as [|v r]; [done|]. apply Forall_cons in Hr as [Hv Hr].
    destruct (is_low v) eqn:Hl; [|done]. unfold is_low in Hl.
    apply andb_true_iff in Hh, Hl.
    intros (s' & Hs' & ->)%fmap_cons_Some. constructor; [apply is_scalar_spec; lia|].
    eapply (IH (length r)); eauto. simpl. lia.
  - destruct (is_low u) eqn:Hl; [done|]. unfold is_low in Hl.
    apply andb_false_iff in Hh, Hl.
    intros (s' & Hs' & ->)%fmap_cons_Some. constructor; [apply is_scalar_spec; lia|].
    eapply (IH (length r)); eauto.
Qed.
