(* ===== verification/Text.v ===== *)
(** * Encoded text (src/text.rs)

    [Text::new] picks the shorter of UTF-8 and UTF-16, compresses it when that
    saves bytes, and records the choice in the bits of a leading byte;
    [as_string] reads it back.  Compression is the snap crate's, a parameter. *)

From S2P Require Import Prelude Machine Strings.
#[local] Open Scope Z_scope.
#[local] Ltac Zify.zify_post_hook ::= Z.to_euclidean_division_equations.

(** The snap crate's framed stream: what [snap::Writer] makes of the bytes of
    one [write_all], and what [read_to_end] of a [snap::Reader] gives back, [None]
    for an [io::Error]. *)
Class Snap : Type := {
  snap_write : list Z -> list Z;
  snap_read : list Z -> option (list Z)
}.
Class SnapLaws `{Snap} : Prop := {
  snap_read_write : forall d, snap_read (snap_write d) = Some d
}.

Record Text : Type := mkText { encoded : list Z }.

#[export] Instance Text_eq_dec : EqDecision Text.
Proof. solve_decision. Defined.

Inductive TextError : Type := SnapError | FromUtf16Error | FromUtf8Error.

Definition UTF_16 : Z := 1.
Definition COMPRESSED : Z := 2.

Module TextOps.
Section Ops.
Context `{Snap}.

(** [utf16encoded]: each code unit as two little-endian bytes. *)
Definition utf16encoded (s : str) : list Z := concat (le_bytes16 <$> encode_utf16 s).

Definition new (s : str) : Text :=
  let flag := 0 in
  let utf16encoded := utf16encoded s in
  let '(flag, data) :=
    if bool_decide (length (utf8 s) < length utf16encoded)%nat then (flag, utf8 s)
    else (Z.lor flag UTF_16, utf16encoded) in
  let compressed := snap_write data in
  let '(flag, data) :=
    if bool_decide (length compressed < length data)%nat
    then (Z.lor flag COMPRESSED, compressed) else (flag, data) in
  mkText (flag :: data).

Definition from_encoded (encoded : list Z) : Text := mkText encoded.
Definition as_bytes (t : Text) : list Z := encoded t.

(** [while let Ok(utf16) = cursor.read_u16::<LittleEndian>()] *)
Fixpoint utf16points (data : list Z) : list Z :=
  match data with
  | b0 :: b1 :: data => le_u16 b0 b1 :: utf16points data
  | _ => []
  end.

Definition as_string (t : Text) : res TextError str :=
  flag ← index (encoded t) 0;
  data ← (if bool_decide (Z.land flag COMPRESSED <> 0)
          then match snap_read (drop 1 (encoded t)) with
               | Some buffer => Ok buffer
               | None => Err SnapError
               end
          else Ok (drop 1 (encoded t)));
  if bool_decide (Z.land flag UTF_16 <> 0)
  then match from_utf16 (utf16points data) with
       | Some s => Ok s
       | None => Err FromUtf16Error
       end
  else match from_utf8 data with
       | Some s => Ok s
       | None => Err FromUtf8Error
       end.

Definition encoding {E} (t : Text) : res E Z := index (encoded t) 0.
End Ops.

(** ** Theorems *)

Section Theorems.
Context `{Snap}.

Lemma utf16points_encoded us :
  Forall is_u16 us -> utf16points (concat (le_bytes16 <$> us)) = us.
Proof.
  induction 1 as [|u us Hu Hus IH]; [done|]. rewrite fmap_cons. cbn [concat le_bytes16 app utf16points].
  by rewrite IH, le_u16_bytes.
Qed.

Lemma utf16encoded_length s : length (utf16encoded s) = (2 * length (encode_utf16 s))%nat.
Proof.
  unfold utf16encoded. induction (encode_utf16 s) as [|u us IH]; [done|].
  rewrite fmap_cons. cbn [concat]. rewrite length_app, IH. simpl. lia.
Qed.

(** What [as_string] makes of an uncompressed or compressed body. *)
Lemma as_string_flag flag data d :
  (if bool_decide (Z.land flag COMPRESSED <> 0) then snap_read data = Some d else data = d) ->
  as_string (mkText (flag :: data)) =
  if bool_decide (Z.land flag UTF_16 <> 0)
  then match from_utf16 (utf16points d) with Some s => Ok s | None => Err FromUtf16Error end
  else match from_utf8 d with Some s => Ok s | None => Err FromUtf8Error end.
Proof.
  intros Hd. unfold as_string, index. simpl. rewrite drop_0.
  case_bool_decide as Hc; [rewrite Hd|subst d]; done.
Qed.

Context `{!SnapLaws}.

Lemma as_string_new (s : str) : valid_str s -> as_string (new s) = Ok s.
Proof.
  intros Hs. pose proof (from_utf8_utf8 s Hs) as H8.
  assert (from_utf16 (utf16points (utf16encoded s)) = Some s) as H16.
  { unfold utf16encoded. rewrite utf16points_encoded by by apply encode_utf16_u16.
    by apply from_utf16_encode. }
  unfold new. repeat case_bool_decide; cbn [Z.lor UTF_16 COMPRESSED];
    (erewrite as_string_flag; [|cbn; first [apply snap_read_write|done]]); cbn;
    by rewrite ?H8, ?H16.
Qed.

(** C35: Every string survives encoding into a text and decoding, whatever encoding
    was chosen. *)
Theorem text_roundtrip (s : str) : valid_str s -> as_string (new s) = Ok s.
Proof. apply as_string_new. Qed.

(** An encoded text is never longer than one byte plus the shorter of the two
    encodings, its leading byte is one of the four combinations of the flags and
    says which choices were made. *)
Theorem text_compact (s : str) :
  (length (as_bytes (new s)) <= 1 + Nat.min (length (utf8 s)) (2 * length (encode_utf16 s)))%nat /\
  exists flag, encoding (E:=TextError) (new s) = Ok flag /\ flag ∈ [0; 1; 2; 3] /\
    (Z.testbit flag 0 = true <-> (2 * length (encode_utf16 s) <= length (utf8 s))%nat) /\
    (Z.testbit flag 1 = true <->
     (length (as_bytes (new s)) < 1 + Nat.min (length (utf8 s)) (2 * length (encode_utf16 s)))%nat).
Proof.
  unfold new. pose proof (utf16encoded_length s) as Hl.
  repeat case_bool_decide; cbn [as_bytes encoded length];
    (split; [lia|]); eexists; (split; [done|]); (split; [set_solver|]); cbn;
    rewrite ?Hl in *; (split; (split; [intros|intros; done || lia]); done || lia).
Qed.

(** Decoding is not injective: for every string there is a text that differs
    from the one [Text::new] makes and decodes to the same string (bits of the
    leading byte other than the two flags are ignored), and a text of no bytes
    makes the decoder panic. *)
Theorem text_not_canonical (s : str) :
  valid_str s ->
  (exists t, t <> new s /\ as_string t = Ok s) /\
  as_string (from_encoded []) = Panicked IndexOutOfBounds /\
  encoding (E:=TextError) (from_encoded []) = Panicked IndexOutOfBounds.
Proof.
  intros Hs. split; [|done]. exists (from_encoded (4 :: utf8 s)). split.
  - unfold new. repeat case_bool_decide; intros [=].
  - unfold from_encoded. rewrite (as_string_flag 4 _ (utf8 s)) by done. simpl.
    by rewrite from_utf8_utf8.
Qed.
End Theorems.
End TextOps.

(** ** A compressor for examples: it drops trailing zeroes in pairs *)

Module TextExamples.
(** A toy framing that shortens texts made of one repeated byte. *)
Definition RunSnap : Snap := {|
  snap_write d := match d with
                  | b :: rest => if bool_decide (Forall (eq b) rest)
                                 then [1; Z.of_nat (length d); b] else 0 :: d
                  | [] => [0]
                  end;
  snap_read e := match e with
                 | [1; n; b] => Some (replicate (Z.to_nat n) b)
                 | 0 :: d => Some d
                 | _ => None
                 end
|}.

Lemma RunSnap_laws : @SnapLaws RunSnap.
Proof.
  split. intros [|b d]; [done|]. cbn [snap_write RunSnap]. case_bool_decide as Hd; [|done].
  cbn [snap_read RunSnap]. rewrite Nat2Z.id. f_equal. cbn [length replicate]. f_equal.
  induction Hd as [|b' d <- Hd IH]; [done|]. simpl. by rewrite IH.
Qed.

#[local] Existing Instance RunSnap.
#[local] Existing Instance RunSnap_laws.

Lemma text_roundtrip_witness :
  valid_str [97; 97; 97; 97; 97] /\
  TextOps.as_string (TextOps.new [97; 97; 97; 97; 97]) = Ok [97; 97; 97; 97; 97].
Proof.
  assert (valid_str [97; 97; 97; 97; 97]) as Hv by (repeat constructor).
  split; [exact Hv|]. exact (TextOps.text_roundtrip _ Hv).
Defined.

Lemma text_not_canonical_witness :
  (exists t, t <> TextOps.new [128512; 65] /\ TextOps.as_string t = Ok [128512; 65]) /\
  TextOps.as_string (TextOps.from_encoded []) = Panicked IndexOutOfBounds /\
  TextOps.encoding (E:=TextError) (TextOps.from_encoded []) = Panicked IndexOutOfBounds.
Proof. apply (TextOps.text_not_canonical [128512; 65]). repeat constructor. Defined.

Definition euro_a : str := [8364; 65].

Lemma text_compact_witness :
  (length (TextOps.as_bytes (TextOps.new euro_a)) <=
     1 + Nat.min (length (utf8 euro_a)) (2 * length (encode_utf16 euro_a)))%nat /\
  exists flag, TextOps.encoding (E:=TextError) (TextOps.new euro_a) = Ok flag /\ flag ∈ [0; 1; 2; 3] /\
    (Z.testbit flag 0 = true <-> (2 * length (encode_utf16 euro_a) <= length (utf8 euro_a))%nat) /\
    (Z.testbit flag 1 = true <->
     (length (TextOps.as_bytes (TextOps.new euro_a)) <
        1 + Nat.min (length (utf8 euro_a)) (2 * length (encode_utf16 euro_a)))%nat).
Proof. exact (TextOps.text_compact euro_a). Defined.
End TextExamples.
