(* ===== verification/Effects.v ===== *)
(** * Stateful fallible computations

    A method that takes [&mut self], returns a [Result] and may panic is an
    [action]: it maps the state before the call to its outcome and the state
    after it.  The state survives an error, as the fields of a struct do when
    [?] returns early; [transaction] and [uncommitted] add what the database does
    with a transaction that is dropped before [commit]. *)

From S2P Require Import Prelude.

Definition action (S E A : Type) : Type := S -> res E A * S.

#[export] Instance action_ret {S E} : MRet (action S E) := fun A a s => (Ok a, s).
#[export] Instance action_bind {S E} : MBind (action S E) := fun A B k m s =>
  match m s with
  | (Ok a, s') => k a s'
  | (Err e, s') => (Err e, s')
  | (Panicked p, s') => (Panicked p, s')
  end.

Definition lift {S E A} (m : res E A) : action S E A := fun s => (m, s).
Definition gets {S E A} (f : S -> A) : action S E A := fun s => (Ok (f s), s).
Definition ask {S E A} (f : S -> res E A) : action S E A := fun s => (f s, s).
Definition modify {S E} (f : S -> S) : action S E unit := fun s => (Ok (), f s).

(** [.expect(..)] on the result of a call. *)
Definition expect_action {S E E' A} (m : action S E A) : action S E' A :=
  fun s => let '(r, s') := m s in (expect r, s').

(** [.is_err()] of the result of a call: the error is dropped, a panic is not. *)
Definition is_err {S E E' A} (m : action S E A) : action S E' bool :=
  fun s => match m s with
           | (Ok _, s') => (Ok false, s')
           | (Err _, s') => (Ok true, s')
           | (Panicked p, s') => (Panicked p, s')
           end.

(** [for x in l { body }] for its effects. *)
Fixpoint for_each_do {S E A} (l : list A) (body : A -> action S E unit) : action S E unit :=
  match l with
  | [] => mret ()
  | x :: l' => _ ← body x; for_each_do l' body
  end.

(** A call on one field of the state. *)
Definition zoom {S T E A} (get : S -> T) (set : T -> S -> S) (m : action T E A) : action S E A :=
  fun s => let '(r, t) := m (get s) in (r, set t s).

Section Transactions.
Context {S DB E A : Type} (get : S -> DB) (set : DB -> S -> S).

(** [let mut tx = db.transaction(); body; tx.commit()]: only a body that ends
    normally reaches the commit. *)
Definition transaction (body : action S E A) : action S E A := fun s =>
  match body s with
  | (Ok a, s') => (Ok a, s')
  | (r, s') => (r, set (get s) s')
  end.

(** A transaction that is dropped without a commit. *)
Definition uncommitted (body : action S E A) : action S E A := fun s =>
  let '(r, s') := body s in (r, set (get s) s').
End Transactions.

(** ** Lemmas *)

Section Lemmas.
Context {S E : Type}.

Lemma action_bind_ok {A B} (m : action S E A) (k : A -> action S E B) s a s' :
  m s = (Ok a, s') -> (m ≫= k) s = k a s'.
Proof. unfold mbind, action_bind. by intros ->. Qed.

Lemma action_bind_inv {A B} (m : action S E A) (k : A -> action S E B) s b s' :
  (m ≫= k) s = (Ok b, s') -> exists a s1, m s = (Ok a, s1) /\ k a s1 = (Ok b, s').
Proof. unfold mbind, action_bind. destruct (m s) as [[a|e|p] s1]; naive_solver. Qed.

(** A loop whose body succeeds and keeps an invariant. *)
Lemma for_each_do_pure {A} (P : S -> Prop) (f : A -> S -> S) (l : list A)
    (body : A -> action S E unit) s :
  P s ->
  (forall x s, x ∈ l -> P s -> body x s = (Ok (), f x s) /\ P (f x s)) ->
  for_each_do l body s = (Ok (), foldl (λ s x, f x s) s l) /\ P (foldl (λ s x, f x s) s l).
Proof.
  revert s. induction l as [|x l IH]; intros s Hs Hb; [done|]. cbn [for_each_do foldl].
  destruct (Hb x s (list_elem_of_here _ _) Hs) as [Hx HP].
  rewrite (action_bind_ok _ _ _ _ _ Hx). apply IH; [done|].
  intros y s' Hy. apply Hb. by apply list_elem_of_further.
Qed.
End Lemmas.

(** ** What a call that ends normally does to the state

    [evolves R m] says that the states before and after such a call are related
    by [R]; for a preorder there is one rule per constructor of actions. *)

Definition evolves {S E A} (R : S -> S -> Prop) (m : action S E A) : Prop :=
  forall s a s', m s = (Ok a, s') -> R s s'.

Section Evolves.
Context {S E : Type} (R : S -> S -> Prop) `{!PreOrder R}.

Lemma evolves_bind {A B} (m : action S E A) (k : A -> action S E B) :
  evolves R m -> (forall a, evolves R (k a)) -> evolves R (m ≫= k).
Proof.
  intros Hm Hk s b s' (a & s1 & H1 & H2)%action_bind_inv.
  transitivity s1; [by eapply Hm|by eapply Hk].
Qed.

Lemma evolves_ret {A} (a : A) : evolves R (mret (M:=action S E) a).
Proof. intros s b s' [= _ <-]. reflexivity. Qed.

Lemma evolves_lift {A} (m : res E A) : evolves R (lift m).
Proof. intros s a s' [= _ <-]. reflexivity. Qed.

Lemma evolves_gets {A} (f : S -> A) : evolves R (gets (E:=E) f).
Proof. intros s a s' [= _ <-]. reflexivity. Qed.

Lemma evolves_ask {A} (f : S -> res E A) : evolves R (ask f).
Proof. intros s a s' [= _ <-]. reflexivity. Qed.

Lemma evolves_modify (f : S -> S) : (forall s, R s (f s)) -> evolves R (modify (E:=E) f).
Proof. intros Hf s a s' [= _ <-]. apply Hf. Qed.

Lemma evolves_for_each {A} (l : list A) (body : A -> action S E unit) :
  (forall x, x ∈ l -> evolves R (body x)) -> evolves R (for_each_do l body).
Proof.
  induction l as [|x l IH]; intros Hb; cbn [for_each_do]; [apply evolves_ret|].
  apply evolves_bind; [apply Hb, list_elem_of_here|]. intros _. apply IH.
  intros y Hy. apply Hb. by apply list_elem_of_further.
Qed.

(** One turn of a loop that ends normally, between the turns before and after. *)
Lemma for_each_do_elem {A} (l : list A) (body : A -> action S E unit) x s s' :
  x ∈ l -> (forall y, y ∈ l -> evolves R (body y)) -> for_each_do l body s = (Ok (), s') ->
  exists s1 s2, R s s1 /\ body x s1 = (Ok (), s2) /\ R s2 s'.
Proof.
  revert s. induction l as [|y l IH]; intros s Hx Hb Hrun; [by apply not_elem_of_nil in Hx|].
  cbn [for_each_do] in Hrun. apply action_bind_inv in Hrun as ([] & s1 & H1 & Hrun).
  apply elem_of_cons in Hx as [->|Hx].
  - exists s, s1. split; [reflexivity|]. split; [done|]. revert Hrun.
    apply (evolves_for_each l body). intros z Hz. apply Hb. by apply list_elem_of_further.
  - destruct (IH s1 Hx) as (s2 & s3 & H2 & H3 & H4); [|done|].
    { intros z Hz. apply Hb. by apply list_elem_of_further. }
    exists s2, s3. split; [|done]. transitivity s1; [|done]. by eapply (Hb y (list_elem_of_here _ _)).
Qed.

(** A transaction that ends normally did what its body did. *)
Lemma evolves_transaction {DB A} (get : S -> DB) set (body : action S E A) :
  evolves R body -> evolves R (transaction get set body).
Proof.
  intros Hb s a s'. unfold transaction. destruct (body s) as [[x|e|p] s1] eqn:Hs; [|done..].
  intros [= <- <-]. by eapply Hb.
Qed.

Lemma evolves_if {A} (b : bool) (m1 m2 : action S E A) :
  evolves R m1 -> evolves R m2 -> evolves R (if b then m1 else m2).
Proof. by destruct b. Qed.

Lemma evolves_decide {P A} `{Decision P} (m1 m2 : action S E A) :
  (P -> evolves R m1) -> (~ P -> evolves R m2) -> evolves R (if decide P then m1 else m2).
Proof. case_decide; auto. Qed.
End Evolves.

(** Take an action apart down to its state changes; [tac] closes the calls whose
    lemma is known before they are unfolded. *)
Ltac evolve_by tac :=
  repeat first
    [ tac
    | apply evolves_ret; apply _ | apply evolves_lift; apply _ | apply evolves_gets; apply _
    | apply evolves_ask; apply _
    | apply evolves_bind; [apply _| |intros ?]
    | apply evolves_decide; intros ?
    | apply evolves_if
    | match goal with |- evolves _ (match ?x with _ => _ end) => destruct x end
    | assumption ].
Ltac evolve := evolve_by fail.

(** ** What any call does to the state

    [always R m] relates the states before and after the call whatever its
    outcome, an error or a panic included. *)

Definition always {S E A} (R : S -> S -> Prop) (m : action S E A) : Prop := forall s, R s (m s).2.

Section Always.
Context {S E : Type} (R : S -> S -> Prop) `{!PreOrder R}.

Lemma always_bind {A B} (m : action S E A) (k : A -> action S E B) :
  always R m -> (forall a, always R (k a)) -> always R (m ≫= k).
Proof.
  intros Hm Hk s. specialize (Hm s). unfold mbind, action_bind.
  destruct (m s) as [[a|e|p] s1]; [|done..]. transitivity s1; [done|apply Hk].
Qed.

Lemma always_ret {A} (a : A) : always R (mret (M:=action S E) a).
Proof. intros s. reflexivity. Qed.

Lemma always_lift {A} (m : res E A) : always R (lift m).
Proof. intros s. reflexivity. Qed.

Lemma always_gets {A} (f : S -> A) : always R (gets (E:=E) f).
Proof. intros s. reflexivity. Qed.

Lemma always_ask {A} (f : S -> res E A) : always R (ask f).
Proof. intros s. reflexivity. Qed.

Lemma always_modify (f : S -> S) : (forall s, R s (f s)) -> always R (modify (E:=E) f).
Proof. intros Hf s. apply Hf. Qed.

Lemma always_expect {E' A} (m : action S E' A) : always R m -> always R (expect_action (E':=E) m).
Proof. intros Hm s. specialize (Hm s). unfold expect_action. by destruct (m s). Qed.

Lemma always_for_each {A} (l : list A) (body : A -> action S E unit) :
  (forall x, always R (body x)) -> always R (for_each_do l body).
Proof.
  intros Hb. induction l as [|x l IH]; cbn [for_each_do]; [apply always_ret|].
  by apply always_bind.
Qed.

(** A transaction that is rolled back restores the database alone. *)
Lemma always_transaction {DB A} (get : S -> DB) set (body : action S E A) :
  (forall s s', R s s' -> R s (set (get s) s')) -> always R body -> always R (transaction get set body).
Proof.
  intros Hset Hb s. specialize (Hb s). unfold transaction.
  destruct (body s) as [[a|e|p] s']; cbn in *; auto.
Qed.

Lemma always_uncommitted {DB A} (get : S -> DB) set (body : action S E A) :
  (forall s s', R s s' -> R s (set (get s) s')) -> always R body -> always R (uncommitted get set body).
Proof.
  intros Hset Hb s. specialize (Hb s). unfold uncommitted. destruct (body s) as [r s']. by apply Hset.
Qed.

(** A call on one field does to the state what it does to the field. *)
Lemma always_zoom {T A} (Q : T -> T -> Prop) (get : S -> T) set (m : action T E A) :
  (forall s t, Q (get s) t -> R s (set t s)) -> always Q m -> always R (zoom get set m).
Proof. intros Hset Hm s. specialize (Hm (get s)). unfold zoom. destruct (m (get s)) as [r t]. by apply Hset. Qed.

Lemma always_if {A} (b : bool) (m1 m2 : action S E A) :
  always R m1 -> always R m2 -> always R (if b then m1 else m2).
Proof. by destruct b. Qed.

Lemma always_decide {P A} `{Decision P} (m1 m2 : action S E A) :
  always R m1 -> always R m2 -> always R (if decide P then m1 else m2).
Proof. by case_decide. Qed.
End Always.

Ltac keep_by tac :=
  repeat first
    [ tac
    | apply always_ret; apply _ | apply always_lift; apply _ | apply always_gets; apply _
    | apply always_ask; apply _
    | apply always_bind; [apply _| |intros ?]
    | apply always_expect
    | apply always_for_each; [apply _|intros ?]
    | apply always_decide | apply always_if
    | match goal with |- always _ (match ?x with _ => _ end) => destruct x end
    | assumption ].
Ltac keep := keep_by fail.
