(* ===== verification/Bitcoin.v ===== *)
(** * What the program uses of bitcoin, bitcoin_hashes, bitcoin_wallet and serde_cbor

    The structures whose fields the program reads or fills in are records with
    those fields (the struct literals of src/wallet.rs and of the tests in
    src/store.rs name all of them).  Everything that these crates compute is a
    field of the class [Bitcoin]; [BitcoinLaws] states the documented round trips
    that the program relies on.  The file also has the error type of
    src/error.rs, which wraps the errors of these crates. *)

From S2P Require Import Prelude Machine IbltTable Keys Strings Text.
#[local] Open Scope Z_scope.

(** ** Structures *)

(** The bytes of a script: [Script::from(Vec<u8>)], [to_bytes]. *)
Notation Script := (list Z).

Record OutPoint : Type := mkOutPoint { op_txid : digest; vout : Z }.
Record TxIn : Type := mkTxIn {
  previous_output : OutPoint;
  script_sig : Script;
  sequence : Z;
  witness : list (list Z)
}.
Record TxOut : Type := mkTxOut { value : Z; script_pubkey : Script }.
Record Transaction : Type := mkTransaction {
  version : Z;
  lock_time : Z;
  input : list TxIn;
  output : list TxOut
}.
Record BlockHeader : Type := mkBlockHeader {
  bh_version : Z;
  prev_blockhash : digest;
  merkle_root : digest;
  time : Z;
  bits : Z;
  nonce : Z
}.
Record Block : Type := mkBlock { header : BlockHeader; txdata : list Transaction }.

#[export] Instance OutPoint_eq_dec : EqDecision OutPoint.
Proof. solve_decision. Defined.
#[export] Program Instance OutPoint_countable : Countable OutPoint :=
  inj_countable' (λ o, (op_txid o, vout o)) (λ p, mkOutPoint p.1 p.2) _.
Next Obligation. by intros []. Qed.
#[export] Instance TxIn_eq_dec : EqDecision TxIn.
Proof. solve_decision. Defined.
#[export] Instance TxOut_eq_dec : EqDecision TxOut.
Proof. solve_decision. Defined.
#[export] Instance Transaction_eq_dec : EqDecision Transaction.
Proof. solve_decision. Defined.
#[export] Instance BlockHeader_eq_dec : EqDecision BlockHeader.
Proof. solve_decision. Defined.
#[export] Instance Block_eq_dec : EqDecision Block.
Proof. solve_decision. Defined.

(** [sha256d::Hash::default()] *)
Definition hash_default : digest := vreplicate DIGEST_LEN 0.

(** ** Script building *)

Inductive opcode : Type := OP_CSV | OP_DROP | OP_CHECKSIG.

(** The calls on a [blockdata::script::Builder], in order. *)
Inductive instruction : Type :=
  | push_int (i : Z)
  | push_opcode (op : opcode)
  | push_slice (data : list Z).

(** ** Serialisation (serde_cbor) *)

Class Cbor (A : Type) : Type := {
  to_vec : A -> list Z;
  from_slice : list Z -> option A
}.
Class CborLaws (A : Type) `{Cbor A} : Prop := {
  from_slice_to_vec : forall a : A, from_slice (to_vec a) = Some a
}.

(** ** The crates *)

Class Bitcoin : Type := {
  sha256 : list Z -> digest;
  (* the text form of a sha256::Hash, and that of a sha256d::Hash, which is byte-reversed *)
  to_hex : digest -> str;
  from_hex : str -> option digest;
  to_hex_d : digest -> str;
  from_hex_d : str -> option digest;
  hex_encode : list Z -> str;
  hex_decode : str -> option (list Z);
  header_hash : BlockHeader -> digest;
  txid : Transaction -> digest;
  tx_serialize : Transaction -> list Z;
  tx_deserialize : list Z -> option Transaction;
  into_script : list instruction -> Script;
  p2wsh : Script -> Script;
  PublicKey : Type;
  PublicKey_eq_dec :: EqDecision PublicKey;
  pk_to_bytes : PublicKey -> list Z;
  pk_from_slice : list Z -> option PublicKey;
  pk_display : PublicKey -> str;
  tweak_exp_add : PublicKey -> list Z -> option PublicKey;
  ProvedTransaction : Type;
  proved_new : Block -> nat -> ProvedTransaction;
  get_block_hash : ProvedTransaction -> digest;
  proved_merkle_root : ProvedTransaction -> digest;
  get_transaction : ProvedTransaction -> Transaction;
  proved_cbor :: Cbor ProvedTransaction
}.

Class BitcoinLaws `{Bitcoin} : Prop := {
  from_hex_to_hex : forall d, from_hex (to_hex d) = Some d;
  from_hex_to_hex_d : forall d, from_hex_d (to_hex_d d) = Some d;
  hex_decode_encode : forall l, hex_decode (hex_encode l) = Some l;
  pk_from_to : forall pk, pk_from_slice (pk_to_bytes pk) = Some pk;
  tx_deserialize_serialize : forall t, tx_deserialize (tx_serialize t) = Some t;
  proved_cbor_laws :: CborLaws ProvedTransaction
}.

Lemma to_hex_inj `{BitcoinLaws} d d' : to_hex d = to_hex d' -> d = d'.
Proof. intros Hd. apply (inj Some). by rewrite <- !from_hex_to_hex, Hd. Qed.

Lemma to_hex_d_inj `{BitcoinLaws} d d' : to_hex_d d = to_hex_d d' -> d = d'.
Proof. intros Hd. apply (inj Some). by rewrite <- !from_hex_to_hex_d, Hd. Qed.

(** ** [defiads::error::Error] *)

Inductive ErrorKind : Type := InvalidInput | AddrNotAvailable | OtherIO.

(** rusqlite's error for a [query_row] without a row, and the others. *)
Inductive SqlError : Type := QueryReturnedNoRows | OtherSql (s : string).

(** The errors of bitcoin_wallet and of the script interpreter are known to the
    program by the text they display. *)
Inductive Error : Type :=
  | Unsupported (s : string)
  | WalletError (e : string)
  | IO (kind : ErrorKind)
  | DBError (e : SqlError)
  | ScriptError (e : string).

#[export] Instance ErrorKind_eq_dec : EqDecision ErrorKind.
Proof. solve_decision. Defined.
#[export] Instance SqlError_eq_dec : EqDecision SqlError.
Proof. solve_decision. Defined.
#[export] Instance Error_eq_dec : EqDecision Error.
Proof. solve_decision. Defined.

(** The [From] conversions that [?] applies. *)
Definition from_parse_error : Error := IO InvalidInput.
Definition from_hex_error : Error := IO InvalidInput.
Definition from_cbor_error : Error := IO InvalidInput.
Definition from_wallet_error (err : string) : Error := WalletError err.
Definition from_io_error (err : ErrorKind) : Error := IO err.
Definition from_sql_error (err : SqlError) : Error := DBError err.
Definition from_script_error (err : string) : Error := ScriptError err.

(** [source]: the error of the library below. *)
Inductive Cause : Type :=
  | WalletCause (err : string) | IoCause (err : ErrorKind) | SqlCause (err : SqlError) | ScriptCause (err : string).
Definition error_source (e : Error) : option Cause :=
  match e with
  | Unsupported _ => None
  | WalletError err => Some (WalletCause err)
  | IO err => Some (IoCause err)
  | DBError err => Some (SqlCause err)
  | ScriptError err => Some (ScriptCause err)
  end.
