(* ===== verification/Content.v ===== *)
(** * Ads and contents (src/ad.rs, src/content.rs) *)

From S2P Require Import Prelude Machine IbltTable Keys Strings Text Bitcoin.
#[local] Open Scope Z_scope.

Record Ad : Type := mkAd { cat : str; abs : str; content : Text }.

#[export] Instance Ad_eq_dec : EqDecision Ad.
Proof. solve_decision. Defined.

Module AdOps.
Section Ops.
Context `{Snap, Bitcoin, !Cbor Ad}.

Definition new (cat abs : str) (content : str) : Ad := mkAd cat abs (TextOps.new content).
Definition serialize (ad : Ad) : list Z := to_vec ad.
Definition deserialize (data : list Z) : res Error Ad :=
  match from_slice data with Some ad => Ok ad | None => Err from_cbor_error end.
(** The digest funding transactions commit to. *)
Definition digest_of (ad : Ad) : digest := sha256 (serialize ad).
End Ops.
End AdOps.

(** Replicated content. *)
Record Content `{Bitcoin} : Type := mkContent {
  ad : Ad;
  funding : ProvedTransaction;
  funder : PublicKey;
  term : Z
}.

Definition content_length `{Bitcoin, !Cbor Ad} (c : Content) : Z :=
  u32 (Z.of_nat (length (AdOps.serialize (ad c)))).

(** ** Canonical ads: those [Ad::new] makes *)

Section Canonical.
Context `{Snap, !SnapLaws, Bitcoin, !Cbor Ad}.

Definition canonical (a : Ad) : Prop :=
  exists s, valid_str s /\ content a = TextOps.new s.

(** Storing an ad keeps its category, abstract and decoded text; reading it
    encodes the text again. *)
Definition reencode (a : Ad) : res TextError Ad :=
  s ← TextOps.as_string (content a); Ok (AdOps.new (cat a) (abs a) s).

Lemma reencode_canonical a : canonical a -> reencode a = Ok a.
Proof.
  intros (s & Hs & Ha). unfold reencode. rewrite Ha, TextOps.as_string_new by done.
  cbn [mbind res_bind]. unfold AdOps.new. rewrite <- Ha. by destruct a.
Qed.

Lemma new_canonical c t s : valid_str s -> canonical (AdOps.new c t s).
Proof. intros Hs. by exists s. Qed.
End Canonical.
