(* ===== verification/Db.v ===== *)
(** * The database: tables and SQL (src/db.rs)

    Each table is a finite map from its primary key to its row; the tables
    [seed] and [processed] hold at most the row with rowid 1.  A [select] without
    [order by] lists the rows in an order SQLite does not specify, [scan]; with
    [order by] in some order that the clause allows, [order_by].  Input and
    output errors of SQLite are not modelled: a statement fails only where the
    program's own code makes it. *)

From S2P Require Import Prelude Machine IbltTable Keys Strings Text Bitcoin Content.
#[local] Open Scope Z_scope.

(** ** SQLite *)

Class SQLite : Type := {
  scan : forall {K A : Type} `{Countable K}, gmap K A -> list (K * A);
  order_by : forall {A : Type} (R : A -> A -> Prop) `{!RelDecision R}, list A -> list A
}.
Class SQLiteLaws `{SQLite} : Prop := {
  scan_rows : forall {K A} `{Countable K} (t : gmap K A), scan t ≡ₚ map_to_list t;
  order_by_perm : forall {A} (R : A -> A -> Prop) `{!RelDecision R} (l : list A), order_by R l ≡ₚ l;
  order_by_sorted : forall {A} (R : A -> A -> Prop) `{!RelDecision R} (l : list A),
    Total R -> Transitive R -> StronglySorted R (order_by R l)
}.

(** The byte-wise comparison of texts, SQLite's default collation. *)
Fixpoint str_le (a b : str) : bool :=
  match a, b with
  | [], _ => true
  | _ :: _, [] => false
  | x :: a, y :: b => if x <? y then true else if x =? y then str_le a b else false
  end.

(** ** Rows *)

(** The column [ip] holds the text of a socket address; the row keeps the address
    that is parsed back from it. *)
Record AddressRow : Type := mkAddressRow {
  ip : SocketAddr; connected : Z; last_seen : Z; banned : Z
}.
Record ContentRow : Type := mkContentRow {
  r_cat : str; r_abs : str; r_ad : str; r_block_id : str; r_height : Z;
  r_proof : list Z; r_publisher : list Z; r_term : Z; r_weight : Z; r_length : Z
}.
Record PublicationRow : Type := mkPublicationRow {
  p_cat : str; p_abs : str; p_ad : str; p_length : Z
}.
Record TxoutRow : Type := mkTxoutRow {
  t_tx : list Z; t_confirmed : option str; t_publisher : option (list Z);
  t_id : option str; t_term : option Z
}.
Record CoinRow : Type := mkCoinRow {
  c_value : Z; c_script : list Z; c_account : Z; c_sub : Z; c_kix : Z;
  c_tweak : option str; c_csv : option Z; c_proof : list Z
}.
Record AccountRow : Type := mkAccountRow {
  a_address_type : Z; a_master : str; a_instantiated : list Z
}.

#[export] Instance AddressRow_eq_dec : EqDecision AddressRow.
Proof. solve_decision. Defined.
#[export] Instance ContentRow_eq_dec : EqDecision ContentRow.
Proof. solve_decision. Defined.

Record DB : Type := mkDB {
  seed : option (Z * Z);
  address : gmap (str * Z) AddressRow;
  content : gmap str ContentRow;
  publication : gmap str PublicationRow;
  account : gmap (Z * Z) AccountRow;
  coins : gmap (str * Z) CoinRow;
  processed : option str;
  txout : gmap str TxoutRow
}.

(** [create_tables] on a fresh file. *)
Definition create_tables : DB := mkDB None ∅ ∅ ∅ ∅ ∅ None ∅.

Definition set_seed (x : option (Z * Z)) (d : DB) : DB :=
  mkDB x (address d) (content d) (publication d) (account d) (coins d) (processed d) (txout d).
Definition set_address (x : gmap (str * Z) AddressRow) (d : DB) : DB :=
  mkDB (seed d) x (content d) (publication d) (account d) (coins d) (processed d) (txout d).
Definition set_content (x : gmap str ContentRow) (d : DB) : DB :=
  mkDB (seed d) (address d) x (publication d) (account d) (coins d) (processed d) (txout d).
Definition set_publication (x : gmap str PublicationRow) (d : DB) : DB :=
  mkDB (seed d) (address d) (content d) x (account d) (coins d) (processed d) (txout d).
Definition set_account (x : gmap (Z * Z) AccountRow) (d : DB) : DB :=
  mkDB (seed d) (address d) (content d) (publication d) x (coins d) (processed d) (txout d).
Definition set_coins (x : gmap (str * Z) CoinRow) (d : DB) : DB :=
  mkDB (seed d) (address d) (content d) (publication d) (account d) x (processed d) (txout d).
Definition set_processed (x : option str) (d : DB) : DB :=
  mkDB (seed d) (address d) (content d) (publication d) (account d) (coins d) x (txout d).
Definition set_txout (x : gmap str TxoutRow) (d : DB) : DB :=
  mkDB (seed d) (address d) (content d) (publication d) (account d) (coins d) (processed d) x.

(** ** Constants *)

(** number of hash functions *)
Definition NH : nat := 4.
Definition K0 : Z := 1614418600579272000.
Definition K1 : Z := 8727507265883984962.
Definition ADDRESS_SLOTS : Z := 10000.

(** ** Lemmas *)

Lemma str_le_refl a : str_le a a = true.
Proof. induction a as [|x a IH]; [done|]. simpl. by rewrite Z.ltb_irrefl, Z.eqb_refl. Qed.

Definition text_le (a b : str) : Prop := str_le a b = true.
#[export] Instance text_le_dec : RelDecision text_le.
Proof. intros a b. unfold text_le. apply _. Defined.

#[export] Instance str_le_total : Total text_le.
Proof.
  unfold text_le. intros a. induction a as [|x a IH]; intros [|y b]; simpl; [by left|by left|by right|].
  destruct (Z.ltb_spec x y), (Z.ltb_spec y x), (Z.eqb_spec x y), (Z.eqb_spec y x); try lia; auto.
Qed.

#[export] Instance str_le_trans : Transitive text_le.
Proof.
  unfold text_le. intros a. induction a as [|x a IH]; intros [|y b] [|z c]; simpl; try done.
  destruct (Z.ltb_spec x y), (Z.ltb_spec y z), (Z.ltb_spec x z), (Z.eqb_spec x y), (Z.eqb_spec y z),
    (Z.eqb_spec x z); try lia; try done. apply IH.
Qed.

Lemma str_le_antisymm a b : str_le a b = true -> str_le b a = true -> a = b.
Proof.
  revert b. induction a as [|x a IH]; intros [|y b]; simpl; try done.
  destruct (Z.ltb_spec x y), (Z.ltb_spec y x), (Z.eqb_spec x y), (Z.eqb_spec y x); try lia; try done.
  intros. f_equal; auto.
Qed.

Section Scan.
Context `{SQLiteLaws} {K A : Type} `{Countable K}.

Lemma elem_of_scan (t : gmap K A) k a : (k, a) ∈ scan t <-> t !! k = Some a.
Proof. by rewrite scan_rows, elem_of_map_to_list. Qed.

Lemma scan_empty : scan (∅ : gmap K A) = [].
Proof. apply Permutation_nil_r. by rewrite scan_rows, map_to_list_empty. Qed.

Lemma NoDup_scan_keys (t : gmap K A) : NoDup (fst <$> scan t).
Proof. rewrite scan_rows. apply NoDup_fst_map_to_list. Qed.
End Scan.
