(* ===== verification/DbContent.v ===== *)
(** * The content table (src/db.rs)

    Storing, reading, listing and deleting contents, the table and the sketch
    that are computed from the stored ids, and the truncation to a size limit. *)

From S2P Require Import Prelude Machine IbltTable IbltRefine Sketch Keys Strings Text Bitcoin.
From S2P Require Import Content Effects Db.
#[local] Open Scope Z_scope.

Record RetrievedContent : Type := mkRetrievedContent {
  rc_id : str; rc_cat : str; rc_abs : str; rc_text : str; rc_publisher : str;
  rc_height : Z; rc_term : Z; rc_length : Z; rc_weight : Z
}.

Module ContentTable.
Section Ops.
Context `{SipHasher, Snap, Bitcoin, !Cbor Ad, SQLite}.

(** [ContentKey::new(&sha256::Hash::from_hex(id)?[..])] *)
Definition key_of_id (id : str) : res Error ContentKey :=
  match from_hex id with
  | Some d => ContentKeyOps.new (vec_to_list d)
  | None => Err from_hex_error
  end.

Definition compute_content_iblt (len : Z) (db : DB) : res Error (IBLT ContentKey) :=
  iblt ← Iblt.new len NH K0 K1;
  for_each (fst <$> scan (Db.content db)) (λ iblt id,
    key ← key_of_id id;
    Iblt.insert iblt key) iblt.

(** The lazy [key_iterator] that [min_sketch] draws from unwraps the ids. *)
Definition compute_content_sketch (len : nat) (db : DB) :
    res Error (list Z * list (Z * Z) * Z) :=
  keys ← for_each (fst <$> scan (Db.content db)) (λ keys id,
    key ← expect (key_of_id id); Ok (keys ++ [key])) [];
  min_sketch len K0 K1 keys.

Definition content_row (height : Z) (block_id : digest) (c : Content) (amount : Z) (text : str) :
    ContentRow :=
  {| r_cat := cat (ad c); r_abs := abs (ad c); r_ad := text; r_block_id := to_hex_d block_id;
     r_height := height; r_proof := to_vec (funding c); r_publisher := pk_to_bytes (funder c);
     r_term := term c; r_weight := u32 (amount / content_length c);
     r_length := content_length c |}.

Definition store_content (height : Z) (block_id : digest) (c : Content) (amount : Z) :
    action DB Error Z :=
  let id := AdOps.digest_of (ad c) in
  text ← lift (expect (TextOps.as_string (Content.content (ad c))));
  _ ← lift (if decide (content_length c = 0) then Panicked DivisionByZero else Ok ());
  _ ← modify (λ db, set_content
        (<[to_hex id := content_row height block_id c amount text]> (Db.content db)) db);
  mret 1.

Definition read_content (d : digest) (db : DB) : res Error (option Content) :=
  match Db.content db !! to_hex d with
  | None => Err (from_sql_error QueryReturnedNoRows)
  | Some r =>
      funding ← unwrap_result (from_slice (r_proof r));
      funder ← unwrap_result (pk_from_slice (r_publisher r));
      Ok (Some (mkContent _ (AdOps.new (r_cat r) (r_abs r) (r_ad r)) funding funder (r_term r)))
  end.

(** [order by weight desc] *)
Definition by_weight_desc {A} (weight : A -> Z) (x y : A) : Prop := weight y <= weight x.
#[global] Instance by_weight_desc_dec {A} (weight : A -> Z) : RelDecision (by_weight_desc weight).
Proof. intros x y. unfold by_weight_desc. apply _. Defined.

(** The first loop of [truncate_content]: the ids that no longer fit. *)
Definition over_limit_step (limit : Z) (acc : Z * list str) (row : str * ContentRow) :
    Z * list str :=
  let '(size, to_delete) := acc in
  let '(id, r) := row in
  let size := u64 (size + r_length r) in
  (size, if limit <? size then to_delete ++ [id] else to_delete).
Definition over_limit (limit : Z) (rows : list (str * ContentRow)) : list str :=
  snd (foldl (over_limit_step limit) (0, []) rows).

(** The second loop: [delete from content where id = ?1] for each of them. *)
Fixpoint delete_ids (ids : list str) (keys : list ContentKey) : action DB Error (list ContentKey) :=
  match ids with
  | [] => mret keys
  | id :: ids =>
      key ← lift (key_of_id id);
      _ ← modify (λ db, set_content (delete id (Db.content db)) db);
      delete_ids ids (keys ++ [key])
  end.

Definition truncate_content (limit : Z) : action DB Error (list ContentKey) :=
  rows ← gets (λ db, order_by (by_weight_desc (r_weight ∘ snd)) (scan (Db.content db)));
  delete_ids (over_limit limit rows) [].

(** [insert into temp.ids .. select id from content where ..], the keys of the
    ids, and [delete from content where id in (select id from temp.ids)]. *)
Definition delete_where (P : ContentRow -> bool) : action DB Error (list ContentKey) :=
  ids ← gets (λ db, fst <$> filter (λ '(_, r), P r = true) (scan (Db.content db)));
  keys ← lift (for_each ids (λ keys id, key ← key_of_id id; Ok (keys ++ [key])) []);
  _ ← modify (λ db, set_content (filter (λ '(id, _), id ∉ ids) (Db.content db)) db);
  mret keys.

Definition delete_expired (height : Z) : action DB Error (list ContentKey) :=
  delete_where (λ r, r_height r + r_term r <=? height).

Definition delete_confirmed (block_id : digest) : action DB Error (list ContentKey) :=
  delete_where (λ r, bool_decide (r_block_id r = to_hex_d block_id)).

(** ** Queries of the API *)

Definition list_categories (db : DB) : list str :=
  order_by text_le (remove_dups ((r_cat ∘ snd) <$> scan (Db.content db))).

Definition by_cat_weight (x y : str * ContentRow) : Prop :=
  text_le (r_cat x.2) (r_cat y.2) /\
  (r_cat x.2 = r_cat y.2 -> r_weight y.2 <= r_weight x.2).
#[global] Instance by_cat_weight_dec : RelDecision by_cat_weight.
Proof. intros x y. unfold by_cat_weight. apply _. Defined.

Definition list_abstracts (cats : list str) (db : DB) : list (list str) :=
  (λ '(id, r), [id; r_cat r; r_abs r]) <$>
    order_by by_cat_weight (filter (λ '(_, r), r_cat r ∈ cats) (scan (Db.content db))).

Definition retrieve_contents (ids : list str) (db : DB) : res Error (list RetrievedContent) :=
  for_each (order_by (by_weight_desc (r_weight ∘ snd))
              (filter (λ '(id, _), id ∈ ids) (scan (Db.content db))))
    (λ result '(id, r),
      publisher ← unwrap_result (pk_from_slice (r_publisher r));
      Ok (result ++ [mkRetrievedContent id (r_cat r) (r_abs r) (r_ad r) (pk_display publisher)
            (r_height r) (r_term r) (r_length r) (r_weight r)])) [].
End Ops.
End ContentTable.
