(* ===== verification/DbContentSpec.v ===== *)
(** * Theorems on the content table

    The ids of well-formed content tables are the hex forms of digests;
    [table_keys] lists them as keys.  Deletions are described by the rows that
    stay, and by the keys they report: reported and remaining keys make up
    the keys that were there.  Also: storing and reading back, the
    truncation to a size limit, and the table and sketch of the stored ids. *)

From S2P Require Import Prelude Machine IbltTable IbltCells IbltAlgebra IbltRefine IbltSync Sketch.
From S2P Require Import Keys Strings Text Bitcoin Content Effects Db DbContent.
#[local] Open Scope Z_scope.

(** A table of [size] cells with the parameters of the program that holds [B]. *)
Definition table_of `{SipHasher} {K} `{!IBLTKey K} (size : Z) (B : list K) (iblt : IBLT K) : Prop :=
  params_of iblt = new_params size NH K0 K1 /\ represents iblt (Inserted <$> B).

Lemma build_is_table_of `{SipHasher} {K} `{!IBLTKey K, !IBLTKeyLaws K} size (B : list K) :
  0 < size -> exists iblt, build (E:=Error) size NH K0 K1 B = Ok iblt /\ table_of size B iblt.
Proof.
  intros Hsize. assert (NH <= K_MAX)%nat as HNH by (unfold NH, K_MAX; lia).
  destruct (build_represents (E:=Error) size NH K0 K1 B Hsize HNH) as (iblt & Hb & Hp & Hr).
  by exists iblt.
Qed.

Lemma build_table_of `{SipHasher} {K} `{!IBLTKey K, !IBLTKeyLaws K} size (B : list K) (iblt : IBLT K) :
  0 < size -> build (E:=Error) size NH K0 K1 B = Ok iblt -> table_of size B iblt.
Proof. intros Hsize Hb. destruct (build_is_table_of size B Hsize) as (t & Ht & Htable). congruence. Qed.

Section Keys.
Context `{SipHasher, Snap, BitcoinLaws, !Cbor Ad}.
Implicit Types (t : gmap str ContentRow).

(** Every id is the hex form of a digest. *)
Definition ids_wf t : Prop := forall id, is_Some (t !! id) -> exists d, id = to_hex d.

Definition key_of (id : str) : ContentKey := mkContentKey (default hash_default (from_hex id)).
Definition table_keys t : list ContentKey := key_of <$> (fst <$> map_to_list t).

Lemma key_of_hex d : key_of (to_hex d) = mkContentKey d.
Proof. unfold key_of. by rewrite from_hex_to_hex. Qed.

Lemma key_of_id_hex d : ContentTable.key_of_id (to_hex d) = Ok (mkContentKey d).
Proof. unfold ContentTable.key_of_id. rewrite from_hex_to_hex. apply ContentKeyOps.new_digest. Qed.

Lemma ids_wf_empty : ids_wf ∅.
Proof. intros id [r Hr]. by rewrite lookup_empty in Hr. Qed.
Lemma ids_wf_insert t d r : ids_wf t -> ids_wf (<[to_hex d := r]> t).
Proof.
  intros Ht id Hid. destruct (decide (id = to_hex d)) as [->|Hne]; [by exists d|].
  apply Ht. by rewrite lookup_insert_ne in Hid.
Qed.
Lemma ids_wf_sub t t' : ids_wf t -> t' ⊆ t -> ids_wf t'.
Proof. intros Ht Hsub id [r Hr]. apply Ht. exists r. by eapply lookup_weaken. Qed.

Lemma elem_of_table_keys t k : ids_wf t -> k ∈ table_keys t <-> is_Some (t !! to_hex (ck_digest k)).
Proof.
  intros Ht. unfold table_keys. rewrite <- list_fmap_compose, list_elem_of_fmap. split.
  - intros ([id r] & -> & Hr%elem_of_map_to_list).
    destruct (Ht id) as [d ->]; [by eexists|]. unfold compose. cbn [fst]. rewrite key_of_hex. by eexists.
  - intros [r Hr]. exists (to_hex (ck_digest k), r). split.
    + unfold compose. simpl fst. rewrite key_of_hex. by destruct k.
    + by apply elem_of_map_to_list.
Qed.

Lemma NoDup_table_keys t : ids_wf t -> NoDup (table_keys t).
Proof.
  intros Ht. unfold table_keys. apply NoDup_fmap_2_strong; [|apply NoDup_fst_map_to_list].
  assert (forall id, id ∈ (fst <$> map_to_list t) -> exists d, id = to_hex d) as Hid.
  { intros id ([id' r] & -> & Hr%elem_of_map_to_list)%list_elem_of_fmap. apply Ht. by eexists. }
  intros x y [d ->]%Hid [d' ->]%Hid. rewrite !key_of_hex. congruence.
Qed.

(** Storing a new digest adds its key, storing a known one adds nothing. *)
Lemma table_keys_insert t d r :
  ids_wf t ->
  table_keys (<[to_hex d := r]> t) ≡ₚ
  if decide (t !! to_hex d = None) then mkContentKey d :: table_keys t else table_keys t.
Proof.
  intros Ht. pose proof (ids_wf_insert t d r Ht) as Ht'.
  assert (forall k, k ∈ table_keys (<[to_hex d := r]> t) <-> k = mkContentKey d \/ k ∈ table_keys t) as Hk.
  { intros [d']. rewrite !elem_of_table_keys by done. simpl.
    destruct (decide (d' = d)) as [->|Hne].
    - rewrite lookup_insert_eq. naive_solver.
    - rewrite lookup_insert_ne by (intros Heq%to_hex_inj; done). naive_solver. }
  case_decide as Hd; (apply NoDup_Permutation; [by apply NoDup_table_keys| |]).
  - apply NoDup_cons. split; [|by apply NoDup_table_keys].
    rewrite elem_of_table_keys by done. simpl. rewrite Hd. by intros [].
  - intros k. rewrite Hk. set_solver.
  - by apply NoDup_table_keys.
  - intros k. rewrite Hk. split; [|by right]. intros [->|]; [|done].
    rewrite elem_of_table_keys by done. simpl. by apply not_eq_None_Some.
Qed.

Lemma table_keys_split t (ids : list str) :
  ids_wf t -> NoDup ids -> (forall id, id ∈ ids -> is_Some (t !! id)) ->
  table_keys t ≡ₚ (key_of <$> ids) ++ table_keys (filter (λ '(id, _), id ∉ ids) t).
Proof.
  intros Ht Hnd Hids. set (t' := filter _ t).
  assert (ids_wf t') as Ht' by (apply (ids_wf_sub t); [done|apply map_filter_subseteq]).
  assert (forall id, id ∈ ids -> exists d, id = to_hex d) as Hhex by (intros; by apply Ht, Hids).
  assert (forall k, k ∈ key_of <$> ids <-> to_hex (ck_digest k) ∈ ids) as Hk.
  { intros k. rewrite list_elem_of_fmap. split.
    - intros (id & -> & Hid). destruct (Hhex id Hid) as [d ->]. by rewrite key_of_hex.
    - intros Hid. exists (to_hex (ck_digest k)). rewrite key_of_hex. by destruct k. }
  assert (forall k, k ∈ table_keys t' <-> k ∈ table_keys t /\ to_hex (ck_digest k) ∉ ids) as Hk'.
  { intros k. rewrite !elem_of_table_keys by done. unfold t'. split.
    - intros [r [Hr Hn]%map_lookup_filter_Some]. split; [by eexists|done].
    - intros [[r Hr] Hn]. exists r. by apply map_lookup_filter_Some. }
  apply NoDup_Permutation; [by apply NoDup_table_keys| |].
  - apply NoDup_app. split_and!; [| |by apply NoDup_table_keys].
    + apply NoDup_fmap_2_strong; [|done].
      intros x y [d ->]%Hhex [d' ->]%Hhex. rewrite !key_of_hex. congruence.
    + intros k Hin Hout. apply Hk in Hin. apply Hk' in Hout. tauto.
  - intros k. rewrite elem_of_app, Hk, Hk', elem_of_table_keys by done.
    destruct (decide (to_hex (ck_digest k) ∈ ids)); [|tauto].
    split; [tauto|]. intros _. by apply Hids.
Qed.
End Keys.

Section Loops.
Context `{SipHasher, Snap, BitcoinLaws, !Cbor Ad, SQLiteLaws}.
Implicit Types (t : gmap str ContentRow).

Lemma keys_loop (ids : list str) acc :
  (forall id, id ∈ ids -> exists d, id = to_hex d) ->
  for_each ids (λ keys id, key ← ContentTable.key_of_id id; Ok (keys ++ [key])) acc =
  Ok (acc ++ (key_of <$> ids)).
Proof.
  intros Hids. apply for_each_collect. intros id [d ->]%Hids. by rewrite key_of_hex, key_of_id_hex.
Qed.

Lemma scan_ids_hex t id : ids_wf t -> id ∈ (fst <$> scan t) -> exists d, id = to_hex d.
Proof. intros Ht ([id' r] & -> & Hr%elem_of_scan)%list_elem_of_fmap. apply Ht. by eexists. Qed.

Lemma scan_keys t : (key_of <$> (fst <$> scan t)) ≡ₚ table_keys t.
Proof. unfold table_keys. by rewrite scan_rows. Qed.

(** Deleting the rows that satisfy a condition. *)
Lemma delete_where_spec (P : ContentRow -> bool) (db : DB) :
  ids_wf (Db.content db) ->
  exists keys, ContentTable.delete_where P db =
    (Ok keys, set_content (filter (λ '(_, r), P r = false) (Db.content db)) db) /\
    table_keys (Db.content db) ≡ₚ keys ++ table_keys (filter (λ '(_, r), P r = false) (Db.content db)).
Proof.
  intros Ht. unfold ContentTable.delete_where.
  set (ids := fst <$> filter (λ '(_, r), P r = true) (scan (Db.content db))).
  assert (forall id, id ∈ ids <-> exists r, Db.content db !! id = Some r /\ P r = true) as Hids.
  { intros id. unfold ids. rewrite list_elem_of_fmap. split.
    - intros ([id' r] & -> & [HP Hr%elem_of_scan]%list_elem_of_filter). by exists r.
    - intros (r & Hr & HP). exists (id, r). split; [done|]. apply list_elem_of_filter.
      split; [done|]. by apply elem_of_scan. }
  assert (filter (λ '(id, _), id ∉ ids) (Db.content db) =
          filter (λ '(_, r), P r = false) (Db.content db)) as Hfilter.
  { apply map_filter_ext. intros id r Hr. simpl. rewrite Hids. split.
    - intros Hn. destruct (P r) eqn:HP; [|done]. exfalso. apply Hn. by exists r.
    - intros HP (r' & Hr' & HP'). congruence. }
  exists (key_of <$> ids). split.
  - unfold gets, lift, mbind, action_bind. fold ids. rewrite keys_loop.
    + simpl. by rewrite Hfilter.
    + intros id (r & Hr & _)%Hids. apply Ht. by exists r.
  - rewrite <- Hfilter. apply table_keys_split; [done| |].
    + unfold ids. eapply sublist_NoDup; [apply (NoDup_scan_keys (Db.content db))|].
      apply fmap_sublist, sublist_filter.
    + intros id (r & Hr & _)%Hids. by exists r.
Qed.
End Loops.

(** ** The table and the sketch of the stored ids *)

Section Computed.
Context `{SipHasher, Snap, BitcoinLaws, !Cbor Ad, SQLiteLaws}.
Implicit Types (db : DB).

Lemma insert_ids_loop (ids : list str) (t : IBLT ContentKey) :
  (forall id, id ∈ ids -> exists d, id = to_hex d) ->
  for_each ids (λ iblt id, key ← ContentTable.key_of_id id; Iblt.insert iblt key) t =
  for_each (E:=Error) (key_of <$> ids) Iblt.insert t.
Proof.
  revert t. induction ids as [|id ids IH]; intros t Hids; [done|].
  destruct (Hids id (list_elem_of_here _ _)) as [d ->]. rewrite fmap_cons, key_of_hex.
  cbn [for_each]. rewrite key_of_id_hex. cbn [mbind res_bind].
  destruct (Iblt.insert t _); cbn [mbind res_bind]; [|done..].
  apply IH. intros id Hid. apply Hids. by apply list_elem_of_further.
Qed.

Lemma compute_content_iblt_spec len db :
  0 < len -> ids_wf (Db.content db) ->
  exists t, ContentTable.compute_content_iblt len db = Ok t /\
    params_of t = new_params len NH K0 K1 /\
    represents t (Inserted <$> table_keys (Db.content db)).
Proof.
  intros Hlen Hwf. unfold ContentTable.compute_content_iblt.
  destruct (new_represents (K:=ContentKey) (E:=Error) len NH K0 K1 Hlen) as (t & -> & Hp & Ht);
    [unfold NH, K_MAX; lia|].
  cbn [mbind res_bind]. rewrite insert_ids_loop by (intros id; by apply scan_ids_hex).
  destruct (insert_all_represents (E:=Error) (key_of <$> (fst <$> scan (Db.content db))) t [] Ht)
    as (t' & -> & Hp' & Ht').
  exists t'. split; [done|]. split; [congruence|]. rewrite app_nil_r in Ht'.
  by rewrite <- (scan_keys (Db.content db)).
Qed.

Lemma compute_content_sketch_spec n db :
  ids_wf (Db.content db) ->
  ContentTable.compute_content_sketch n db =
  Ok (sketch_of (generate_ksequence n K0 K1) (table_keys (Db.content db)),
      generate_ksequence n K0 K1, u32 (Z.of_nat (length (table_keys (Db.content db))))).
Proof.
  intros Hwf. unfold ContentTable.compute_content_sketch.
  rewrite (for_each_collect (λ id, expect (ContentTable.key_of_id id)) key_of).
  2: { intros id [d ->]%scan_ids_hex; [|done]. by rewrite key_of_hex, key_of_id_hex. }
  cbn [mbind res_bind app].
  rewrite min_sketch_spec. pose proof (scan_keys (Db.content db)) as Hk.
  by rewrite (sketch_of_proper _ _ _ Hk), (Permutation_length Hk).
Qed.
End Computed.

(** ** Storing and reading *)

Section StoreRead.
Context `{SipHasher, Snap, !SnapLaws, BitcoinLaws, !Cbor Ad, !CborLaws Ad, SQLiteLaws}.
Implicit Types (db : DB) (c : Content).

Lemma store_content_spec height block_id c amount db s :
  TextOps.as_string (Content.content (ad c)) = Ok s -> content_length c <> 0 ->
  ContentTable.store_content height block_id c amount db =
  (Ok 1, set_content (<[to_hex (AdOps.digest_of (ad c)) :=
            ContentTable.content_row height block_id c amount s]> (Db.content db)) db).
Proof.
  intros Hs Hl. unfold ContentTable.store_content, lift, mbind, action_bind. rewrite Hs.
  cbn [expect]. by rewrite decide_False.
Qed.

Lemma store_then_read height block_id c amount db s other :
  TextOps.as_string (Content.content (ad c)) = Ok s -> content_length c <> 0 ->
  exists db', ContentTable.store_content height block_id c amount db = (Ok 1, db') /\
    ContentTable.read_content (AdOps.digest_of (ad c)) db' =
      Ok (Some (mkContent _ (AdOps.new (cat (ad c)) (abs (ad c)) s) (funding c) (funder c) (term c))) /\
    (ContentTable.read_content (AdOps.digest_of (ad c)) db' = Ok (Some c) <->
     ad c = AdOps.new (cat (ad c)) (abs (ad c)) s) /\
    (Db.content db !! to_hex other = None -> other <> AdOps.digest_of (ad c) ->
     ContentTable.read_content other db' = Err (DBError QueryReturnedNoRows)).
Proof.
  intros Hs Hl. eexists. split; [by apply store_content_spec|].
  assert (forall d t, t = set_content (<[to_hex (AdOps.digest_of (ad c)) :=
            ContentTable.content_row height block_id c amount s]> (Db.content db)) db ->
          d = AdOps.digest_of (ad c) -> ContentTable.read_content d t =
          Ok (Some (mkContent _ (AdOps.new (cat (ad c)) (abs (ad c)) s) (funding c) (funder c) (term c))))
    as Hread.
  { intros d t -> ->. unfold ContentTable.read_content. cbn [Db.content set_content].
    rewrite lookup_insert_eq. unfold ContentTable.content_row. cbn.
    by rewrite from_slice_to_vec, pk_from_to. }
  rewrite Hread by done. split; [done|]. split.
  - destruct c as [a f u tm]. cbn. split; [intros [= Ha]; by rewrite Ha|intros Ha; by rewrite <- Ha].
  - intros Hnone Hne. unfold ContentTable.read_content. cbn [Db.content set_content].
    rewrite lookup_insert_ne; [by rewrite Hnone|]. intros Heq%to_hex_inj. congruence.
Qed.

(** C34: A stored content is read back under its digest with its proof, its
    publisher and its term, and with the ad that [Ad::new] makes of the stored
    texts; that is the stored ad itself exactly when the ad is in the form that
    [Ad::new] gives it.  A digest that is not stored is an error, never
    [Ok(None)]. *)
Theorem store_read_roundtrip height block_id c amount db s other :
  TextOps.as_string (Content.content (ad c)) = Ok s -> content_length c <> 0 ->
  exists db', ContentTable.store_content height block_id c amount db = (Ok 1, db') /\
    ContentTable.read_content (AdOps.digest_of (ad c)) db' =
      Ok (Some (mkContent _ (AdOps.new (cat (ad c)) (abs (ad c)) s) (funding c) (funder c) (term c))) /\
    (ContentTable.read_content (AdOps.digest_of (ad c)) db' = Ok (Some c) <->
     ad c = AdOps.new (cat (ad c)) (abs (ad c)) s) /\
    (Db.content db !! to_hex other = None -> other <> AdOps.digest_of (ad c) ->
     ContentTable.read_content other db' = Err (DBError QueryReturnedNoRows)).
Proof. apply store_then_read. Qed.

(** An ad whose text a peer encoded in another way than [Text::new] does is
    stored under the digest of what the peer sent and read back as a different
    ad; unless SHA-256 collides, the node then delivers it under a digest it
    does not have. *)
Theorem noncanonical_ad_changes_digest height block_id c amount db s :
  TextOps.as_string (Content.content (ad c)) = Ok s -> content_length c <> 0 ->
  Content.content (ad c) <> TextOps.new s ->
  exists db' c', ContentTable.store_content height block_id c amount db = (Ok 1, db') /\
    ContentTable.read_content (AdOps.digest_of (ad c)) db' = Ok (Some c') /\
    ad c' <> ad c /\
    (AdOps.digest_of (ad c') = AdOps.digest_of (ad c) ->
     exists x y, x <> y /\ sha256 x = sha256 y).
Proof.
  intros Hs Hl Hne.
  destruct (store_then_read height block_id c amount db s (AdOps.digest_of (ad c)) Hs Hl)
    as (db' & Hst & Hrd & _).
  eexists db', _. split; [done|]. split; [done|]. cbn [ad].
  assert (AdOps.new (cat (ad c)) (abs (ad c)) s <> ad c) as Had.
  { unfold AdOps.new. intros Heq. apply Hne. by rewrite <- Heq at 1. }
  split; [done|]. intros Hd. eexists _, _. split; [|exact Hd]. intros Hser. apply Had.
  apply (f_equal from_slice) in Hser. unfold AdOps.serialize in Hser.
  rewrite !from_slice_to_vec in Hser. by injection Hser.
Qed.
End StoreRead.

(** ** Deletions *)

Section Deletions.
Context `{SipHasher, Snap, BitcoinLaws, !Cbor Ad, SQLiteLaws}.
Implicit Types (db : DB) (t : gmap str ContentRow).

(** What it means that [keys] were taken out of [t] and [t'] is left. *)
Definition removed t (keys : list ContentKey) t' : Prop :=
  t' ⊆ t /\ ids_wf t' /\ table_keys t ≡ₚ keys ++ table_keys t'.

Lemma removed_filter t keys (P : str * ContentRow -> Prop) `{!forall x, Decision (P x)} :
  ids_wf t -> table_keys t ≡ₚ keys ++ table_keys (filter P t) -> removed t keys (filter P t).
Proof.
  intros Ht Hk. split_and!; [apply map_filter_subseteq| |done].
  apply (ids_wf_sub t); [done|apply map_filter_subseteq].
Qed.

(** The reported keys are those of the rows that are gone. *)
Lemma removed_keys t keys t' d :
  ids_wf t -> removed t keys t' ->
  mkContentKey d ∈ keys <-> is_Some (t !! to_hex d) /\ t' !! to_hex d = None.
Proof.
  intros Ht (Hsub & Ht' & Hk).
  pose proof (elem_of_table_keys t (mkContentKey d) Ht) as Hin.
  pose proof (elem_of_table_keys t' (mkContentKey d) Ht') as Hin'. cbn [ck_digest] in Hin, Hin'.
  pose proof (NoDup_table_keys t Ht) as Hnd.
  rewrite Hk in Hnd. apply NoDup_app in Hnd as (_ & Hdisj & _). specialize (Hdisj (mkContentKey d)).
  rewrite Hk, elem_of_app in Hin. rewrite eq_None_not_Some. tauto.
Qed.

Lemma delete_where_removed (P : ContentRow -> bool) db :
  ids_wf (Db.content db) ->
  exists keys, ContentTable.delete_where P db =
    (Ok keys, set_content (filter (λ '(_, r), P r = false) (Db.content db)) db) /\
    removed (Db.content db) keys (filter (λ '(_, r), P r = false) (Db.content db)).
Proof.
  intros Hwf. destruct (delete_where_spec P db Hwf) as (keys & Hd & Hk).
  exists keys. split; [done|]. by apply removed_filter.
Qed.

(** Deleting expired contents at a height removes exactly the rows whose
    height plus term does not exceed it and reports exactly their keys, each
    once; every other row and table stays. *)
Theorem delete_expired_spec height db :
  ids_wf (Db.content db) ->
  exists keys t', ContentTable.delete_expired height db = (Ok keys, set_content t' db) /\
    NoDup keys /\
    (forall id r, t' !! id = Some r <-> Db.content db !! id = Some r /\ height < r_height r + r_term r) /\
    (forall d, mkContentKey d ∈ keys <->
      exists r, Db.content db !! to_hex d = Some r /\ r_height r + r_term r <= height).
Proof.
  intros Hwf.
  destruct (delete_where_removed (λ r, r_height r + r_term r <=? height) db Hwf) as (keys & Hd & Hr).
  exists keys. eexists. split; [exact Hd|]. split_and!.
  - destruct Hr as (_ & _ & Hk). pose proof (NoDup_table_keys _ Hwf) as Hnd. rewrite Hk in Hnd.
    by apply NoDup_app in Hnd as [? _].
  - intros id r. rewrite map_lookup_filter_Some. by rewrite Z.leb_gt.
  - intros d. rewrite (removed_keys _ _ _ _ Hwf Hr). split.
    + intros [[r Hlr] Hn]. exists r. split; [done|].
      apply map_lookup_filter_None in Hn as [?|Hn]; [congruence|].
      specialize (Hn r Hlr). simpl in Hn. apply not_false_is_true, Z.leb_le in Hn. done.
    + intros (r & Hlr & Hle). split; [by eexists|]. apply map_lookup_filter_None. right.
      intros r' Hr'. simpl. replace r' with r by congruence. apply Z.leb_le in Hle. by rewrite Hle.
Qed.

(** ** Truncation *)

Definition sum_length (rows : list (str * ContentRow)) : Z :=
  foldr (λ '(_, r) s, r_length r + s) 0 rows.

Lemma sum_length_nonneg rows :
  Forall (λ '(_, r), 0 <= r_length r) rows -> 0 <= sum_length rows.
Proof. induction 1 as [|[id r] rows Hr Hrows IH]; simpl; lia. Qed.

Lemma sum_length_app l1 l2 : sum_length (l1 ++ l2) = sum_length l1 + sum_length l2.
Proof. induction l1 as [|[i x] l1 IH]; simpl; lia. Qed.

Lemma sum_length_perm l l' : l ≡ₚ l' -> sum_length l = sum_length l'.
Proof. intros Hl. induction Hl as [|[i x]|[i x] [j y]|]; simpl; lia. Qed.

Lemma over_limit_loop limit rows size acc :
  0 <= size -> Forall (λ '(_, r), 0 <= r_length r) rows -> size + sum_length rows < 2 ^ 64 ->
  exists kept dropped, rows = kept ++ dropped /\
    snd (foldl (ContentTable.over_limit_step limit) (size, acc) rows) = acc ++ dropped.*1 /\
    (kept <> [] -> size + sum_length kept <= limit) /\
    (forall x rest, dropped = x :: rest -> limit < size + sum_length kept + r_length x.2).
Proof.
  intros Hsize Hrows. revert size acc Hsize.
  induction Hrows as [|[id r] rows Hr Hrows IH]; intros size acc Hsize Hsum.
  { exists [], []. simpl. rewrite app_nil_r. split_and!; done. }
  pose proof (sum_length_nonneg rows Hrows) as Hnn. cbn [sum_length foldr] in Hsum.
  fold (sum_length rows) in Hsum. cbn [foldl]. unfold ContentTable.over_limit_step at 2.
  rewrite (u64_small (size + r_length r)) by (unfold is_u64; lia).
  destruct (IH (size + r_length r) (if limit <? size + r_length r then acc ++ [id] else acc))
    as (kept & dropped & -> & Hloop & Hkept & Hdrop); [lia|lia|]. rewrite Hloop.
  destruct (Z.ltb_spec limit (size + r_length r)) as [Hlt|Hge].
  - assert (kept = []) as ->.
    { destruct kept as [|x kept]; [done|]. exfalso.
      apply Forall_app in Hrows as [Hk _]. pose proof (sum_length_nonneg _ Hk).
      assert (x :: kept <> []) as Hx by done. specialize (Hkept Hx). lia. }
    exists [], ((id, r) :: dropped). split_and!; [done| |done|].
    + simpl. by rewrite <- (assoc_L (++)).
    + intros x rest [= <- <-]. simpl. lia.
  - exists ((id, r) :: kept), dropped. split_and!; [done|done| |].
    + intros _. cbn [sum_length foldr]. fold (sum_length kept).
      destruct (decide (kept = [])) as [->|Hne]; [simpl; lia|]. specialize (Hkept Hne). lia.
    + intros x rest Hx. cbn [sum_length foldr]. fold (sum_length kept).
      specialize (Hdrop x rest Hx). lia.
Qed.

Lemma delete_ids_spec ids keys db :
  (forall id, id ∈ ids -> exists d, id = to_hex d) ->
  ContentTable.delete_ids ids keys db =
  (Ok (keys ++ (key_of <$> ids)), set_content (filter (λ '(id, _), id ∉ ids) (Db.content db)) db).
Proof.
  revert keys db. induction ids as [|id ids IH]; intros keys db Hids.
  - simpl. rewrite app_nil_r. unfold mret, action_ret. do 2 f_equal. destruct db.
    unfold set_content. simpl. f_equal. symmetry. apply map_filter_id. intros i x _. apply not_elem_of_nil.
  - destruct (Hids id (list_elem_of_here _ _)) as [d Hd]. cbn [ContentTable.delete_ids].
    unfold lift, modify, mbind, action_bind. rewrite Hd, key_of_id_hex, <- Hd.
    rewrite IH by (intros; apply Hids; by apply list_elem_of_further).
    rewrite fmap_cons. replace (key_of id) with (mkContentKey d) by (by rewrite Hd, key_of_hex).
    rewrite <- (assoc_L (++)). f_equal. unfold set_content. simpl. f_equal.
    apply map_eq. intros i. apply option_eq. intros x.
    rewrite !map_lookup_filter_Some, lookup_delete_Some, not_elem_of_cons. naive_solver.
Qed.

Lemma over_limit_sublist limit rows : ContentTable.over_limit limit rows `sublist_of` rows.*1.
Proof.
  unfold ContentTable.over_limit.
  assert (forall acc, exists l, snd (foldl (ContentTable.over_limit_step limit) acc rows) = acc.2 ++ l /\
            l `sublist_of` rows.*1) as Hl.
  { induction rows as [|[id r] rows IH]; intros [size acc]; simpl.
    - exists []. by rewrite app_nil_r.
    - destruct (IH (u64 (size + r_length r),
                    if limit <? u64 (size + r_length r) then acc ++ [id] else acc)) as (l & -> & Hl).
      simpl. case_match; [exists (id :: l); rewrite <- (assoc_L (++)); split; [done|by constructor]|].
      exists l. split; [done|]. by constructor. }
  destruct (Hl (0, [])) as (l & -> & ?). done.
Qed.

Definition rows_by_weight (db : DB) : list (str * ContentRow) :=
  order_by (ContentTable.by_weight_desc (r_weight ∘ snd)) (scan (Db.content db)).

Lemma rows_by_weight_perm db : rows_by_weight db ≡ₚ map_to_list (Db.content db).
Proof. unfold rows_by_weight. by rewrite order_by_perm, scan_rows. Qed.

Lemma truncate_content_shape limit db :
  ids_wf (Db.content db) ->
  let ids := ContentTable.over_limit limit (rows_by_weight db) in
  let t' := filter (λ '(id, _), id ∉ ids) (Db.content db) in
  ContentTable.truncate_content limit db = (Ok (key_of <$> ids), set_content t' db) /\
  removed (Db.content db) (key_of <$> ids) t'.
Proof.
  intros Hwf ids t'. pose proof (over_limit_sublist limit (rows_by_weight db)) as Hsub. fold ids in Hsub.
  assert (forall id, id ∈ ids -> is_Some (Db.content db !! id)) as Hids.
  { intros id Hid. apply (sublist_subseteq _ _ Hsub) in Hid.
    rewrite rows_by_weight_perm in Hid.
    apply list_elem_of_fmap in Hid as ([id' r] & -> & Hr%elem_of_map_to_list). by exists r. }
  split.
  - unfold ContentTable.truncate_content, gets, mbind, action_bind.
    fold (rows_by_weight db). fold ids. by rewrite delete_ids_spec by (intros id ?; by apply Hwf, Hids).
  - apply removed_filter; [done|]. apply table_keys_split; [done| |done].
    eapply sublist_NoDup; [|exact Hsub]. rewrite rows_by_weight_perm. apply NoDup_fst_map_to_list.
Qed.

#[local] Instance by_weight_total : Total (ContentTable.by_weight_desc (r_weight ∘ @snd str ContentRow)).
Proof. intros x y. unfold ContentTable.by_weight_desc. lia. Qed.
#[local] Instance by_weight_trans :
  Transitive (ContentTable.by_weight_desc (r_weight ∘ @snd str ContentRow)).
Proof. intros x y z. unfold ContentTable.by_weight_desc. lia. Qed.

Lemma sorted_app_le {A} (R : A -> A -> Prop) (l1 l2 : list A) x y :
  StronglySorted R (l1 ++ l2) -> x ∈ l1 -> y ∈ l2 -> R x y.
Proof.
  induction l1 as [|z l1 IH]; intros Hs Hx Hy; [by apply not_elem_of_nil in Hx|].
  simpl in Hs. apply StronglySorted_inv in Hs as [Hs Hz].
  apply elem_of_cons in Hx as [->|Hx]; [|by apply IH].
  rewrite Forall_forall in Hz. apply Hz. apply elem_of_app. by right.
Qed.

(** Truncation keeps a prefix of the contents in the order of falling weight
    whose lengths together fit the limit, drops the rest, and reports the keys
    of what it drops; nothing dropped outweighs anything kept, and the first
    content dropped would not have fitted. *)
Lemma truncate_rows limit db :
  ids_wf (Db.content db) -> 0 <= limit ->
  (forall id r, Db.content db !! id = Some r -> 0 <= r_length r) ->
  sum_length (map_to_list (Db.content db)) < 2 ^ 64 ->
  exists kept dropped t',
    ContentTable.truncate_content limit db = (Ok (key_of <$> dropped.*1), set_content t' db) /\
    map_to_list (Db.content db) ≡ₚ kept ++ dropped /\ map_to_list t' ≡ₚ kept /\
    sum_length kept <= limit /\
    (forall x y, x ∈ kept -> y ∈ dropped -> r_weight y.2 <= r_weight x.2) /\
    (forall x rest, dropped = x :: rest -> limit < sum_length kept + r_length x.2).
Proof.
  intros Hwf Hlimit Hlen Hsum. pose proof (rows_by_weight_perm db) as Hperm.
  assert (sum_length (rows_by_weight db) = sum_length (map_to_list (Db.content db))) as Hs.
  { by apply sum_length_perm. }
  destruct (over_limit_loop limit (rows_by_weight db) 0 []) as (kept & dropped & Hrows & Hloop & Hk & Hd).
  { done. }
  { rewrite Hperm. apply Forall_forall. intros [id r] Hr%elem_of_map_to_list. by apply (Hlen id). }
  { lia. }
  destruct (truncate_content_shape limit db Hwf) as [Htr _].
  unfold ContentTable.over_limit in Htr. rewrite Hloop in Htr. cbn [app] in Htr.
  exists kept, dropped. eexists. split; [exact Htr|].
  assert (NoDup (kept ++ dropped).*1) as Hnd.
  { rewrite <- Hrows, Hperm. apply NoDup_fst_map_to_list. }
  split_and!.
  - by rewrite <- Hperm, Hrows.
  - rewrite map_filter_alt, map_to_list_to_map.
    + rewrite <- Hperm, Hrows, filter_app.
      rewrite fmap_app in Hnd. apply NoDup_app in Hnd as (_ & Hdis & _).
      rewrite filter_all, filter_none; [by rewrite app_nil_r| |].
      * intros [id r] Hin Hn. apply Hn. apply list_elem_of_fmap. by exists (id, r).
      * intros [id r] Hin Hn. apply (Hdis id); [|done]. apply list_elem_of_fmap. by exists (id, r).
    + eapply sublist_NoDup; [apply (NoDup_fst_map_to_list (Db.content db))|].
      apply fmap_sublist, sublist_filter.
  - destruct (decide (kept = [])) as [->|Hne]; [done|]. by apply Hk.
  - intros x y Hx Hy. apply (sorted_app_le (ContentTable.by_weight_desc (r_weight ∘ snd)) kept dropped);
      [|done|done]. rewrite <- Hrows. unfold rows_by_weight. apply order_by_sorted; apply _.
  - exact Hd.
Qed.

End Deletions.

(** ** Queries *)

Section Queries.
Context `{SipHasher, Snap, BitcoinLaws, !Cbor Ad, SQLiteLaws}.
Implicit Types (db : DB).

#[local] Instance by_cat_weight_total : Total ContentTable.by_cat_weight.
Proof.
  intros [i x] [j y]. unfold ContentTable.by_cat_weight. simpl.
  destruct (total text_le (r_cat x) (r_cat y)) as [Hle|Hle];
    destruct (decide (r_cat x = r_cat y)) as [Heq|Hne].
  1, 3: rewrite <- Heq in *; destruct (Z.le_ge_cases (r_weight x) (r_weight y)); [right|left]; split;
    auto; by apply str_le_refl.
  - left. by split.
  - right. split; [done|]. intros Heq. by symmetry in Heq.
Qed.

#[local] Instance by_cat_weight_trans : Transitive ContentTable.by_cat_weight.
Proof.
  intros [i x] [j y] [k z] [Hxy Wxy] [Hyz Wyz]. simpl in *. split; simpl; [by etrans|].
  intros Heq. assert (r_cat x = r_cat y) as He.
  { apply str_le_antisymm; [done|]. by rewrite Heq. }
  specialize (Wxy He). rewrite He in Heq. specialize (Wyz Heq). lia.
Qed.

(** The categories are listed in byte order, each once, exactly those of the
    stored contents; the abstracts of the asked categories come sorted by
    category and within a category by falling weight, one entry of id, category
    and abstract per stored content. *)
Theorem listings_spec cats db :
  (StronglySorted text_le (ContentTable.list_categories db) /\
   NoDup (ContentTable.list_categories db) /\
   forall c, c ∈ ContentTable.list_categories db <->
     exists id r, Db.content db !! id = Some r /\ r_cat r = c) /\
  exists rows, ContentTable.list_abstracts cats db = (λ '(id, r), [id; r_cat r; r_abs r]) <$> rows /\
    StronglySorted ContentTable.by_cat_weight rows /\ NoDup rows.*1 /\
    forall id r, (id, r) ∈ rows <-> Db.content db !! id = Some r /\ r_cat r ∈ cats.
Proof.
  split.
  - unfold ContentTable.list_categories. split_and!.
    + apply order_by_sorted; apply _.
    + rewrite order_by_perm. apply NoDup_remove_dups.
    + intros c. rewrite order_by_perm, elem_of_remove_dups, list_elem_of_fmap. split.
      * intros ([id r] & -> & Hr%elem_of_scan). by exists id, r.
      * intros (id & r & Hr & <-). exists (id, r). split; [done|]. by apply elem_of_scan.
  - eexists. split; [done|]. split_and!.
    + apply order_by_sorted; apply _.
    + rewrite order_by_perm. eapply sublist_NoDup; [apply (NoDup_scan_keys (Db.content db))|].
      apply fmap_sublist, sublist_filter.
    + intros id r. rewrite order_by_perm, list_elem_of_filter, elem_of_scan. tauto.
Qed.

(** Reading contents by id answers with the stored rows of the ids that are
    stored, by falling weight, and never fails on a table whose publishers are
    public keys. *)
Theorem retrieve_contents_spec ids db :
  (forall id r, Db.content db !! id = Some r -> is_Some (pk_from_slice (r_publisher r))) ->
  exists rows, ContentTable.retrieve_contents ids db = Ok ((λ '(id, r),
      mkRetrievedContent id (r_cat r) (r_abs r) (r_ad r)
        (from_option pk_display [] (pk_from_slice (r_publisher r)))
        (r_height r) (r_term r) (r_length r) (r_weight r)) <$> rows) /\
    StronglySorted (ContentTable.by_weight_desc (r_weight ∘ snd)) rows /\
    forall id r, (id, r) ∈ rows <-> id ∈ ids /\ Db.content db !! id = Some r.
Proof.
  intros Hpk. exists (order_by (ContentTable.by_weight_desc (r_weight ∘ snd))
              (filter (λ '(id, _), id ∈ ids) (scan (Db.content db)))). split; [|split].
  - unfold ContentTable.retrieve_contents. set (rows := order_by _ _).
    assert (forall id r, (id, r) ∈ rows -> is_Some (pk_from_slice (r_publisher r))) as Hrows.
    { intros id r. subst rows. rewrite order_by_perm, list_elem_of_filter, elem_of_scan.
      intros [_ Hr]. by apply (Hpk id). }
    clearbody rows.
    match goal with |- for_each _ ?body _ = Ok (?g <$> _) =>
      enough (forall acc, for_each rows body acc = Ok (acc ++ (g <$> rows))) as Hloop by exact (Hloop [])
    end.
    induction rows as [|[id r] rows IH]; intros acc; [by rewrite app_nil_r|].
    destruct (Hrows id r (list_elem_of_here _ _)) as [pk Hk].
    cbn [for_each]. rewrite Hk. cbn [unwrap unwrap_result mbind res_bind].
    rewrite fmap_cons, Hk. cbn [from_option]. rewrite IH; [by rewrite <- (assoc_L (++))|].
    intros id' r' Hin. apply (Hrows id'). by apply list_elem_of_further.
  - apply order_by_sorted.
    + intros x y. unfold ContentTable.by_weight_desc. lia.
    + intros x y z. unfold ContentTable.by_weight_desc. lia.
  - intros id r. by rewrite order_by_perm, list_elem_of_filter, elem_of_scan.
Qed.
End Queries.
