(* ===== verification/Wallet.v ===== *)
(** * The wallet (src/wallet.rs)

    Coin selection, key derivation, signing and the bookkeeping of coins are the
    bitcoin_wallet crate's, fields of the class [WalletCrate]; the program's own
    part is the construction of the funding and withdrawal transactions: fees,
    dust, change, sequence numbers. *)

From S2P Require Import Prelude Machine Keys Strings Bitcoin Effects.
#[local] Open Scope Z_scope.

(** ** bitcoin_wallet *)

Record KeyDerivation : Type := mkKeyDerivation {
  d_account : Z; d_sub : Z; d_kix : Z; d_tweak : option (list Z); d_csv : option Z
}.
Record Coin : Type := mkCoin { coin_output : TxOut; derivation : KeyDerivation }.

#[export] Instance KeyDerivation_eq_dec : EqDecision KeyDerivation.
Proof. solve_decision. Defined.
#[export] Instance Coin_eq_dec : EqDecision Coin.
Proof. solve_decision. Defined.

(** A fallible call of the crate answers with the value or with the text of its
    error.  [unlock] is [Unlocker::new] for the master account's own encrypted key
    and network. *)
Class WalletCrate `{Bitcoin} : Type := {
  Coins : Type;
  coins_new : Coins;
  confirmed : Coins -> list (OutPoint * Coin);
  unconfirmed : Coins -> list (OutPoint * Coin);
  proofs : Coins -> list (digest * ProvedTransaction);
  coins_confirmed_balance : Coins -> Z;
  coins_unconfirmed_balance : Coins -> Z;
  coins_available_balance : Coins -> Z -> (digest -> option Z) -> Z;
  choose_inputs : Coins -> Z -> Z -> (digest -> option Z) -> list (OutPoint * Coin * Z);
  coins_unwind_tip : digest -> Coins -> Coins;
  coins_add_confirmed : OutPoint -> Coin -> ProvedTransaction -> Coins -> Coins;
  MasterAccount : Type;
  coins_process : Block -> MasterAccount * Coins -> bool * (MasterAccount * Coins);
  process_unconfirmed_transaction : Transaction -> MasterAccount * Coins -> MasterAccount * Coins;
  Account : Type;
  get_account : MasterAccount -> Z * Z -> option Account;
  put_account : MasterAccount -> Z * Z -> Account -> MasterAccount;
  Address : Type;
  address_script_pubkey : Address -> Script;
  next_key : Account -> (string + Address * Account);
  do_look_ahead : Account -> option Z -> (string + Account);
  add_script_key : Account -> (PublicKey -> option Z -> Script) -> option (list Z) -> option Z ->
    (string + Z * Account);
  get_key_address : Account -> Z -> option Address;
  compute_base_public_key : Account -> Z -> (string + PublicKey);
  Unlocker : Type;
  unlock : MasterAccount -> str -> (string + Unlocker);
  master_sign : MasterAccount -> Unlocker -> (OutPoint -> option TxOut) -> Transaction ->
    (string + Transaction * nat);
  get_weight : Transaction -> Z
}.

(** [?] on a result of the crate, and [.unwrap()] or [.expect(..)]. *)
Definition try_wallet {A} (m : string + A) : res Error A :=
  match m with inl e => Err (from_wallet_error e) | inr a => Ok a end.
Definition unwrap_wallet {E A} (m : string + A) : res E A :=
  match m with inl _ => Panicked UnwrapOnErr | inr a => Ok a end.

(** ** Constants *)

Definition KEY_LOOK_AHEAD : Z := 10.
Definition DUST : Z := 546.
Definition MAX_FEE_PER_VBYTE : Z := 100.
Definition MIN_FEE_PER_VBYTE : Z := 1.
Definition MAX_TERM : Z := 6 * 24 * 30.
Definition RBF : Z := 4294967295 - 2.

Record Wallet `{WalletCrate} : Type := mkWallet { w_coins : Coins; master : MasterAccount }.

Module WalletOps.
Section Ops.
Context `{WalletCrate}.

Definition balance (w : Wallet) : Z :=
  u64 (coins_confirmed_balance (w_coins w) + coins_unconfirmed_balance (w_coins w)).
Definition confirmed_balance (w : Wallet) : Z := coins_confirmed_balance (w_coins w).
Definition unconfirmed_balance (w : Wallet) : Z := coins_unconfirmed_balance (w_coins w).
Definition available_balance (w : Wallet) (height : Z) (height_for_block : digest -> option Z) : Z :=
  coins_available_balance (w_coins w) height height_for_block.

Definition unwind_tip (block_hash : digest) (w : Wallet) : Wallet :=
  mkWallet _ _ (coins_unwind_tip block_hash (w_coins w)) (master w).
Definition rescan (w : Wallet) : Wallet := mkWallet _ _ coins_new (master w).

Definition process (block : Block) (w : Wallet) : bool * Wallet :=
  let '(b, (master, coins)) := coins_process block (master w, w_coins w) in
  (b, mkWallet _ _ coins master).

Definition process_unconfirmed (tx : Transaction) : action Wallet Error unit :=
  modify (λ w, let '(master, coins) := process_unconfirmed_transaction tx (master w, w_coins w) in
               mkWallet _ _ coins master).

Definition prove (txid : digest) (w : Wallet) : option ProvedTransaction :=
  snd <$> head (filter (λ '(h, _), h = txid) (proofs (w_coins w))).

(** [self.master.get_mut(n).unwrap()] and a call that changes the account. *)
Definition with_account {A} (n : Z * Z) (f : Account -> res Error (A * Account)) :
    action Wallet Error A :=
  a ← (λ w, (unwrap (get_account (master w) n), w));
  '(x, a) ← lift (f a);
  _ ← modify (λ w, mkWallet _ _ (w_coins w) (put_account (master w) n a));
  mret x.

(** [next_key().unwrap().address.clone()] *)
Definition next_address (n : Z * Z) : action Wallet Error Address :=
  with_account n (λ a, unwrap_wallet (next_key a)).

Definition total_input (coins : list (OutPoint * Coin * Z)) : Z :=
  u64 (foldr (λ '(_, c, _) s, value (coin_output c) + s) 0 coins).

Definition tx_in (height : Z) (c : OutPoint * Coin * Z) : TxIn :=
  let '(point, coin, h) := c in
  mkTxIn point [] (match d_csv (derivation coin) with
                   | Some csv => Z.min csv (u32 (height - h))
                   | None => RBF
                   end) [].

(** [|point| coins.iter().find(|(o, _, _)| *o == *point).map(..)] *)
Definition resolve (coins : list (OutPoint * Coin * Z)) (point : OutPoint) : option TxOut :=
  (λ '(_, c, _), coin_output c) <$> head (filter (λ '(o, _, _), o = point) coins).

(** The outputs that one pass of the loop writes; [coin_flip] is
    [thread_rng().next_u32() % 2]. *)
Definition outputs (amount total_input fee : Z) (target change : Script) (coin_flip : bool) :
    res Error (list TxOut) :=
  if DUST <? u64 (amount - fee) then
    let out := [mkTxOut (u64 (amount - fee)) target] in
    if (amount <? total_input) && (DUST <? total_input - amount)
    then let c := mkTxOut (total_input - amount) change in
         Ok (if coin_flip then out ++ [c] else c :: out)
    else Ok out
  else Err (Unsupported "withdraw amount is less than the fees needed (+DUST limit)").

(** [loop { .. }]: build, sign, and on the first pass compute the fee; the pass
    with a fee is the last.  [None] when the fuel runs out. *)
Fixpoint build_tx (fuel : nat) (w : Wallet) (unlocker : Unlocker)
    (coins : list (OutPoint * Coin * Z)) (amount total_input fee_per_vbyte fee : Z)
    (target change : Script) (coin_flip : nat -> bool) (tx : Transaction) :
    res Error (option (Transaction * Z)) :=
  match fuel with
  | O => Ok None
  | S fuel =>
      outs ← outputs amount total_input fee target change (coin_flip fuel);
      let tx := mkTransaction (version tx) (lock_time tx) (input tx) outs in
      '(tx, n) ← try_wallet (master_sign (master w) unlocker (resolve coins) tx);
      if decide (n <> length (input tx)) then Err (Unsupported "could not sign for all inputs")
      else if fee =? 0 then
        build_tx fuel w unlocker coins amount total_input fee_per_vbyte
                 (u64 (u64 (get_weight tx * fee_per_vbyte) + 3) / 4) target change coin_flip tx
      else Ok (Some (tx, fee))
  end.

Definition clamp_fee (fee_per_vbyte : Z) : Z :=
  Z.min MAX_FEE_PER_VBYTE (Z.max MIN_FEE_PER_VBYTE fee_per_vbyte).

Definition LOOP_FUEL : nat := 2.

(** The part that [fund] and [withdraw] share, from the check of the funds on. *)
Definition spend (unlocker : Unlocker) (coins : list (OutPoint * Coin * Z))
    (amount height fee_per_vbyte : Z) (target change : Script) (coin_flip : nat -> bool) :
    action Wallet Error (option (Transaction * Z)) :=
  let total_input := total_input coins in
  if total_input <? amount then lift (Err (Unsupported "insufficient funds"))
  else
    let tx := mkTransaction 2 0 (tx_in height <$> coins) [] in
    built ← (λ w, (build_tx LOOP_FUEL w unlocker coins amount total_input fee_per_vbyte 0
                     target change coin_flip tx, w));
    match built with
    | None => mret None
    | Some (tx, fee) => _ ← process_unconfirmed tx; mret (Some (tx, fee))
    end.

Definition fund (id : digest) (term : Z) (passphrase : str) (fee_per_vbyte amount : Z)
    (trunk_len : Z) (get_height : digest -> option Z) (scripter : PublicKey -> option Z -> Script)
    (coin_flip : nat -> bool) : action Wallet Error (option (Transaction * PublicKey * Z)) :=
  unlocker ← (λ w, (try_wallet (unlock (master w) passphrase), w));
  let fee_per_vbyte := clamp_fee fee_per_vbyte in
  let term := Z.min MAX_TERM term in
  change_address ← next_address (0, 1);
  coins ← gets (λ w, choose_inputs (w_coins w) amount trunk_len get_height);
  '(contract_address, funder) ← with_account (1, 0) (λ commit_account,
    '(kix, commit_account) ← unwrap_wallet
       (add_script_key commit_account scripter (Some (vec_to_list id)) (Some term));
    contract_address ← unwrap (get_key_address commit_account kix);
    funder ← unwrap_wallet (compute_base_public_key commit_account kix);
    Ok ((contract_address, funder), commit_account));
  built ← spend unlocker coins amount trunk_len fee_per_vbyte
            (address_script_pubkey contract_address) (address_script_pubkey change_address) coin_flip;
  mret ((λ '(tx, fee), (tx, funder, fee)) <$> built).

Definition withdraw (passphrase : str) (address : Address) (fee_per_vbyte : Z) (amount : option Z)
    (trunk_len : Z) (get_height : digest -> option Z) (coin_flip : nat -> bool) :
    action Wallet Error (option (Transaction * Z)) :=
  unlocker ← (λ w, (try_wallet (unlock (master w) passphrase), w));
  balance ← gets (λ w, available_balance w trunk_len get_height);
  let amount := default balance amount in
  let fee_per_vbyte := clamp_fee fee_per_vbyte in
  change_address ← next_address (0, 1);
  coins ← gets (λ w, choose_inputs (w_coins w) amount trunk_len get_height);
  spend unlocker coins amount trunk_len fee_per_vbyte
        (address_script_pubkey address) (address_script_pubkey change_address) coin_flip.

(** [do_look_ahead(Some(d.kix))] for the keys of the stored coins. *)
Definition look_ahead_coin (c : OutPoint * Coin) : action MasterAccount Error unit :=
  let d := derivation c.2 in
  a ← (λ m, (unwrap (get_account m (d_account d, d_sub d)), m));
  a ← lift (unwrap_wallet (do_look_ahead a (Some (d_kix d))));
  modify (λ m, put_account m (d_account d, d_sub d) a).

Definition from_storage (coins : Coins) (m : MasterAccount) : res Error Wallet :=
  let '(r, m) := (_ ← for_each_do (confirmed coins) look_ahead_coin;
                  for_each_do (unconfirmed coins) look_ahead_coin) m in
  _ ← r; Ok (mkWallet _ _ coins m).
End Ops.
End WalletOps.
