(* ===== verification/DbWallet.v ===== *)
(** * The wallet's tables (src/db.rs)

    Publications in preparation, our own transactions, the coins and accounts
    of the wallet, the last processed block and the seed of the address slots. *)

From S2P Require Import Prelude Machine IbltTable Keys Strings Text Bitcoin Content Effects Db.
From S2P Require Import Wallet.
#[local] Open Scope Z_scope.

(** What bitcoin_wallet exposes of an account for storage. *)
Class AccountStorage `{WalletCrate} : Type := {
  account_number : Account -> Z;
  sub_account_number : Account -> Z;
  address_type_as_u32 : Account -> Z;
  account_master_public : Account -> str;
  account_instantiated : Account -> option (list Z);
  accounts : MasterAccount -> list Account;
  new_from_storage : Z -> Z -> Z -> str -> list Z -> Z -> option Account
}.

Module WalletTables.
Section Ops.
Context `{SipHasher, Snap, Bitcoin, !Cbor Ad, SQLite, !WalletCrate, !AccountStorage}.

(** ** Publications *)

Definition read_publication (id : digest) (db : DB) : option Ad :=
  (λ r, AdOps.new (p_cat r) (p_abs r) (p_ad r)) <$> Db.publication db !! to_hex id.

Definition list_publication (db : DB) : res Error (list digest) :=
  for_each (fst <$> scan (Db.publication db)) (λ result id,
    h ← unwrap_result (from_hex id); Ok (result ++ [h])) [].

Definition prepare_publication (a : Ad) : action DB Error digest :=
  let id := AdOps.digest_of a in
  let length := u32 (Z.of_nat (length (AdOps.serialize a))) in
  text ← lift (expect (TextOps.as_string (Content.content a)));
  _ ← modify (λ db, set_publication
        (<[to_hex id := mkPublicationRow (cat a) (abs a) text length]> (Db.publication db)) db);
  mret id.

(** ** Blocks processed *)

Definition rescan (after : digest) (db : DB) : DB :=
  set_coins ∅ (set_txout ∅ (set_processed ((λ _, to_hex_d after) <$> Db.processed db) db)).

Definition read_processed (db : DB) : res Error (option digest) :=
  match Db.processed db with
  | None => Ok None
  | Some block => h ← unwrap_result (from_hex_d block); Ok (Some h)
  end.

Definition store_processed (block_id : digest) (db : DB) : DB :=
  set_processed (Some (to_hex_d block_id)) db.

(** The seed is drawn once: [r0] and [r1] are what [thread_rng] would give. *)
Definition read_seed (r0 r1 : Z) : action DB Error (Z * Z) := λ db,
  match seed db with
  | Some (k0, k1) => (Ok (u64 k0, u64 k1), db)
  | None => (Ok (r0, r1), set_seed (Some (i64 r0, i64 r1)) db)
  end.

(** ** Our transactions *)

Definition store_txout (tx : Transaction) (funding : option (PublicKey * digest * Z)) (db : DB) : DB :=
  let row := match funding with
             | Some (publisher, id, term) =>
                 mkTxoutRow (tx_serialize tx) None (Some (pk_to_bytes publisher)) (Some (to_hex id)) (Some term)
             | None => mkTxoutRow (tx_serialize tx) None None None None
             end in
  set_txout (<[to_hex_d (txid tx) := row]> (Db.txout db)) db.

Definition unconfirmed_row (r : TxoutRow) :
    res Error (Transaction * option (PublicKey * digest * Z)) :=
  tx ← unwrap_result (tx_deserialize (t_tx r));
  match t_publisher r with
  | None => Ok (tx, None)
  | Some publisher =>
      publisher ← unwrap_result (pk_from_slice publisher);
      id ← unwrap (t_id r);
      id ← unwrap_result (from_hex id);
      term ← unwrap (t_term r);
      Ok (tx, Some (publisher, id, u16 term))
  end.

(** [select .. from txout where confirmed is null] *)
Definition unconfirmed_rows (db : DB) : list TxoutRow :=
  snd <$> filter (λ '(_, r), t_confirmed r = None) (scan (Db.txout db)).

Definition read_unconfirmed (db : DB) :
    res Error (list (Transaction * option (PublicKey * digest * Z))) :=
  for_each (unconfirmed_rows db) (λ result r, u ← unconfirmed_row r; Ok (result ++ [u])) [].

(** ** Coins *)

Definition coin_row (coin : Coin) (proof : ProvedTransaction) : CoinRow :=
  let d := derivation coin in
  let tweak := from_option hex_encode [] (d_tweak d) in
  {| c_value := i64 (value (coin_output coin)); c_script := script_pubkey (coin_output coin);
     c_account := d_account d; c_sub := d_sub d; c_kix := d_kix d;
     c_tweak := if decide (tweak = []) then None else Some tweak;
     c_csv := d_csv d; c_proof := to_vec proof |}.

(** [proofs.get(&txid)] *)
Definition find_proof (proofs : list (digest * ProvedTransaction)) (h : digest) :
    option ProvedTransaction :=
  snd <$> head (filter (λ '(h', _), h' = h) proofs).

Definition store_coins (coins : Coins) : action DB Error unit :=
  _ ← modify (set_coins ∅);
  let proofs := proofs coins in
  _ ← for_each_do (confirmed coins) (λ '(outpoint, coin),
    proof ← lift (unwrap (find_proof proofs (op_txid outpoint)));
    modify (λ db, set_coins (<[(to_hex_d (op_txid outpoint), vout outpoint) := coin_row coin proof]>
                               (Db.coins db)) db));
  unconfirmed ← (λ db, (read_unconfirmed db, db));
  for_each_do unconfirmed (λ '(unconfirmed, _),
    match head (filter (λ p, txid (get_transaction p) = txid unconfirmed) (snd <$> proofs)) with
    | None => mret ()
    | Some proof =>
        modify (λ db, set_txout (alter (λ r, mkTxoutRow (t_tx r) (Some (to_hex_d (get_block_hash proof)))
                                       (t_publisher r) (t_id r) (t_term r))
                                  (to_hex_d (txid (get_transaction proof))) (Db.txout db)) db)
    end).

Definition coin_of_row (k : str * Z) (r : CoinRow) : res Error (OutPoint * Coin * ProvedTransaction) :=
  h ← unwrap_result (from_hex_d k.1);
  tweak ← match c_tweak r with
          | None => Ok None
          | Some tweak => t ← unwrap_result (hex_decode tweak); Ok (Some t)
          end;
  proof ← unwrap_result (from_slice (c_proof r));
  Ok (mkOutPoint h k.2,
      mkCoin (mkTxOut (u64 (c_value r)) (c_script r))
             (mkKeyDerivation (c_account r) (c_sub r) (c_kix r) tweak (u16 <$> c_csv r)), proof).

Definition read_coins (db : DB) (m : MasterAccount) : res Error (Coins * MasterAccount) :=
  coins ← for_each (scan (Db.coins db)) (λ coins '(k, r),
    '(point, coin, proof) ← coin_of_row k r;
    Ok (coins_add_confirmed point coin proof coins)) coins_new;
  for_each (unconfirmed_rows db) (λ '(coins, m) r,
    tx ← unwrap_result (tx_deserialize (t_tx r));
    let '(m, coins) := process_unconfirmed_transaction tx (m, coins) in
    Ok (coins, m)) (coins, m).

(** ** Accounts *)

Definition store_account (a : Account) : action DB Error Z :=
  instantiated ← lift (match account_instantiated a with
                       | Some i => Ok i
                       | None => Err from_cbor_error
                       end);
  _ ← modify (λ db, set_account (<[(account_number a, sub_account_number a) :=
        mkAccountRow (address_type_as_u32 a) (account_master_public a) instantiated]> (Db.account db)) db);
  mret 1.

(** [inserted += self.store_account(account)?] *)
Fixpoint store_accounts (l : list Account) (inserted : Z) : action DB Error Z :=
  match l with
  | [] => mret inserted
  | a :: l => n ← store_account a; store_accounts l (inserted + n)
  end.
Definition store_master (m : MasterAccount) : action DB Error Z :=
  _ ← modify (set_account ∅);
  store_accounts (accounts m) 0.

Definition read_account (account_number sub look_ahead : Z) (db : DB) : res Error Account :=
  match Db.account db !! (account_number, sub) with
  | None => Err (from_sql_error QueryReturnedNoRows)
  | Some r => unwrap_result (new_from_storage (a_address_type r) account_number sub (a_master r)
                        (a_instantiated r) look_ahead)
  end.
End Ops.
End WalletTables.

(** ** Theorems *)

Section Theorems.
Context `{SipHasher, Snap, !SnapLaws, BitcoinLaws, !Cbor Ad, SQLiteLaws, !WalletCrate}.
Implicit Types (db : DB).

Lemma i64_u64 z : is_u64 z -> u64 (i64 z) = z.
Proof. unfold is_u64, u64, i64. intros. rewrite Zminus_mod, Zmod_mod, <- Zminus_mod. rewrite Z.mod_small; lia. Qed.

(** The seed of the address slots is drawn once: whatever the generator would
    give later, every read after the first answers with the first pair. *)
Theorem read_seed_stable r0 r1 r2 r3 db k db' :
  is_u64 r0 -> is_u64 r1 ->
  WalletTables.read_seed r0 r1 db = (Ok k, db') ->
  WalletTables.read_seed r2 r3 db' = (Ok k, db') /\ (seed db = None -> k = (r0, r1)).
Proof.
  intros H0' H1' Hr. unfold WalletTables.read_seed in Hr |- *. destruct (seed db) as [[a b]|] eqn:Hs.
  - injection Hr as <- <-. by rewrite Hs.
  - injection Hr as <- <-. simpl. by rewrite !i64_u64.
Qed.

(** A publication that was prepared from a valid text is read back as the ad
    itself under the id that [prepare_publication] answered, and is listed; the
    id is the digest that a funding transaction commits to. *)
Theorem publication_roundtrip c a s db :
  valid_str s -> (forall id, is_Some (Db.publication db !! id) -> exists d, id = to_hex d) ->
  let ad := AdOps.new c a s in
  exists db', WalletTables.prepare_publication ad db = (Ok (AdOps.digest_of ad), db') /\
    WalletTables.read_publication (AdOps.digest_of ad) db' = Some ad /\
    exists ids, WalletTables.list_publication db' = Ok ids /\ AdOps.digest_of ad ∈ ids /\
      forall d, d ∈ ids <-> is_Some (Db.publication db' !! to_hex d).
Proof.
  intros Hs Hwf ad.
  set (t := <[to_hex (AdOps.digest_of ad) := mkPublicationRow c a s
                (u32 (Z.of_nat (length (AdOps.serialize ad))))]> (Db.publication db)).
  exists (set_publication t db). split.
  { unfold WalletTables.prepare_publication, lift, mbind, action_bind, ad, AdOps.new. cbn [Content.content].
    rewrite TextOps.as_string_new by done. done. }
  split.
  { unfold WalletTables.read_publication. cbn [Db.publication set_publication].
    unfold t. by rewrite lookup_insert_eq. }
  assert (forall id, id ∈ (fst <$> scan t) -> exists d, id = to_hex d) as Hids.
  { intros id ([id' r] & -> & Hr%elem_of_scan)%list_elem_of_fmap. simpl. unfold t in Hr.
    apply lookup_insert_Some in Hr as [[<- _]|[_ Hr]]; [by eexists|]. apply Hwf. by exists r. }
  exists ((λ id, default hash_default (from_hex id)) <$> (fst <$> scan t)).
  split.
  { unfold WalletTables.list_publication. cbn [Db.publication set_publication].
    etrans; [|done]. apply (for_each_collect (λ id, unwrap_result (from_hex id)) (λ id, default hash_default (from_hex id)) _ []).
    intros id [d ->]%Hids. by rewrite from_hex_to_hex. }
  assert (forall d, d ∈ ((λ id, default hash_default (from_hex id)) <$> (fst <$> scan t)) <->
          is_Some (t !! to_hex d)) as Hin.
  { intros d. rewrite list_elem_of_fmap. split.
    - intros (id & -> & Hid). destruct (Hids id Hid) as [d ->]. rewrite from_hex_to_hex. simpl.
      apply list_elem_of_fmap in Hid as ([id' r] & Hid & Hr%elem_of_scan). simpl in Hid. subst. by exists r.
    - intros [r Hr]. exists (to_hex d). rewrite from_hex_to_hex. split; [done|].
      apply list_elem_of_fmap. exists (to_hex d, r). split; [done|]. by apply elem_of_scan. }
  split; [|exact Hin]. apply Hin. unfold t. rewrite lookup_insert_eq. by eexists.
Qed.
(** Every unconfirmed transaction that is stored can be read. *)
Definition txouts_wf db : Prop :=
  forall id r, Db.txout db !! id = Some r -> t_confirmed r = None ->
    exists u, WalletTables.unconfirmed_row r = Ok u.

Definition unconfirmed_of (r : TxoutRow) : Transaction * option (PublicKey * digest * Z) :=
  match WalletTables.unconfirmed_row r with Ok u => u | _ => (mkTransaction 0 0 [] [], None) end.

Lemma elem_of_unconfirmed_rows db r :
  r ∈ WalletTables.unconfirmed_rows db <-> exists id, Db.txout db !! id = Some r /\ t_confirmed r = None.
Proof.
  unfold WalletTables.unconfirmed_rows. rewrite list_elem_of_fmap. split.
  - intros ([id r'] & -> & [Hc Hr%elem_of_scan]%list_elem_of_filter). by exists id.
  - intros (id & Hr & Hc). exists (id, r). split; [done|]. apply list_elem_of_filter.
    split; [done|]. by apply elem_of_scan.
Qed.

Lemma read_unconfirmed_spec db :
  txouts_wf db ->
  WalletTables.read_unconfirmed db = Ok (unconfirmed_of <$> WalletTables.unconfirmed_rows db).
Proof.
  intros Hwf. unfold WalletTables.read_unconfirmed.
  rewrite (for_each_collect _ unconfirmed_of); [done|].
  intros r (id & Hr & Hc)%elem_of_unconfirmed_rows. unfold unconfirmed_of.
  by destruct (Hwf id r Hr Hc) as [u ->].
Qed.

Lemma store_txout_wf tx funding db : txouts_wf db -> txouts_wf (WalletTables.store_txout tx funding db).
Proof.
  intros Hwf id r Hr Hc. cbn [Db.txout set_txout WalletTables.store_txout] in Hr.
  unfold WalletTables.store_txout in Hr. cbn [Db.txout set_txout] in Hr.
  apply lookup_insert_Some in Hr as [[_ <-]|[_ Hr]]; [|by apply (Hwf id)].
  unfold WalletTables.unconfirmed_row. destruct funding as [[[pk d] term]|]; cbn [t_tx t_publisher t_id t_term];
    rewrite tx_deserialize_serialize; cbn [unwrap unwrap_result mbind res_bind]; [|by eexists].
  rewrite pk_from_to. cbn [unwrap unwrap_result mbind res_bind]. rewrite from_hex_to_hex. by eexists.
Qed.

(** A transaction that was stored is among the unconfirmed ones with the
    publication it funds, publisher and 16-bit term included, next to those that
    were there under other ids; a re-scan forgets all of them and all coins. *)
Theorem txout_roundtrip tx publisher id term after db :
  txouts_wf db -> is_u16 term ->
  let db' := WalletTables.store_txout tx (Some (publisher, id, term)) db in
  exists us, WalletTables.read_unconfirmed db' = Ok us /\
    (forall u, u ∈ us <-> u = (tx, Some (publisher, id, term)) \/
       exists h r, h <> to_hex_d (txid tx) /\ Db.txout db !! h = Some r /\
                   t_confirmed r = None /\ WalletTables.unconfirmed_row r = Ok u) /\
    WalletTables.read_unconfirmed (WalletTables.rescan after db') = Ok [] /\
    Db.coins (WalletTables.rescan after db') = ∅.
Proof.
  intros Hwf Hterm db'. pose proof (store_txout_wf tx (Some (publisher, id, term)) db Hwf) as Hwf'.
  eexists. split; [by apply read_unconfirmed_spec|]. split_and!; [| |done].
  2: { unfold WalletTables.read_unconfirmed, WalletTables.unconfirmed_rows, WalletTables.rescan.
       cbn [Db.txout set_txout set_coins]. by rewrite scan_empty. }
  assert (WalletTables.unconfirmed_row (mkTxoutRow (tx_serialize tx) None (Some (pk_to_bytes publisher))
            (Some (to_hex id)) (Some term)) = Ok (tx, Some (publisher, id, term))) as Hnew.
  { unfold WalletTables.unconfirmed_row. cbn [t_tx t_publisher t_id t_term].
    rewrite tx_deserialize_serialize. cbn [unwrap unwrap_result mbind res_bind]. rewrite pk_from_to.
    cbn [unwrap unwrap_result mbind res_bind]. rewrite from_hex_to_hex. cbn [unwrap unwrap_result mbind res_bind].
    by rewrite u16_small. }
  intros u. rewrite list_elem_of_fmap. setoid_rewrite elem_of_unconfirmed_rows. split.
  - intros (r & -> & h & Hr & Hc). unfold unconfirmed_of.
    change (Db.txout db') with (<[to_hex_d (txid tx) := mkTxoutRow (tx_serialize tx) None
      (Some (pk_to_bytes publisher)) (Some (to_hex id)) (Some term)]> (Db.txout db)) in Hr.
    apply lookup_insert_Some in Hr as [[_ <-]|[Hne Hr]]; [rewrite Hnew; by left|].
    right. destruct (Hwf h r Hr Hc) as [u Hu]. rewrite Hu. exists h, r. by split_and!.
  - intros [->|(h & r & Hne & Hr & Hc & Hu)].
    + eexists. split; [unfold unconfirmed_of; by rewrite Hnew|]. exists (to_hex_d (txid tx)).
      split; [apply lookup_insert_eq|done].
    + exists r. split; [unfold unconfirmed_of; by rewrite Hu|]. exists h. split; [|done].
      unfold db', WalletTables.store_txout. cbn [Db.txout set_txout]. by rewrite lookup_insert_ne.
Qed.

(** A coin of the wallet is read back from its row unchanged, its proof
    included, provided its tweak is not empty. *)
Theorem coin_row_roundtrip point coin proof :
  is_u64 (value (coin_output coin)) -> d_tweak (derivation coin) <> Some [] ->
  (forall l, hex_encode l = [] -> l = []) ->
  (forall csv, d_csv (derivation coin) = Some csv -> is_u16 csv) ->
  WalletTables.coin_of_row (to_hex_d (op_txid point), vout point) (WalletTables.coin_row coin proof) =
  Ok (point, coin, proof).
Proof.
  intros Hv Ht Hhex Hcsv. destruct coin as [[v s] [acc sub kix tweak csv]], point as [h n].
  cbn in Hv, Ht, Hcsv. unfold WalletTables.coin_of_row, WalletTables.coin_row. cbn.
  rewrite from_hex_to_hex_d. cbn [unwrap unwrap_result mbind res_bind].
  assert ((u16 <$> csv) = csv) as Hc.
  { destruct csv as [c|]; [|done]. simpl. f_equal. by apply u16_small, Hcsv. }
  rewrite Hc, i64_u64 by done.
  destruct tweak as [t|]; simpl.
  - case_decide as Hd; [exfalso; apply Ht; f_equal; by apply Hhex|].
    rewrite hex_decode_encode. cbn [unwrap unwrap_result mbind res_bind]. by rewrite from_slice_to_vec.
  - by rewrite from_slice_to_vec.
Qed.
End Theorems.
