(* ===== verification/Trunk.v ===== *)
(** * The trunk of the chain (src/trunk.rs, [ChainDBTrunk] of src/p2p_bitcoin.rs)

    The trait [Trunk] is a record of its methods.  [ChainDBTrunk] implements it
    over murmel's header database, a parameter. *)

From S2P Require Import Prelude Machine Keys Bitcoin.
#[local] Open Scope Z_scope.

(** The trait [Trunk]. *)
Record Trunk : Type := mkTrunk {
  is_on_trunk : digest -> bool;
  get_header : digest -> option BlockHeader;
  get_header_for_height : Z -> option BlockHeader;
  get_height : digest -> option Z;
  get_tip : option BlockHeader;
  trunk_len : Z
}.

(** murmel's [ChainDB]: the cached headers and their positions. *)
Record CachedHeader : Type := mkCachedHeader { stored_header : BlockHeader; stored_height : Z }.
Record ChainDB : Type := mkChainDB {
  pos_on_trunk : digest -> option Z;
  cdb_get_header : digest -> option CachedHeader;
  cdb_get_header_for_height : Z -> option CachedHeader;
  header_tip : option CachedHeader
}.

Module ChainDBTrunk.
Definition is_on_trunk (c : ChainDB) (h : digest) : bool := bool_decide (is_Some (pos_on_trunk c h)).
Definition get_header (c : ChainDB) (h : digest) : option BlockHeader :=
  stored_header <$> cdb_get_header c h.
Definition get_header_for_height (c : ChainDB) (height : Z) : option BlockHeader :=
  stored_header <$> cdb_get_header_for_height c height.
Definition get_height (c : ChainDB) (h : digest) : option Z := pos_on_trunk c h.
Definition get_tip (c : ChainDB) : option BlockHeader := stored_header <$> header_tip c.
Definition len (c : ChainDB) : Z :=
  match header_tip c with Some cached => stored_height cached | None => 0 end.

Definition trunk (c : ChainDB) : Trunk :=
  mkTrunk (is_on_trunk c) (get_header c) (get_header_for_height c) (get_height c) (get_tip c) (len c).
End ChainDBTrunk.

(** A linear chain of headers, genesis first: the trunk a node without forks has.
    [chain_db] is the header database that holds exactly these headers. *)
Section Chain.
Context `{Bitcoin}.

Definition find_height (chain : list BlockHeader) (h : digest) : option (nat * BlockHeader) :=
  list_find (λ hd, header_hash hd = h) chain.

Definition chain_db (chain : list BlockHeader) : ChainDB := {|
  pos_on_trunk h := (λ '(i, _), Z.of_nat i) <$> find_height chain h;
  cdb_get_header h := (λ '(i, hd), mkCachedHeader hd (Z.of_nat i)) <$> find_height chain h;
  cdb_get_header_for_height height :=
    if height <? 0 then None
    else (λ hd, mkCachedHeader hd height) <$> chain !! Z.to_nat height;
  header_tip := (λ hd, mkCachedHeader hd (Z.of_nat (length chain) - 1)) <$> last chain
|}.

(** On a chain of distinct headers the methods of the trunk agree: a header is
    found by its hash exactly at its height; the tip is the header at height
    [len], which therefore is the height of the tip and not the number of headers. *)
Lemma find_height_lookup chain i hd :
  NoDup (header_hash <$> chain) -> chain !! i = Some hd ->
  find_height chain (header_hash hd) = Some (i, hd).
Proof.
  intros Hnd Hi. apply list_find_Some. split_and!; [done|done|].
  intros j hd' Hj Hlt Heq. assert (i = j) as ->; [|lia].
  eapply (NoDup_lookup _ _ _ (header_hash hd)); [exact Hnd| |]; rewrite list_lookup_fmap.
  - by rewrite Hi.
  - rewrite Hj. simpl. by rewrite Heq.
Qed.
End Chain.

(** On a linear chain of distinct headers the trunk's methods agree with each
    other, and [len] is the height of the tip, one less than the number of
    headers. *)
Theorem chain_trunk_spec `{Bitcoin} chain i hd :
  NoDup (header_hash <$> chain) -> chain !! i = Some hd ->
  let t := ChainDBTrunk.trunk (chain_db chain) in
  is_on_trunk t (header_hash hd) = true /\
  get_header t (header_hash hd) = Some hd /\
  get_height t (header_hash hd) = Some (Z.of_nat i) /\
  get_header_for_height t (Z.of_nat i) = Some hd /\
  get_tip t = get_header_for_height t (trunk_len t) /\
  trunk_len t = Z.of_nat (length chain) - 1 /\
  (forall h, is_on_trunk t h = false -> get_header t h = None /\ get_height t h = None).
Proof.
  intros Hnd Hi t. pose proof (find_height_lookup chain i hd Hnd Hi) as Hf.
  assert (exists tip, last chain = Some tip) as [tip Htip].
  { destruct (last chain) as [tip|] eqn:Hl; [by exists tip|]. apply last_None in Hl. by subst. }
  cbn. unfold ChainDBTrunk.is_on_trunk, ChainDBTrunk.get_header, ChainDBTrunk.get_height,
    ChainDBTrunk.get_header_for_height, ChainDBTrunk.get_tip, ChainDBTrunk.len. cbn.
  rewrite Hf, Htip. cbn. rewrite (proj2 (Z.ltb_ge (Z.of_nat i) 0)) by lia.
  rewrite Nat2Z.id, Hi. split_and!; try done.
  - pose proof (last_lookup chain) as Hll. rewrite Htip in Hll.
    assert (length chain <> O) by (destruct chain; done).
    rewrite (proj2 (Z.ltb_ge (Z.of_nat (length chain) - 1) 0)) by lia.
    replace (Z.to_nat (Z.of_nat (length chain) - 1)) with (pred (length chain)) by lia.
    by rewrite <- Hll.
  - intros h. destruct (find_height chain h) as [[j hd']|]; [done|done].
Qed.
