(* ===== verification/Store.v ===== *)
(** * The content store (src/store.rs)

    The store keeps, next to the database, a cache of tables of its contents by
    size, the sketch of the stored keys and their number, the wallet, and the
    sender to the bitcoin network (as the list of what was sent).  Each method is
    an [action] on that state; the trunk is an argument. *)

From S2P Require Import Prelude Machine IbltTable Sketch Keys Strings Text Bitcoin Content Effects.
From S2P Require Import Db DbContent Wallet DbWallet Trunk.
#[local] Open Scope Z_scope.

Definition MIN_SKETCH_SIZE : nat := 20.

Record ContentStore `{WalletCrate} : Type := mkStore {
  db : DB;
  storage_limit : Z;
  iblts : gmap Z (IBLT ContentKey);
  min_hashes : list Z;
  st_ksequence : list (Z * Z);
  n_keys : Z;
  wallet : Wallet;
  sent : option (list Transaction)
}.

Record Readable : Type := mkReadable {
  rd_retrieved : RetrievedContent; rd_start : Z; rd_end : Z
}.

Module Store.
Section Ops.
Context `{SipHasher, Snap, Bitcoin, !Cbor Ad, SQLite, !WalletCrate, !AccountStorage}.

Definition set_db (d : DB) (s : ContentStore) : ContentStore :=
  mkStore _ _ d (storage_limit s) (iblts s) (min_hashes s) (st_ksequence s) (n_keys s) (wallet s) (sent s).
Definition set_iblts (m : gmap Z (IBLT ContentKey)) (s : ContentStore) : ContentStore :=
  mkStore _ _ (db s) (storage_limit s) m (min_hashes s) (st_ksequence s) (n_keys s) (wallet s) (sent s).
Definition set_sketch (m : list Z) (k : list (Z * Z)) (n : Z) (s : ContentStore) : ContentStore :=
  mkStore _ _ (db s) (storage_limit s) (iblts s) m k n (wallet s) (sent s).
Definition set_wallet (w : Wallet) (s : ContentStore) : ContentStore :=
  mkStore _ _ (db s) (storage_limit s) (iblts s) (min_hashes s) (st_ksequence s) (n_keys s) w (sent s).
Definition set_tx_sender (s : ContentStore) : ContentStore :=
  mkStore _ _ (db s) (storage_limit s) (iblts s) (min_hashes s) (st_ksequence s) (n_keys s) (wallet s) (Some []).

(** A call on the database, and on the wallet. *)
Definition on_db {A} : action DB Error A -> action ContentStore Error A := zoom db set_db.
Definition on_wallet {A} : action Wallet Error A -> action ContentStore Error A := zoom wallet set_wallet.
Definition query {A} (f : DB -> res Error A) : action ContentStore Error A := λ s, (f (db s), s).

Definition in_transaction {A} : action ContentStore Error A -> action ContentStore Error A :=
  transaction db set_db.

Definition new (db : DB) (storage_limit : Z) (wallet : Wallet) : res Error ContentStore :=
  '(m, k, n) ← ContentTable.compute_content_sketch MIN_SKETCH_SIZE db;
  Ok (mkStore _ _ db storage_limit ∅ m k n wallet None).

(** ** The cached tables *)

(** [for (_, i) in &mut self.iblts { f(i) }] *)
Definition update_iblts (f : IBLT ContentKey -> res Error (IBLT ContentKey))
    (m : gmap Z (IBLT ContentKey)) : res Error (gmap Z (IBLT ContentKey)) :=
  for_each (map_to_list m) (λ m '(size, i), i ← f i; Ok (<[size := i]> m)) m.

Definition update (f : IBLT ContentKey -> res Error (IBLT ContentKey)) :
    action ContentStore Error unit :=
  m ← (λ s, (update_iblts f (iblts s), s));
  modify (set_iblts m).

(** The loop over the deleted keys; it answers whether a cached table was
    touched. *)
Fixpoint drop_keys (keys : list ContentKey) (deleted_some : bool) :
    action ContentStore Error bool :=
  match keys with
  | [] => mret deleted_some
  | key :: keys =>
      some ← gets (λ s, bool_decide (iblts s <> ∅));
      _ ← update (λ i, Iblt.delete i key);
      drop_keys keys (deleted_some || some)
  end.

(** [if deleted_some { .. compute_content_sketch .. }] *)
Definition refresh_sketch (deleted_some : bool) : action ContentStore Error unit :=
  if deleted_some then
    '(m, k, n) ← query (ContentTable.compute_content_sketch MIN_SKETCH_SIZE);
    modify (set_sketch m k n)
  else mret ().

Definition get_nkeys (s : ContentStore) : Z := n_keys s.
Definition get_sketch (s : ContentStore) : list Z := min_hashes s.
Definition get_tip (trunk : Trunk) : option digest := header_hash <$> Trunk.get_tip trunk.

(** The table is computed before the cache is asked. *)
Definition get_iblt (size : Z) : action ContentStore Error (IBLT ContentKey) :=
  computed ← query (ContentTable.compute_content_iblt size);
  cached ← gets (λ s, iblts s !! size);
  match cached with
  | Some t => mret t
  | None => _ ← modify (λ s, set_iblts (<[size := computed]> (iblts s)) s); mret computed
  end.

(** ** Chain events *)

Definition add_header (height : Z) : action ContentStore Error unit :=
  in_transaction (
    keys ← on_db (ContentTable.delete_expired height);
    deleted_some ← drop_keys keys false;
    refresh_sketch deleted_some).

Definition unwind_tip (header : BlockHeader) : action ContentStore Error unit :=
  _ ← in_transaction (
    _ ← on_db (modify (WalletTables.store_processed (prev_blockhash header)));
    keys ← on_db (ContentTable.delete_confirmed (header_hash header));
    deleted_some ← drop_keys keys false;
    refresh_sketch deleted_some);
  modify (λ s, set_wallet (WalletOps.unwind_tip (header_hash header) (wallet s)) s).

Definition truncate_to_limit : action ContentStore Error unit :=
  in_transaction (
    limit ← gets storage_limit;
    keys ← on_db (ContentTable.truncate_content limit);
    deleted_some ← drop_keys keys false;
    refresh_sketch deleted_some).

(** ** Contents *)

Definition get_content (d : digest) (s : ContentStore) : res Error (option Content) :=
  ContentTable.read_content d (db s).

Definition funding_script (tweaked : PublicKey) (term : Z) : Script :=
  into_script [push_int term; push_opcode OP_CSV; push_opcode OP_DROP;
               push_slice (pk_to_bytes tweaked); push_opcode OP_CHECKSIG].

(** [funding_address(..).script_pubkey()] *)
Definition funding_address (tweaked : PublicKey) (term : Z) : Script :=
  p2wsh (funding_script tweaked term).

(** What the accepting branch of [add_content] does. *)
Definition accept_content (height : Z) (header : BlockHeader) (c : Content) (o : TxOut) :
    action ContentStore Error bool :=
  key ← lift (ContentKeyOps.new (vec_to_list (AdOps.digest_of (ad c))));
  _ ← update (λ i, Iblt.insert i key);
  _ ← (λ s, match add_to_min_sketch (min_hashes s) key (st_ksequence s) with
            | Ok m => (Ok (), set_sketch m (st_ksequence s) (u32 (n_keys s + 1)) s)
            | Err e => (Err e, s)
            | Panicked p => (Panicked p, s)
            end);
  _ ← in_transaction (on_db (ContentTable.store_content height (header_hash header) c (value o)));
  mret true.

Definition add_content (trunk : Trunk) (c : Content) : action ContentStore Error bool :=
  match get_height trunk (get_block_hash (funding c)) with
  | None => mret false
  | Some height =>
      if trunk_len trunk <=? u32 (height + term c) then
        match get_header trunk (get_block_hash (funding c)) with
        | None => mret false
        | Some header =>
            if decide (merkle_root header = proved_merkle_root (funding c)) then
              let t := get_transaction (funding c) in
              if 2 <=? u32 (version t) then
                let digest := AdOps.digest_of (ad c) in
                tweaked ← lift (unwrap_result (tweak_exp_add (funder c) (vec_to_list digest)));
                let commitment := funding_address tweaked (term c) in
                match head (filter (λ o, script_pubkey o = commitment) (output t)) with
                | Some o => accept_content height header c o
                | None => mret false
                end
              else mret false
            else mret false
        end
      else mret false
  end.

Definition confirmed_publication (block : Block) (d : DB)
    (u : Transaction * option (PublicKey * digest * Z)) :
    option (nat * PublicKey * digest * option Ad * Z) :=
  match u with
  | (t, Some (p, id, term)) =>
      (λ '(tix, _), (tix, p, id, WalletTables.read_publication id d, term)) <$>
        list_find (λ c, txid c = txid t) (txdata block)
  | (_, None) => None
  end.

Definition block_connected (trunk : Trunk) (block : Block) : action ContentStore Error unit :=
  newly_confirmed_publication ← in_transaction (
    unconfirmed ← query WalletTables.read_unconfirmed;
    newly ← gets (λ s, omap (confirmed_publication block (db s)) unconfirmed);
    processed ← (λ s, let '(b, w) := WalletOps.process block (wallet s) in (Ok b, set_wallet w s));
    coins ← gets (λ s, w_coins (wallet s));
    _ ← (if processed : bool then on_db (WalletTables.store_coins coins) else mret ());
    _ ← on_db (modify (WalletTables.store_processed (header_hash (header block))));
    mret newly);
  for_each_do newly_confirmed_publication (λ '(tix, funder, id, ad, term),
    match ad with
    | Some ad => _ ← add_content trunk (mkContent _ ad (proved_new block tix) funder term); mret ()
    | None => mret ()
    end).

(** ** Publications and payments *)

Definition read_prepared (id : digest) (s : ContentStore) : option Ad :=
  WalletTables.read_publication id (db s).
Definition list_prepared (s : ContentStore) : res Error (list digest) :=
  expect (WalletTables.list_publication (db s)).

Definition prepare_publication (cat abs content : str) : action ContentStore Error digest :=
  in_transaction (expect_action (on_db (WalletTables.prepare_publication (AdOps.new cat abs content)))).

(** [if let Some(ref txout) = self.txout { txout.send(..) }] *)
Definition send_tx (tx : Transaction) : action ContentStore Error unit :=
  modify (λ s, mkStore _ _ (db s) (storage_limit s) (iblts s) (min_hashes s) (st_ksequence s)
                 (n_keys s) (wallet s) ((λ l, l ++ [tx]) <$> sent s)).

Definition fund (trunk : Trunk) (id : digest) (term amount fee_per_vbyte : Z) (passphrase : str)
    (coin_flip : nat -> bool) : action ContentStore Error (option (Transaction * PublicKey * Z)) :=
  funded ← on_wallet (WalletOps.fund id term passphrase fee_per_vbyte amount (trunk_len trunk)
             (get_height trunk) (λ pk term, funding_script pk (default 0 term)) coin_flip);
  match funded with
  | None => mret None
  | Some (transaction, funder, fee) =>
      _ ← in_transaction (
        account ← (λ s, (unwrap (get_account (master (wallet s)) (1, 0)), s));
        _ ← on_db (WalletTables.store_account account);
        on_db (modify (WalletTables.store_txout transaction (Some (funder, id, term)))));
      _ ← send_tx transaction;
      mret (Some (transaction, funder, fee))
  end.

Definition withdraw (trunk : Trunk) (passphrase : str) (address : Address) (fee_per_vbyte : Z)
    (amount : option Z) (coin_flip : nat -> bool) :
    action ContentStore Error (option (Transaction * Z)) :=
  spent ← on_wallet (WalletOps.withdraw passphrase address fee_per_vbyte amount (trunk_len trunk)
            (get_height trunk) coin_flip);
  match spent with
  | None => mret None
  | Some (transaction, fee) =>
      _ ← in_transaction (
        account ← (λ s, (unwrap (get_account (master (wallet s)) (0, 1)), s));
        _ ← on_db (WalletTables.store_account account);
        on_db (modify (WalletTables.store_txout transaction None)));
      _ ← send_tx transaction;
      mret (Some (transaction, fee))
  end.

Definition balance (trunk : Trunk) (s : ContentStore) : list Z :=
  [WalletOps.balance (wallet s);
   WalletOps.available_balance (wallet s) (trunk_len trunk) (get_height trunk)].

Definition deposit_address : action ContentStore Error Address :=
  on_wallet (WalletOps.next_address (0, 0)).

(** ** Listings *)

Definition list_categories (s : ContentStore) : list str := ContentTable.list_categories (db s).
Definition list_abstracts (cats : list str) (s : ContentStore) : list (list str) :=
  ContentTable.list_abstracts cats (db s).

Definition readable (trunk : Trunk) (r : RetrievedContent) : res Error Readable :=
  header ← unwrap (get_header_for_height trunk (rc_height r));
  let start := time header in
  let end_ := match get_header_for_height trunk (u32 (rc_height r + rc_term r)) with
              | Some header => time header
              | None => u64 (start + u16 (rc_term r * 600))
              end in
  Ok (mkReadable r start end_).

Definition read_contents (trunk : Trunk) (ids : list str) (s : ContentStore) :
    res Error (list Readable) :=
  retrieved ← ContentTable.retrieve_contents ids (db s);
  for_each retrieved (λ acc r, x ← readable trunk r; Ok (acc ++ [x])) [].
End Ops.
End Store.
