(* ===== verification/StoreTables.v ===== *)
(** * The cached tables of the store

    The invariant of the store: every cached table is the table of the stored
    keys, and the sketch and the count are those of the stored keys.  Insertion
    and deletion in all cached tables, the recomputation of the sketch and
    [get_iblt] against that invariant, and against the weaker one that holds in
    every run: a cached table may count some keys once more, those of contents
    that were accepted again, and a table may have no cells. *)

From S2P Require Import Prelude Machine IbltTable IbltCells IbltAlgebra IbltRefine IbltSync Sketch.
From S2P Require Import Keys Strings Text Bitcoin Content Effects Db DbContent DbContentSpec Wallet.
From S2P Require Import DbWallet Trunk Store.
#[local] Open Scope Z_scope.

Section Tables.
Context `{SipHasher, Snap, !SnapLaws, BitcoinLaws, !Cbor Ad, SQLiteLaws, !WalletCrate, !AccountStorage}.
Implicit Types (s : ContentStore) (m : gmap Z (IBLT ContentKey)) (L : list (IBLTEntry ContentKey)).

(** Every table of the cache holds the entries [L]. *)
Definition tables_for L m : Prop :=
  forall size t, m !! size = Some t ->
    0 < size /\ params_of t = new_params size NH K0 K1 /\ represents t L.

Definition stored_keys s : list ContentKey := table_keys (Db.content (db s)).

Definition cache_ok s : Prop :=
  ids_wf (Db.content (db s)) /\ tables_for (Inserted <$> stored_keys s) (iblts s).

Definition content_ksequence : list (Z * Z) := generate_ksequence MIN_SKETCH_SIZE K0 K1.
#[local] Opaque generate_ksequence.

Definition sketch_ok s : Prop :=
  st_ksequence s = content_ksequence /\
  min_hashes s = sketch_of content_ksequence (stored_keys s) /\
  n_keys s = u32 (Z.of_nat (length (stored_keys s))).

Lemma tables_for_perm L L' m : L ≡ₚ L' -> tables_for L m <-> tables_for L' m.
Proof. intros HL. unfold tables_for. by setoid_rewrite HL. Qed.

(** The table of the keys [ks], and of some of the keys [X] once more, if it has
    cells. *)
Definition holds ks X size (t : IBLT ContentKey) : Prop :=
  params_of t = new_params size NH K0 K1 /\
  (0 < size -> exists extra, extra ⊆+ X /\ represents t (Inserted <$> ks ++ extra)).
Definition tables_hold ks X m : Prop := map_Forall (holds ks X) m.

Definition with_cells m : Prop := map_Forall (λ size _, 0 < size) m.

#[global] Instance with_cells_dec m : Decision (with_cells m).
Proof. unfold with_cells. apply _. Defined.

#[global] Instance holds_proper : Proper ((≡ₚ) ==> (=) ==> (=) ==> (=) ==> iff) holds.
Proof. intros ks ks' Hks X _ <- size _ <- t _ <-. unfold holds. by setoid_rewrite Hks. Qed.

#[global] Instance tables_hold_proper : Proper ((≡ₚ) ==> (=) ==> (=) ==> iff) tables_hold.
Proof. intros ks ks' Hks X _ <- m _ <-. unfold tables_hold, map_Forall. by setoid_rewrite Hks. Qed.

Lemma holds_more ks X X' size t : X ⊆+ X' -> holds ks X size t -> holds ks X' size t.
Proof.
  intros HX [Hp Ht]. split; [done|]. intros Hpos. destruct (Ht Hpos) as (E & HE & Hr).
  exists E. split; [by etrans|done].
Qed.

Lemma tables_hold_more ks X X' m : X ⊆+ X' -> tables_hold ks X m -> tables_hold ks X' m.
Proof. intros HX Hm. eapply map_Forall_impl; [exact Hm|]. intros size t. by apply holds_more. Qed.

(** With no key counted again, the tables of the keys. *)
Lemma tables_for_hold ks m :
  tables_for (Inserted <$> ks) m <-> tables_hold ks [] m /\ with_cells m.
Proof.
  split.
  - intros Hm. split; intros size t Ht; destruct (Hm size t Ht) as (Hpos & Hp & Hr); [|done].
    split; [done|]. intros _. exists []. by rewrite app_nil_r.
  - intros [Hm Hc] size t Ht. pose proof (Hc size t Ht) as Hpos. split; [done|].
    destruct (Hm size t Ht) as [Hp Hr]. destruct (Hr Hpos) as (E & ->%submseteq_nil_r & Hr').
    rewrite app_nil_r in Hr'. done.
Qed.

(** ** One operation on all tables *)

Lemma update_iblts_forall f m (P Q : Z -> IBLT ContentKey -> Prop) :
  map_Forall P m -> (forall size t, P size t -> exists t', f t = Ok t' /\ Q size t') ->
  exists m', Store.update_iblts f m = Ok m' /\ map_Forall Q m' /\ dom m' = dom m.
Proof.
  intros Hm Hf. unfold Store.update_iblts.
  assert (forall l done, NoDup l.*1 -> dom done = dom m ->
    (forall size t, (size, t) ∈ l -> m !! size = Some t) ->
    (forall size t, done !! size = Some t -> size ∉ l.*1 -> Q size t) ->
    exists m', for_each l (λ m '(size, i), i ← f i; Ok (<[size := i]> m)) done = Ok m' /\
      map_Forall Q m' /\ dom m' = dom m) as Hloop.
  { intros l. induction l as [|[size t] l IH]; intros d Hnd Hdom Hl Hd; cbn [for_each].
    - exists d. split_and!; [done| |done]. intros size t Hs. apply Hd; [done|]. apply not_elem_of_nil.
    - assert (m !! size = Some t) as Hsize by (apply Hl, list_elem_of_here).
      destruct (Hf size t (Hm size t Hsize)) as (t' & -> & Ht').
      cbn [mbind res_bind]. rewrite fmap_cons in Hnd. apply NoDup_cons in Hnd as [Hnin Hnd].
      apply IH; [done| | |].
      + rewrite dom_insert_L, Hdom.
        assert (size ∈ dom m) by (apply elem_of_dom; by eexists). set_solver.
      + intros size' t2 Hin. apply Hl. by apply list_elem_of_further.
      + intros size' t2 Hs Hnin'. apply lookup_insert_Some in Hs as [[<- <-]|[Hne Hs]]; [done|].
        apply Hd; [done|]. rewrite fmap_cons. apply not_elem_of_cons. by split. }
  apply Hloop; [apply NoDup_fst_map_to_list|done|by intros; apply elem_of_map_to_list|].
  intros size t Hs Hnin. exfalso. apply Hnin. apply list_elem_of_fmap. exists (size, t).
  split; [done|]. by apply elem_of_map_to_list.
Qed.

(** One table on which the operation panics is enough. *)
Lemma update_iblts_panics f m size t :
  map_Forall (λ _ t, forall e, f t <> Err e) m -> m !! size = Some t -> (exists p, f t = Panicked p) ->
  exists p, Store.update_iblts f m = Panicked p.
Proof.
  intros Hne Ht [p0 Hp]. unfold Store.update_iblts. apply elem_of_map_to_list in Ht.
  apply map_Forall_to_list in Hne. revert Hne Ht. generalize (map_to_list m). intros l. generalize m.
  induction l as [|[size' t'] l IH]; intros d Hne Ht; [by apply not_elem_of_nil in Ht|].
  apply Forall_cons in Hne as [Hne Hl]. cbn [for_each mbind res_bind].
  apply elem_of_cons in Ht as [[= -> ->]|Ht]; [rewrite Hp; by exists p0|].
  destruct (f t') as [i|e|p] eqn:Hf; [by apply IH|by destruct (Hne e)|by exists p].
Qed.

Lemma update_iblts_spec f m L L' :
  tables_for L m ->
  (forall t, represents t L -> exists t', f t = Ok t' /\ params_of t' = params_of t /\ represents t' L') ->
  exists m', Store.update_iblts f m = Ok m' /\ tables_for L' m' /\ dom m' = dom m.
Proof.
  intros Hm Hf. apply (update_iblts_forall f m
    (λ size t, 0 < size /\ params_of t = new_params size NH K0 K1 /\ represents t L)
    (λ size t, 0 < size /\ params_of t = new_params size NH K0 K1 /\ represents t L')); [exact Hm|].
  intros size t (Hpos & Hp & Ht). destruct (Hf t Ht) as (t' & Heq & Hp' & Ht').
  exists t'. split_and!; [done..|congruence|done].
Qed.

Lemma update_run f s m' :
  Store.update_iblts f (iblts s) = Ok m' -> Store.update f s = (Ok (), Store.set_iblts m' s).
Proof. intros Hm. unfold Store.update, modify, mbind, action_bind. by rewrite Hm. Qed.

Lemma update_insert_spec key s L :
  tables_for L (iblts s) ->
  exists m', Store.update (λ i, Iblt.insert i key) s = (Ok (), Store.set_iblts m' s) /\
    tables_for (Inserted key :: L) m' /\ dom m' = dom (iblts s).
Proof.
  intros Hs. destruct (update_iblts_spec (λ i, Iblt.insert i key) (iblts s) L (Inserted key :: L) Hs)
    as (m' & Hm & Ht & Hd).
  { intros t Ht. by apply insert_represents. }
  exists m'. split; [by apply update_run|done].
Qed.

Lemma update_delete_spec key s L :
  tables_for (Inserted key :: L) (iblts s) ->
  exists m', Store.update (λ i, Iblt.delete i key) s = (Ok (), Store.set_iblts m' s) /\
    tables_for L m' /\ dom m' = dom (iblts s).
Proof.
  intros Hs.
  destruct (update_iblts_spec (λ i, Iblt.delete i key) (iblts s) (Inserted key :: L) L Hs)
    as (m' & Hm & Ht & Hd).
  { intros t Ht. destruct (delete_represents (E:=Error) t _ key Ht) as (t' & Hdel & Hp & Hr).
    exists t'. split_and!; [done|done|]. by apply (represents_cancel t' (Deleted key)). }
  exists m'. split; [by apply update_run|done].
Qed.

Lemma with_cells_dom m m' : dom m' = dom m -> with_cells m -> with_cells m'.
Proof.
  intros Hd Hm size t Ht. assert (size ∈ dom m) as [t' Ht']%elem_of_dom by (rewrite <- Hd; by apply elem_of_dom).
  exact (Hm size t' Ht').
Qed.

Lemma update_insert_hold key s ks X :
  tables_hold ks X (iblts s) -> with_cells (iblts s) ->
  exists m', Store.update (λ i, Iblt.insert i key) s = (Ok (), Store.set_iblts m' s) /\
    tables_hold (key :: ks) X m' /\ dom m' = dom (iblts s).
Proof.
  intros Hs Hc. destruct (update_iblts_forall (λ i, Iblt.insert i key) (iblts s)
    (λ size t, 0 < size /\ holds ks X size t) (holds (key :: ks) X)) as (m' & Hm & Ht & Hd).
  - intros size t Ht. split; [exact (Hc size t Ht)|exact (Hs size t Ht)].
  - intros size t [Hpos [Hp Ht]]. destruct (Ht Hpos) as (E & HE & Hr).
    destruct (insert_represents (E:=Error) t _ key Hr) as (t' & Hins & Hp' & Hr').
    exists t'. split; [done|]. split; [congruence|]. by exists E.
  - exists m'. split; [by apply update_run|done].
Qed.

(** A table without cells takes no key: [hash % 0] panics. *)
Lemma insert_no_cells (t : IBLT ContentKey) size key :
  params_of t = new_params size NH K0 K1 -> size <= 0 ->
  Iblt.insert (E:=Error) t key = Panicked RemainderByZero.
Proof.
  intros Hp Hz. unfold Iblt.insert, BucketIterator.new.
  assert (length (buckets t) = O) as -> by (injection Hp; lia).
  assert (length (ksequence t) = NH) as Hl.
  { injection Hp as _ _ _ -> _. apply generate_ksequence_length. }
  destruct (ksequence t) as [|[k0 k1] ks]; [done|]. reflexivity.
Qed.

Lemma update_insert_panics key s ks X :
  tables_hold ks X (iblts s) -> ~ with_cells (iblts s) ->
  exists p, Store.update (λ i, Iblt.insert i key) s = (Panicked p, s).
Proof.
  intros Hs Hc. apply map_not_Forall in Hc as (size & t & Ht & Hz); [|apply _]. 
  destruct (update_iblts_panics (λ i, Iblt.insert i key) (iblts s) size t) as [p Hp]; [|done|..].
  - intros size' t' Ht' e. destruct (Hs size' t' Ht') as [Hp Hr]. destruct (decide (0 < size')) as [Hpos|Hz'].
    + destruct (Hr Hpos) as (E & _ & Hr'). destruct (insert_represents (E:=Error) t' _ key Hr') as (t2 & -> & _). done.
    + by rewrite (insert_no_cells t' size') by (done || lia).
  - exists RemainderByZero. apply (insert_no_cells t size); [apply (Hs size t Ht)|lia].
  - exists p. unfold Store.update, mbind, action_bind. by rewrite Hp.
Qed.

Lemma update_delete_hold key s ks X :
  tables_hold (key :: ks) X (iblts s) -> with_cells (iblts s) ->
  exists m', Store.update (λ i, Iblt.delete i key) s = (Ok (), Store.set_iblts m' s) /\
    tables_hold ks X m' /\ dom m' = dom (iblts s).
Proof.
  intros Hs Hc. destruct (update_iblts_forall (λ i, Iblt.delete i key) (iblts s)
    (λ size t, 0 < size /\ holds (key :: ks) X size t) (holds ks X)) as (m' & Hm & Ht & Hd).
  - intros size t Ht. split; [exact (Hc size t Ht)|exact (Hs size t Ht)].
  - intros size t [Hpos [Hp Ht]]. destruct (Ht Hpos) as (E & HE & Hr).
    destruct (delete_represents (E:=Error) t _ key Hr) as (t' & Hdel & Hp' & Hr').
    exists t'. split; [done|]. split; [congruence|]. intros _. exists E. split; [done|].
    by apply (represents_cancel t' (Deleted key)).
  - exists m'. split; [by apply update_run|done].
Qed.

Lemma drop_keys_hold keys s flag ks X :
  tables_hold (keys ++ ks) X (iblts s) -> keys = [] \/ with_cells (iblts s) ->
  exists flag' m', Store.drop_keys keys flag s = (Ok flag', Store.set_iblts m' s) /\
    tables_hold ks X m' /\ dom m' = dom (iblts s).
Proof.
  revert s flag. induction keys as [|key keys IH]; intros s flag Hs Hor.
  { exists flag, (iblts s). split_and!; [by destruct s|done|done]. }
  destruct Hor as [|Hc]; [done|]. cbn [Store.drop_keys].
  destruct (update_delete_hold key s _ X Hs Hc) as (m1 & Hup & Hm1 & Hd1).
  destruct (IH (Store.set_iblts m1 s) (flag || bool_decide (iblts s <> ∅)) Hm1) as (f' & m' & Hloop & Hm' & Hd').
  { right. by apply (with_cells_dom (iblts s)). }
  exists f', m'. split_and!; [|done|cbn in Hd'; congruence].
  unfold gets, mbind, action_bind. by rewrite Hup, Hloop.
Qed.

(** The loop over the deleted keys takes them out of every cached table, and
    answers whether there is a cached table and a deleted key. *)
Lemma drop_keys_spec keys s flag L :
  tables_for ((Inserted <$> keys) ++ L) (iblts s) ->
  exists m', Store.drop_keys keys flag s =
      (Ok (flag || (bool_decide (keys <> []) && bool_decide (iblts s <> ∅))), Store.set_iblts m' s) /\
    tables_for L m' /\ dom m' = dom (iblts s).
Proof.
  revert s flag. induction keys as [|key keys IH]; intros s flag Hs.
  { exists (iblts s). cbn. rewrite orb_false_r. split_and!; [by destruct s|done|done]. }
  cbn [Store.drop_keys]. rewrite fmap_cons in Hs. cbn [app] in Hs.
  destruct (update_delete_spec key s _ Hs) as (m1 & Hup & Hm1 & Hd1).
  destruct (IH (Store.set_iblts m1 s) (flag || bool_decide (iblts s <> ∅)) Hm1) as (m' & Hloop & Hm' & Hd').
  exists m'. split_and!; [|done|cbn in Hd'; congruence].
  unfold gets, mbind, action_bind. rewrite Hup, Hloop. clear Hup Hloop IH Hm1 Hm' Hs Hd'.
  cbn [iblts Store.set_iblts].
  assert (bool_decide (m1 <> ∅) = bool_decide (iblts s <> ∅)) as ->.
  { apply bool_decide_ext. by rewrite <- !(dom_empty_iff_L (D:=gset Z)), Hd1. }
  rewrite (bool_decide_eq_true_2 (key :: keys <> [])) by done.
  generalize (bool_decide (iblts s <> ∅)) (bool_decide (keys <> [])). intros b1 b2.
  apply (f_equal (λ b, (Ok b, Store.set_iblts m' s))). by destruct flag, b1, b2.
Qed.

Lemma refresh_sketch_spec flag s :
  ids_wf (Db.content (db s)) ->
  Store.refresh_sketch flag s =
  (Ok (), if flag then Store.set_sketch (sketch_of content_ksequence (stored_keys s)) content_ksequence
                         (u32 (Z.of_nat (length (stored_keys s)))) s
          else s).
Proof.
  intros Hwf. destruct flag; [|done]. unfold Store.refresh_sketch, Store.query, mbind, action_bind.
  rewrite compute_content_sketch_spec by done. unfold modify. fold content_ksequence. reflexivity.
Qed.

(** ** [get_iblt] *)

Lemma get_iblt_spec size s :
  cache_ok s -> 0 < size ->
  exists t s', Store.get_iblt size s = (Ok t, s') /\ cache_ok s' /\ db s' = db s /\
    params_of t = new_params size NH K0 K1 /\ represents t (Inserted <$> stored_keys s) /\
    iblts s' !! size = Some t /\ s' = Store.set_iblts (iblts s') s.
Proof.
  intros [Hwf Hm] Hsize. destruct (compute_content_iblt_spec size (db s) Hsize Hwf) as (t & Hc & Hp & Ht).
  unfold Store.get_iblt, Store.query, gets, modify, mbind, action_bind. rewrite Hc.
  destruct (iblts s !! size) as [cached|] eqn:Hcached.
  - exists cached, s. destruct (Hm size cached Hcached) as (_ & Hp' & Ht').
    split_and!; try done. by destruct s.
  - exists t, (Store.set_iblts (<[size := t]> (iblts s)) s). cbn.
    split_and!; try done; [|apply lookup_insert_eq].
    split; [done|]. intros size' t' Hl. cbn [iblts Store.set_iblts] in Hl.
    apply lookup_insert_Some in Hl as [[<- <-]|[_ Ht']]; [done|by apply Hm].
Qed.

Lemma get_iblt_hold size s X :
  ids_wf (Db.content (db s)) -> tables_hold (stored_keys s) X (iblts s) ->
  0 < size \/ Db.content (db s) = ∅ ->
  exists t m', Store.get_iblt size s = (Ok t, Store.set_iblts m' s) /\
    tables_hold (stored_keys s) X m' /\ (with_cells (iblts s) -> 0 < size -> with_cells m').
Proof.
  intros Hwf Hm Hor. unfold Store.get_iblt, Store.query, gets, modify, mbind, action_bind.
  assert (exists t, ContentTable.compute_content_iblt size (db s) = Ok t /\ holds (stored_keys s) X size t)
    as (t & -> & Ht).
  { destruct (decide (0 < size)) as [Hpos|Hz].
    - destruct (compute_content_iblt_spec size (db s) Hpos Hwf) as (t & Hc & Hp & Ht).
      exists t. split; [done|]. split; [done|]. intros _. exists []. rewrite app_nil_r.
      split; [apply submseteq_nil_l|done].
    - destruct Hor as [|He]; [done|]. unfold ContentTable.compute_content_iblt, Iblt.new.
      rewrite He, bool_decide_eq_true_2 by (unfold NH, K_MAX; lia). cbn [assert mbind res_bind].
      rewrite scan_empty. cbn [fmap list_fmap for_each]. eexists. split; [reflexivity|]. split; [|done].
      unfold params_of, new_params. cbn. by rewrite length_replicate. }
  destruct (iblts s !! size) as [cached|] eqn:Hcached.
  - exists cached, (iblts s). split_and!; [by destruct s|done|done].
  - exists t, (<[size := t]> (iblts s)). split; [done|]. split; [by apply map_Forall_insert_2|].
    intros Hc Hpos. by apply map_Forall_insert_2.
Qed.

(** With a content stored, a table without cells is not computed. *)
Lemma get_iblt_panics size s :
  ids_wf (Db.content (db s)) -> size <= 0 -> Db.content (db s) <> ∅ ->
  Store.get_iblt size s = (Panicked RemainderByZero, s).
Proof.
  intros Hwf Hz Hne. unfold Store.get_iblt, Store.query, mbind, action_bind.
  assert (ContentTable.compute_content_iblt size (db s) = Panicked RemainderByZero) as ->; [|done].
  unfold ContentTable.compute_content_iblt, Iblt.new.
  rewrite bool_decide_eq_true_2 by (unfold NH, K_MAX; lia). cbn [assert mbind res_bind].
  pose proof (scan_rows (Db.content (db s))) as Hscan.
  destruct (scan (Db.content (db s))) as [|[id r] rows] eqn:Hs.
  { apply Permutation_nil_l in Hscan. symmetry in Hscan. by apply map_to_list_empty_iff in Hscan. }
  destruct (scan_ids_hex (Db.content (db s)) id Hwf) as [d ->]; [rewrite Hs; apply list_elem_of_here|].
  cbn [fmap list_fmap fst for_each]. rewrite key_of_id_hex. cbn [mbind res_bind].
  rewrite (insert_no_cells _ size); [done| |done].
  unfold params_of, new_params. cbn. by rewrite length_replicate.
Qed.

End Tables.
