(* ===== verification/StoreSpec.v ===== *)
(** * Theorems on the content store

    What each method does to the stored contents and to the cached tables and
    sketch, on every branch, and the reachable states of a store under any
    sequence of chain events and additions. *)

From S2P Require Import Prelude Machine IbltTable IbltCells IbltAlgebra IbltRefine IbltSync Sketch.
From S2P Require Import Keys Strings Text Bitcoin Content Effects Db DbContent DbContentSpec Wallet.
From S2P Require Import DbWallet Trunk Store StoreTables.
#[local] Open Scope Z_scope.

Section Deletion.
Context `{SipHasher, Snap, !SnapLaws, BitcoinLaws, !Cbor Ad, SQLiteLaws, !WalletCrate, !AccountStorage}.
Implicit Types (s : ContentStore).
#[local] Opaque generate_ksequence.

(** The sketch may be out of date, but it is a sketch of the right shape. *)
Definition sketch_shape s : Prop :=
  st_ksequence s = content_ksequence /\ exists ids : list ContentKey, min_hashes s = sketch_of content_ksequence ids.

Lemma sketch_ok_shape s : sketch_ok s -> sketch_shape s.
Proof. intros (Hk & Hm & _). split; [exact Hk|]. eexists. exact Hm. Qed.

(** What the methods that delete contents leave alone. *)
Definition same_rest s s' : Prop :=
  storage_limit s' = storage_limit s /\ sent s' = sent s /\ dom (iblts s') = dom (iblts s).

(** The common part of [add_header], [unwind_tip] and [truncate_to_limit]. *)
Definition delete_phase (op : action DB Error (list ContentKey)) : action ContentStore Error unit :=
  keys ← Store.on_db op;
  deleted_some ← Store.drop_keys keys false;
  Store.refresh_sketch deleted_some.

Lemma sketch_ok_perm s s' :
  stored_keys s ≡ₚ stored_keys s' -> st_ksequence s' = st_ksequence s ->
  min_hashes s' = min_hashes s -> n_keys s' = n_keys s -> sketch_ok s -> sketch_ok s'.
Proof.
  intros Hp Hk Hm Hn (Hk' & Hm' & Hn'). unfold sketch_ok.
  rewrite Hk, Hm, Hn, Hk', Hm', Hn'. split_and!; [done| |].
  - by apply sketch_of_proper.
  - by rewrite (Permutation_length Hp).
Qed.

Lemma delete_phase_spec op s keys d :
  cache_ok s -> op (db s) = (Ok keys, d) ->
  removed (Db.content (db s)) keys (Db.content d) ->
  exists s', delete_phase op s = (Ok (), s') /\ db s' = d /\ cache_ok s' /\ same_rest s s' /\
    wallet s' = wallet s /\
    (iblts s <> ∅ \/ keys = [] -> sketch_ok s -> sketch_ok s') /\
    (iblts s <> ∅ -> keys <> [] -> sketch_ok s') /\
    (iblts s = ∅ \/ keys = [] -> min_hashes s' = min_hashes s /\ st_ksequence s' = st_ksequence s /\
                     n_keys s' = n_keys s).
Proof.
  intros [Hwf Hm] Hop (Hsub & Hwf' & Hkeys).
  set (s1 := Store.set_db d s).
  assert (stored_keys s ≡ₚ keys ++ stored_keys s1) as Hk by exact Hkeys.
  assert (tables_for ((Inserted <$> keys) ++ (Inserted <$> stored_keys s1)) (iblts s1)) as Hm1.
  { refine (proj1 (tables_for_perm _ _ _ _) Hm). by rewrite Hk, fmap_app. }
  destruct (drop_keys_spec keys s1 false _ Hm1) as (m' & Hdrop & Hm' & Hdom).
  set (s2 := Store.set_iblts m' s1).
  set (flag := bool_decide (keys <> []) && bool_decide (iblts s <> ∅)).
  pose proof (refresh_sketch_spec flag s2 Hwf') as Hre.
  assert (delete_phase op s = Store.refresh_sketch flag s2) as Heq.
  { unfold delete_phase, Store.on_db, zoom, mbind, action_bind. rewrite Hop. fold s1. by rewrite Hdrop. }
  rewrite Heq, Hre. eexists. split; [reflexivity|].
  assert (cache_ok s2) as Hc2 by (split; [exact Hwf'|exact Hm']).
  assert (flag = true <-> keys <> [] /\ iblts s <> ∅) as Hflag.
  { unfold flag. by rewrite andb_true_iff, !bool_decide_eq_true. }
  destruct flag.
  - destruct (proj1 Hflag eq_refl) as [Hk1 Hk2]. split_and!; try done.
    intros [?|?]; done.
  - assert (~ (keys <> [] /\ iblts s <> ∅)) as Hn by (intros Hx; by apply Hflag in Hx).
    split_and!; try done.
    + intros Hor Hsk. assert (keys = []) as Hnil by (destruct (decide (keys = [])); tauto).
      rewrite Hnil in Hk. by apply (sketch_ok_perm s s2).
    + intros H1' H2'. tauto.
Qed.

(** In sync, but for the keys [X] that a table may count once more, for a sketch
    that may be old, and for tables without cells while nothing is stored. *)
Definition recounted X s : Prop :=
  ids_wf (Db.content (db s)) /\ tables_hold (stored_keys s) X (iblts s) /\ sketch_shape s /\
  (with_cells (iblts s) \/ Db.content (db s) = ∅).

Lemma cache_ok_hold s :
  cache_ok s <->
  ids_wf (Db.content (db s)) /\ tables_hold (stored_keys s) [] (iblts s) /\ with_cells (iblts s).
Proof. unfold cache_ok. by rewrite tables_for_hold. Qed.

Lemma recounted_in_sync s : cache_ok s -> sketch_shape s -> recounted [] s.
Proof. intros (Hwf & Hm & Hc)%cache_ok_hold Hsh. split_and!; [done..|by left]. Qed.

Lemma recounted_more X X' s : X ⊆+ X' -> recounted X s -> recounted X' s.
Proof. intros HX (Hwf & Hm & Hrest). split; [done|]. split; [by eapply tables_hold_more|done]. Qed.

Lemma refresh_sketch_shape flag s :
  ids_wf (Db.content (db s)) -> sketch_shape s ->
  exists s', Store.refresh_sketch flag s = (Ok (), s') /\ sketch_shape s' /\
    db s' = db s /\ iblts s' = iblts s /\ wallet s' = wallet s /\
    storage_limit s' = storage_limit s /\ sent s' = sent s.
Proof.
  intros Hwf Hsh. rewrite refresh_sketch_spec by done. eexists. split; [reflexivity|].
  destruct flag; (split; [|done]); [split; [done|by exists (stored_keys s)]|done].
Qed.

Lemma delete_phase_recounted X op s keys d :
  recounted X s -> op (db s) = (Ok keys, d) ->
  removed (Db.content (db s)) keys (Db.content d) ->
  exists s', delete_phase op s = (Ok (), s') /\ db s' = d /\ recounted X s' /\ same_rest s s' /\
    wallet s' = wallet s.
Proof.
  intros (Hwf & Hm & Hsh & Hor) Hop (Hsub & Hwf' & Hkeys).
  set (s1 := Store.set_db d s).
  assert (stored_keys s ≡ₚ keys ++ stored_keys s1) as Hk by exact Hkeys. rewrite Hk in Hm.
  assert (keys = [] \/ with_cells (iblts s1)) as Hor1.
  { destruct Hor as [Hc|He]; [by right|left]. unfold stored_keys, table_keys in Hk.
    rewrite He, map_to_list_empty in Hk. apply symmetry, Permutation_nil_r, app_eq_nil in Hk. tauto. }
  destruct (drop_keys_hold keys s1 false _ X Hm Hor1) as (flag & m' & Hdrop & Hm' & Hdom).
  set (s2 := Store.set_iblts m' s1).
  destruct (refresh_sketch_shape flag s2 Hwf' Hsh) as (s3 & Hre & Hsh3 & Hdb & Hi & Hw & Hl & Hsent).
  exists s3. split.
  { unfold delete_phase, Store.on_db, zoom, mbind, action_bind. rewrite Hop. fold s1. by rewrite Hdrop. }
  unfold recounted, stored_keys, same_rest. rewrite Hdb, Hi, Hw, Hl, Hsent.
  split_and!; [done..| |done|done|exact Hdom|done].
  destruct Hor as [Hc|He]; [left; by apply (with_cells_dom (iblts s))|right].
  change (Db.content d = ∅). apply map_empty. intros id. destruct (Db.content d !! id) as [r|] eqn:Hr; [|done].
  assert (Db.content (db s) !! id = Some r) as Hr' by (by eapply lookup_weaken).
  by rewrite He, lookup_empty in Hr'.
Qed.

Lemma in_transaction_ok {A} (body : action ContentStore Error A) s a s' :
  body s = (Ok a, s') -> Store.in_transaction body s = (Ok a, s').
Proof. unfold Store.in_transaction, transaction. by intros ->. Qed.
End Deletion.

(** ** Chain events *)

Section ChainEvents.
Context `{SipHasher, Snap, !SnapLaws, BitcoinLaws, !Cbor Ad, SQLiteLaws, !WalletCrate, !AccountStorage}.
Implicit Types (s : ContentStore).
#[local] Opaque generate_ksequence.

Definition expired (height : Z) (r : ContentRow) : Prop := r_height r + r_term r <= height.

Lemma add_header_phase height s :
  Store.add_header height s = Store.in_transaction (delete_phase (ContentTable.delete_expired height)) s.
Proof. done. Qed.

Lemma add_header_run height s :
  cache_ok s ->
  exists s', Store.add_header height s = (Ok (), s') /\ cache_ok s' /\
    (forall id r, Db.content (db s') !! id = Some r <->
       Db.content (db s) !! id = Some r /\ ~ expired height r) /\
    db s' = set_content (Db.content (db s')) (db s) /\ wallet s' = wallet s /\ same_rest s s' /\
    (iblts s <> ∅ \/ (forall id r, Db.content (db s) !! id = Some r -> ~ expired height r) ->
     sketch_ok s -> sketch_ok s').
Proof.
  intros Hc. pose proof Hc as [Hwf _].
  destruct (delete_where_removed (λ r, r_height r + r_term r <=? height) (db s) Hwf) as (keys & Hop & Hrem).
  destruct (delete_phase_spec (ContentTable.delete_expired height) s keys _ Hc Hop Hrem)
    as (s' & Hrun & Hdb & Hc' & Hrest & Hw & Hsk & _ & _).
  exists s'. rewrite add_header_phase. split; [by apply in_transaction_ok|].
  split; [exact Hc'|]. rewrite Hdb. split_and!; [|done|done|done|].
  - intros id r. cbn [Db.content set_content]. rewrite map_lookup_filter_Some.
    unfold expired. rewrite Z.leb_gt, Z.nle_gt. done.
  - intros Hor. apply Hsk. destruct Hor as [?|Hno]; [by left|right].
    destruct keys as [|k keys]; [done|]. exfalso.
    pose proof (removed_keys _ _ _ (ck_digest k) Hwf Hrem) as Hk.
    destruct (proj1 Hk) as [[r Hr] Hn]; [destruct k; apply list_elem_of_here|].
    cbn [Db.content set_content] in Hn. apply map_lookup_filter_None in Hn as [Hn|Hn]; [congruence|].
    specialize (Hn r Hr). simpl in Hn. apply not_false_is_true, Z.leb_le in Hn. by apply (Hno _ r Hr).
Qed.

(** A new header at a height removes exactly the contents that expired by it,
    and leaves the wallet and the other contents alone; all cached tables stay
    the tables of what is stored. The sketch stays right as well when a
    table is cached or nothing expired. *)
Theorem add_header_spec height s :
  cache_ok s ->
  exists s', Store.add_header height s = (Ok (), s') /\ cache_ok s' /\
    (forall id r, Db.content (db s') !! id = Some r <->
       Db.content (db s) !! id = Some r /\ ~ expired height r) /\
    db s' = set_content (Db.content (db s')) (db s) /\ wallet s' = wallet s /\ same_rest s s' /\
    (iblts s <> ∅ \/ (forall id r, Db.content (db s) !! id = Some r -> ~ expired height r) ->
     sketch_ok s -> sketch_ok s').
Proof. apply add_header_run. Qed.

(** The same of a store that counts some keys once more. *)
Lemma add_header_recounted X height s :
  recounted X s ->
  exists s', Store.add_header height s = (Ok (), s') /\ recounted X s' /\
    Db.content (db s') = filter (λ p, height < r_height p.2 + r_term p.2) (Db.content (db s)) /\
    wallet s' = wallet s /\ same_rest s s'.
Proof.
  intros Hs. pose proof (proj1 Hs) as Hwf.
  destruct (delete_where_removed (λ r, r_height r + r_term r <=? height) (db s) Hwf) as (keys & Hop & Hrem).
  destruct (delete_phase_recounted X (ContentTable.delete_expired height) s keys _ Hs Hop Hrem)
    as (s' & Hrun & Hdb & Hs' & Hrest & Hw).
  exists s'. rewrite add_header_phase. split; [by apply in_transaction_ok|]. split; [done|].
  split; [|done]. rewrite Hdb. cbn [Db.content set_content]. apply map_filter_ext.
  intros id r _. cbn. by rewrite Z.leb_gt.
Qed.

Lemma unwind_tip_run header s :
  cache_ok s ->
  exists s', Store.unwind_tip header s = (Ok (), s') /\ cache_ok s' /\
    (forall id r, Db.content (db s') !! id = Some r <->
       Db.content (db s) !! id = Some r /\ r_block_id r <> to_hex_d (header_hash header)) /\
    WalletTables.read_processed (db s') = Ok (Some (prev_blockhash header)) /\
    wallet s' = WalletOps.unwind_tip (header_hash header) (wallet s) /\ same_rest s s' /\
    (iblts s <> ∅ -> sketch_ok s -> sketch_ok s').
Proof.
  intros Hc. pose proof Hc as [Hwf _].
  set (s0 := Store.set_db (WalletTables.store_processed (prev_blockhash header) (db s)) s).
  assert (cache_ok s0) as Hc0 by exact Hc.
  destruct (delete_where_removed (λ r, bool_decide (r_block_id r = to_hex_d (header_hash header)))
    (db s0) Hwf) as (keys & Hop & Hrem).
  destruct (delete_phase_spec (ContentTable.delete_confirmed (header_hash header)) s0 keys _ Hc0 Hop Hrem)
    as (s' & Hrun & Hdb & Hc' & Hrest & Hw & Hsk & _ & _).
  exists (Store.set_wallet (WalletOps.unwind_tip (header_hash header) (wallet s')) s').
  split.
  { unfold Store.unwind_tip.
    rewrite (action_bind_ok _ _ _ () s'); [done|].
    apply in_transaction_ok. change (delete_phase (ContentTable.delete_confirmed (header_hash header)) s0
      = (Ok (), s')). done. }
  cbn [db wallet Store.set_wallet]. rewrite Hdb, Hw. split_and!; [exact Hc'| | |done|exact Hrest|].
  - intros id r. cbn [Db.content set_content]. rewrite map_lookup_filter_Some.
    by rewrite bool_decide_eq_false.
  - unfold WalletTables.read_processed. cbn. by rewrite from_hex_to_hex_d.
  - intros Hne Hs. apply Hsk; [by left|exact Hs].
Qed.

(** Unwinding the tip removes exactly the contents that the unwound block
    confirmed, makes its parent the last processed block, unwinds the wallet, and
    keeps all cached tables the tables of what is stored. *)
Theorem unwind_tip_spec header s :
  cache_ok s ->
  exists s', Store.unwind_tip header s = (Ok (), s') /\ cache_ok s' /\
    (forall id r, Db.content (db s') !! id = Some r <->
       Db.content (db s) !! id = Some r /\ r_block_id r <> to_hex_d (header_hash header)) /\
    WalletTables.read_processed (db s') = Ok (Some (prev_blockhash header)) /\
    wallet s' = WalletOps.unwind_tip (header_hash header) (wallet s) /\ same_rest s s' /\
    (iblts s <> ∅ -> sketch_ok s -> sketch_ok s').
Proof. apply unwind_tip_run. Qed.

Lemma unwind_tip_recounted X header s :
  recounted X s ->
  exists s', Store.unwind_tip header s = (Ok (), s') /\ recounted X s' /\
    Db.content (db s') = filter (λ p, r_block_id p.2 <> to_hex_d (header_hash header)) (Db.content (db s)) /\
    wallet s' = WalletOps.unwind_tip (header_hash header) (wallet s) /\ same_rest s s'.
Proof.
  intros Hs.
  set (s0 := Store.set_db (WalletTables.store_processed (prev_blockhash header) (db s)) s).
  assert (recounted X s0) as Hs0 by exact Hs. pose proof (proj1 Hs0) as Hwf.
  destruct (delete_where_removed (λ r, bool_decide (r_block_id r = to_hex_d (header_hash header)))
    (db s0) Hwf) as (keys & Hop & Hrem).
  destruct (delete_phase_recounted X (ContentTable.delete_confirmed (header_hash header)) s0 keys _ Hs0 Hop Hrem)
    as (s' & Hrun & Hdb & Hs' & Hrest & Hw).
  exists (Store.set_wallet (WalletOps.unwind_tip (header_hash header) (wallet s')) s').
  split.
  { unfold Store.unwind_tip.
    rewrite (action_bind_ok _ _ _ () s'); [done|]. apply in_transaction_ok.
    change (delete_phase (ContentTable.delete_confirmed (header_hash header)) s0 = (Ok (), s')). done. }
  split; [exact Hs'|]. cbn [db wallet Store.set_wallet]. rewrite Hdb, Hw. split; [|done].
  cbn [Db.content set_content]. apply map_filter_ext. intros id r _. cbn. by rewrite bool_decide_eq_false.
Qed.

(** [t'] keeps rows of the largest weights of [t] that fit together, and could not
    keep one more. *)
Record heaviest (limit : Z) (t t' : gmap str ContentRow) : Prop := mkHeaviest {
  heaviest_kept : t' ⊆ t;
  heaviest_fits : sum_length (map_to_list t') <= limit;
  heaviest_first id r id' r' :
    t' !! id = Some r -> t !! id' = Some r' -> t' !! id' = None -> r_weight r' <= r_weight r;
  heaviest_all : sum_length (map_to_list t) <= limit -> t' = t;
  heaviest_most : t' = t \/
    exists id r, t !! id = Some r /\ t' !! id = None /\ limit < sum_length (map_to_list t') + r_length r
}.

Lemma truncate_content_heaviest limit d :
  ids_wf (Db.content d) -> 0 <= limit ->
  (forall id r, Db.content d !! id = Some r -> 0 <= r_length r) ->
  sum_length (map_to_list (Db.content d)) < 2 ^ 64 ->
  exists keys d', ContentTable.truncate_content limit d = (Ok keys, d') /\
    removed (Db.content d) keys (Db.content d') /\ heaviest limit (Db.content d) (Db.content d').
Proof.
  intros Hwf Hlim Hlen Hsum.
  destruct (truncate_rows limit d Hwf Hlim Hlen Hsum)
    as (kept & dropped & t' & Hop & Hperm & Hkept & Hfit & Hw & Hfirst).
  destruct (truncate_content_shape limit d Hwf) as [Hop' Hrem].
  rewrite Hop' in Hop. injection Hop as Hkeys Ht'. eexists _, _. split; [exact Hop'|]. split; [exact Hrem|].
  cbn [Db.content set_content]. rewrite Ht'. rewrite Ht' in Hrem. destruct Hrem as (Hsub & _).
  assert (forall id r, t' !! id = Some r <-> (id, r) ∈ kept) as Hin.
  { intros id r. by rewrite <- Hkept, elem_of_map_to_list. }
  assert (dropped = [] -> t' = Db.content d) as Hnone.
  { intros ->. rewrite app_nil_r in Hperm. apply map_eq. intros id. apply option_eq. intros r.
    by rewrite Hin, <- Hperm, elem_of_map_to_list. }
  split; [exact Hsub|by rewrite (sum_length_perm _ _ Hkept)| | |].
  - intros id r id' r' Hr Hr' Hn. apply (Hw (id, r) (id', r')); [by apply Hin|].
    assert ((id', r') ∈ kept ++ dropped) as [Hk|?]%elem_of_app.
    { rewrite <- Hperm. by apply elem_of_map_to_list. }
    + apply Hin in Hk. congruence.
    + done.
  - intros Hall. destruct dropped as [|[id r] dropped]; [exact (Hnone eq_refl)|].
    exfalso. specialize (Hfirst _ _ eq_refl). simpl in Hfirst.
    rewrite (sum_length_perm _ _ Hperm), sum_length_app in Hall. simpl in Hall.
    assert (0 <= sum_length dropped); [|lia]. apply sum_length_nonneg. apply Forall_forall.
    intros [i x] Hi. apply (Hlen i). apply elem_of_map_to_list. rewrite Hperm. set_solver.
  - destruct dropped as [|[id r] dropped]; [left; exact (Hnone eq_refl)|right].
    exists id, r. split; [|split].
    + apply elem_of_map_to_list. rewrite Hperm. set_solver.
    + apply eq_None_not_Some. intros [r' Hr']. apply Hin in Hr'.
      pose proof (NoDup_fst_map_to_list (Db.content d)) as Hnd. rewrite Hperm, fmap_app in Hnd.
      apply NoDup_app in Hnd as (_ & Hd & _). apply (Hd id); [|set_solver].
      apply list_elem_of_fmap. by exists (id, r').
    + rewrite (sum_length_perm _ _ Hkept). exact (Hfirst _ _ eq_refl).
Qed.

Lemma truncate_recounted X s :
  recounted X s ->
  exists s', Store.truncate_to_limit s = (Ok (), s') /\ recounted X s' /\ storage_limit s' = storage_limit s.
Proof.
  intros Hs. destruct (truncate_content_shape (storage_limit s) (db s) (proj1 Hs)) as [Hop Hrem].
  destruct (delete_phase_recounted X (ContentTable.truncate_content (storage_limit s)) s _ _ Hs Hop Hrem)
    as (s' & Hrun & _ & Hs' & Hrest & _).
  exists s'. split; [by apply in_transaction_ok|]. split; [done|apply Hrest].
Qed.

Lemma truncate_to_limit_recounted X s :
  recounted X s -> 0 <= storage_limit s ->
  (forall id r, Db.content (db s) !! id = Some r -> 0 <= r_length r) ->
  sum_length (map_to_list (Db.content (db s))) < 2 ^ 64 ->
  exists s', Store.truncate_to_limit s = (Ok (), s') /\ recounted X s' /\
    heaviest (storage_limit s) (Db.content (db s)) (Db.content (db s')) /\
    wallet s' = wallet s /\ same_rest s s'.
Proof.
  intros Hs Hlim Hlen Hsum. pose proof (proj1 Hs) as Hwf.
  destruct (truncate_content_heaviest (storage_limit s) (db s) Hwf Hlim Hlen Hsum) as (keys & d & Hop & Hrem & Hh).
  destruct (delete_phase_recounted X (ContentTable.truncate_content (storage_limit s)) s keys d Hs Hop Hrem)
    as (s' & Hrun & Hdb & Hs' & Hrest & Hw).
  exists s'. split; [by apply in_transaction_ok|]. split; [done|]. by rewrite Hdb.
Qed.

Lemma truncate_to_limit_run s :
  cache_ok s -> 0 <= storage_limit s ->
  (forall id r, Db.content (db s) !! id = Some r -> 0 <= r_length r) ->
  sum_length (map_to_list (Db.content (db s))) < 2 ^ 64 ->
  exists s', Store.truncate_to_limit s = (Ok (), s') /\ cache_ok s' /\
    Db.content (db s') ⊆ Db.content (db s) /\
    sum_length (map_to_list (Db.content (db s'))) <= storage_limit s /\
    (forall id r id' r', Db.content (db s') !! id = Some r -> Db.content (db s) !! id' = Some r' ->
       Db.content (db s') !! id' = None -> r_weight r' <= r_weight r) /\
    wallet s' = wallet s /\ same_rest s s' /\
    (iblts s <> ∅ -> sketch_ok s -> sketch_ok s') /\
    (sum_length (map_to_list (Db.content (db s))) <= storage_limit s ->
     Db.content (db s') = Db.content (db s)) /\
    (Db.content (db s') = Db.content (db s) \/
     exists id r, Db.content (db s) !! id = Some r /\ Db.content (db s') !! id = None /\
       storage_limit s < sum_length (map_to_list (Db.content (db s'))) + r_length r).
Proof.
  intros Hc Hlim Hlen Hsum. pose proof Hc as [Hwf _].
  destruct (truncate_content_heaviest (storage_limit s) (db s) Hwf Hlim Hlen Hsum) as (keys & d & Hop & Hrem & Hh).
  destruct (delete_phase_spec (ContentTable.truncate_content (storage_limit s)) s keys d Hc Hop Hrem)
    as (s' & Hrun & Hdb & Hc' & Hrest & Hwal & Hsk & _ & _).
  exists s'. split; [by apply in_transaction_ok|]. rewrite Hdb.
  destruct Hh as [Hsub Hfits Hfirst Hall Hmost]. split_and!; try done. intros Hne. apply Hsk. by left.
Qed.

(** C18: Truncation brings the stored contents under the storage limit: what stays
    are contents of the largest weights whose lengths together fit, and all
    cached tables stay the tables of what is stored. *)
Theorem truncate_to_limit_spec s :
  cache_ok s -> 0 <= storage_limit s ->
  (forall id r, Db.content (db s) !! id = Some r -> 0 <= r_length r) ->
  sum_length (map_to_list (Db.content (db s))) < 2 ^ 64 ->
  exists s', Store.truncate_to_limit s = (Ok (), s') /\ cache_ok s' /\
    Db.content (db s') ⊆ Db.content (db s) /\
    sum_length (map_to_list (Db.content (db s'))) <= storage_limit s /\
    (forall id r id' r', Db.content (db s') !! id = Some r -> Db.content (db s) !! id' = Some r' ->
       Db.content (db s') !! id' = None -> r_weight r' <= r_weight r) /\
    wallet s' = wallet s /\ same_rest s s' /\
    (iblts s <> ∅ -> sketch_ok s -> sketch_ok s') /\
    (sum_length (map_to_list (Db.content (db s))) <= storage_limit s ->
     Db.content (db s') = Db.content (db s)) /\
    (Db.content (db s') = Db.content (db s) \/
     exists id r, Db.content (db s) !! id = Some r /\ Db.content (db s') !! id = None /\
       storage_limit s < sum_length (map_to_list (Db.content (db s'))) + r_length r).
Proof. apply truncate_to_limit_run. Qed.

(** While no table is cached the deletions never recompute the sketch: after
    contents expire, the store goes on announcing the old sketch and the old
    number of keys. *)
Theorem stale_sketch_without_tables height s :
  cache_ok s -> iblts s = ∅ ->
  exists s', Store.add_header height s = (Ok (), s') /\
    min_hashes s' = min_hashes s /\ n_keys s' = n_keys s /\
    (sketch_ok s -> Z.of_nat (length (stored_keys s)) < 2 ^ 32 ->
     (exists id r, Db.content (db s) !! id = Some r /\ expired height r) -> ~ sketch_ok s').
Proof.
  intros Hc Hempty. pose proof Hc as [Hwf _].
  destruct (delete_where_removed (λ r, r_height r + r_term r <=? height) (db s) Hwf) as (keys & Hop & Hrem).
  destruct (delete_phase_spec (ContentTable.delete_expired height) s keys _ Hc Hop Hrem)
    as (s' & Hrun & Hdb & Hc' & _ & _ & _ & _ & Hold).
  exists s'. rewrite add_header_phase. split; [by apply in_transaction_ok|].
  destruct Hold as (Hm & _ & Hn); [by left|]. split; [done|]. split; [done|].
  intros (_ & _ & Hns) Hbig (id & r & Hr & Hexp) (_ & _ & Hns').
  rewrite Hn, Hns in Hns'.
  assert (length (stored_keys s) = (length keys + length (stored_keys s'))%nat) as Hl.
  { destruct Hrem as (_ & _ & Hk). apply Permutation_length in Hk. rewrite length_app in Hk.
    unfold stored_keys. by rewrite Hdb. }
  rewrite !u32_small in Hns' by (unfold is_u32; lia).
  assert (keys = []) as Hnil by (destruct keys; [done|]; simpl in Hl; lia).
  destruct (Hwf id) as [dg Hdg]; [by eexists|]. subst id.
  pose proof (proj2 (removed_keys _ _ _ dg Hwf Hrem)) as Hk. rewrite Hnil in Hk.
  apply (not_elem_of_nil (mkContentKey dg)), Hk. split; [by eexists|].
  cbn [Db.content set_content]. apply map_lookup_filter_None. right. intros r' Hr'. simpl.
  replace r' with r by congruence. apply Z.leb_le in Hexp. by rewrite Hexp.
Qed.
End ChainEvents.

(** ** Adding contents *)

Section Adding.
Context `{SipHasher, Snap, !SnapLaws, BitcoinLaws, !Cbor Ad, SQLiteLaws, !WalletCrate, !AccountStorage}.
Implicit Types (s : ContentStore) (c : Content) (trunk : Trunk).
#[local] Opaque generate_ksequence.

(** The funding transaction of [c] is in the block with this header at this
    height of the trunk, is not yet expired, and [o] is its first output that
    pays to the commitment to the ad. *)
Definition committed trunk c (height : Z) (header : BlockHeader) (o : TxOut) : Prop :=
  get_height trunk (get_block_hash (funding c)) = Some height /\
  trunk_len trunk <= u32 (height + term c) /\
  get_header trunk (get_block_hash (funding c)) = Some header /\
  merkle_root header = proved_merkle_root (funding c) /\
  2 <= u32 (version (get_transaction (funding c))) /\
  exists tweaked, tweak_exp_add (funder c) (vec_to_list (AdOps.digest_of (ad c))) = Some tweaked /\
    head (filter (λ o, script_pubkey o = Store.funding_address tweaked (term c))
                 (output (get_transaction (funding c)))) = Some o.

(** What [store_content] needs of an ad that a peer sent: its text decodes, its
    length is not zero. *)
Definition encodable c : Prop :=
  (exists text, TextOps.as_string (Content.content (ad c)) = Ok text) /\ content_length c <> 0.

(** The same, and the funder's key can be tweaked with the digest. *)
Definition storable c : Prop :=
  (exists text, TextOps.as_string (Content.content (ad c)) = Ok text) /\ content_length c <> 0 /\
  is_Some (tweak_exp_add (funder c) (vec_to_list (AdOps.digest_of (ad c)))).

#[global] Instance encodable_dec c : Decision (encodable c).
Proof.
  apply and_dec; [|apply _].
  destruct (TextOps.as_string (Content.content (ad c))) as [text|e|p]; [left; by exists text|right..];
    by intros [text [=]].
Defined.

(** The proof refers to the trunk as [committed] asks for, but the funder's key
    cannot be tweaked. *)
Definition tweak_fails trunk c : Prop :=
  exists height header,
    get_height trunk (get_block_hash (funding c)) = Some height /\
    trunk_len trunk <= u32 (height + term c) /\
    get_header trunk (get_block_hash (funding c)) = Some header /\
    merkle_root header = proved_merkle_root (funding c) /\
    2 <= u32 (version (get_transaction (funding c))) /\
    tweak_exp_add (funder c) (vec_to_list (AdOps.digest_of (ad c))) = None.

Definition content_key c : ContentKey := mkContentKey (AdOps.digest_of (ad c)).
Definition is_stored c s : Prop := is_Some (Db.content (db s) !! to_hex (AdOps.digest_of (ad c))).

(** What [accept_content] does to tables, sketch and count before it stores. *)
Definition counted mins m' s : ContentStore :=
  Store.set_sketch mins content_ksequence (u32 (n_keys s + 1)) (Store.set_iblts m' s).

(** Accepting, once the tables are updated: an ad that can be stored is; another
    one panics when it is stored, with tables, sketch and count as they are then. *)
Lemma accept_content_updated height header c o s m' :
  sketch_shape s ->
  Store.update (λ i, Iblt.insert i (content_key c)) s = (Ok (), Store.set_iblts m' s) ->
  exists mins ids, mins = sketch_of content_ksequence (content_key c :: ids) /\
    (min_hashes s = sketch_of content_ksequence (stored_keys s) ->
     mins = sketch_of content_ksequence (content_key c :: stored_keys s)) /\
    (forall text, TextOps.as_string (Content.content (ad c)) = Ok text -> content_length c <> 0 ->
       Store.accept_content height header c o s =
       (Ok true, Store.set_db (set_content (<[to_hex (AdOps.digest_of (ad c)) :=
          ContentTable.content_row height (header_hash header) c (value o) text]> (Db.content (db s))) (db s))
          (counted mins m' s))) /\
    (~ encodable c -> exists p,
       Store.accept_content height header c o s = (Panicked p, counted mins m' s)).
Proof.
  intros (Hks & ids & Hmin) Hup.
  assert (forall ids', min_hashes s = sketch_of content_ksequence ids' ->
    add_to_min_sketch (E:=Error) (min_hashes s) (content_key c) content_ksequence =
    Ok (sketch_of content_ksequence (content_key c :: ids'))) as Hadd.
  { intros ids' ->. apply add_to_min_sketch_spec. }
  pose proof (Hadd ids Hmin) as Hadd0. exists (sketch_of content_ksequence (content_key c :: ids)), ids.
  split; [done|]. split.
  { intros Hmin'. pose proof (Hadd _ Hmin') as Hadd'. rewrite Hadd0 in Hadd'. exact (inj Ok _ _ Hadd'). }
  set (mins := sketch_of content_ksequence (content_key c :: ids)) in *.
  assert (Store.accept_content height header c o s =
    (_ ← Store.in_transaction (Store.on_db (ContentTable.store_content height (header_hash header) c (value o)));
     mret true) (counted mins m' s)) as ->.
  { unfold Store.accept_content. rewrite ContentKeyOps.new_digest. fold (content_key c).
    change (lift (Ok (content_key c))) with (mret (M:=action ContentStore Error) (content_key c)).
    rewrite (action_bind_ok _ _ s (content_key c) s) by done.
    rewrite (action_bind_ok _ _ s () (Store.set_iblts m' s) Hup).
    rewrite (action_bind_ok _ _ _ () (counted mins m' s)); [done|].
    cbn [min_hashes st_ksequence Store.set_iblts n_keys]. by rewrite Hks, Hadd0. }
  split.
  - intros text Htext Hlen. erewrite action_bind_ok; [reflexivity|].
    apply in_transaction_ok. unfold Store.on_db, zoom.
    change (db (counted mins m' s)) with (db s).
    by rewrite (store_content_spec height (header_hash header) c (value o) (db s) text Htext Hlen).
  - intros Hno. assert (exists p, ContentTable.store_content height (header_hash header) c (value o) (db s) =
      (Panicked p, db s)) as [p Hp].
    { unfold ContentTable.store_content, lift, mbind, action_bind.
      destruct (TextOps.as_string (Content.content (ad c))) as [text|e|p] eqn:Htext; cbn [expect];
        [|by eexists..].
      rewrite decide_True; [by eexists|]. destruct (decide (content_length c = 0)) as [|Hl]; [done|].
      destruct Hno. split; [by exists text|done]. }
    exists p. unfold mbind, action_bind, Store.in_transaction, transaction, Store.on_db, zoom.
    change (db (counted mins m' s)) with (db s). rewrite Hp. done.
Qed.

Lemma storable_encodable c : storable c -> encodable c.
Proof. intros (Ht & Hl & _). by split. Qed.

Lemma accept_content_spec height header c o s :
  cache_ok s -> sketch_shape s -> encodable c ->
  exists s' text, Store.accept_content height header c o s = (Ok true, s') /\
    TextOps.as_string (Content.content (ad c)) = Ok text /\
    db s' = set_content (<[to_hex (AdOps.digest_of (ad c)) :=
      ContentTable.content_row height (header_hash header) c (value o) text]> (Db.content (db s))) (db s) /\
    tables_for (Inserted <$> content_key c :: stored_keys s) (iblts s') /\
    dom (iblts s') = dom (iblts s) /\ n_keys s' = u32 (n_keys s + 1) /\
    (wallet s' = wallet s /\ storage_limit s' = storage_limit s) /\
    sketch_shape s' /\
    (min_hashes s = sketch_of content_ksequence (stored_keys s) ->
     min_hashes s' = sketch_of content_ksequence (content_key c :: stored_keys s)).
Proof.
  intros [Hwf Hm] Hsh [[text Htext] Hlen].
  destruct (update_insert_spec (content_key c) s _ Hm) as (m' & Hup & Hm' & Hdom).
  destruct (accept_content_updated height header c o s m' Hsh Hup) as (mins & ids & Hmins & Hmin & Hrun & _).
  eexists _, text. split; [by apply Hrun|]. split_and!; try done. split; [done|]. by exists (content_key c :: ids).
Qed.

(** The panic leaves the tables with the key of a content that is not stored. *)
Lemma accept_content_panics height header c o s :
  cache_ok s -> sketch_shape s -> ~ encodable c ->
  exists p s', Store.accept_content height header c o s = (Panicked p, s') /\
    db s' = db s /\ wallet s' = wallet s /\ n_keys s' = u32 (n_keys s + 1) /\
    tables_for (Inserted <$> content_key c :: stored_keys s) (iblts s') /\
    dom (iblts s') = dom (iblts s).
Proof.
  intros [Hwf Hm] Hsh Hno.
  destruct (update_insert_spec (content_key c) s _ Hm) as (m' & Hup & Hm' & Hdom).
  destruct (accept_content_updated height header c o s m' Hsh Hup) as (mins & ids & _ & _ & _ & Hrun).
  destruct (Hrun Hno) as [p Hp]. by exists p, (counted mins m' s).
Qed.

(** In the loose invariant: a content that is stored already counts once more. *)
Lemma accept_content_recounted X height header c o s :
  recounted X s -> with_cells (iblts s) -> encodable c ->
  exists s' text, Store.accept_content height header c o s = (Ok true, s') /\
    TextOps.as_string (Content.content (ad c)) = Ok text /\
    Db.content (db s') = <[to_hex (AdOps.digest_of (ad c)) :=
      ContentTable.content_row height (header_hash header) c (value o) text]> (Db.content (db s)) /\
    recounted (if decide (is_stored c s) then content_key c :: X else X) s' /\
    wallet s' = wallet s /\ storage_limit s' = storage_limit s.
Proof.
  intros (Hwf & Hm & Hsh & _) Hc [[text Htext] Hlen].
  destruct (update_insert_hold (content_key c) s _ X Hm Hc) as (m' & Hup & Hm' & Hdom).
  destruct (accept_content_updated height header c o s m' Hsh Hup) as (mins & ids & Hmins & _ & Hrun & _).
  eexists _, text. split; [by apply Hrun|]. split; [done|]. split; [done|]. split; [|done]. split_and!.
  - by apply ids_wf_insert.
  - unfold stored_keys. cbn [db Store.set_db Db.content set_content iblts counted Store.set_sketch Store.set_iblts].
    rewrite table_keys_insert by done. unfold is_stored. case_decide as Hst.
    { by rewrite decide_False by (rewrite Hst; by intros [r [=]]). }
    rewrite decide_True by by apply not_eq_None_Some. intros size t Ht.
    destruct (Hm' size t Ht) as [Hp Hr]. split; [done|]. intros Hpos. destruct (Hr Hpos) as (E & HE & Hr').
    exists (content_key c :: E). split; [by apply submseteq_skip|].
    by rewrite <- Permutation_middle.
  - split; [done|]. by exists (content_key c :: ids).
  - left. by apply (with_cells_dom (iblts s)).
Qed.

(** Without an encodable ad, or with a cached table without cells, the call panics. *)
Lemma accept_content_fails X height header c o s :
  recounted X s -> ~ encodable c \/ ~ with_cells (iblts s) ->
  exists p s', Store.accept_content height header c o s = (Panicked p, s').
Proof.
  intros (_ & Hm & Hsh & _) Hno. destruct (decide (with_cells (iblts s))) as [Hc|Hc].
  - destruct (update_insert_hold (content_key c) s _ X Hm Hc) as (m' & Hup & _).
    destruct (accept_content_updated height header c o s m' Hsh Hup) as (mins & ids & _ & _ & _ & Hp).
    destruct Hno as [Hno|]; [|done]. destruct (Hp Hno) as [p Hrun]. by eexists _, _.
  - destruct (update_insert_panics (content_key c) s _ X Hm Hc) as [p Hp]. exists p, s.
    unfold Store.accept_content. rewrite ContentKeyOps.new_digest. fold (content_key c).
    change (lift (Ok (content_key c))) with (mret (M:=action ContentStore Error) (content_key c)).
    rewrite (action_bind_ok _ _ s (content_key c) s) by done.
    unfold mbind, action_bind. by rewrite Hp.
Qed.

Lemma add_content_committed trunk c height header o s :
  committed trunk c height header o ->
  Store.add_content trunk c s = Store.accept_content height header c o s.
Proof.
  intros (Hh & Hlen & Hhd & Hroot & Hver & tweaked & Htw & Ho). unfold Store.add_content.
  rewrite Hh, (proj2 (Z.leb_le _ _) Hlen), Hhd, decide_True by done.
  rewrite (proj2 (Z.leb_le _ _) Hver). cbv zeta. rewrite Htw.
  change (lift (unwrap_result (Some tweaked))) with (mret (M:=action ContentStore Error) tweaked).
  rewrite (action_bind_ok _ _ s tweaked s) by done. by rewrite Ho.
Qed.

(** The three ways of an offer. *)
Lemma add_content_trichotomy trunk c :
  (exists height header o, committed trunk c height header o) \/
  (tweak_fails trunk c /\ forall s, Store.add_content trunk c s = (Panicked UnwrapOnErr, s)) \/
  ((forall height header o, ~ committed trunk c height header o) /\ ~ tweak_fails trunk c /\
   forall s, Store.add_content trunk c s = (Ok false, s)).
Proof.
  unfold committed, tweak_fails, Store.add_content.
  destruct (get_height trunk _) as [height|]; [|right; right; naive_solver].
  destruct (Z.leb_spec (trunk_len trunk) (u32 (height + term c))) as [Hlen|Hlen];
    [|right; right; naive_solver lia].
  destruct (get_header trunk _) as [header|]; [|right; right; naive_solver].
  case_decide as Hroot; [|right; right; naive_solver].
  destruct (Z.leb_spec 2 (u32 (version (get_transaction (funding c))))) as [Hver|Hver];
    [|right; right; naive_solver lia].
  cbv zeta.
  destruct (tweak_exp_add (funder c) (vec_to_list (AdOps.digest_of (ad c)))) as [tweaked|].
  2: { right; left. split; [by exists height, header|done]. }
  destruct (head (filter (λ o, script_pubkey o = Store.funding_address tweaked (term c))
    (output (get_transaction (funding c))))) as [o|] eqn:Ho.
  - left. exists height, header, o. split_and!; try done. by exists tweaked.
  - right; right. split; [naive_solver|]. split; [naive_solver|]. intros s.
    change (lift (unwrap_result (Some tweaked))) with (mret (M:=action ContentStore Error) tweaked).
    rewrite (action_bind_ok _ _ s tweaked s) by done. by rewrite Ho.
Qed.

Lemma committed_tweaks trunk c height header o : committed trunk c height header o -> ~ tweak_fails trunk c.
Proof. intros (_ & _ & _ & _ & _ & t & Ht & _) (h & hd & _ & _ & _ & _ & _ & Hn). congruence. Qed.

Lemma committed_dec trunk c :
  is_Some (tweak_exp_add (funder c) (vec_to_list (AdOps.digest_of (ad c)))) ->
  (exists height header o, committed trunk c height header o) \/
  (forall height header o, ~ committed trunk c height header o).
Proof.
  intros [t Ht]. destruct (add_content_trichotomy trunk c) as [Hc|[[(h & hd & _ & _ & _ & _ & _ & Hn) _]|[Hno _]]];
    [by left|congruence|by right].
Qed.

Lemma add_content_uncommitted trunk c s :
  is_Some (tweak_exp_add (funder c) (vec_to_list (AdOps.digest_of (ad c)))) ->
  (forall height header o, ~ committed trunk c height header o) ->
  Store.add_content trunk c s = (Ok false, s).
Proof.
  intros [t Ht] Hno.
  destruct (add_content_trichotomy trunk c) as [(h & hd & o & Hc)|[[(h & hd & _ & _ & _ & _ & _ & Hn) _]|(_ & _ & Hrun)]];
    [by destruct (Hno h hd o)|congruence|done].
Qed.

(** Only a committed content is accepted. *)
Lemma add_content_true trunk c s s' :
  Store.add_content trunk c s = (Ok true, s') -> exists height header o, committed trunk c height header o.
Proof.
  intros Hrun. destruct (add_content_trichotomy trunk c) as [Hc|[[_ Hp]|(_ & _ & Hno)]]; [done|..].
  - by rewrite Hp in Hrun.
  - by rewrite Hno in Hrun.
Qed.

(** [add_content] of a storable content always answers. *)
Lemma add_content_total trunk c s :
  cache_ok s -> sketch_shape s -> storable c ->
  exists (b : bool) s', Store.add_content trunk c s = (Ok b, s').
Proof.
  intros Hc Hsh Hst. destruct (committed_dec trunk c) as [(height & header & o & Hcom)|Hn]; [by apply Hst| |].
  - destruct (accept_content_spec height header c o s Hc Hsh (storable_encodable c Hst)) as (s' & text & Hrun & _).
    exists true, s'. by rewrite (add_content_committed _ _ _ _ _ _ Hcom).
  - exists false, s. by apply add_content_uncommitted; [apply Hst|].
Qed.

(** C8: What [add_content] does with any content.  If its proof refers to a block of
    the trunk with the proved merkle root, its term is not over, the transaction
    has version 2 or more and pays to the commitment to the ad, then its row is
    stored with the value of the first such output - unless the ad's text does
    not decode or its length is zero: then the call panics, when tables, sketch
    and count have already taken in the key that the database never gets.  If the
    proof refers to the trunk but the funder's key cannot be tweaked, it panics
    and changes nothing.  In all other cases the answer is [false] and nothing
    changes. *)
Theorem add_content_spec trunk c s :
  cache_ok s -> sketch_shape s ->
  (forall height header o, committed trunk c height header o -> encodable c ->
     exists s' text, Store.add_content trunk c s = (Ok true, s') /\
       TextOps.as_string (Content.content (ad c)) = Ok text /\
       db s' = set_content (<[to_hex (AdOps.digest_of (ad c)) :=
         ContentTable.content_row height (header_hash header) c (value o) text]> (Db.content (db s))) (db s) /\
       wallet s' = wallet s /\ tables_for (Inserted <$> content_key c :: stored_keys s) (iblts s')) /\
  (forall height header o, committed trunk c height header o -> ~ encodable c ->
     exists p s', Store.add_content trunk c s = (Panicked p, s') /\
       db s' = db s /\ wallet s' = wallet s /\ n_keys s' = u32 (n_keys s + 1) /\
       tables_for (Inserted <$> content_key c :: stored_keys s) (iblts s') /\
       dom (iblts s') = dom (iblts s)) /\
  (tweak_fails trunk c -> Store.add_content trunk c s = (Panicked UnwrapOnErr, s)) /\
  ((forall height header o, ~ committed trunk c height header o) -> ~ tweak_fails trunk c ->
     Store.add_content trunk c s = (Ok false, s)) /\
  (forall s', Store.add_content trunk c s = (Ok true, s') ->
     encodable c /\ exists height header o, committed trunk c height header o).
Proof.
  intros Hc Hsh. split_and!.
  - intros height header o Hcom Henc. rewrite (add_content_committed _ _ _ _ _ _ Hcom).
    destruct (accept_content_spec height header c o s Hc Hsh Henc)
      as (s' & text & Hrun & Ht & Hdb & Hm & _ & _ & [Hw _] & _). by exists s', text.
  - intros height header o Hcom Hno. rewrite (add_content_committed _ _ _ _ _ _ Hcom).
    by apply accept_content_panics.
  - intros Htw. destruct (add_content_trichotomy trunk c) as [(h & hd & o & Hcom)|[[_ Hrun]|(_ & Hn & _)]]; [|done..].
    by destruct (committed_tweaks _ _ _ _ _ Hcom).
  - intros Hno Htw. destruct (add_content_trichotomy trunk c) as [(h & hd & o & Hcom)|[[? _]|(_ & _ & Hrun)]]; [|done..].
    by destruct (Hno h hd o).
  - intros s' Hrun. pose proof (add_content_true _ _ _ _ Hrun) as (height & header & o & Hcom).
    split; [|by eexists _, _, _]. destruct (decide (encodable c)) as [|Hno]; [done|].
    destruct (accept_content_panics height header c o s Hc Hsh Hno) as (p & s1 & Hp & _).
    rewrite (add_content_committed _ _ _ _ _ _ Hcom), Hp in Hrun. done.
Qed.

Lemma add_fresh_sync trunk c height header o s :
  cache_ok s -> sketch_ok s -> storable c -> committed trunk c height header o -> ~ is_stored c s ->
  exists s', Store.add_content trunk c s = (Ok true, s') /\ cache_ok s' /\ sketch_ok s' /\
    stored_keys s' ≡ₚ content_key c :: stored_keys s.
Proof.
  intros Hc Hs Hst Hcom Hnew. pose proof Hc as [Hwf _].
  destruct (accept_content_spec height header c o s Hc (sketch_ok_shape s Hs) (storable_encodable c Hst))
    as (s' & text & Hrun & Ht & Hdb & Hm & Hdom & Hn & Hw & (Hks & _) & Hmin).
  exists s'. rewrite (add_content_committed _ _ _ _ _ _ Hcom). split; [done|].
  assert (stored_keys s' ≡ₚ content_key c :: stored_keys s) as Hk.
  { unfold stored_keys. rewrite Hdb. cbn [Db.content set_content].
    rewrite table_keys_insert by done. rewrite decide_True; [done|].
    apply eq_None_not_Some. exact Hnew. }
  split_and!; [split|split_and!|done].
  - rewrite Hdb. cbn [Db.content set_content]. by apply ids_wf_insert.
  - refine (proj1 (tables_for_perm _ _ _ _) Hm). by rewrite Hk.
  - exact Hks.
  - rewrite Hmin by (by destruct Hs as (_ & ? & _)). by apply sketch_of_proper.
  - rewrite Hn, (Permutation_length Hk). destruct Hs as (_ & _ & ->). cbn [length].
    rewrite Nat2Z.inj_succ, <- Z.add_1_r. unfold u32. by rewrite Zplus_mod_idemp_l.
Qed.

(** Adding a content that is not stored keeps all cached tables the tables of
    what is stored, and the sketch and the count those of what is stored. *)
Theorem add_fresh_content_keeps_sync trunk c height header o s :
  cache_ok s -> sketch_ok s -> storable c -> committed trunk c height header o -> ~ is_stored c s ->
  exists s', Store.add_content trunk c s = (Ok true, s') /\ cache_ok s' /\ sketch_ok s' /\
    stored_keys s' ≡ₚ content_key c :: stored_keys s.
Proof. apply add_fresh_sync. Qed.

Lemma represents_twice_absurd (t : IBLT ContentKey) e L :
  p_ks (params_of t) <> [] -> represents t (e :: L) -> represents t L -> False.
Proof.
  intros Hks H1' H2'. pose proof H1' as [[_ Hl] _].
  destruct (key_cells_nonempty (params_of t) (entry_key e) Hks) as [j Hj].
  pose proof (key_cells_lt _ _ _ Hl Hj) as Hlt.
  pose proof (represents_lookup t _ j H1' Hlt) as Hl1. rewrite (represents_lookup t _ j H2' Hlt) in Hl1.
  injection Hl1 as Heq. rewrite cell_cons_hit in Heq by done.
  pose proof (cell_range (params_of t) j L) as Hr.
  apply (f_equal count) in Heq. cbn [count bucket_add bucket_of] in Heq.
  revert Heq Hr. generalize (count (cell (params_of t) j L)). intros z Heq Hr.
  unfold is_i32 in Hr. unfold i32 in Heq.
  destruct e; cbn [entry_sign] in Heq; revert Heq.
  all: pose proof (Z.div_mod (z + 2 ^ 31) (2 ^ 32) ltac:(lia)); Z.to_euclidean_division_equations; lia.
Qed.

(** C33: Adding a content again that is already stored, as two peers may deliver
    it, leaves the stored keys as they are but counts the key twice: every cached
    table then differs from the table of the stored keys, and so does the count. *)
Theorem re_adding_breaks_sync trunk c height header o s :
  cache_ok s -> sketch_ok s -> storable c -> committed trunk c height header o -> is_stored c s ->
  exists s', Store.add_content trunk c s = (Ok true, s') /\
    stored_keys s' ≡ₚ stored_keys s /\
    (forall size t, iblts s' !! size = Some t -> ~ represents t (Inserted <$> stored_keys s')) /\
    n_keys s' <> u32 (Z.of_nat (length (stored_keys s'))).
Proof.
  intros Hc Hs Hst Hcom Hold. pose proof Hc as [Hwf _].
  destruct (accept_content_spec height header c o s Hc (sketch_ok_shape s Hs) (storable_encodable c Hst))
    as (s' & text & Hrun & Ht & Hdb & Hm & Hdom & Hn & Hw & _).
  exists s'. rewrite (add_content_committed _ _ _ _ _ _ Hcom). split; [done|].
  assert (stored_keys s' ≡ₚ stored_keys s) as Hk.
  { unfold stored_keys. rewrite Hdb. cbn [Db.content set_content].
    rewrite table_keys_insert by done. rewrite decide_False; [done|].
    by apply not_eq_None_Some. }
  split_and!; [done| |].
  - intros size t Ht'. rewrite Hk. destruct (Hm size t Ht') as (_ & Hp & Hr).
    intros Hr'. rewrite fmap_cons in Hr. eapply (represents_twice_absurd t); [|exact Hr|exact Hr'].
    rewrite Hp. cbn [p_ks new_params]. intros Hnil. apply (f_equal length) in Hnil.
    by rewrite generate_ksequence_length in Hnil.
  - rewrite Hn, (Permutation_length Hk). destruct Hs as (_ & _ & ->).
    generalize (Z.of_nat (length (stored_keys s))). intros z. unfold u32.
    Z.to_euclidean_division_equations. lia.
Qed.
End Adding.

(** ** Reachable stores *)

Section Reachable.
Context `{SipHasher, Snap, !SnapLaws, BitcoinLaws, !Cbor Ad, SQLiteLaws, !WalletCrate, !AccountStorage}.
Implicit Types (s : ContentStore) (c : Content).
#[local] Opaque generate_ksequence.

(** A step of the store: a chain event, a truncation, the computation of a table
    for a peer, or the addition of a content that is not stored yet, which may be
    accepted or rejected. *)
Inductive step : ContentStore -> ContentStore -> Prop :=
  | step_add_header height s s' : Store.add_header height s = (Ok (), s') -> step s s'
  | step_unwind_tip header s s' : Store.unwind_tip header s = (Ok (), s') -> step s s'
  | step_truncate s s' : Store.truncate_to_limit s = (Ok (), s') -> step s s'
  | step_get_iblt size t s s' : 0 < size -> Store.get_iblt size s = (Ok t, s') -> step s s'
  | step_add_content trunk c b s s' :
      storable c -> ~ is_stored c s -> Store.add_content trunk c s = (Ok b, s') -> step s s'.

Definition steps := rtc step.

(** In sync: tables of the stored keys and a sketch of the right shape; and,
    where the store has a cached table, the sketch and count of the stored keys. *)
Definition in_sync s : Prop := cache_ok s /\ sketch_shape s.

Lemma delete_phase_in_sync op s keys d :
  in_sync s -> op (db s) = (Ok keys, d) -> removed (Db.content (db s)) keys (Db.content d) ->
  exists s', delete_phase op s = (Ok (), s') /\ in_sync s' /\
    (iblts s <> ∅ -> iblts s' <> ∅ /\ (sketch_ok s -> sketch_ok s')).
Proof.
  intros [Hc (Hks & ids & Hmin)] Hop Hrem.
  destruct (delete_phase_spec op s keys d Hc Hop Hrem)
    as (s' & Hrun & Hdb & Hc' & (_ & _ & Hdom) & Hw & Hsk & Hfresh & Hold).
  exists s'. split; [done|]. split.
  - split; [done|]. destruct (decide (iblts s = ∅)) as [He|He].
    + destruct (Hold (or_introl He)) as (Hm & Hk & _). split; [congruence|]. exists ids. congruence.
    + destruct (decide (keys = [])) as [Hn|Hn].
      * destruct (Hold (or_intror Hn)) as (Hm & Hk & _). split; [congruence|]. exists ids. congruence.
      * by apply sketch_ok_shape, Hfresh.
  - intros Hne. split; [|intros; by apply Hsk; [left|]].
    intros He. apply Hne. apply (dom_empty_inv_L (D:=gset Z)).
    by rewrite <- Hdom, He, dom_empty_L.
Qed.

Lemma add_content_rejected trunk c s s' :
  Store.add_content trunk c s = (Ok false, s') -> s' = s.
Proof.
  intros Hrun. destruct (add_content_trichotomy trunk c) as [(h & hd & o & Hcom)|[[_ Hp]|(_ & _ & Hno)]].
  - rewrite (add_content_committed _ _ _ _ _ _ Hcom) in Hrun.
    unfold Store.accept_content in Hrun. repeat (apply action_bind_inv in Hrun as (? & ? & _ & Hrun)). done.
  - by rewrite Hp in Hrun.
  - rewrite Hno in Hrun. by injection Hrun.
Qed.

Lemma step_in_sync s s' :
  step s s' -> in_sync s ->
  in_sync s' /\ (iblts s <> ∅ -> iblts s' <> ∅ /\ (sketch_ok s -> sketch_ok s')).
Proof.
  intros Hstep Hs. pose proof Hs as [Hc Hsh]. pose proof Hc as [Hwf _].
  destruct Hstep as [height s s' Hrun|header s s' Hrun|s s' Hrun|size t s s' Hsize Hrun
                    |trunk c b s s' Hst Hnew Hrun].
  - destruct (delete_where_removed (λ r, r_height r + r_term r <=? height) (db s) Hwf) as (keys & Hop & Hrem).
    destruct (delete_phase_in_sync (ContentTable.delete_expired height) s keys _ Hs Hop Hrem)
      as (s1 & Hrun1 & Hs1). rewrite add_header_phase, (in_transaction_ok _ _ _ _ Hrun1) in Hrun.
    by injection Hrun as <-.
  - set (s0 := Store.set_db (WalletTables.store_processed (prev_blockhash header) (db s)) s).
    destruct (delete_where_removed (λ r, bool_decide (r_block_id r = to_hex_d (header_hash header)))
      (db s0) Hwf) as (keys & Hop & Hrem).
    destruct (delete_phase_in_sync (ContentTable.delete_confirmed (header_hash header)) s0 keys _ Hs Hop Hrem)
      as (s1 & Hrun1 & Hs1). unfold Store.unwind_tip in Hrun.
    rewrite (action_bind_ok _ _ s () s1) in Hrun; [injection Hrun as <-; exact Hs1|].
    apply in_transaction_ok.
    change (delete_phase (ContentTable.delete_confirmed (header_hash header)) s0 = (Ok (), s1)). exact Hrun1.
  - destruct (truncate_content_shape (storage_limit s) (db s) Hwf) as [Hop Hrem].
    destruct (delete_phase_in_sync (ContentTable.truncate_content (storage_limit s)) s _ _ Hs Hop Hrem)
      as (s1 & Hrun1 & Hs1).
    assert (Store.truncate_to_limit s = (Ok (), s1)) as Heq by (by apply in_transaction_ok).
    rewrite Heq in Hrun. by injection Hrun as <-.
  - destruct (get_iblt_spec size s Hc Hsize) as (t1 & s1 & Hrun1 & Hc1 & Hdb & _ & _ & Hlk & Hset).
    rewrite Hrun1 in Hrun. injection Hrun as _ <-. rewrite Hset in *. split; [by split|].
    intros _. split; [|done]. intros He. by rewrite He, lookup_empty in Hlk.
  - assert (b = true \/ b = false) as [-> | ->] by (by destruct b; auto).
    + destruct (add_content_true _ _ _ _ Hrun) as (height & header & o & Hcomm).
      destruct (accept_content_spec height header c o s Hc Hsh (storable_encodable c Hst))
        as (s1 & text & Hrun1 & Ht & Hdb & Hm & Hdom & Hn & Hw & Hsh1 & Hmin).
      pose proof Hrun as Hrun0. rewrite (add_content_committed _ _ _ _ _ _ Hcomm), Hrun1 in Hrun.
      injection Hrun as ->. split.
      * split; [|done]. split.
        -- rewrite Hdb. cbn [Db.content set_content]. by apply ids_wf_insert.
        -- refine (proj1 (tables_for_perm _ _ _ _) Hm). unfold stored_keys. rewrite Hdb.
           cbn [Db.content set_content]. rewrite table_keys_insert by done.
           rewrite decide_True; [done|]. apply eq_None_not_Some. exact Hnew.
      * intros Hne. split.
        -- intros He. apply Hne, (dom_empty_inv_L (D:=gset Z)). by rewrite <- Hdom, He, dom_empty_L.
        -- intros Hsk.
           destruct (add_fresh_sync trunk c height header o s Hc Hsk Hst Hcomm Hnew)
             as (s2 & Hrun2 & _ & Hsk2 & _). rewrite Hrun0 in Hrun2. by injection Hrun2 as ->.
    + by rewrite (add_content_rejected trunk c s s' Hrun).
Qed.

Lemma steps_in_sync s s' :
  steps s s' -> in_sync s ->
  in_sync s' /\ (iblts s <> ∅ -> iblts s' <> ∅ /\ (sketch_ok s -> sketch_ok s')).
Proof.
  induction 1 as [s|s1 s2 s3 H12 H23 IH]; intros Hs; [by split; [|split]|].
  destruct (step_in_sync s1 s2 H12 Hs) as [Hs2 Hk2]. destruct (IH Hs2) as [Hs3 Hk3].
  split; [done|]. intros Hne. destruct (Hk2 Hne) as [Hne2 Hsk2]. destruct (Hk3 Hne2) as [Hne3 Hsk3].
  split; [done|]. auto.
Qed.

Lemma new_in_sync d lim w :
  ids_wf (Db.content d) ->
  exists s, Store.new d lim w = Ok s /\ in_sync s /\ sketch_ok s /\ db s = d /\ wallet s = w /\ iblts s = ∅.
Proof.
  intros Hwf. unfold Store.new. rewrite compute_content_sketch_spec by done.
  eexists. split; [reflexivity|].
  assert (forall s, iblts s = ∅ -> db s = d -> cache_ok s) as Hc.
  { intros s He Hd. split; [by rewrite Hd|]. intros size t Ht. by rewrite He, lookup_empty in Ht. }
  split_and!; [split; [by apply Hc|]| |done|done|done].
  - split; [done|]. exists (table_keys (Db.content d)). reflexivity.
  - split_and!; reflexivity.
Qed.

(** C5: In every state that a store reaches from its start by headers, unwinds,
    truncations, table requests and additions of contents it does not store yet,
    each cached table is exactly the table that [compute_content_iblt] would
    compute from the database; from the first cached table on the sketch and the
    count stay those of the database, if they were when it was cached. *)
Theorem reachable_store_in_sync d lim w s0 s :
  ids_wf (Db.content d) -> Store.new d lim w = Ok s0 -> steps s0 s ->
  (forall size t, iblts s !! size = Some t ->
     ContentTable.compute_content_iblt size (db s) = Ok t) /\
  (forall s', steps s s' -> iblts s <> ∅ -> 
     ContentTable.compute_content_sketch MIN_SKETCH_SIZE (db s) =
       Ok (min_hashes s, st_ksequence s, n_keys s) ->
     ContentTable.compute_content_sketch MIN_SKETCH_SIZE (db s') =
       Ok (min_hashes s', st_ksequence s', n_keys s')).
Proof.
  intros Hwf Hnew Hsteps. destruct (new_in_sync d lim w Hwf) as (s0' & Hnew' & Hs0 & _).
  rewrite Hnew in Hnew'. apply (inj Ok) in Hnew'. subst s0'.
  destruct (steps_in_sync s0 s Hsteps Hs0) as [Hs _]. pose proof Hs as [[Hwfs Hm] _]. split.
  - intros size t Ht. destruct (Hm size t Ht) as (Hpos & Hp & Hr).
    destruct (compute_content_iblt_spec size (db s) Hpos Hwfs) as (t' & Hc & Hp' & Hr').
    rewrite Hc. f_equal. by apply (represents_unique t' t (Inserted <$> stored_keys s)); [| |congruence].
  - intros s' Hs' Hne Hsk. destruct (steps_in_sync s s' Hs' Hs) as [[[Hwf' _] _] Hk].
    rewrite compute_content_sketch_spec in Hsk by done.
    assert (sketch_ok s) as Hok.
    { apply (inj Ok) in Hsk. apply pair_equal_spec in Hsk as [[Hx Hy]%pair_equal_spec Hz].
      unfold sketch_ok. split_and!; by symmetry. }
    destruct (Hk Hne) as [_ Hsk']. destruct (Hsk' Hok) as (Hx & Hy & Hz).
    rewrite compute_content_sketch_spec by done. rewrite Hx, Hy, Hz. reflexivity.
Qed.
End Reachable.
