(* ===== verification/StoreLedger.v ===== *)
(** * The store as a ledger of contents

    The abstract specification of the content store: a map from ids to rows and
    what each event does to it, without tables, sketch, transactions or wallet.
    An event either runs on the store of Store.v and does to its rows what it
    does to the ledger, or it is one that the store refuses, and panics
    ([event_cases]); runs of the whole node are in Isolation.v. *)

From S2P Require Import Prelude Machine IbltTable IbltCells IbltAlgebra IbltRefine IbltSync Sketch.
From S2P Require Import Keys Strings Text Bitcoin Content Effects Db DbContent DbContentSpec Wallet.
From S2P Require Import DbWallet Trunk Store StoreTables StoreSpec.
#[local] Open Scope Z_scope.

Section Ledger.
Context `{SipHasher, Snap, !SnapLaws, BitcoinLaws, !Cbor Ad, SQLiteLaws, !WalletCrate, !AccountStorage}.
Implicit Types (s : ContentStore) (c : Content) (m : gmap str ContentRow) (X : list ContentKey).
#[local] Opaque generate_ksequence.

(** ** The abstract machine *)

Inductive Event : Type :=
  | Header (height : Z)
  | Unwind (header : BlockHeader)
  | Truncate
  | Table (size : Z)
  | Offer (trunk : Trunk) (c : Content).

Definition occupied m : Z := sum_length (map_to_list m).
Definition ad_id c : str := to_hex (AdOps.digest_of (ad c)).

(** The key of a content that is accepted although the ledger has it. *)
Definition renewed c m : list ContentKey :=
  if decide (is_Some (m !! ad_id c)) then [content_key c] else [].

(** A step, with the keys it counts a second time. *)
Inductive ledger_step (limit : Z) :
    list ContentKey -> Event -> gmap str ContentRow -> gmap str ContentRow -> Prop :=
  | ledger_header height m :
      ledger_step limit [] (Header height) m (filter (λ p, height < r_height p.2 + r_term p.2) m)
  | ledger_unwind header m :
      ledger_step limit [] (Unwind header) m
        (filter (λ p, r_block_id p.2 <> to_hex_d (header_hash header)) m)
  | ledger_truncate m m' : heaviest limit m m' -> ledger_step limit [] Truncate m m'
  | ledger_table size m : ledger_step limit [] (Table size) m m
  | ledger_accept trunk c height header o text m :
      committed trunk c height header o -> TextOps.as_string (Content.content (ad c)) = Ok text ->
      ledger_step limit (renewed c m) (Offer trunk c) m
        (<[ad_id c := ContentTable.content_row height (header_hash header) c (value o) text]> m)
  | ledger_reject trunk c m :
      (forall height header o, ~ committed trunk c height header o) ->
      ledger_step limit [] (Offer trunk c) m m.

Inductive ledger_run (limit : Z) :
    list ContentKey -> list Event -> gmap str ContentRow -> gmap str ContentRow -> Prop :=
  | ledger_nil m : ledger_run limit [] [] m m
  | ledger_cons X Y e es m1 m2 m3 :
      ledger_step limit X e m1 m2 -> ledger_run limit Y es m2 m3 ->
      ledger_run limit (Y ++ X) (e :: es) m1 m3.

(** ** The store runs the events *)

Definition run_event (e : Event) : action ContentStore Error unit :=
  match e with
  | Header height => Store.add_header height
  | Unwind header => Store.unwind_tip header
  | Truncate => Store.truncate_to_limit
  | Table size => _ ← Store.get_iblt size; mret ()
  | Offer trunk c => _ ← Store.add_content trunk c; mret ()
  end.

Definition rows s : gmap str ContentRow := Db.content (db s).

Definition lengths m : Prop := forall id r, m !! id = Some r -> 0 <= r_length r.

(** A store that is in sync, and what is left of that in any run. *)
Definition ledger_ok s : Prop := in_sync s /\ lengths (rows s) /\ 0 <= storage_limit s.
Definition ledger_inv X s : Prop := recounted X s /\ lengths (rows s) /\ 0 <= storage_limit s.

Lemma ledger_ok_inv s : ledger_ok s -> ledger_inv [] s.
Proof. intros ([Hc Hsh] & Hrest). split; [by apply recounted_in_sync|done]. Qed.

(** The events that the store does not survive: a truncation of lengths that do
    not sum within 64 bits, a table without cells when a content is stored, an
    offer whose funder's key cannot be tweaked, and one that passes all checks
    but whose ad cannot be stored, or while a table without cells is cached. *)
Definition refused e s : Prop :=
  match e with
  | Truncate => 2 ^ 64 <= occupied (rows s)
  | Table size => size <= 0 /\ rows s <> ∅
  | Offer trunk c =>
      tweak_fails trunk c \/
      (exists height header o, committed trunk c height header o) /\
      (~ encodable c \/ ~ with_cells (iblts s))
  | _ => False
  end.

Lemma lengths_subset m m' : m' ⊆ m -> lengths m -> lengths m'.
Proof. intros Hsub Hlen id r Hr. apply (Hlen id). by eapply lookup_weaken. Qed.

Lemma ledger_step_lengths limit X e m m' : ledger_step limit X e m m' -> lengths m -> lengths m'.
Proof.
  intros Hstep Hl. destruct Hstep as [height m|header m|m m' Hh|size m|trunk c height header o text m _ _|].
  - by apply (lengths_subset m), Hl; apply map_filter_subseteq.
  - by apply (lengths_subset m), Hl; apply map_filter_subseteq.
  - by apply (lengths_subset m), Hl; apply Hh.
  - done.
  - intros id r [[_ <-]|[_ Hr]]%lookup_insert_Some; [|by apply (Hl id)]. cbn. by apply Z.mod_pos_bound.
  - done.
Qed.

(** ** Each event *)

(** The event ran, and did to the rows what it does to the ledger. *)
Definition runs X e s : Prop :=
  exists s' Y, run_event e s = (Ok (), s') /\ ledger_step (storage_limit s) Y e (rows s) (rows s') /\
    recounted (Y ++ X) s' /\ storage_limit s' = storage_limit s.

Definition panics e s : Prop := exists p s', run_event e s = (Panicked p, s').

Lemma header_runs X height s : ledger_inv X s -> runs X (Header height) s.
Proof.
  intros [Hs _]. destruct (add_header_recounted X height s Hs) as (s' & Hrun & Hs' & Hrows & _ & Hrest).
  exists s', []. split; [done|]. unfold rows. rewrite Hrows. split; [constructor|]. split; [done|apply Hrest].
Qed.

Lemma unwind_runs X header s : ledger_inv X s -> runs X (Unwind header) s.
Proof.
  intros [Hs _]. destruct (unwind_tip_recounted X header s Hs) as (s' & Hrun & Hs' & Hrows & _ & Hrest).
  exists s', []. split; [done|]. unfold rows. rewrite Hrows. split; [constructor|]. split; [done|apply Hrest].
Qed.

Lemma truncate_runs X s : ledger_inv X s -> occupied (rows s) < 2 ^ 64 -> runs X Truncate s.
Proof.
  intros (Hs & Hlen & Hlim) Hsum.
  destruct (truncate_to_limit_recounted X s Hs Hlim Hlen Hsum) as (s' & Hrun & Hs' & Hh & _ & Hrest).
  exists s', []. split; [done|]. split; [by constructor|]. split; [done|apply Hrest].
Qed.

Lemma table_runs X size s : ledger_inv X s -> 0 < size \/ rows s = ∅ -> runs X (Table size) s.
Proof.
  intros [(Hwf & Hm & Hsh & Hor) _] Hsize.
  destruct (get_iblt_hold size s X Hwf Hm Hsize) as (t & m' & Hrun & Hm' & Hc).
  exists (Store.set_iblts m' s), []. cbn [run_event]. rewrite (action_bind_ok _ _ _ _ _ Hrun).
  split; [done|]. split; [constructor|]. split; [|done].
  split; [done|]. split; [done|]. split; [done|].
  destruct Hor as [Hcells|]; [|by right]. destruct Hsize as [Hpos|]; [left; by apply Hc|by right].
Qed.

Lemma accept_runs X trunk c height header o s :
  ledger_inv X s -> committed trunk c height header o -> encodable c -> with_cells (iblts s) ->
  runs X (Offer trunk c) s.
Proof.
  intros [Hs _] Hcom Henc Hc.
  destruct (accept_content_recounted X height header c o s Hs Hc Henc)
    as (s' & text & Hrun & Htext & Hrows & Hs' & _ & Hlim).
  exists s', (renewed c (rows s)). cbn [run_event].
  rewrite (action_bind_ok _ _ s true s') by by rewrite (add_content_committed _ _ _ _ _ _ Hcom).
  split; [done|]. unfold rows at 3. rewrite Hrows. split; [by constructor|]. split; [|done].
  unfold renewed. destruct (decide (is_stored c s)) as [Hst|Hst]; [rewrite decide_True by exact Hst|rewrite decide_False by exact Hst]; exact Hs'.
Qed.

(** Every event runs as in the ledger, or is refused. *)
Lemma event_cases X e s :
  ledger_inv X s -> runs X e s \/ (refused e s /\ (e = Truncate \/ panics e s)).
Proof.
  intros Hs. pose proof Hs as [Hrec _]. destruct e as [height|header| |size|trunk c].
  - left. by apply header_runs.
  - left. by apply unwind_runs.
  - destruct (Z.lt_ge_cases (occupied (rows s)) (2 ^ 64)); [left; by apply truncate_runs|right].
    split; [done|by left].
  - destruct (decide (0 < size \/ rows s = ∅)) as [Hok|Hno]; [left; by apply table_runs|right].
    assert (size <= 0 /\ rows s <> ∅) as [Hz Hne] by (split; [lia|tauto]).
    split; [done|]. right. exists RemainderByZero, s. cbn [run_event]. unfold mbind, action_bind.
    by rewrite (get_iblt_panics size s (proj1 Hrec) Hz Hne).
  - destruct (add_content_trichotomy trunk c) as [(height & header & o & Hcom)|[[Htw Hp]|(Hno & _ & Hrun)]].
    + destruct (decide (encodable c /\ with_cells (iblts s))) as [[Henc Hc]|Hor];
        [left; by eapply accept_runs|right].
      assert (~ encodable c \/ ~ with_cells (iblts s)) as Hor' by
        (destruct (decide (encodable c)); [right|left]; tauto).
      split; [right; split; [by eexists _, _, _|done]|right].
      destruct (accept_content_fails X height header c o s Hrec Hor') as (p & s' & Hp).
      exists p, s'. cbn [run_event]. unfold mbind, action_bind.
      by rewrite (add_content_committed _ _ _ _ _ _ Hcom), Hp.
    + right. split; [by left|right]. exists UnwrapOnErr, s. cbn [run_event]. unfold mbind, action_bind.
      by rewrite Hp.
    + left. exists s, []. cbn [run_event]. rewrite (action_bind_ok _ _ s false s) by done.
      split; [done|]. split; [by constructor|done].
Qed.

Lemma runs_inv X e s :
  ledger_inv X s -> runs X e s ->
  exists s' Y, run_event e s = (Ok (), s') /\ ledger_step (storage_limit s) Y e (rows s) (rows s') /\
    ledger_inv (Y ++ X) s' /\ storage_limit s' = storage_limit s.
Proof.
  intros (_ & Hl & Hlim) (s' & Y & Hrun & Hstep & Hs' & Heq). exists s', Y. split; [done|]. split; [done|]. split; [|done].
  split; [done|]. split; [by eapply ledger_step_lengths|lia].
Qed.
End Ledger.
