(* ===== verification/Messages.v ===== *)
(** * The messages of the defiads network (src/messages.rs), and murmel's side

    The messages with the names they have on the wire, and the interface of the
    murmel crate the message handlers work with: identifiers of peers, the
    bookkeeping of expected replies, and the sender to the network.  What a
    handler sends is recorded as a list of messages with their addressees. *)

From S2P Require Import Prelude Machine IbltTable Keys Strings Text Bitcoin Content Effects.
#[local] Open Scope Z_scope.

(** ** murmel, a parameter *)

(** [PeerId], which is hashed and compared. *)
Class Peers : Type := {
  PeerId : Type;
  PeerId_eq_dec :: EqDecision PeerId;
  PeerId_countable :: Countable PeerId
}.

(** [Timeout<Message, R>]: [n] replies of a kind are expected from a peer, have
    arrived; whether the peer owes a reply; the check of what is overdue. *)
Class Timeouts `{Peers} (R : Type) : Type := {
  Timeout : Type;
  timeout_expect : PeerId -> Z -> R -> Timeout -> Timeout;
  timeout_received : PeerId -> Z -> R -> Timeout -> Timeout;
  is_busy_with : PeerId -> R -> Timeout -> bool;
  timeout_check : list R -> Timeout -> Timeout
}.
#[global] Arguments Timeout {_} R {_}.

(** What the dispatcher of murmel hands to a listener. *)
Inductive PeerMessage `{Peers} (M : Type) : Type :=
  | Outgoing (msg : M)
  | Incoming (pid : PeerId) (msg : M)
  | Connected (pid : PeerId) (addr : option SocketAddr)
  | Disconnected (pid : PeerId) (banned : bool).
#[global] Arguments Outgoing {_ M} msg.
#[global] Arguments Incoming {_ M} pid msg.
#[global] Arguments Connected {_ M} pid addr.
#[global] Arguments Disconnected {_ M} pid banned.

(** murmel's [VersionCarrier] and the address it holds. *)
Record CarriedAddress : Type := mkCarriedAddress {
  ca_services : Z; ca_address : vec Z 8; ca_port : Z
}.
Record VersionCarrier : Type := mkVersionCarrier {
  vc_version : Z; vc_services : Z; vc_timestamp : Z; vc_receiver : CarriedAddress;
  vc_sender : CarriedAddress; vc_nonce : Z; vc_user_agent : str; vc_start_height : Z;
  vc_relay : bool
}.

(** ** The messages *)

Inductive ExpectedReply : Type :=
  | R_PollContent | R_ContentIBLT | R_Content | R_Get | R_PollAddress | R_AddressIBLT.
#[export] Instance ExpectedReply_eq_dec : EqDecision ExpectedReply.
Proof. solve_decision. Defined.
#[export] Instance ExpectedReply_countable : Countable ExpectedReply.
Proof.
  refine (inj_countable'
    (λ r, match r with R_PollContent => 0 | R_ContentIBLT => 1 | R_Content => 2 | R_Get => 3
                     | R_PollAddress => 4 | R_AddressIBLT => 5 end%nat)
    (λ n, match n with 0 => R_PollContent | 1 => R_ContentIBLT | 2 => R_Content | 3 => R_Get
                     | 4 => R_PollAddress | _ => R_AddressIBLT end%nat) _).
  by intros [].
Defined.

Record VersionMessage : Type := mkVersionMessage {
  vm_version : Z; vm_timestamp : Z; vm_receiver : NetAddress; vm_sender : NetAddress;
  vm_nonce : Z; vm_user_agent : str; vm_start_height : Z
}.

Record PollContentMessage : Type := mkPollContent { pc_tip : digest; pc_sketch : list Z; pc_size : Z }.
Record PollAddressMessage : Type := mkPollAddress { pa_sketch : list Z; pa_size : Z }.

Inductive Message `{Bitcoin} : Type :=
  | Version (v : VersionMessage)
  | Verack
  | PollAddress (poll : PollAddressMessage)
  | AddressIBLT (iblt : IBLT NetAddress)
  | PollContent (poll : PollContentMessage)
  | ContentIBLT (tip : digest) (iblt : IBLT ContentKey)
  | Get (ids : list digest)
  | ContentMessage (content : Content).

Record Envelope `{Bitcoin} : Type := mkEnvelope { magic : Z; payload : Message }.

Module MessageOps.
Section Ops.
Context `{Bitcoin}.

Definition command (e : Envelope) : string :=
  match payload e with
  | Version _ => "version"
  | Verack => "verack"
  | PollAddress _ => "poll address"
  | AddressIBLT _ => "address iblt"
  | PollContent _ => "poll content"
  | ContentIBLT _ _ => "content iblt"
  | Get _ => "get"
  | ContentMessage _ => "content"
  end.

Definition is_verack (m : Message) : bool :=
  match m with Verack => true | _ => false end.

Definition is_version (m : Message) : option VersionCarrier :=
  match m with
  | Version v => Some {|
      vc_version := vm_version v;
      vc_receiver := mkCarriedAddress 0 (address (vm_receiver v)) (port (vm_receiver v));
      vc_sender := mkCarriedAddress 0 (address (vm_sender v)) (port (vm_sender v));
      vc_user_agent := vm_user_agent v;
      vc_start_height := vm_start_height v;
      vc_timestamp := vm_timestamp v;
      vc_nonce := vm_nonce v;
      vc_relay := false;
      vc_services := 0 |}
  | _ => None
  end.
End Ops.
End MessageOps.

(** ** Growing the size of a table

    [while size < maximum && size < diff { size <<= 2 }], with [fuel] for the
    number of iterations.  The updater and the discovery share it with different
    maxima. *)
Fixpoint grow_size (fuel : nat) (maximum diff size : Z) : Z :=
  match fuel with
  | O => size
  | S fuel =>
      if (size <? maximum) && (size <? diff) then grow_size fuel maximum diff (u32 (Z.shiftl size 2))
      else size
  end.

(** On powers of four above the minimum the loop ends after at most [j] steps:
    its result is the least of the sizes from [100 * 4 ^ i] on that is at least
    [diff], or the maximum [100 * 4 ^ j]. *)
Definition table_size (i : nat) : Z := 100 * 4 ^ Z.of_nat i.

Lemma table_size_S i : table_size (S i) = 4 * table_size i.
Proof. unfold table_size. rewrite Nat2Z.inj_succ, Z.pow_succ_r by lia. lia. Qed.

Lemma table_size_mono i j : (i <= j)%nat -> table_size i <= table_size j.
Proof. intros Hij. unfold table_size. apply Z.mul_le_mono_nonneg_l; [lia|]. apply Z.pow_le_mono_r; lia. Qed.

Lemma table_size_lt i j : (i < j)%nat -> table_size i < table_size j.
Proof. intros Hij. unfold table_size. apply Z.mul_lt_mono_pos_l; [lia|]. apply Z.pow_lt_mono_r; lia. Qed.

Lemma table_size_u32 i : (i <= 12)%nat -> is_u32 (table_size i).
Proof.
  intros Hi. pose proof (table_size_mono 0 i ltac:(lia)) as H0.
  pose proof (table_size_mono i 12 Hi) as H12. unfold is_u32.
  change (table_size 12) with 1677721600 in H12. change (table_size 0) with 100 in H0. lia.
Qed.

Lemma grow_size_step fuel diff i j : (j <= 12)%nat -> (i < j)%nat ->
  grow_size (S fuel) (table_size j) diff (table_size i) =
  if table_size i <? diff then grow_size fuel (table_size j) diff (table_size (S i)) else table_size i.
Proof.
  intros Hj Hij. cbn [grow_size].
  rewrite (proj2 (Z.ltb_lt _ _) (table_size_lt i j Hij)). cbn [andb].
  rewrite Z.shiftl_mul_pow2 by lia. change (2 ^ 2) with 4.
  by rewrite (Z.mul_comm _ 4), <- table_size_S, u32_small by (apply table_size_u32; lia).
Qed.

Lemma grow_size_top fuel diff j : grow_size fuel (table_size j) diff (table_size j) = table_size j.
Proof. destruct fuel; [done|]. cbn [grow_size]. by rewrite Z.ltb_irrefl. Qed.

Lemma grow_size_spec fuel diff j i : (j <= 12)%nat -> (i <= j <= i + fuel)%nat ->
  exists r, (i <= r <= j)%nat /\ grow_size fuel (table_size j) diff (table_size i) = table_size r /\
    (r = j \/ diff <= table_size r) /\ (forall q, (i <= q < r)%nat -> table_size q < diff).
Proof.
  intros Hj. revert i. induction fuel as [|fuel IH]; intros i Hi.
  { assert (i = j) as -> by lia. exists j. split_and!; [lia..|done|by left|lia]. }
  destruct (decide (i = j)) as [->|Hne].
  { exists j. rewrite grow_size_top. split_and!; [lia..|done|by left|lia]. }
  rewrite grow_size_step by lia. destruct (Z.ltb_spec (table_size i) diff) as [Hlt|Hge].
  - destruct (IH (S i)) as (r & Hr & Heq & Hor & Hmin); [lia|].
    exists r. split_and!; [lia..|done|done|].
    intros q Hq. destruct (decide (q = i)) as [->|]; [done|]. apply Hmin. lia.
  - exists i. split_and!; [lia..|done|by right|lia].
Qed.
