(* ===== verification/Toy.v ===== *)
(** * Concrete instances of the external crates

    Small executable functions that satisfy the laws the theorems assume of the
    crates, with which the examples of the library compute.  They stand for no
    implementation: hashes are truncated copies of their input, the hex forms are
    the bytes themselves, and the wallet signs everything. *)

From S2P Require Import Prelude Machine IbltTable Keys Strings Text Bitcoin Content Db Wallet.
From S2P Require Import DbWallet Messages.
#[local] Open Scope Z_scope.

#[export] Existing Instance PolyHasher.

(** ** Snappy: texts of one repeated byte shrink *)

#[export] Instance ToySnap : Snap := TextExamples.RunSnap.
#[export] Instance ToySnap_laws : SnapLaws := TextExamples.RunSnap_laws.

(** ** Serialisation by the countable encoding *)

Definition countable_cbor {A} `{Countable A} : Cbor A := {|
  to_vec a := [Zpos (encode a)];
  from_slice l := match l with [Zpos p] => decode p | _ => None end
|}.
Lemma countable_cbor_laws {A} `{Countable A} : @CborLaws A countable_cbor.
Proof. split. intros a. simpl. apply decode_encode. Qed.

#[export] Program Instance Text_countable : Countable Text := inj_countable' encoded mkText _.
Next Obligation. by intros []. Qed.
#[export] Program Instance Ad_countable : Countable Ad :=
  inj_countable' (λ a, (cat a, abs a, Content.content a)) (λ '(c, a, t), mkAd c a t) _.
Next Obligation. by intros []. Qed.
(** (Through the list of the bytes of the digest, which decodes by computation.) *)
#[export] Program Instance TxIn_countable : Countable TxIn :=
  inj_countable' (λ i, (vec_to_list (op_txid (previous_output i)), vout (previous_output i), script_sig i,
                        sequence i, witness i))
                 (λ '(d, v, s, n, w), mkTxIn (mkOutPoint (digest_of_list d) v) s n w) _.
Next Obligation.
  intros [[d v] s n w]. change (mkTxIn (mkOutPoint (digest_of_list (vec_to_list d)) v) s n w = mkTxIn (mkOutPoint d v) s n w).
  by rewrite ContentKeyOps.digest_of_vec. Qed.
#[export] Program Instance TxOut_countable : Countable TxOut :=
  inj_countable' (λ o, (value o, script_pubkey o)) (λ '(v, s), mkTxOut v s) _.
Next Obligation. by intros []. Qed.
#[export] Program Instance Transaction_countable : Countable Transaction :=
  inj_countable' (λ t, (version t, lock_time t, input t, output t))
                 (λ '(v, l, i, o), mkTransaction v l i o) _.
Next Obligation. by intros []. Qed.

#[export] Instance ToyAdCbor : Cbor Ad := countable_cbor.
#[export] Instance ToyAdCbor_laws : CborLaws Ad := countable_cbor_laws.

(** ** bitcoin *)

(** A proof: the hash of the block, its merkle root and the transaction. *)
Definition toy_proof : Type := digest * digest * Transaction.

#[local] Instance toy_proof_cbor : Cbor toy_proof := {|
  to_vec p := vec_to_list p.1.1 ++ vec_to_list p.1.2 ++ [Zpos (encode p.2)];
  from_slice l :=
    match drop DIGEST_LEN (drop DIGEST_LEN l) with
    | [Zpos t] => (λ t, (digest_of_list (take DIGEST_LEN l),
                         digest_of_list (take DIGEST_LEN (drop DIGEST_LEN l)), t)) <$> decode t
    | _ => None
    end
|}.

Lemma toy_proof_cbor_laws : CborLaws toy_proof.
Proof.
  split. intros [[d1 d2] t]. unfold to_vec, from_slice, toy_proof_cbor. cbn [fst snd].
  rewrite !drop_app_length', !take_app_length' by (symmetry; apply length_vec_to_list). rewrite decode_encode.
  by rewrite !ContentKeyOps.digest_of_vec.
Qed.

Definition toy_instruction (i : instruction) : list Z :=
  match i with
  | push_int n => [1; n]
  | push_opcode OP_CSV => [178]
  | push_opcode OP_DROP => [117]
  | push_opcode OP_CHECKSIG => [172]
  | push_slice l => 2 :: l
  end.

Definition toy_header_hash (h : BlockHeader) : digest :=
  digest_of_list [bh_version h; time h; nonce h; bits h].

#[export] Instance ToyBitcoin : Bitcoin := {|
  sha256 := digest_of_list;
  to_hex := vec_to_list;
  from_hex l := if decide (length l = DIGEST_LEN) then Some (digest_of_list l) else None;
  to_hex_d := vec_to_list;
  from_hex_d l := if decide (length l = DIGEST_LEN) then Some (digest_of_list l) else None;
  hex_encode l := 48 :: l;
  hex_decode l := match l with 48 :: l => Some l | _ => None end;
  header_hash := toy_header_hash;
  txid t := digest_of_list [version t; lock_time t; Z.of_nat (length (input t));
                            foldr (λ o s, value o + s) 0 (output t)];
  tx_serialize t := [Zpos (encode t)];
  tx_deserialize l := match l with [Zpos p] => decode p | _ => None end;
  into_script l := concat (toy_instruction <$> l);
  p2wsh s := 0 :: s;
  PublicKey := list Z;
  pk_to_bytes := id;
  pk_from_slice := Some;
  pk_display := id;
  tweak_exp_add pk d := Some (pk ++ take 2 d);
  ProvedTransaction := toy_proof;
  proved_new b i := (toy_header_hash (header b), merkle_root (header b),
                     default (mkTransaction 0 0 [] []) (txdata b !! i));
  get_block_hash p := p.1.1;
  proved_merkle_root p := p.1.2;
  get_transaction p := p.2;
  proved_cbor := toy_proof_cbor
|}.

#[export] Instance ToyBitcoin_laws : BitcoinLaws.
Proof.
  split.
  - intros d. cbn [from_hex to_hex ToyBitcoin].
    rewrite decide_True by apply length_vec_to_list. f_equal. apply ContentKeyOps.digest_of_vec.
  - intros d. cbn [from_hex_d to_hex_d ToyBitcoin].
    rewrite decide_True by apply length_vec_to_list. f_equal. apply ContentKeyOps.digest_of_vec.
  - done.
  - done.
  - intros t. cbn [tx_deserialize tx_serialize ToyBitcoin]. apply decode_encode.
  - exact toy_proof_cbor_laws.
Qed.

(** ** SQLite: rows in the order of [map_to_list], sorting by insertion *)

#[export] Instance ToySQLite : SQLite := {|
  scan K A _ _ t := map_to_list t;
  order_by A R _ l := merge_sort R l
|}.
#[export] Instance ToySQLite_laws : SQLiteLaws.
Proof.
  split; [done| |].
  - intros A R HR l. apply merge_sort_Permutation.
  - intros A R HR l Htot Htr. by apply StronglySorted_merge_sort.
Qed.

(** ** bitcoin_wallet: coins by outpoint, accounts that count their keys *)

Record toy_account : Type := mkToyAccount { acc_number : Z * Z; next_index : Z; scripts : list Script }.

(** A master account is its network - 0 is bitcoin, 1 testnet - and its accounts. *)
Record toy_master : Type := mkToyMaster { m_net : Z; m_accounts : gmap (Z * Z) toy_account }.
#[export] Instance toy_master_empty : Empty toy_master := mkToyMaster 1 ∅.
#[export] Instance toy_master_insert : Insert (Z * Z) toy_account toy_master :=
  λ n a m, mkToyMaster (m_net m) (<[n := a]> (m_accounts m)).

#[export] Instance ToyWallet : WalletCrate := {|
  Coins := list (OutPoint * Coin * Z);
  coins_new := [];
  confirmed := fmap fst;
  unconfirmed _ := [];
  proofs _ := [];
  coins_confirmed_balance l := foldr (λ '(_, c, _) s, value (coin_output c) + s) 0 l;
  coins_unconfirmed_balance _ := 0;
  coins_available_balance l _ _ := foldr (λ '(_, c, _) s, value (coin_output c) + s) 0 l;
  choose_inputs l _ _ _ := l;
  coins_unwind_tip _ l := l;
  coins_add_confirmed p c _ l := (p, c, 0) :: l;
  MasterAccount := toy_master;
  coins_process _ w := (false, w);
  process_unconfirmed_transaction _ w := (w.1, []);
  Account := toy_account;
  get_account m n := m_accounts m !! n;
  put_account m n a := <[n := a]> m;
  Address := Script;
  address_script_pubkey := id;
  next_key a := inr ([7; (acc_number a).1; (acc_number a).2; next_index a],
                     mkToyAccount (acc_number a) (next_index a + 1) (scripts a));
  do_look_ahead a _ := inr a;
  add_script_key a scripter tweak term :=
    inr (Z.of_nat (length (scripts a)),
         mkToyAccount (acc_number a) (next_index a)
           (scripts a ++ [p2wsh (scripter ([5; Z.of_nat (length (scripts a))] ++ take 2 (default [] tweak)) term)]));
  get_key_address a kix := scripts a !! Z.to_nat kix;
  compute_base_public_key _ kix := inr [5; kix];
  Unlocker := unit;
  unlock _ _ := inr ();
  master_sign _ _ _ tx := inr (tx, length (input tx));
  get_weight _ := 800
|}.

#[export] Instance ToyStorage : AccountStorage := {|
  account_number a := (acc_number a).1;
  sub_account_number a := (acc_number a).2;
  address_type_as_u32 _ := 0;
  account_master_public _ := [];
  account_instantiated a := Some [next_index a];
  accounts m := snd <$> map_to_list (m_accounts m);
  new_from_storage _ n sub _ l _ := match l with [i] => Some (mkToyAccount (n, sub) i [[9; n; sub]]) | _ => None end
|}.

(** ** murmel: numbered peers, and the replies each of them owes *)

#[export] Instance ToyPeers : Peers := {| PeerId := Z |}.

#[export] Instance ToyTimeouts {R} `{Countable R} : Timeouts R := {|
  Timeout := gmap (Z * R) Z;
  timeout_expect pid n r t := <[(pid, r) := default 0 (t !! (pid, r)) + n]> t;
  timeout_received pid n r t := <[(pid, r) := Z.max 0 (default 0 (t !! (pid, r)) - n)]> t;
  is_busy_with pid r t := 0 <? default 0 (t !! (pid, r));
  timeout_check _ t := t
|}.
