(* ===== verification/StoreExamples.v ===== *)
(** * Examples: a small chain, two ads and a store

    A chain of four headers whose second block holds the transaction that funds an
    ad; the theorems on the trunk, the content table and the store are applied
    to it. *)

From S2P Require Import Prelude Machine IbltTable IbltCells IbltAlgebra IbltSync Sketch Keys.
From S2P Require Import Strings Text Bitcoin Content Effects Db DbContent DbContentSpec Wallet.
From S2P Require Import DbWallet Trunk Store StoreTables StoreSpec StoreLedger Toy.
#[local] Open Scope Z_scope.

Module StoreExamples.
#[local] Opaque generate_ksequence.

(** ** A chain *)

Definition root (n : Z) : digest := digest_of_list [n].
Definition hdr (n : Z) : BlockHeader := mkBlockHeader 1 hash_default (root n) (1000 + 600 * n) 7 n.
Definition chain : list BlockHeader := hdr <$> [0; 1; 2; 3].
Definition chain_trunk : Trunk := ChainDBTrunk.trunk (chain_db chain).

Lemma chain_nodup : NoDup (header_hash <$> chain).
Proof.
  assert (bool_decide (NoDup (header_hash <$> chain)) = true) as Hb by (vm_compute; reflexivity).
  exact (proj1 (bool_decide_eq_true _) Hb).
Qed.

Lemma chain_trunk_spec_witness :
  is_on_trunk chain_trunk (header_hash (hdr 2)) = true /\
  get_header chain_trunk (header_hash (hdr 2)) = Some (hdr 2) /\
  get_height chain_trunk (header_hash (hdr 2)) = Some (Z.of_nat 2) /\
  get_header_for_height chain_trunk (Z.of_nat 2) = Some (hdr 2) /\
  get_tip chain_trunk = get_header_for_height chain_trunk (trunk_len chain_trunk) /\
  trunk_len chain_trunk = Z.of_nat (length chain) - 1 /\
  (forall h, is_on_trunk chain_trunk h = false ->
     get_header chain_trunk h = None /\ get_height chain_trunk h = None).
Proof. apply (chain_trunk_spec chain 2 (hdr 2)); [exact chain_nodup|reflexivity]. Defined.

(** ** Contents *)

(** The content of [funder] for an ad, funded by a transaction of block 1. *)
Definition mk_content (a : Ad) (funder : PublicKey) (term amount : Z) : Content :=
  let tweaked := funder ++ take 2 (vec_to_list (AdOps.digest_of a)) in
  mkContent _ a (header_hash (hdr 1), root 1,
    mkTransaction 2 0 [] [mkTxOut 1 [3]; mkTxOut amount (Store.funding_address tweaked term)]) funder term.

Definition ad1 : Ad := AdOps.new [97] [98] [99].
Definition content1 : Content := mk_content ad1 [5; 6] 10 5000.
(** An ad whose text a peer encoded with an unknown bit set. *)
Definition odd_ad : Ad := mkAd [97] [98] (mkText [4; 99]).
Definition odd_content : Content := mk_content odd_ad [5; 6] 10 5000.

Lemma ad1_text : TextOps.as_string (Content.content (ad content1)) = Ok [99].
Proof. reflexivity. Qed.
Lemma odd_text : TextOps.as_string (Content.content (ad odd_content)) = Ok [99].
Proof. reflexivity. Qed.
Lemma content1_length : content_length content1 = 1.
Proof. reflexivity. Qed.
Lemma odd_length : content_length odd_content = 1.
Proof. reflexivity. Qed.

Lemma content1_storable : storable content1.
Proof. split_and!; [exists [99]; exact ad1_text|by rewrite content1_length|by eexists]. Qed.

Definition committing_output : TxOut :=
  mkTxOut 5000 (Store.funding_address ([5; 6] ++ take 2 (vec_to_list (AdOps.digest_of ad1))) 10).

Lemma content1_committed : committed chain_trunk content1 1 (hdr 1) committing_output.
Proof.
  split_and!; [vm_compute; reflexivity|vm_compute; intros [=]|vm_compute; reflexivity|
               vm_compute; reflexivity|vm_compute; intros [=]|].
  eexists. split; [reflexivity|]. vm_compute. reflexivity.
Qed.

(** ** The content table *)

Definition row1 : ContentRow := ContentTable.content_row 1 (header_hash (hdr 1)) content1 5000 [99].
Definition id1 : str := to_hex (AdOps.digest_of ad1).
Definition id2 : str := to_hex (digest_of_list [2]).
Definition row2 : ContentRow := mkContentRow [97] [98] [100] [1] 0 [] [8] 2 7 400.
Definition db1 : DB := set_content (<[id1 := row1]> (<[id2 := row2]> ∅)) create_tables.

Lemma db1_wf : ids_wf (Db.content db1).
Proof. apply ids_wf_insert, ids_wf_insert, ids_wf_empty. Qed.

Lemma id1_id2 : id1 <> id2.
Proof.
  assert (bool_decide (id1 = id2) = false) as Hb by (vm_compute; reflexivity).
  exact (proj1 (bool_decide_eq_false _) Hb).
Qed.

Lemma db1_rows id r : Db.content db1 !! id = Some r -> (id = id1 /\ r = row1) \/ (id = id2 /\ r = row2).
Proof.
  cbn [Db.content db1 set_content]. intros [[<- <-]|[_ Hr]]%lookup_insert_Some; [by left|].
  apply lookup_insert_Some in Hr as [[<- <-]|[_ Hr]]; [by right|]. by rewrite lookup_empty in Hr.
Qed.

Lemma delete_expired_spec_witness :
  exists keys t', ContentTable.delete_expired 3 db1 = (Ok keys, set_content t' db1) /\
    NoDup keys /\
    (forall id r, t' !! id = Some r <-> Db.content db1 !! id = Some r /\ 3 < r_height r + r_term r) /\
    (forall d, mkContentKey d ∈ keys <->
      exists r, Db.content db1 !! to_hex d = Some r /\ r_height r + r_term r <= 3).
Proof. exact (delete_expired_spec 3 db1 db1_wf). Defined.

Lemma db1_lengths id r : Db.content db1 !! id = Some r -> 0 <= r_length r.
Proof. intros [[_ ->]|[_ ->]]%db1_rows; vm_compute; intros [=]. Qed.
Lemma db1_perm : map_to_list (Db.content db1) ≡ₚ [(id1, row1); (id2, row2)].
Proof.
  cbn [Db.content db1 set_content]. rewrite map_to_list_insert.
  - rewrite map_to_list_insert by apply lookup_empty. by rewrite map_to_list_empty.
  - rewrite lookup_insert_ne by (intros Heq; symmetry in Heq; by apply id1_id2 in Heq). apply lookup_empty.
Qed.
Lemma db1_sum : sum_length (map_to_list (Db.content db1)) = 401.
Proof. rewrite (sum_length_perm _ _ db1_perm). reflexivity. Qed.

Lemma truncate_rows_example :
  exists kept dropped t',
    ContentTable.truncate_content 100 db1 = (Ok (key_of <$> dropped.*1), set_content t' db1) /\
    map_to_list (Db.content db1) ≡ₚ kept ++ dropped /\ map_to_list t' ≡ₚ kept /\
    sum_length kept <= 100 /\
    (forall x y, x ∈ kept -> y ∈ dropped -> r_weight y.2 <= r_weight x.2) /\
    (forall x rest, dropped = x :: rest -> 100 < sum_length kept + r_length x.2).
Proof.
  apply (truncate_rows 100 db1 db1_wf); [lia|exact db1_lengths|].
  rewrite db1_sum. reflexivity.
Defined.

Lemma store_read_roundtrip_witness :
  exists db', ContentTable.store_content 1 (header_hash (hdr 1)) content1 5000 db1 = (Ok 1, db') /\
    ContentTable.read_content (AdOps.digest_of (ad content1)) db' =
      Ok (Some (mkContent _ (AdOps.new (cat (ad content1)) (abs (ad content1)) [99]) (funding content1)
                  (funder content1) (term content1))) /\
    (ContentTable.read_content (AdOps.digest_of (ad content1)) db' = Ok (Some content1) <->
     ad content1 = AdOps.new (cat (ad content1)) (abs (ad content1)) [99]) /\
    (Db.content db1 !! to_hex hash_default = None -> hash_default <> AdOps.digest_of (ad content1) ->
     ContentTable.read_content hash_default db' = Err (DBError QueryReturnedNoRows)).
Proof.
  apply (store_read_roundtrip 1 (header_hash (hdr 1)) content1 5000 db1 [99] hash_default);
    [exact ad1_text|by rewrite content1_length].
Defined.

Lemma noncanonical_ad_changes_digest_witness :
  exists db' c', ContentTable.store_content 1 (header_hash (hdr 1)) odd_content 5000 db1 = (Ok 1, db') /\
    ContentTable.read_content (AdOps.digest_of (ad odd_content)) db' = Ok (Some c') /\
    ad c' <> ad odd_content /\
    (AdOps.digest_of (ad c') = AdOps.digest_of (ad odd_content) ->
     exists x y, x <> y /\ sha256 x = sha256 y).
Proof.
  apply (noncanonical_ad_changes_digest 1 (header_hash (hdr 1)) odd_content 5000 db1 [99]);
    [exact odd_text|by rewrite odd_length|].
  intros [=].
Defined.

Lemma listings_spec_witness :
  (StronglySorted text_le (ContentTable.list_categories db1) /\
   NoDup (ContentTable.list_categories db1) /\
   forall c, c ∈ ContentTable.list_categories db1 <->
     exists id r, Db.content db1 !! id = Some r /\ r_cat r = c) /\
  exists rows, ContentTable.list_abstracts [[97]] db1 = (λ '(id, r), [id; r_cat r; r_abs r]) <$> rows /\
    StronglySorted ContentTable.by_cat_weight rows /\ NoDup rows.*1 /\
    forall id r, (id, r) ∈ rows <-> Db.content db1 !! id = Some r /\ r_cat r ∈ [[97]].
Proof. exact (listings_spec [[97]] db1). Defined.

Lemma retrieve_contents_spec_witness :
  exists rows, ContentTable.retrieve_contents [id1; [0]] db1 = Ok ((λ '(id, r),
      mkRetrievedContent id (r_cat r) (r_abs r) (r_ad r)
        (from_option pk_display [] (pk_from_slice (r_publisher r)))
        (r_height r) (r_term r) (r_length r) (r_weight r)) <$> rows) /\
    StronglySorted (ContentTable.by_weight_desc (r_weight ∘ snd)) rows /\
    forall id r, (id, r) ∈ rows <-> id ∈ [id1; [0]] /\ Db.content db1 !! id = Some r.
Proof. apply (retrieve_contents_spec [id1; [0]] db1). intros id r _. by eexists. Defined.

(** ** The store *)

(** A store that was just started on a database. *)
Definition store_on (d : DB) : ContentStore :=
  mkStore _ _ d 1000 ∅ (sketch_of content_ksequence (table_keys (Db.content d))) content_ksequence
    (u32 (Z.of_nat (length (table_keys (Db.content d))))) (mkWallet _ _ [] ∅) None.

Lemma store_on_cache d : ids_wf (Db.content d) -> cache_ok (store_on d).
Proof. intros Hd. split; [exact Hd|]. intros size t Ht. cbn [iblts store_on] in Ht.
  by rewrite lookup_empty in Ht.
Qed.
Lemma store_on_sketch d : sketch_ok (store_on d).
Proof. split_and!; reflexivity. Qed.

Lemma add_header_spec_witness :
  exists s', Store.add_header 3 (store_on db1) = (Ok (), s') /\ cache_ok s' /\
    (forall id r, Db.content (db s') !! id = Some r <->
       Db.content (db (store_on db1)) !! id = Some r /\ ~ expired 3 r) /\
    db s' = set_content (Db.content (db s')) (db (store_on db1)) /\ wallet s' = wallet (store_on db1) /\
    same_rest (store_on db1) s' /\
    (iblts (store_on db1) <> ∅ \/
     (forall id r, Db.content (db (store_on db1)) !! id = Some r -> ~ expired 3 r) ->
     sketch_ok (store_on db1) -> sketch_ok s').
Proof. exact (add_header_spec 3 (store_on db1) (store_on_cache db1 db1_wf)). Defined.

Lemma unwind_tip_spec_witness :
  exists s', Store.unwind_tip (hdr 1) (store_on db1) = (Ok (), s') /\ cache_ok s' /\
    (forall id r, Db.content (db s') !! id = Some r <->
       Db.content (db (store_on db1)) !! id = Some r /\ r_block_id r <> to_hex_d (header_hash (hdr 1))) /\
    WalletTables.read_processed (db s') = Ok (Some (prev_blockhash (hdr 1))) /\
    wallet s' = WalletOps.unwind_tip (header_hash (hdr 1)) (wallet (store_on db1)) /\
    same_rest (store_on db1) s' /\
    (iblts (store_on db1) <> ∅ -> sketch_ok (store_on db1) -> sketch_ok s').
Proof. exact (unwind_tip_spec (hdr 1) (store_on db1) (store_on_cache db1 db1_wf)). Defined.

Lemma truncate_to_limit_spec_witness :
  exists s', Store.truncate_to_limit (store_on db1) = (Ok (), s') /\ cache_ok s' /\
    Db.content (db s') ⊆ Db.content (db (store_on db1)) /\
    sum_length (map_to_list (Db.content (db s'))) <= storage_limit (store_on db1) /\
    (forall id r id' r', Db.content (db s') !! id = Some r ->
       Db.content (db (store_on db1)) !! id' = Some r' ->
       Db.content (db s') !! id' = None -> r_weight r' <= r_weight r) /\
    wallet s' = wallet (store_on db1) /\ same_rest (store_on db1) s' /\
    (iblts (store_on db1) <> ∅ -> sketch_ok (store_on db1) -> sketch_ok s') /\
    (sum_length (map_to_list (Db.content (db (store_on db1)))) <= storage_limit (store_on db1) ->
     Db.content (db s') = Db.content (db (store_on db1))) /\
    (Db.content (db s') = Db.content (db (store_on db1)) \/
     exists id r, Db.content (db (store_on db1)) !! id = Some r /\ Db.content (db s') !! id = None /\
       storage_limit (store_on db1) < sum_length (map_to_list (Db.content (db s'))) + r_length r).
Proof.
  apply (truncate_to_limit_spec (store_on db1) (store_on_cache db1 db1_wf));
    [by vm_compute|exact db1_lengths|]. cbn [db store_on]. rewrite db1_sum. reflexivity.
Defined.

Lemma store_on_ledger : ledger_ok (store_on db1).
Proof.
  split; [|split; [exact db1_lengths|by vm_compute]].
  split; [exact (store_on_cache db1 db1_wf)|]. apply sketch_ok_shape, store_on_sketch.
Qed.

Lemma stale_sketch_without_tables_witness :
  exists s', Store.add_header 3 (store_on db1) = (Ok (), s') /\
    min_hashes s' = min_hashes (store_on db1) /\ n_keys s' = n_keys (store_on db1) /\
    (sketch_ok (store_on db1) -> Z.of_nat (length (stored_keys (store_on db1))) < 2 ^ 32 ->
     (exists id r, Db.content (db (store_on db1)) !! id = Some r /\ expired 3 r) -> ~ sketch_ok s').
Proof.
  apply (stale_sketch_without_tables 3 (store_on db1) (store_on_cache db1 db1_wf)). reflexivity.
Defined.

(** An ad that was paid for but whose text has no encoding: the node that takes the
    offer panics. *)
Definition poison : Content := mk_content (mkAd [97] [98] (mkText [])) [5; 6] 10 5000.
Definition poison_output : TxOut :=
  mkTxOut 5000 (Store.funding_address ([5; 6] ++ take 2 (vec_to_list (AdOps.digest_of (ad poison)))) 10).

Lemma poison_unencodable : ~ encodable poison.
Proof. intros [[text Ht] _]. discriminate Ht. Qed.
Lemma poison_committed : committed chain_trunk poison 1 (hdr 1) poison_output.
Proof.
  split_and!; [vm_compute; reflexivity|vm_compute; intros [=]|vm_compute; reflexivity|
               vm_compute; reflexivity|vm_compute; intros [=]|].
  eexists. split; [reflexivity|]. vm_compute. reflexivity.
Qed.

Example poison_panics :
  (Store.add_content chain_trunk poison (store_on create_tables)).1 = Panicked IndexOutOfBounds.
Proof. vm_compute. reflexivity. Qed.

Lemma add_content_spec_witness :
  let s := store_on create_tables in
  (forall height header o, committed chain_trunk poison height header o -> encodable poison ->
     exists s' text, Store.add_content chain_trunk poison s = (Ok true, s') /\
       TextOps.as_string (Content.content (ad poison)) = Ok text /\
       db s' = set_content (<[to_hex (AdOps.digest_of (ad poison)) :=
         ContentTable.content_row height (header_hash header) poison (value o) text]>
           (Db.content (db s))) (db s) /\
       wallet s' = wallet s /\ tables_for (Inserted <$> content_key poison :: stored_keys s) (iblts s')) /\
  (forall height header o, committed chain_trunk poison height header o -> ~ encodable poison ->
     exists p s', Store.add_content chain_trunk poison s = (Panicked p, s') /\
       db s' = db s /\ wallet s' = wallet s /\ n_keys s' = u32 (n_keys s + 1) /\
       tables_for (Inserted <$> content_key poison :: stored_keys s) (iblts s') /\
       dom (iblts s') = dom (iblts s)) /\
  (tweak_fails chain_trunk poison -> Store.add_content chain_trunk poison s = (Panicked UnwrapOnErr, s)) /\
  ((forall height header o, ~ committed chain_trunk poison height header o) ->
     ~ tweak_fails chain_trunk poison -> Store.add_content chain_trunk poison s = (Ok false, s)) /\
  (forall s', Store.add_content chain_trunk poison s = (Ok true, s') ->
     encodable poison /\ exists height header o, committed chain_trunk poison height header o).
Proof.
  exact (add_content_spec chain_trunk poison (store_on create_tables)
    (store_on_cache create_tables ids_wf_empty) (sketch_ok_shape _ (store_on_sketch _))).
Defined.

Lemma not_stored_fresh : ~ is_stored content1 (store_on create_tables).
Proof. intros [r Hr]. cbn [db store_on Db.content create_tables] in Hr. by rewrite lookup_empty in Hr. Qed.
Lemma is_stored_db1 : is_stored content1 (store_on db1).
Proof. exists row1. cbn [db store_on Db.content db1 set_content]. apply lookup_insert_eq. Qed.

Lemma add_fresh_content_keeps_sync_witness :
  exists s', Store.add_content chain_trunk content1 (store_on create_tables) = (Ok true, s') /\
    cache_ok s' /\ sketch_ok s' /\
    stored_keys s' ≡ₚ content_key content1 :: stored_keys (store_on create_tables).
Proof.
  exact (add_fresh_content_keeps_sync chain_trunk content1 1 (hdr 1) committing_output
    (store_on create_tables) (store_on_cache create_tables ids_wf_empty) (store_on_sketch _) content1_storable
    content1_committed not_stored_fresh).
Defined.

Lemma re_adding_breaks_sync_witness :
  exists s', Store.add_content chain_trunk content1 (store_on db1) = (Ok true, s') /\
    stored_keys s' ≡ₚ stored_keys (store_on db1) /\
    (forall size t, iblts s' !! size = Some t -> ~ represents t (Inserted <$> stored_keys s')) /\
    n_keys s' <> u32 (Z.of_nat (length (stored_keys s'))).
Proof.
  exact (re_adding_breaks_sync chain_trunk content1 1 (hdr 1) committing_output (store_on db1)
    (store_on_cache _ db1_wf) (store_on_sketch _) content1_storable content1_committed is_stored_db1).
Defined.

(** A run: a table of size 8 is asked for, an ad is added, a block unwound. *)
Lemma new_store_on d : ids_wf (Db.content d) -> Store.new d 1000 (mkWallet _ _ [] ∅) = Ok (store_on d).
Proof. intros Hd. unfold Store.new. by rewrite compute_content_sketch_spec. Qed.

Lemma reachable_store_in_sync_witness :
  exists s, steps (store_on db1) s /\ iblts s <> ∅ /\
  (forall size t, iblts s !! size = Some t ->
     ContentTable.compute_content_iblt size (db s) = Ok t) /\
  (forall s', steps s s' -> iblts s <> ∅ ->
     ContentTable.compute_content_sketch MIN_SKETCH_SIZE (db s) =
       Ok (min_hashes s, st_ksequence s, n_keys s) ->
     ContentTable.compute_content_sketch MIN_SKETCH_SIZE (db s') =
       Ok (min_hashes s', st_ksequence s', n_keys s')).
Proof.
  destruct (get_iblt_spec 8 (store_on db1) (store_on_cache db1 db1_wf) eq_refl)
    as (t & s & Hrun & Hc & Hdb & Hp & Hr & Hlk & Hset).
  assert (steps (store_on db1) s) as Hsteps.
  { apply rtc_once. by apply (step_get_iblt 8 t). }
  exists s. split; [exact Hsteps|]. split.
  - intros He. by rewrite He, lookup_empty in Hlk.
  - exact (reachable_store_in_sync db1 1000 (mkWallet _ _ [] ∅) (store_on db1) s db1_wf
      (new_store_on db1 db1_wf) Hsteps).
Defined.
End StoreExamples.
