(* ===== verification/Updater.v ===== *)
(** * The exchange of contents (src/updater.rs)

    The thread that keeps the contents of the node in sync with its peers: polls
    with sketches, tables sized by the estimated difference, requests for the
    contents the peeled difference names, and their delivery.  A handler is an
    [action] on the updater with the store it shares; the peeling loop may not
    end, so the handlers take fuel and answer [None] when it runs out. *)

From S2P Require Import Prelude Machine IbltTable Sketch Keys Strings Text Bitcoin Content Effects.
From S2P Require Import Db DbContent Wallet DbWallet Trunk Store Messages.
#[local] Open Scope Z_scope.

Definition MINIMUM_IBLT_SIZE : Z := 100.
Definition MAXIMUM_IBLT_SIZE : Z := Z.shiftl MINIMUM_IBLT_SIZE 16.
Definition POLL_FREQUENCY : Z := 60.

(** Instants and durations are in nanoseconds. *)
Definition as_secs (d : Z) : Z := d / 1000000000.
Definition duration_since {E} (now earlier : Z) : res E Z :=
  if earlier <=? now then Ok (now - earlier) else Panicked UnwrapOnErr.

Record Updater `{WalletCrate, !Peers, !Timeouts ExpectedReply} : Type := mkUpdater {
  store : ContentStore;
  timeout : Timeout ExpectedReply;
  outbox : list (PeerId * Message);
  poll_asked : gmap PeerId PollContentMessage;
  last_polled : Z
}.

Module UpdaterOps.
Section Ops.
Context `{SipHasher, Snap, Bitcoin, !Cbor Ad, SQLite, !WalletCrate, !AccountStorage}.
Context `{!Peers, !Timeouts ExpectedReply}.

Definition set_store (s : ContentStore) (u : Updater) : Updater :=
  mkUpdater _ _ _ _ s (timeout u) (outbox u) (poll_asked u) (last_polled u).
Definition set_timeout (t : Timeout ExpectedReply) (u : Updater) : Updater :=
  mkUpdater _ _ _ _ (store u) t (outbox u) (poll_asked u) (last_polled u).
Definition set_outbox (o : list (PeerId * Message)) (u : Updater) : Updater :=
  mkUpdater _ _ _ _ (store u) (timeout u) o (poll_asked u) (last_polled u).
Definition set_poll_asked (p : gmap PeerId PollContentMessage) (u : Updater) : Updater :=
  mkUpdater _ _ _ _ (store u) (timeout u) (outbox u) p (last_polled u).
Definition set_last_polled (l : Z) (u : Updater) : Updater :=
  mkUpdater _ _ _ _ (store u) (timeout u) (outbox u) (poll_asked u) l.

Definition new (s : ContentStore) (t : Timeout ExpectedReply) (now : Z) : Updater :=
  mkUpdater _ _ _ _ s t [] ∅ now.

Definition on_store {A} : action ContentStore Error A -> action Updater Error A := zoom store set_store.
Definition expect_replies (pid : PeerId) (n : Z) (r : ExpectedReply) : action Updater Error unit :=
  modify (λ u, set_timeout (timeout_expect pid n r (timeout u)) u).
Definition received (pid : PeerId) (r : ExpectedReply) : action Updater Error unit :=
  modify (λ u, set_timeout (timeout_received pid 1 r (timeout u)) u).
Definition send_network (pid : PeerId) (m : Message) : action Updater Error unit :=
  modify (λ u, set_outbox (outbox u ++ [(pid, m)]) u).

(** The poll the node makes of its own contents. *)
Definition our_poll (tip : digest) (s : ContentStore) : PollContentMessage :=
  mkPollContent tip (Store.get_sketch s) (Store.get_nkeys s).

Definition poll_content (trunk : Trunk) (pid : PeerId) : action Updater Error unit :=
  match Store.get_tip trunk with
  | Some tip =>
      poll ← gets (λ u, our_poll tip (store u));
      _ ← modify (λ u, set_poll_asked (<[pid := poll]> (poll_asked u)) u);
      _ ← send_network pid (PollContent poll);
      expect_replies pid 1 R_PollContent
  | None => mret ()
  end.

(** The answer to our own poll. *)
Definition poll_reply (trunk : Trunk) (pid : PeerId) (question poll : PollContentMessage) :
    action Updater Error unit :=
  _ ← received pid R_PollContent;
  match Store.get_tip trunk with
  | Some our_tip =>
      if decide (our_tip = pc_tip question /\ pc_tip question = pc_tip poll) then
        diff ← lift (estimate_diff_size (pc_sketch question) (pc_size question)
                       (pc_sketch poll) (pc_size poll));
        let diff := u32 (diff * 3) / 2 in
        if 0 <? diff then
          let size := grow_size 16 MAXIMUM_IBLT_SIZE diff MINIMUM_IBLT_SIZE in
          iblt ← on_store (expect_action (Store.get_iblt size));
          _ ← expect_replies pid 1 R_ContentIBLT;
          send_network pid (ContentIBLT our_tip iblt)
        else mret ()
      else mret ()
  | None => mret ()
  end.

Definition on_poll (trunk : Trunk) (pid : PeerId) (poll : PollContentMessage) :
    action Updater Error unit :=
  asked ← gets (λ u, poll_asked u !! pid);
  match asked with
  | Some question =>
      _ ← modify (λ u, set_poll_asked (delete pid (poll_asked u)) u);
      poll_reply trunk pid question poll
  | None => poll_content trunk pid
  end.

(** [for entry in iblt.into_iter() { .. }]: the digests of the inserted keys up
    to the end of the iteration or its first error. *)
Fixpoint requested (fuel : nat) (it : IBLTIterator.t ContentKey) (request : list digest) :
    res Error (option (list digest)) :=
  match fuel with
  | O => Ok None
  | S fuel =>
      '(item, it) ← IBLTIterator.next it;
      match item with
      | None => Ok (Some request)
      | Some (inl (Inserted key)) => requested fuel it (request ++ [ck_digest key])
      | Some (inl (Deleted key)) => requested fuel it request
      | Some (inr _) => Ok (Some request)
      end
  end.

Definition on_content_iblt (fuel : nat) (trunk : Trunk) (pid : PeerId) (tip : digest)
    (iblt : IBLT ContentKey) : action Updater Error (option unit) :=
  _ ← received pid R_ContentIBLT;
  match Store.get_tip trunk with
  | Some our_tip =>
      if decide (tip = our_tip) then
        let size := Iblt.len iblt in
        ours ← on_store (expect_action (Store.get_iblt size));
        iblt ← lift (Iblt.substract iblt ours);
        request ← lift (requested fuel (IBLTIterator.new iblt) []);
        match request with
        | None => mret None
        | Some request =>
            let len := Z.of_nat (length request) in
            if 0 <? len then
              _ ← expect_replies pid len R_Content;
              _ ← send_network pid (Get request);
              mret (Some ())
            else mret (Some ())
        end
      else mret (Some ())
  | None => mret (Some ())
  end.

Definition on_content (trunk : Trunk) (pid : PeerId) (content : Content) : action Updater Error unit :=
  _ ← received pid R_Content;
  _ ← on_store (is_err (Store.add_content trunk content));
  busy ← gets (λ u, is_busy_with pid R_Content (timeout u));
  if negb busy then on_store (expect_action Store.truncate_to_limit) else mret ().

Definition on_get (pid : PeerId) (ids : list digest) : action Updater Error unit :=
  for_each_do ids (λ id,
    content ← (λ u, (expect (Store.get_content id (store u)), u));
    match content with
    | Some content => send_network pid (ContentMessage content)
    | None => mret ()
    end).

(** The body of the [match] on a message from the dispatcher. *)
Definition handle (fuel : nat) (trunk : Trunk) (now : Z) (msg : PeerMessage Message) :
    action Updater Error (option unit) :=
  match msg with
  | Connected pid _ =>
      _ ← poll_content trunk pid;
      _ ← modify (set_last_polled now);
      mret (Some ())
  | Disconnected pid _ =>
      _ ← modify (λ u, set_poll_asked (delete pid (poll_asked u)) u);
      mret (Some ())
  | Incoming pid (PollContent poll) => _ ← on_poll trunk pid poll; mret (Some ())
  | Incoming pid (ContentIBLT tip iblt) => on_content_iblt fuel trunk pid tip iblt
  | Incoming pid (ContentMessage content) => _ ← on_content trunk pid content; mret (Some ())
  | Incoming pid (Get ids) => _ ← on_get pid ids; mret (Some ())
  | Incoming _ _ => mret (Some ())
  | Outgoing _ => mret (Some ())
  end.

(** What the loop does when no message arrived for a second; [random_peer] is
    the peer [send_random_network] chose, if one is connected. *)
Definition idle (trunk : Trunk) (now : Z) (random_peer : option PeerId) : action Updater Error unit :=
  _ ← modify (λ u, set_timeout
        (timeout_check [R_PollContent; R_ContentIBLT; R_Content; R_Get] (timeout u)) u);
  elapsed ← (λ u, (duration_since now (last_polled u), u));
  if POLL_FREQUENCY <? as_secs elapsed then
    _ ← modify (set_last_polled now);
    match Store.get_tip trunk with
    | Some tip =>
        poll ← gets (λ u, our_poll tip (store u));
        match random_peer with
        | Some pid =>
            _ ← send_network pid (PollContent poll);
            _ ← modify (λ u, set_poll_asked (<[pid := poll]> (poll_asked u)) u);
            expect_replies pid 1 R_PollContent
        | None => mret ()
        end
    | None => mret ()
    end
  else mret ().
End Ops.
End UpdaterOps.
