(* ===== verification/UpdaterSpec.v ===== *)
(** * Theorems on the exchange of contents *)

From S2P Require Import Prelude Machine IbltTable IbltCells IbltAlgebra IbltRefine IbltPeel IbltSync.
From S2P Require Import Sketch Keys Strings Text Bitcoin Content Effects Db DbContent DbContentSpec.
From S2P Require Import Wallet DbWallet Trunk Store StoreTables StoreSpec Messages Updater.
#[local] Open Scope Z_scope.

(** ** Requests out of a peeled table *)

Section Requests.
Context `{SipHasher}.

Definition inserted_digest (e : IBLTEntry ContentKey) : option digest :=
  match e with Inserted key => Some (ck_digest key) | Deleted _ => None end.

Lemma requested_final fuel (it : IBLTIterator.t ContentKey) Y ok request :
  IBLTIterator.run (E:=Error) fuel it = Ok (Some (final_items Y ok)) ->
  UpdaterOps.requested fuel it request = Ok (Some (request ++ omap inserted_digest Y)).
Proof.
  revert it Y request. induction fuel as [|fuel IH]; intros it Y request; [done|].
  cbn [IBLTIterator.run UpdaterOps.requested].
  destruct (IBLTIterator.next it) as [[[x|] it']|e|p] eqn:Hnext; cbn [mbind res_bind]; try done.
  - destruct (IBLTIterator.run fuel it') as [[rest|]|e|p] eqn:Hrun; cbn [mbind res_bind option_map];
      try done.
    intros [= Hitems]. destruct Y as [|y Y].
    + destruct ok; [done|]. cbn in Hitems. injection Hitems as -> ->. cbn [omap list_omap].
      by rewrite app_nil_r.
    + cbn in Hitems. injection Hitems as -> ->.
      destruct y as [key|key]; rewrite (IH it' Y) by done; [|done].
      by rewrite <- app_assoc.
  - intros [= Hitems]. destruct Y, ok; try done. cbn [omap list_omap]. by rewrite app_nil_r.
Qed.

Lemma elem_of_inserted_digests (Y : list (IBLTEntry ContentKey)) d :
  d ∈ omap inserted_digest Y <-> Inserted (mkContentKey d) ∈ Y.
Proof.
  rewrite list_elem_of_omap. split.
  - intros ([[d']|] & Hin & Heq); simplify_eq/=. done.
  - intros Hin. by exists (Inserted (mkContentKey d)).
Qed.

Lemma NoDup_inserted_digests (Y : list (IBLTEntry ContentKey)) :
  NoDup Y -> NoDup (omap inserted_digest Y).
Proof.
  induction 1 as [|e Y He _ IH]; [constructor|].
  destruct e as [key|key]; [|exact IH]. apply (NoDup_cons_2 (ck_digest key)); [|exact IH].
  rewrite elem_of_inserted_digests. by destruct key.
Qed.

Lemma omap_inserted (X : list ContentKey) : omap inserted_digest (Inserted <$> X) = ck_digest <$> X.
Proof. induction X as [|x X IH]; [done|]. exact (f_equal (cons (ck_digest x)) IH). Qed.
Lemma omap_deleted (X : list ContentKey) : omap inserted_digest (Deleted <$> X) = [].
Proof. by induction X. Qed.

Lemma inserted_digests_set_diff (A B : list ContentKey) :
  omap inserted_digest (set_diff A B) = ck_digest <$> list_difference A B.
Proof. unfold set_diff. rewrite omap_app, omap_inserted, omap_deleted. apply app_nil_r. Qed.
End Requests.

(** ** What the handlers do *)

Section Handlers.
Context `{SipHasher, Snap, !SnapLaws, BitcoinLaws, !Cbor Ad, SQLiteLaws, !WalletCrate, !AccountStorage}.
Context `{!Peers, !Timeouts ExpectedReply}.
Implicit Types (u : Updater) (pid : PeerId) (trunk : Trunk).
#[local] Opaque generate_ksequence.

(** The state changes by its store, its expected replies and what it sent. *)
Definition advance u (s : ContentStore) (t : Timeout ExpectedReply) (sent : list (PeerId * Message)) :
    Updater :=
  mkUpdater _ _ _ _ s t (outbox u ++ sent) (poll_asked u) (last_polled u).

Lemma on_store_get_iblt size u :
  cache_ok (store u) -> 0 < size ->
  exists t s', UpdaterOps.on_store (expect_action (Store.get_iblt size)) u =
      (Ok t, UpdaterOps.set_store s' u) /\ cache_ok s' /\
    s' = Store.set_iblts (iblts s') (store u) /\
    params_of t = new_params size NH K0 K1 /\ represents t (Inserted <$> stored_keys (store u)).
Proof.
  intros Hc Hsize. destruct (get_iblt_spec size (store u) Hc Hsize)
    as (t & s' & Hrun & Hc' & Hdb & Hp & Hr & _ & Hset).
  exists t, s'. split_and!; [|done..].
  unfold UpdaterOps.on_store, zoom, expect_action. by rewrite Hrun.
Qed.

(** The difference with a peer's table, peeled. *)
Lemma peeled_difference size B s t (iblt : IBLT ContentKey) :
  cache_ok s -> NoDup B ->
  params_of iblt = new_params size NH K0 K1 -> represents iblt (Inserted <$> B) ->
  params_of t = new_params size NH K0 K1 -> represents t (Inserted <$> stored_keys s) ->
  honest (new_params size NH K0 K1) (set_diff B (stored_keys s)) ->
  exists diff Y R, Iblt.substract (E:=Error) iblt t = Ok diff /\
    Y ++ R ≡ₚ set_diff B (stored_keys s) /\ stuck (new_params size NH K0 K1) R /\
    forall fuel, (length (stored_keys s) + length B + 2 <= fuel)%nat ->
      UpdaterOps.requested fuel (IBLTIterator.new diff) [] = Ok (Some (omap inserted_digest Y)).
Proof.
  intros Hc HB Hpi Hri Hpt Ht Hh.
  pose proof (NoDup_table_keys _ (proj1 Hc)) as HA.
  destruct (substract_set_diff (E:=Error) iblt t B (stored_keys s) HB HA Hri Ht ltac:(congruence))
    as (diff & Hsub & Hpd & Hrd).
  rewrite Hpi in Hpd. pose proof (proj1 Hrd) as Hw. rewrite Hpd in Hw.
  destruct (peel_run (E:=Error) _ _ Hw Hh diff Hpd Hrd) as (Y & R & ok & HYR & Hst & Hok & Hrun).
  exists diff, Y, R. split_and!; [done..|].
  intros fuel Hf. rewrite (requested_final _ _ Y ok []); [done|]. apply Hrun.
  pose proof (set_diff_length B (stored_keys s) HB HA). fold (stored_keys s) in *. lia.
Qed.

Lemma table_len size B (iblt : IBLT ContentKey) :
  0 < size -> is_u32 size -> table_of size B iblt -> Iblt.len iblt = size.
Proof.
  intros Hsize Hu [Hpi _]. unfold Iblt.len. apply (f_equal p_len) in Hpi. cbn in Hpi.
  rewrite Hpi, Z2Nat.id by lia. by apply u32_small.
Qed.

Lemma missing_key s B d : ids_wf (Db.content (db s)) ->
  Inserted (mkContentKey d) ∈ set_diff B (stored_keys s) <->
  mkContentKey d ∈ B /\ Db.content (db s) !! to_hex d = None.
Proof.
  intros Hwf. rewrite elem_of_set_diff. unfold stored_keys. rewrite elem_of_table_keys by done.
  by rewrite <- eq_None_not_Some.
Qed.

Lemma on_content_iblt_run size trunk pid tip iblt B u :
  0 < size -> is_u32 size -> Store.get_tip trunk = Some tip -> cache_ok (store u) -> NoDup B ->
  table_of size B iblt ->
  honest (new_params size NH K0 K1) (set_diff B (stored_keys (store u))) ->
  exists s' Y R, cache_ok s' /\ s' = Store.set_iblts (iblts s') (store u) /\
    Y ++ R ≡ₚ set_diff B (stored_keys (store u)) /\ stuck (new_params size NH K0 K1) R /\
    forall fuel, (length (stored_keys (store u)) + length B + 2 <= fuel)%nat ->
      UpdaterOps.on_content_iblt fuel trunk pid tip iblt u =
      (Ok (Some ()),
       let request := omap inserted_digest Y in
       let t := timeout_received pid 1 R_ContentIBLT (timeout u) in
       if decide (request = []) then advance u s' t []
       else advance u s' (timeout_expect pid (Z.of_nat (length request)) R_Content t) [(pid, Get request)]).
Proof.
  intros Hsize Hu Htip Hc HB Hbuild Hh.
  set (u1 := UpdaterOps.set_timeout (timeout_received pid 1 R_ContentIBLT (timeout u)) u).
  destruct (on_store_get_iblt size u1 Hc Hsize) as (t & s' & Hrun & Hc' & Hset & Hpt & Ht).
  destruct (peeled_difference size B (store u) t iblt Hc HB (proj1 Hbuild) (proj2 Hbuild) Hpt Ht Hh)
    as (diff & Y & R & Hsub & HYR & Hst & Hreq).
  exists s', Y, R. split_and!; [done..|]. intros fuel Hf. specialize (Hreq fuel Hf).
  unfold UpdaterOps.on_content_iblt.
  rewrite (action_bind_ok _ _ u () u1) by done. rewrite Htip, decide_True by done.
  cbv zeta. rewrite (table_len size B) by done. rewrite (action_bind_ok _ _ _ _ _ Hrun).
  rewrite (action_bind_ok (lift _) _ _ diff (UpdaterOps.set_store s' u1))
    by (unfold lift; by rewrite Hsub).
  rewrite (action_bind_ok (lift _) _ _ (Some (omap inserted_digest Y)) (UpdaterOps.set_store s' u1))
    by (unfold lift; by rewrite Hreq).
  cbv beta zeta iota. generalize (omap inserted_digest Y). intros [|d request].
  - rewrite decide_True by done. unfold advance. by rewrite app_nil_r.
  - rewrite decide_False by done. done.
Qed.

(** The request out of the listed part [Y] of the difference. *)
Lemma request_of_peeled p s B (Y R : list (IBLTEntry ContentKey)) :
  cache_ok s -> NoDup B -> Y ++ R ≡ₚ set_diff B (stored_keys s) -> stuck p R ->
  NoDup (omap inserted_digest Y) /\
  (forall d, d ∈ omap inserted_digest Y ->
     mkContentKey d ∈ B /\ Db.content (db s) !! to_hex d = None) /\
  ((forall R, R ⊆+ set_diff B (stored_keys s) -> stuck p R -> R = []) ->
   omap inserted_digest Y ≡ₚ ck_digest <$> list_difference B (stored_keys s) /\
   forall d, mkContentKey d ∈ B -> Db.content (db s) !! to_hex d = None -> d ∈ omap inserted_digest Y).
Proof.
  intros Hc HB HYR Hst. split_and!.
  - apply NoDup_inserted_digests, (NoDup_app Y R). rewrite HYR.
    apply NoDup_set_diff; [done|]. apply NoDup_table_keys, Hc.
  - intros d Hd%elem_of_inserted_digests. apply (missing_key _ B d); [apply Hc|].
    rewrite <- HYR. apply elem_of_app. by left.
  - intros Hall. rewrite (Hall R) in HYR; [|by rewrite <- HYR; apply submseteq_inserts_l|done].
    rewrite app_nil_r in HYR. split.
    + rewrite HYR. by rewrite inserted_digests_set_diff.
    + intros d HB' Hd. rewrite elem_of_inserted_digests, HYR. by apply missing_key; [apply Hc|].
Qed.

(** A table a peer built of its key set [B], answered at the same height, makes
    the node request only contents the peer has and the node lacks, each once,
    and nothing else of the node changes but its cached tables; it requests all of
    them whenever no part of the difference gets stuck in the table. *)
Theorem content_iblt_requests_missing size trunk pid tip iblt B u fuel :
  0 < size -> is_u32 size -> Store.get_tip trunk = Some tip -> cache_ok (store u) -> NoDup B ->
  build (E:=Error) size NH K0 K1 B = Ok iblt ->
  honest (new_params size NH K0 K1) (set_diff B (stored_keys (store u))) ->
  (length (stored_keys (store u)) + length B + 2 <= fuel)%nat ->
  exists s' request,
    UpdaterOps.on_content_iblt fuel trunk pid tip iblt u =
      (Ok (Some ()),
       let t := timeout_received pid 1 R_ContentIBLT (timeout u) in
       if decide (request = []) then advance u s' t []
       else advance u s' (timeout_expect pid (Z.of_nat (length request)) R_Content t)
              [(pid, Get request)]) /\
    cache_ok s' /\ s' = Store.set_iblts (iblts s') (store u) /\ NoDup request /\
    (forall d, d ∈ request ->
       mkContentKey d ∈ B /\ Db.content (db (store u)) !! to_hex d = None) /\
    ((forall R, R ⊆+ set_diff B (stored_keys (store u)) -> stuck (new_params size NH K0 K1) R -> R = []) ->
     forall d, mkContentKey d ∈ B -> Db.content (db (store u)) !! to_hex d = None -> d ∈ request).
Proof.
  intros Hsize Hu Htip Hc HB Hbuild Hh Hf.
  destruct (on_content_iblt_run size trunk pid tip iblt B u Hsize Hu Htip Hc HB)
    as (s' & Y & R & Hc' & Hset & HYR & Hst & Hrun); [by apply build_table_of|done|].
  destruct (request_of_peeled _ _ B Y R Hc HB HYR Hst) as (Hnd & Hin & Hall).
  exists s', (omap inserted_digest Y). split; [by apply Hrun|]. split_and!; [done..|].
  intros Hun. by apply Hall.
Qed.

(** ** Delivery *)

Lemma on_get_delivers pid ids (f : digest -> Content) u :
  (forall d, d ∈ ids -> ContentTable.read_content d (db (store u)) = Ok (Some (f d))) ->
  UpdaterOps.on_get pid ids u =
    (Ok (), advance u (store u) (timeout u) ((λ d, (pid, ContentMessage (f d))) <$> ids)).
Proof.
  revert u. induction ids as [|d ids IH]; intros u Hf.
  { unfold advance. cbn [fmap list_fmap]. rewrite app_nil_r. by destruct u. }
  unfold UpdaterOps.on_get. cbn [for_each_do].
  pose proof (Hf d (list_elem_of_here _ _)) as Hd.
  rewrite (action_bind_ok _ _ u () (advance u (store u) (timeout u) [(pid, ContentMessage (f d))])).
  2: { rewrite (action_bind_ok _ _ u (Some (f d)) u); [done|].
       unfold Store.get_content. by rewrite Hd. }
  etrans; [apply IH; intros d' Hd'; apply Hf; by apply list_elem_of_further|].
  unfold advance. cbn [outbox store timeout poll_asked last_polled]. by rewrite <- app_assoc.
Qed.

Lemma on_get_missing pid pre d post (f : digest -> Content) u :
  (forall d, d ∈ pre -> ContentTable.read_content d (db (store u)) = Ok (Some (f d))) ->
  Db.content (db (store u)) !! to_hex d = None ->
  UpdaterOps.on_get pid (pre ++ d :: post) u =
    (Panicked UnwrapOnErr,
     advance u (store u) (timeout u) ((λ d, (pid, ContentMessage (f d))) <$> pre)).
Proof.
  revert u. induction pre as [|d' pre IH]; intros u Hf Hd.
  { unfold advance. cbn [fmap list_fmap app]. rewrite app_nil_r. unfold UpdaterOps.on_get.
    cbn [for_each_do]. unfold mbind, action_bind, Store.get_content, ContentTable.read_content.
    rewrite Hd. by destruct u. }
  unfold UpdaterOps.on_get. cbn [app for_each_do].
  pose proof (Hf d' (list_elem_of_here _ _)) as Hd'.
  rewrite (action_bind_ok _ _ u () (advance u (store u) (timeout u) [(pid, ContentMessage (f d'))])).
  2: { rewrite (action_bind_ok _ _ u (Some (f d')) u); [done|].
       unfold Store.get_content. by rewrite Hd'. }
  etrans; [apply IH; [intros d2 Hd2; apply Hf; by apply list_elem_of_further|done]|].
  unfold advance. cbn [outbox store timeout poll_asked last_polled fmap list_fmap].
  by rewrite <- app_assoc.
Qed.

(** The contents a peer asked for are sent in the order of the request, nothing
    else of the node changes; a digest that is not stored, for instance
    because the content was truncated meanwhile, panics the thread after what
    precedes it was sent. *)
Theorem get_spec pid ids (f : digest -> Content) u :
  (forall d, d ∈ ids -> ContentTable.read_content d (db (store u)) = Ok (Some (f d))) ->
  UpdaterOps.on_get pid ids u =
    (Ok (), advance u (store u) (timeout u) ((λ d, (pid, ContentMessage (f d))) <$> ids)) /\
  (forall d post, Db.content (db (store u)) !! to_hex d = None ->
     UpdaterOps.on_get pid (ids ++ d :: post) u =
       (Panicked UnwrapOnErr,
        advance u (store u) (timeout u) ((λ d, (pid, ContentMessage (f d))) <$> ids))).
Proof. intros Hf. split; [by apply on_get_delivers|]. intros d post Hd. by apply on_get_missing. Qed.
End Handlers.
