(* ===== verification/UpdaterSync.v ===== *)
(** * Two nodes that exchange their contents

    A node that receives the contents it asked for stores them all; one round of
    table, request and delivery between two nodes at the same height leaves
    the asking node with the contents of both. *)

From S2P Require Import Prelude Machine IbltTable IbltCells IbltAlgebra IbltRefine IbltPeel IbltSync.
From S2P Require Import Sketch Keys Strings Text Bitcoin Content Effects Db DbContent DbContentSpec.
From S2P Require Import Wallet DbWallet Trunk Store StoreTables StoreSpec Messages Updater UpdaterSpec.
#[local] Open Scope Z_scope.

Section Sync.
Context `{SipHasher, Snap, !SnapLaws, BitcoinLaws, !Cbor Ad, SQLiteLaws, !WalletCrate, !AccountStorage}.
Context `{!Peers, !Timeouts ExpectedReply}.
Implicit Types (u a b : Updater) (s : ContentStore) (c : Content) (trunk : Trunk).
#[local] Opaque generate_ksequence.

(** ** Truncation of a store within its limit *)

Definition total_length s : Z := sum_length (map_to_list (Db.content (db s))).

(** Lengths are not negative, and everything fits. *)
Definition fits s (extra : Z) : Prop :=
  (forall id r, Db.content (db s) !! id = Some r -> 0 <= r_length r) /\
  total_length s + extra <= storage_limit s /\ total_length s + extra < 2 ^ 64.

Lemma truncate_noop s : fits s 0 -> Store.truncate_to_limit s = (Ok (), s).
Proof.
  intros (Hlen & Hlim & Hmax). pose proof (rows_by_weight_perm (db s)) as Hperm.
  assert (sum_length (rows_by_weight (db s)) = total_length s) as Hs by by apply sum_length_perm.
  assert (Forall (λ '(_, r), 0 <= r_length r) (rows_by_weight (db s))) as Hnn.
  { rewrite Hperm. apply Forall_forall. intros [id r] Hr%elem_of_map_to_list. by apply (Hlen id). }
  destruct (over_limit_loop (storage_limit s) (rows_by_weight (db s)) 0 [] ltac:(done) Hnn)
    as (kept & dropped & Hrows & Hloop & Hk & Hd); [lia|].
  assert (dropped = []) as ->.
  { destruct dropped as [|x rest]; [done|]. specialize (Hd x rest eq_refl).
    rewrite Hrows in Hs, Hnn. apply Forall_app in Hnn as [_ Hnn].
    apply Forall_cons in Hnn as [_ Hnn%sum_length_nonneg].
    rewrite sum_length_app in Hs. destruct x as [i r]. simpl in *. lia. }
  assert (ContentTable.truncate_content (storage_limit s) (db s) = (Ok [], db s)) as Hop.
  { unfold ContentTable.truncate_content, gets, mbind, action_bind. unfold ContentTable.over_limit.
    unfold rows_by_weight in Hloop. by rewrite Hloop. }
  apply in_transaction_ok. unfold gets, mbind, action_bind, Store.on_db, zoom.
  rewrite Hop. by destruct s.
Qed.

(** ** Delivery of contents *)

(** A content the node accepts at its trunk. *)
Definition acceptable trunk c : Prop :=
  storable c /\ exists height header o, committed trunk c height header o.

Definition stored_in s (d : digest) : Prop := is_Some (Db.content (db s) !! to_hex d).

Lemma stored_keys_elem s d : cache_ok s -> mkContentKey d ∈ stored_keys s <-> stored_in s d.
Proof. intros [Hwf _]. unfold stored_keys. by rewrite elem_of_table_keys. Qed.

Lemma total_length_insert s s' d r :
  Db.content (db s) !! to_hex d = None ->
  Db.content (db s') = <[to_hex d := r]> (Db.content (db s)) ->
  total_length s' = r_length r + total_length s.
Proof.
  intros Hnew Hs'. unfold total_length. rewrite Hs'.
  by rewrite (sum_length_perm _ _ (map_to_list_insert _ _ r Hnew)).
Qed.

Lemma add_content_fits trunk c s rest :
  cache_ok s -> sketch_ok s -> acceptable trunk c -> ~ is_stored c s -> 0 <= rest ->
  fits s (content_length c + rest) ->
  exists s', Store.add_content trunk c s = (Ok true, s') /\ cache_ok s' /\ sketch_ok s' /\
    stored_keys s' ≡ₚ content_key c :: stored_keys s /\ fits s' rest.
Proof.
  intros Hc Hs [Hst (height & header & o & Hcom)] Hnew Hrest (Hlen & Hlim & Hmax).
  destruct (add_fresh_sync trunk c height header o s Hc Hs Hst Hcom Hnew)
    as (s' & Hrun & Hc' & Hs' & Hk).
  exists s'. split_and!; [done..|]. pose proof Hrun as Hrun0.
  destruct (accept_content_spec height header c o s Hc (sketch_ok_shape s Hs) (storable_encodable c Hst))
    as (s2 & text & Hrun2 & _ & Hdb & _ & _ & _ & [_ Hl] & _).
  rewrite (add_content_committed _ _ _ _ _ _ Hcom), Hrun2 in Hrun.
  injection Hrun as ->. pose proof (f_equal Db.content Hdb) as Hct.
  cbn [Db.content set_content] in Hct.
  assert (Db.content (db s) !! to_hex (AdOps.digest_of (ad c)) = None) as Hnone
    by (by apply eq_None_not_Some).
  pose proof (total_length_insert s s' _ _ Hnone Hct) as Htot. cbn [r_length ContentTable.content_row] in Htot.
  assert (0 <= content_length c) as Hcl by (apply u32_range).
  unfold fits. rewrite Htot, Hl. split_and!; [|lia..].
  intros id r. rewrite Hct. intros [[_ <-]|[_ Hr]]%lookup_insert_Some; [exact Hcl|by eapply Hlen].
Qed.

(** What the delivered contents leave alone. *)
Definition only_store u u' : Prop :=
  outbox u' = outbox u /\ poll_asked u' = poll_asked u /\ last_polled u' = last_polled u.

Lemma on_content_fresh trunk pid c u rest :
  cache_ok (store u) -> sketch_ok (store u) -> acceptable trunk c -> ~ is_stored c (store u) ->
  0 <= rest -> fits (store u) (content_length c + rest) ->
  exists u', UpdaterOps.on_content trunk pid c u = (Ok (), u') /\ only_store u u' /\
    cache_ok (store u') /\ sketch_ok (store u') /\
    stored_keys (store u') ≡ₚ content_key c :: stored_keys (store u) /\ fits (store u') rest.
Proof.
  intros Hc Hs Hacc Hnew Hrest Hfits.
  destruct (add_content_fits trunk c (store u) rest Hc Hs Hacc Hnew Hrest Hfits)
    as (s' & Hrun & Hc' & Hs' & Hk & Hfits').
  set (u1 := UpdaterOps.set_timeout (timeout_received pid 1 R_Content (timeout u)) u).
  exists (UpdaterOps.set_store s' u1). split_and!; [|done|done|done|done..].
  unfold UpdaterOps.on_content. rewrite (action_bind_ok _ _ u () u1) by done.
  rewrite (action_bind_ok _ _ u1 false (UpdaterOps.set_store s' u1)).
  2: { unfold UpdaterOps.on_store, zoom, is_err. cbn [store u1 UpdaterOps.set_timeout].
       by rewrite Hrun. }
  unfold gets, mbind, action_bind. destruct (negb _); [|done].
  unfold UpdaterOps.on_store, zoom, expect_action. cbn [store UpdaterOps.set_store].
  rewrite truncate_noop; [done|]. destruct Hfits' as (? & ? & ?). split; [done|]. lia.
Qed.

Lemma deliver_all trunk pid cs u :
  cache_ok (store u) -> sketch_ok (store u) ->
  (forall c, c ∈ cs -> acceptable trunk c /\ ~ is_stored c (store u)) ->
  NoDup (content_key <$> cs) ->
  fits (store u) (foldr (λ c n, content_length c + n) 0 cs) ->
  exists u', for_each_do cs (UpdaterOps.on_content trunk pid) u = (Ok (), u') /\ only_store u u' /\
    cache_ok (store u') /\ sketch_ok (store u') /\
    stored_keys (store u') ≡ₚ (content_key <$> cs) ++ stored_keys (store u).
Proof.
  revert u. induction cs as [|c cs IH]; intros u Hc Hs Hcs Hnd Hfits; [by exists u|].
  rewrite fmap_cons in Hnd. apply NoDup_cons in Hnd as [Hnin Hnd].
  destruct (Hcs c (list_elem_of_here _ _)) as [Hacc Hnew].
  assert (0 <= foldr (λ c n, content_length c + n) 0 cs) as Hrest.
  { clear. induction cs as [|c cs IH]; simpl; [lia|].
    pose proof (u32_range (Z.of_nat (length (AdOps.serialize (ad c))))) as [? _].
    fold (content_length c) in *. lia. }
  destruct (on_content_fresh trunk pid c u _ Hc Hs Hacc Hnew Hrest Hfits)
    as (u1 & Hrun & (Ho & Hp & Hl) & Hc1 & Hs1 & Hk1 & Hfits1).
  destruct (IH u1 Hc1 Hs1) as (u' & Hrun' & (Ho' & Hp' & Hl') & Hc' & Hs' & Hk'); [|done|done|].
  { intros c' Hin. destruct (Hcs c' (list_elem_of_further _ _ _ Hin)) as [Hacc' Hnew'].
    split; [done|]. intros Hst. apply (stored_keys_elem _ _ Hc1) in Hst.
    rewrite Hk1 in Hst. apply elem_of_cons in Hst as [Heq|Hst].
    - apply Hnin. apply list_elem_of_fmap. exists c'. by split.
    - apply Hnew'. by apply (stored_keys_elem _ _ Hc). }
  exists u'. cbn [for_each_do]. rewrite (action_bind_ok _ _ _ _ _ Hrun).
  split; [done|]. split; [split_and!; congruence|]. split_and!; [done|done|].
  rewrite Hk', Hk1, fmap_cons. cbn [app]. by rewrite Permutation_middle.
Qed.


(** ** One round between two nodes *)

Lemma fits_perm s (cs cs' : list Content) :
  cs ≡ₚ cs' -> fits s (foldr (λ c n, content_length c + n) 0 cs) ->
  fits s (foldr (λ c n, content_length c + n) 0 cs').
Proof.
  intros Hp. assert (foldr (λ c n, content_length c + n) 0 cs =
                     foldr (λ c n, content_length c + n) 0 cs') as ->; [|done].
  induction Hp; simpl; lia.
Qed.

(** The contents of [y] that [x] lacks can be brought over with a table of [size]
    cells: check sums do not lie on the difference, no part of it gets stuck in
    the table, [y] reads each missing content [f d] back under its digest, [x]
    finds it committed to on its trunk and has the room. *)
Record supplies trunk (size : Z) (f : digest -> Content) (x y : ContentStore) : Prop := {
  sup_honest : honest (new_params size NH K0 K1) (set_diff (stored_keys y) (stored_keys x));
  sup_listed : forall R, R ⊆+ set_diff (stored_keys y) (stored_keys x) ->
    stuck (new_params size NH K0 K1) R -> R = [];
  sup_content : forall d, stored_in y d -> ~ stored_in x d ->
    ContentTable.read_content d (db y) = Ok (Some (f d)) /\ AdOps.digest_of (ad (f d)) = d /\ acceptable trunk (f d);
  sup_fits : fits x (foldr (λ c n, content_length c + n) 0
    (f <$> (ck_digest <$> list_difference (stored_keys y) (stored_keys x))))
}.

(** The digests of [y]'s contents that [x] lacks, each once. *)
Definition missing (x y : ContentStore) (request : list digest) : Prop :=
  NoDup request /\ request ≡ₚ ck_digest <$> list_difference (stored_keys y) (stored_keys x) /\
  forall d, d ∈ request <-> stored_in y d /\ ~ stored_in x d.

(** A store that differs from [s] in its cached tables only. *)
Definition caches s s' : Prop := cache_ok s' /\ s' = Store.set_iblts (iblts s') s.

Lemma caches_trans s1 s2 s3 : caches s1 s2 -> caches s2 s3 -> caches s1 s3.
Proof. intros [_ H12] [Hc H23]. split; [done|]. rewrite H23. by rewrite H12. Qed.

(** The request that a table of [y] makes [x] send. *)
Lemma request_missing size trunk f pid tip t y u :
  0 < size -> is_u32 size -> Store.get_tip trunk = Some tip -> cache_ok (store u) -> cache_ok y ->
  table_of size (stored_keys y) t -> supplies trunk size f (store u) y ->
  exists request s', missing (store u) y request /\ caches (store u) s' /\
    forall fuel, (length (stored_keys (store u)) + length (stored_keys y) + 2 <= fuel)%nat ->
    exists t', UpdaterOps.on_content_iblt fuel trunk pid tip t u =
      (Ok (Some ()), advance u s' t' (if decide (request = []) then [] else [(pid, Get request)])).
Proof.
  intros Hsize Hu Htip Hcx Hcy Ht Hsup.
  pose proof (NoDup_table_keys _ (proj1 Hcy)) as HB. fold (stored_keys y) in HB.
  destruct (on_content_iblt_run size trunk pid tip t (stored_keys y) u Hsize Hu Htip Hcx HB Ht
    (sup_honest _ _ _ _ _ Hsup)) as (s' & Y & R & Hc' & Hset & HYR & Hst & Hrun).
  destruct (request_of_peeled _ _ _ Y R Hcx HB HYR Hst) as (Hnd & Hin & Hall).
  destruct (Hall (sup_listed _ _ _ _ _ Hsup)) as [Hperm Hcomplete].
  exists (omap inserted_digest Y), s'. split_and!.
  - split_and!; [done|done|]. intros d. split.
    + intros Hd. destruct (Hin d Hd) as [Hy Hx]. split; [by apply stored_keys_elem in Hy|].
      by apply eq_None_not_Some.
    + intros [Hy Hx]. apply Hcomplete; [by apply stored_keys_elem|by apply eq_None_not_Some].
  - by split.
  - intros fuel Hfuel. rewrite (Hrun fuel Hfuel). cbv zeta. by case_decide; eexists.
Qed.

(** The missing contents, delivered in any order. *)
Lemma missing_delivered size trunk f pid request y s0 u :
  cache_ok s0 -> sketch_ok s0 -> cache_ok y -> supplies trunk size f s0 y -> missing s0 y request ->
  caches s0 (store u) ->
  exists u', for_each_do (f <$> request) (UpdaterOps.on_content trunk pid) u = (Ok (), u') /\ only_store u u' /\
    cache_ok (store u') /\ sketch_ok (store u') /\
    forall d, stored_in (store u') d <-> stored_in s0 d \/ stored_in y d.
Proof.
  intros Hc0 Hs0 Hcy Hsup (Hnd & Hperm & Hin) [Hcu Hset].
  assert (stored_keys (store u) = stored_keys s0) as Hk by by rewrite Hset.
  assert (content_key <$> (f <$> request) = mkContentKey <$> request) as Hck.
  { rewrite <- list_fmap_compose. apply list_fmap_ext. intros i d Hd%list_elem_of_lookup_2.
    apply Hin in Hd as [Hy Hx]. unfold compose, content_key.
    by destruct (sup_content _ _ _ _ _ Hsup d Hy Hx) as (_ & -> & _). }
  destruct (deliver_all trunk pid (f <$> request) u) as (u' & Hrun & Honly & Hc' & Hs' & Hk'); [done| | | | |].
  { rewrite Hset. exact Hs0. }
  { intros c (d & -> & Hd)%list_elem_of_fmap. apply Hin in Hd as [Hy Hx].
    destruct (sup_content _ _ _ _ _ Hsup d Hy Hx) as (_ & Hdig & Hacc). split; [done|].
    unfold is_stored. rewrite Hdig, Hset. exact Hx. }
  { rewrite Hck. apply NoDup_fmap_2; [|done]. by intros x' y' [= ->]. }
  { rewrite Hset. refine (fits_perm s0 _ _ _ (sup_fits _ _ _ _ _ Hsup)). by rewrite Hperm. }
  exists u'. split_and!; [done..|]. intros d.
  rewrite <- (stored_keys_elem _ _ Hc'), Hk', Hck, Hk, elem_of_app, (stored_keys_elem s0 d Hc0), list_elem_of_fmap.
  split.
  - intros [(d' & [= <-] & Hd)|Hd]; [right|by left]. by apply Hin.
  - intros [Hd|Hd]; [by right|].
    destruct (decide (is_Some (Db.content (db s0) !! to_hex d))) as [Ha|Ha]; [by right|left].
    exists d. split; [done|]. by apply Hin.
Qed.

(** The node [a] answers the table [t] that [b] computed of its contents, [b]
    serves the request and [a] takes the contents in. If [b] can supply with a
    table of this size what [a] lacks, then [a] asks for exactly that and ends with
    exactly the contents of both, and with cached tables, sketch and count of
    what it stores. *)
Theorem exchange_converges size trunk tip pa pb (f : digest -> Content) a b t sb fuel :
  0 < size -> is_u32 size -> Store.get_tip trunk = Some tip ->
  cache_ok (store a) -> sketch_ok (store a) -> cache_ok (store b) ->
  Store.get_iblt size (store b) = (Ok t, sb) -> supplies trunk size f (store a) (store b) ->
  (length (stored_keys (store a)) + length (stored_keys (store b)) + 2 <= fuel)%nat ->
  exists request a1 b1 a2,
    UpdaterOps.on_content_iblt fuel trunk pb tip t a = (Ok (Some ()), a1) /\
    outbox a1 = outbox a ++ (if decide (request = []) then [] else [(pb, Get request)]) /\
    (forall d, d ∈ request <-> stored_in (store b) d /\ ~ stored_in (store a) d) /\
    UpdaterOps.on_get pa request b = (Ok (), b1) /\
    outbox b1 = outbox b ++ ((λ d, (pa, ContentMessage (f d))) <$> request) /\
    for_each_do (f <$> request) (UpdaterOps.on_content trunk pb) a1 = (Ok (), a2) /\
    cache_ok (store a2) /\ sketch_ok (store a2) /\
    forall d, stored_in (store a2) d <-> stored_in (store a) d \/ stored_in (store b) d.
Proof.
  intros Hsize Hu Htip Hca Hsa Hcb Hget Hsup Hfuel.
  destruct (get_iblt_spec size (store b) Hcb Hsize) as (t' & sb' & Hget' & _ & _ & Hpt & Ht & _).
  rewrite Hget in Hget'. injection Hget' as <- <-.
  destruct (request_missing size trunk f pb tip t (store b) a) as (request & s' & Hmiss & Hcaches & Hrun); [done..|].
  destruct (Hrun fuel Hfuel) as [t' Hrun1].
  match type of Hrun1 with _ = (_, ?x) => set (a1 := x) in * end.
  destruct (missing_delivered size trunk f pb request (store b) (store a) a1) as (a2 & Hrun2 & _ & Hc2 & Hs2 & Hall);
    [done..|].
  exists request, a1, (advance b (store b) (timeout b) ((λ d, (pa, ContentMessage (f d))) <$> request)), a2.
  split_and!; [exact Hrun1|done|apply Hmiss| |done|exact Hrun2|exact Hc2|exact Hs2|exact Hall].
  apply on_get_delivers. intros d [Hy Hx]%Hmiss. by apply (sup_content _ _ _ _ _ Hsup d Hy Hx).
Qed.
End Sync.
