(* ===== verification/UpdaterPoll.v ===== *)
(** * Polls: the size of the table a node answers with, and a round in sync

    The answer to a poll is compared with the question; at the same height the
    node sends a table sized by the estimate.  Every handled message moves the
    store along the steps of StoreSpec.v. *)

From S2P Require Import Prelude Machine IbltTable IbltCells IbltAlgebra IbltRefine IbltPeel IbltSync.
From S2P Require Import Sketch Keys Strings Text Bitcoin Content Effects Db DbContent DbContentSpec.
From S2P Require Import Wallet DbWallet Trunk Store StoreTables StoreSpec Messages Updater UpdaterSpec.
#[local] Open Scope Z_scope.

Section Polls.
Context `{SipHasher, Snap, !SnapLaws, BitcoinLaws, !Cbor Ad, SQLiteLaws, !WalletCrate, !AccountStorage}.
Context `{!Peers, !Timeouts ExpectedReply}.
Implicit Types (u a b : Updater) (s : ContentStore) (trunk : Trunk).
#[local] Opaque generate_ksequence.

Definition after_poll pid u (s : ContentStore) (sent : list (PeerId * Message)) : Updater :=
  advance u s (timeout_received pid 1 R_PollContent (timeout u)) sent.

Lemma poll_reply_cases trunk pid question poll diff u :
  cache_ok (store u) ->
  estimate_diff_size (E:=Error) (pc_sketch question) (pc_size question) (pc_sketch poll) (pc_size poll) =
    Ok diff ->
  let wanted := u32 (diff * 3) / 2 in
  (0 < wanted -> forall tip, Store.get_tip trunk = Some tip -> pc_tip question = tip -> pc_tip poll = tip ->
   exists r t s', (r <= 8)%nat /\
     grow_size 16 MAXIMUM_IBLT_SIZE wanted MINIMUM_IBLT_SIZE = table_size r /\
     UpdaterOps.poll_reply trunk pid question poll u =
       (Ok (), UpdaterOps.set_timeout (timeout_expect pid 1 R_ContentIBLT
                 (timeout_received pid 1 R_PollContent (timeout u)))
                 (after_poll pid u s' [(pid, ContentIBLT tip t)])) /\
     table_of (table_size r) (stored_keys (store u)) t /\
     cache_ok s' /\ s' = Store.set_iblts (iblts s') (store u) /\
     (r = 8%nat \/ wanted <= table_size r) /\ (forall q, (q < r)%nat -> table_size q < wanted)) /\
  (wanted = 0 \/ ~ (Store.get_tip trunk = Some (pc_tip question) /\ pc_tip question = pc_tip poll) ->
   UpdaterOps.poll_reply trunk pid question poll u = (Ok (), after_poll pid u (store u) [])).
Proof.
  intros Hc Hest wanted. unfold UpdaterOps.poll_reply.
  set (u1 := UpdaterOps.set_timeout (timeout_received pid 1 R_PollContent (timeout u)) u).
  assert (u1 = after_poll pid u (store u) []) as Hu1.
  { unfold after_poll, advance. by rewrite app_nil_r. }
  split.
  - intros Hw tip Htip Hq Hp.
    destruct (grow_size_spec 16 wanted 8 0) as (r & Hr & Hgrow & Hor & Hmin); [lia|lia|].
    change (table_size 8) with MAXIMUM_IBLT_SIZE in Hgrow. change (table_size 0) with MINIMUM_IBLT_SIZE in Hgrow.
    assert (0 < table_size r) as Hpos by (pose proof (table_size_mono 0 r ltac:(lia)) as H0';
      change (table_size 0) with 100 in H0'; lia).
    destruct (on_store_get_iblt (table_size r) u1 Hc Hpos) as (t & s' & Hrun & Hc' & Hset & Hpt & Ht).
    exists r, t, s'. split_and!; [lia|exact Hgrow| |done..|intros; apply Hmin; lia].
    rewrite (action_bind_ok _ _ u () u1) by done. rewrite Htip, decide_True by (split; congruence).
    rewrite (action_bind_ok (lift _) _ _ diff u1) by (unfold lift; by rewrite Hest).
    cbv zeta. fold wanted. rewrite (proj2 (Z.ltb_lt _ _) Hw), Hgrow.
    rewrite (action_bind_ok _ _ _ _ _ Hrun). done.
  - intros Hno. rewrite (action_bind_ok _ _ u () u1) by done. rewrite Hu1.
    destruct (Store.get_tip trunk) as [tip|] eqn:Htip; [|done].
    case_decide as Ht; [|done].
    rewrite (action_bind_ok (lift _) _ _ diff (after_poll pid u (store u) [])) by (unfold lift; by rewrite Hest).
    destruct Hno as [Hw|Hno]; [|exfalso; apply Hno; naive_solver].
    cbv zeta. fold wanted. by rewrite Hw.
Qed.

(** A node that gets the answer to its poll at an unchanged height sends a table
    of its contents whose size is the least of 100, 400, 1600, .. that reaches
    one and a half times the estimated difference, or the maximum 6553600, and
    expects a table back; it sends nothing when the estimate is zero or when the
    heights differ. *)
Theorem poll_reply_spec trunk pid question poll diff u :
  cache_ok (store u) ->
  estimate_diff_size (E:=Error) (pc_sketch question) (pc_size question) (pc_sketch poll) (pc_size poll) =
    Ok diff ->
  let wanted := u32 (diff * 3) / 2 in
  (0 < wanted -> forall tip, Store.get_tip trunk = Some tip -> pc_tip question = tip -> pc_tip poll = tip ->
   exists r t s', (r <= 8)%nat /\
     grow_size 16 MAXIMUM_IBLT_SIZE wanted MINIMUM_IBLT_SIZE = table_size r /\
     UpdaterOps.poll_reply trunk pid question poll u =
       (Ok (), UpdaterOps.set_timeout (timeout_expect pid 1 R_ContentIBLT
                 (timeout_received pid 1 R_PollContent (timeout u)))
                 (after_poll pid u s' [(pid, ContentIBLT tip t)])) /\
     table_of (table_size r) (stored_keys (store u)) t /\
     cache_ok s' /\ s' = Store.set_iblts (iblts s') (store u) /\
     (r = 8%nat \/ wanted <= table_size r) /\ (forall q, (q < r)%nat -> table_size q < wanted)) /\
  (wanted = 0 \/ ~ (Store.get_tip trunk = Some (pc_tip question) /\ pc_tip question = pc_tip poll) ->
   UpdaterOps.poll_reply trunk pid question poll u = (Ok (), after_poll pid u (store u) [])).
Proof. apply poll_reply_cases. Qed.

(** ** A round between nodes in sync *)

Lemma poll_content_run trunk tip pid u :
  Store.get_tip trunk = Some tip ->
  UpdaterOps.poll_content trunk pid u =
  (Ok (), UpdaterOps.set_poll_asked (<[pid := UpdaterOps.our_poll tip (store u)]> (poll_asked u))
     (advance u (store u) (timeout_expect pid 1 R_PollContent (timeout u))
        [(pid, PollContent (UpdaterOps.our_poll tip (store u)))])).
Proof. intros Htip. unfold UpdaterOps.poll_content. rewrite Htip. by destruct u. Qed.

Lemma on_poll_unasked trunk pid poll u :
  poll_asked u !! pid = None -> UpdaterOps.on_poll trunk pid poll u = UpdaterOps.poll_content trunk pid u.
Proof. intros Hp. unfold UpdaterOps.on_poll, gets, mbind, action_bind. by rewrite Hp. Qed.

Lemma on_poll_asked trunk pid poll question u :
  poll_asked u !! pid = Some question ->
  UpdaterOps.on_poll trunk pid poll u =
  UpdaterOps.poll_reply trunk pid question poll
    (UpdaterOps.set_poll_asked (delete pid (poll_asked u)) u).
Proof. intros Hp. unfold UpdaterOps.on_poll, gets, mbind, action_bind. by rewrite Hp. Qed.

(** Stores of the same contents make the same poll, whose estimate is zero. *)
Lemma our_poll_same tip s s' :
  sketch_ok s -> sketch_ok s' -> stored_keys s ≡ₚ stored_keys s' ->
  UpdaterOps.our_poll tip s = UpdaterOps.our_poll tip s'.
Proof.
  intros (_ & Hm & Hn) (_ & Hm' & Hn') Hk. unfold UpdaterOps.our_poll, Store.get_sketch, Store.get_nkeys.
  rewrite Hm, Hm', Hn, Hn', (Permutation_length Hk). f_equal. by apply sketch_of_proper.
Qed.

Lemma our_poll_estimate tip s :
  sketch_ok s ->
  let p := UpdaterOps.our_poll tip s in
  estimate_diff_size (E:=Error) (pc_sketch p) (pc_size p) (pc_sketch p) (pc_size p) = Ok 0.
Proof.
  intros (_ & Hm & _). cbn. rewrite estimate_self. unfold Store.get_sketch. rewrite Hm, sketch_of_length.
  unfold content_ksequence. rewrite generate_ksequence_length.
  exact (f_equal Ok (full_share_20 _)).
Qed.

(** C25: Nodes with equal contents at the same height agree on it with one message
    each: [a] polls [b] after a minute of silence, [b] answers with its own poll,
    and [a] sends nothing more. Only [a] settles its books: [b] is left with an
    answer it expects and a question it remembers. *)
Theorem poll_round_in_sync trunk tip now pa pb a b :
  Store.get_tip trunk = Some tip ->
  cache_ok (store a) -> sketch_ok (store a) -> sketch_ok (store b) ->
  stored_keys (store a) ≡ₚ stored_keys (store b) ->
  poll_asked b !! pa = None ->
  last_polled a + 61 * 1000000000 <= now ->
  let kinds := [R_PollContent; R_ContentIBLT; R_Content; R_Get] in
  let poll := UpdaterOps.our_poll tip (store a) in
  exists a1 b1 a2,
    UpdaterOps.idle trunk now (Some pb) a = (Ok (), a1) /\ outbox a1 = outbox a ++ [(pb, PollContent poll)] /\
    UpdaterOps.on_poll trunk pa poll b = (Ok (), b1) /\ outbox b1 = outbox b ++ [(pa, PollContent poll)] /\
    UpdaterOps.on_poll trunk pb poll a1 = (Ok (), a2) /\ outbox a2 = outbox a1 /\
    poll_asked a2 = delete pb (poll_asked a) /\
    timeout a2 = timeout_received pb 1 R_PollContent
                   (timeout_expect pb 1 R_PollContent (timeout_check kinds (timeout a))) /\
    poll_asked b1 = <[pa := poll]> (poll_asked b) /\
    timeout b1 = timeout_expect pa 1 R_PollContent (timeout b).
Proof.
  intros Htip Hca Hsa Hsb Hk Hnb Hnow kinds poll.
  assert (UpdaterOps.our_poll tip (store b) = poll) as Hpb by by apply our_poll_same.
  set (a1 := UpdaterOps.set_timeout (timeout_expect pb 1 R_PollContent (timeout_check kinds (timeout a)))
    (UpdaterOps.set_poll_asked (<[pb := poll]> (poll_asked a))
    (UpdaterOps.set_outbox (outbox a ++ [(pb, PollContent poll)]) (UpdaterOps.set_last_polled now a)))).
  assert (UpdaterOps.idle trunk now (Some pb) a = (Ok (), a1)) as Hidle.
  { unfold UpdaterOps.idle, duration_since. unfold modify, mbind, action_bind. cbn [last_polled UpdaterOps.set_timeout].
    rewrite (proj2 (Z.leb_le _ _)) by lia.
    assert (POLL_FREQUENCY <? as_secs (now - last_polled a) = true) as ->.
    { apply Z.ltb_lt. unfold POLL_FREQUENCY, as_secs. Z.to_euclidean_division_equations. lia. }
    by rewrite Htip. }
  exists a1. eexists _, _. split; [exact Hidle|]. split; [done|].
  rewrite on_poll_unasked by done. rewrite (poll_content_run trunk tip) by done. rewrite Hpb.
  split; [reflexivity|]. split; [done|].
  rewrite (on_poll_asked _ _ _ poll) by apply lookup_insert_eq.
  destruct (poll_reply_cases trunk pb poll poll 0 (UpdaterOps.set_poll_asked (delete pb (poll_asked a1)) a1))
    as [_ Hquiet]; [exact Hca|by apply our_poll_estimate|].
  rewrite Hquiet by (by left). split; [reflexivity|].
  split_and!; [apply app_nil_r|apply delete_insert_eq|done..].
Qed.


(** ** Refinement of the store's steps *)

Lemma on_store_inv {A} (m : action ContentStore Error A) u x u' :
  UpdaterOps.on_store (expect_action m) u = (Ok x, u') -> m (store u) = (Ok x, store u').
Proof.
  unfold UpdaterOps.on_store, zoom, expect_action. destruct (m (store u)) as [[y|e|p] s]; [|done..].
  by intros [= -> <-].
Qed.

(** What a message does to the store: the steps of a store in sync, as long as no
    stored content comes again and tables have cells; and in any case the loose
    invariant stays, with [Y] counted once more. *)
Definition moves Y s s' : Prop :=
  (forall X, recounted X s -> recounted (Y ++ X) s') /\
  (in_sync s -> Y = [] -> with_cells (iblts s') -> steps s s').

Lemma moves_refl s : moves [] s s.
Proof. by split. Qed.

Lemma moves_same s s' : s' = s -> moves [] s s'.
Proof. intros ->. apply moves_refl. Qed.

Lemma get_iblt_moves size u t u' :
  UpdaterOps.on_store (expect_action (Store.get_iblt size)) u = (Ok t, u') ->
  moves [] (store u) (store u').
Proof.
  intros Hrun%on_store_inv. split.
  - intros X (Hwf & Hm & Hsh & Hor).
    assert (0 < size \/ Db.content (db (store u)) = ∅) as Hsize.
    { destruct (decide (0 < size)) as [|Hz]; [by left|right].
      destruct (decide (Db.content (db (store u)) = ∅)) as [|Hne]; [done|].
      rewrite (get_iblt_panics size _ Hwf) in Hrun by (done || lia). done. }
    destruct (get_iblt_hold size _ X Hwf Hm Hsize) as (t' & m' & Hrun' & Hm' & Hc).
    rewrite Hrun' in Hrun. injection Hrun as _ <-.
    split; [done|]. split; [done|]. split; [done|].
    destruct Hor as [Hcells|]; [|by right]. destruct Hsize as [Hpos|]; [left; by apply Hc|by right].
  - intros [Hc Hsh] _ Hcells. destruct (decide (0 < size)) as [Hpos|Hz];
      [by apply rtc_once, (step_get_iblt size t)|].
    apply cache_ok_hold in Hc as (_ & _ & Hcells0). destruct (iblts (store u) !! size) as [t0|] eqn:Ht0.
    { by destruct Hz; apply (Hcells0 size t0). }
    exfalso. apply Hz. unfold Store.get_iblt in Hrun. apply action_bind_inv in Hrun as (t1 & s1 & Hq & Hrun).
    unfold Store.query in Hq. apply pair_equal_spec in Hq as [_ <-].
    apply action_bind_inv in Hrun as (c & s2 & [= <- <-] & Hrun). rewrite Ht0 in Hrun.
    injection Hrun as _ Heq. apply (Hcells size t1). rewrite <- Heq. cbn. by rewrite lookup_insert_eq.
Qed.

Lemma poll_content_store trunk pid u x u' :
  UpdaterOps.poll_content trunk pid u = (Ok x, u') -> store u' = store u.
Proof.
  unfold UpdaterOps.poll_content. destruct (Store.get_tip trunk); [|by intros [= _ <-]].
  by intros [= _ <-].
Qed.

Lemma grow_size_pos fuel diff : (fuel = 16)%nat -> 0 < grow_size fuel MAXIMUM_IBLT_SIZE diff MINIMUM_IBLT_SIZE.
Proof.
  intros ->. destruct (grow_size_spec 16 diff 8 0) as (r & Hr & Hgrow & _); [lia|lia|].
  change (table_size 8) with MAXIMUM_IBLT_SIZE in Hgrow. change (table_size 0) with MINIMUM_IBLT_SIZE in Hgrow.
  rewrite Hgrow. pose proof (table_size_mono 0 r ltac:(lia)) as H0'. change (table_size 0) with 100 in H0'. lia.
Qed.

Lemma poll_reply_moves trunk pid question poll u x u' :
  UpdaterOps.poll_reply trunk pid question poll u = (Ok x, u') -> moves [] (store u) (store u').
Proof.
  unfold UpdaterOps.poll_reply. intros (y & u1 & [= <- <-] & Hrun)%action_bind_inv.
  destruct (Store.get_tip trunk) as [tip|]; [|by apply moves_same; injection Hrun as _ <-].
  case_decide; [|by apply moves_same; injection Hrun as _ <-].
  apply action_bind_inv in Hrun as (diff & u2 & Hl & Hrun). unfold lift in Hl. injection Hl as _ <-.
  cbv zeta in Hrun. case_match; [|by apply moves_same; injection Hrun as _ <-].
  apply action_bind_inv in Hrun as (t & u3 & Hget & Hrun).
  assert (store u' = store u3) as -> by (by injection Hrun as _ <-).
  by apply get_iblt_moves in Hget.
Qed.

Lemma on_poll_moves trunk pid poll u x u' :
  UpdaterOps.on_poll trunk pid poll u = (Ok x, u') -> moves [] (store u) (store u').
Proof.
  destruct (poll_asked u !! pid) as [question|] eqn:Hp.
  - rewrite (on_poll_asked _ _ _ question) by done. apply poll_reply_moves.
  - rewrite on_poll_unasked by done. intros Hrun%poll_content_store. by apply moves_same.
Qed.

Lemma on_content_iblt_moves fuel trunk pid tip iblt u x u' :
  UpdaterOps.on_content_iblt fuel trunk pid tip iblt u = (Ok x, u') -> moves [] (store u) (store u').
Proof.
  unfold UpdaterOps.on_content_iblt. intros (y & u1 & [= <- <-] & Hrun)%action_bind_inv.
  destruct (Store.get_tip trunk) as [our_tip|]; [|by apply moves_same; injection Hrun as _ <-].
  case_decide; [|by apply moves_same; injection Hrun as _ <-]. cbv zeta in Hrun.
  apply action_bind_inv in Hrun as (ours & u2 & Hget & Hrun).
  apply action_bind_inv in Hrun as (diff & u3 & Hl & Hrun). unfold lift in Hl. injection Hl as _ <-.
  apply action_bind_inv in Hrun as (request & u4 & Hl & Hrun). unfold lift in Hl. injection Hl as _ <-.
  assert (store u' = store u2) as ->.
  { destruct request as [request|]; [|by injection Hrun as _ <-].
    destruct (0 <? _); by injection Hrun as _ <-. }
  exact (get_iblt_moves _ _ _ _ Hget).
Qed.

(** An offer that did not panic: what was accepted could be stored. *)
Lemma accepted_moves trunk c height header o s failed s' X :
  committed trunk c height header o -> recounted X s ->
  is_err (E':=Error) (Store.add_content trunk c) s = (Ok failed, s') ->
  encodable c /\ Store.add_content trunk c s = (Ok true, s') /\
  recounted ((if decide (is_stored c s) then [content_key c] else []) ++ X) s'.
Proof.
  intros Hcom Hs Hrun. unfold is_err in Hrun. rewrite (add_content_committed _ _ _ _ _ _ Hcom) in Hrun |- *.
  destruct (decide (encodable c /\ with_cells (iblts s))) as [[Henc Hc]|Hor].
  - destruct (accept_content_recounted X height header c o s Hs Hc Henc) as (s1 & text & Hacc & _ & _ & Hs1 & _).
    rewrite Hacc in Hrun. injection Hrun as _ <-. split; [done|]. split; [done|].
    destruct (decide (is_stored c s)); exact Hs1.
  - exfalso. destruct (accept_content_fails X height header c o s Hs) as (p & s1 & Hp).
    { destruct (decide (encodable c)); [right|left]; tauto. }
    by rewrite Hp in Hrun.
Qed.

Lemma add_content_moves trunk c s failed s' :
  is_err (E':=Error) (Store.add_content trunk c) s = (Ok failed, s') ->
  exists Y, (forall X, recounted X s -> recounted (Y ++ X) s') /\
    (Y = [] \/ (is_stored c s /\ Y = [content_key c])) /\ (in_sync s -> Y = [] -> steps s s').
Proof.
  intros Hrun.
  destruct (add_content_trichotomy trunk c) as [(height & header & o & Hcom)|[[_ Hp]|(_ & _ & Hno)]].
  2: by unfold is_err in Hrun; rewrite Hp in Hrun.
  2: unfold is_err in Hrun; rewrite Hno in Hrun; injection Hrun as _ <-;
     exists []; split_and!; [done|by left|done].
  exists (if decide (is_stored c s) then [content_key c] else []). split_and!.
  - intros X HX. by apply (accepted_moves trunk c height header o s failed).
  - case_decide; [by right|by left].
  - intros [Hc Hsh] HY.
    destruct (accepted_moves trunk c height header o s failed s' [] Hcom) as ([Ht Hl] & Hadd & _);
      [by apply recounted_in_sync|done|].
    destruct (decide (is_stored c s)) as [|Hnew]; [done|]. apply rtc_once, (step_add_content trunk c true); [|done..].
    destruct Hcom as (_ & _ & _ & _ & _ & tweaked & Htw & _). split; [exact Ht|]. split; [exact Hl|]. by exists tweaked.
Qed.

Lemma truncate_moves s s' :
  Store.truncate_to_limit s = (Ok (), s') -> (forall X, recounted X s -> recounted X s') /\ steps s s'.
Proof.
  intros Hrun. split; [|by apply rtc_once, step_truncate].
  intros X Hs. destruct (truncate_recounted X s Hs) as (s1 & Hrun1 & Hs1 & _). congruence.
Qed.

Lemma on_content_moves trunk pid c u x u' :
  UpdaterOps.on_content trunk pid c u = (Ok x, u') ->
  exists Y, (forall X, recounted X (store u) -> recounted (Y ++ X) (store u')) /\
    (Y = [] \/ (is_stored c (store u) /\ Y = [content_key c])) /\
    (in_sync (store u) -> Y = [] -> steps (store u) (store u')).
Proof.
  unfold UpdaterOps.on_content.
  intros (y & u1 & [= <- <-] & Hrun)%action_bind_inv.
  apply action_bind_inv in Hrun as (failed & u2 & Hadd & Hrun).
  apply action_bind_inv in Hrun as (busy & u3 & Hg & Hrun). injection Hg as _ <-.
  unfold UpdaterOps.on_store, zoom in Hadd. cbn [store UpdaterOps.set_timeout] in Hadd.
  destruct (is_err (Store.add_content trunk c) (store u)) as [r s'] eqn:Heq.
  apply pair_equal_spec in Hadd as [-> <-].
  destruct (add_content_moves trunk c (store u) failed s' Heq) as (Y & HX & Hst & HY).
  exists Y. destruct (negb busy); [|by injection Hrun as _ <-].
  apply on_store_inv in Hrun. cbn [store UpdaterOps.set_store] in Hrun. destruct x.
  apply truncate_moves in Hrun as [HX2 Hsteps]. split; [|split; [done|]].
  - intros X Hs. by apply HX2, HX.
  - intros Hs Hy. etrans; [by apply HY|done].
Qed.

Lemma on_get_store pid ids u x u' : UpdaterOps.on_get pid ids u = (Ok x, u') -> store u' = store u.
Proof.
  revert u. induction ids as [|d ids IH]; intros u; [by intros [= _ <-]|].
  unfold UpdaterOps.on_get. cbn [for_each_do]. intros (y & u1 & Hone & Hrun)%action_bind_inv.
  apply IH in Hrun. rewrite Hrun. apply action_bind_inv in Hone as (c & u2 & Hc & Hone).
  injection Hc as _ <-. destruct c; by injection Hone as _ <-.
Qed.

(** C16: Whatever message a node handles to its end, its cached tables stay the
    tables of what it stores, but for keys counted again: the message adds to
    these at most the key of the content it delivers, and only if that content
    was stored already.  A store in sync otherwise moves along its own steps
    alone, so that it stays in sync, with its sketch, as long as the tables that
    it caches have cells. *)
Theorem updater_refines_store fuel trunk now msg u x u' X :
  recounted X (store u) -> UpdaterOps.handle fuel trunk now msg u = (Ok x, u') ->
  exists again, recounted (again ++ X) (store u') /\
    (again = [] \/ exists pid c, msg = Incoming pid (ContentMessage c) /\ is_stored c (store u) /\
                                again = [content_key c]) /\
    (in_sync (store u) -> again = [] -> with_cells (iblts (store u')) ->
     steps (store u) (store u') /\ in_sync (store u') /\
     (iblts (store u) <> ∅ -> sketch_ok (store u) -> sketch_ok (store u'))).
Proof.
  intros HX Hrun.
  assert (exists again, (recounted X (store u) -> recounted (again ++ X) (store u')) /\
    (again = [] \/ exists pid c, msg = Incoming pid (ContentMessage c) /\ is_stored c (store u) /\
                                again = [content_key c]) /\
    (in_sync (store u) -> again = [] -> with_cells (iblts (store u')) -> steps (store u) (store u')))
    as (again & Hre & Hag & Hsteps).
  2: { exists again. split; [by apply Hre|]. split; [done|]. intros Hs Hno Hc.
       specialize (Hsteps Hs Hno Hc). split; [done|]. destruct (steps_in_sync _ _ Hsteps Hs) as [Hs' Hk].
       split; [done|]. intros Hne. by apply Hk. }
  assert (moves [] (store u) (store u') -> exists again, (recounted X (store u) -> recounted (again ++ X) (store u')) /\
    (again = [] \/ exists pid c, msg = Incoming pid (ContentMessage c) /\ is_stored c (store u) /\
                                again = [content_key c]) /\
    (in_sync (store u) -> again = [] -> with_cells (iblts (store u')) -> steps (store u) (store u'))) as Hmoves.
  { intros [H1' H2']. exists []. split; [apply H1'|]. split; [by left|exact H2']. }
  destruct msg as [m|pid m|pid addr|pid banned]; cbn [UpdaterOps.handle] in Hrun.
  - apply Hmoves, moves_same. by injection Hrun as _ <-.
  - destruct m as [v| |poll|t|poll|tip iblt|ids|c];
      try (apply Hmoves, moves_same; by injection Hrun as _ <-).
    + apply Hmoves. apply action_bind_inv in Hrun as (y & u1 & Hp & Hrun). injection Hrun as _ <-.
      by eapply on_poll_moves.
    + apply Hmoves. by eapply on_content_iblt_moves.
    + apply Hmoves, moves_same. apply action_bind_inv in Hrun as (y & u1 & Hp & Hrun). injection Hrun as _ <-.
      by apply on_get_store in Hp.
    + apply action_bind_inv in Hrun as (y & u1 & Hp & Hrun). injection Hrun as _ <-.
      destruct (on_content_moves trunk pid c u y u1 Hp) as (Y & HY & Hst & Hsteps).
      exists Y. split; [exact (HY X)|]. split; [|by intros Hs Hy _; apply Hsteps].
      destruct Hst as [|[Hst HY']]; [by left|right]. by exists pid, c.
  - apply Hmoves, moves_same. apply action_bind_inv in Hrun as (y & u1 & Hp & Hrun).
    apply poll_content_store in Hp. by injection Hrun as _ <-.
  - apply Hmoves, moves_same. by injection Hrun as _ <-.
Qed.
End Polls.
