(* ===== verification/UpdaterSession.v ===== *)
(** * A connection between two nodes, message by message

    Two nodes that connect poll each other, answer with tables, request what they
    lack and deliver it.  The nodes take turns: in a round each handles, in order,
    all that the other sent in the round before. *)

From S2P Require Import Prelude Machine IbltTable IbltCells IbltAlgebra IbltRefine IbltPeel IbltSync.
From S2P Require Import Sketch Keys Strings Text Bitcoin Content Effects Db DbContent DbContentSpec.
From S2P Require Import Wallet DbWallet Trunk Store StoreTables StoreSpec Messages Updater UpdaterSpec.
From S2P Require Import UpdaterSync UpdaterPoll.
#[local] Open Scope Z_scope.

Module Session.
Section Ops.
Context `{SipHasher, Snap, Bitcoin, !Cbor Ad, SQLite, !WalletCrate, !AccountStorage}.
Context `{!Peers, !Timeouts ExpectedReply}.
Variables (fuel : nat) (trunk : Trunk) (now : Z).

(** The node handles messages of one peer; [None] when a peeling loop does not end. *)
Fixpoint deliver (from : PeerId) (msgs : list Message) : action Updater Error (option unit) :=
  match msgs with
  | [] => mret (Some ())
  | m :: msgs =>
      r ← UpdaterOps.handle fuel trunk now (Incoming from m);
      match r with Some _ => deliver from msgs | None => mret None end
  end.

(** What a node has sent to a peer. *)
Definition sent_to (pid : PeerId) (u : Updater) : list Message :=
  omap (λ '(p, m), if decide (p = pid) then Some m else None) (outbox u).
Definition clear (u : Updater) : Updater := UpdaterOps.set_outbox [] u.

Definition ended (r : res Error (option unit) * Updater) : option Updater :=
  match r with (Ok (Some _), u) => Some u | _ => None end.

(** The node [a] is known to [b] as [pa], and [b] to [a] as [pb]. *)
Variables (pa pb : PeerId).
Definition connect (ab : Updater * Updater) : option (Updater * Updater) :=
  a ← ended (UpdaterOps.handle fuel trunk now (Connected pb None) ab.1);
  b ← ended (UpdaterOps.handle fuel trunk now (Connected pa None) ab.2);
  Some (a, b).
Definition round (ab : Updater * Updater) : option (Updater * Updater) :=
  a ← ended (deliver pb (sent_to pa ab.2) (clear ab.1));
  b ← ended (deliver pa (sent_to pb ab.1) (clear ab.2));
  Some (a, b).
Fixpoint rounds (n : nat) (ab : Updater * Updater) : option (Updater * Updater) :=
  match n with O => Some ab | S n => ab ← round ab; rounds n ab end.
End Ops.
End Session.

Section Converge.
Context `{SipHasher, Snap, !SnapLaws, BitcoinLaws, !Cbor Ad, SQLiteLaws, !WalletCrate, !AccountStorage}.
Context `{!Peers, !Timeouts ExpectedReply}.
Implicit Types (u a b : Updater) (s x y : ContentStore) (trunk : Trunk) (pid : PeerId).
#[local] Opaque generate_ksequence.

Lemma caches_refl s : cache_ok s -> caches s s.
Proof. intros Hc. split; [done|]. by destruct s. Qed.

Lemma caches_keys s s' : caches s s' -> stored_keys s' = stored_keys s.
Proof. intros [_ ->]. done. Qed.

Lemma caches_poll tip s s' : caches s s' -> UpdaterOps.our_poll tip s' = UpdaterOps.our_poll tip s.
Proof. intros [_ ->]. done. Qed.

Lemma supplies_caches trunk size f x x' y y' :
  caches x x' -> caches y y' -> supplies trunk size f x y -> supplies trunk size f x' y'.
Proof. intros [_ ->] [_ ->] [Hh Hl Hc Hf]. split; [exact Hh|exact Hl|exact Hc|exact Hf]. Qed.

(** ** The rounds of one node

    In each of them it starts with an empty outbox. *)

Lemma sent_to_one pid m u : outbox u = [(pid, m)] -> Session.sent_to pid u = [m].
Proof. unfold Session.sent_to. intros ->. cbn. by rewrite decide_True. Qed.

Lemma sent_to_all pid ms u : outbox u = (λ m, (pid, m)) <$> ms -> Session.sent_to pid u = ms.
Proof.
  unfold Session.sent_to. intros ->. induction ms as [|m ms IH]; [done|]. cbn. rewrite decide_True by done.
  by f_equal.
Qed.

(** The poll of a new connection. *)
Lemma connected_step fuel trunk now tip pid addr u :
  Store.get_tip trunk = Some tip ->
  exists u', Session.ended (UpdaterOps.handle fuel trunk now (Connected pid addr) u) = Some u' /\
    store u' = store u /\ poll_asked u' !! pid = Some (UpdaterOps.our_poll tip (store u)) /\
    outbox u' = outbox u ++ [(pid, PollContent (UpdaterOps.our_poll tip (store u)))].
Proof.
  intros Htip. cbn [UpdaterOps.handle].
  rewrite (action_bind_ok _ _ _ _ _ (poll_content_run trunk tip pid u Htip)). eexists. split; [reflexivity|].
  split; [done|]. split; [apply lookup_insert_eq|done].
Qed.

(** The table in answer to a poll. *)
Lemma poll_step fuel trunk now tip pid poll question diff u :
  Store.get_tip trunk = Some tip -> cache_ok (store u) -> poll_asked u !! pid = Some question ->
  pc_tip question = tip -> pc_tip poll = tip ->
  estimate_diff_size (E:=Error) (pc_sketch question) (pc_size question) (pc_sketch poll) (pc_size poll) = Ok diff ->
  0 < u32 (diff * 3) / 2 ->
  let size := grow_size 16 MAXIMUM_IBLT_SIZE (u32 (diff * 3) / 2) MINIMUM_IBLT_SIZE in
  exists u' t, Session.ended (Session.deliver fuel trunk now pid [PollContent poll] (Session.clear u)) = Some u' /\
    caches (store u) (store u') /\ table_of size (stored_keys (store u)) t /\
    outbox u' = [(pid, ContentIBLT tip t)].
Proof.
  intros Htip Hc Hask Hq Hp Hest Hw size. cbn [Session.deliver UpdaterOps.handle].
  destruct (poll_reply_cases trunk pid question poll diff
    (UpdaterOps.set_poll_asked (delete pid (poll_asked u)) (Session.clear u)) Hc Hest) as [Hreply _].
  destruct (Hreply Hw tip Htip Hq Hp) as (r & t & s' & _ & Hsize & Hrun & Ht & Hc' & Hset & _).
  match type of Hrun with _ = (_, ?x) => set (u1 := x) in * end.
  assert (UpdaterOps.on_poll trunk pid poll (Session.clear u) = (Ok (), u1)) as Hon.
  { rewrite (on_poll_asked _ _ _ question) by exact Hask. exact Hrun. }
  exists u1, t. split; [|split; [|split]].
  - rewrite (action_bind_ok _ _ (Session.clear u) (Some ()) u1); [done|]. by rewrite (action_bind_ok _ _ _ _ _ Hon).
  - split; [exact Hc'|exact Hset].
  - unfold size. by rewrite Hsize.
  - done.
Qed.

Lemma grow_size_u32 diff : 
  let size := grow_size 16 MAXIMUM_IBLT_SIZE diff MINIMUM_IBLT_SIZE in 0 < size /\ is_u32 size.
Proof.
  intros size. split; [by apply grow_size_pos|].
  destruct (grow_size_spec 16 diff 8 0) as (r & Hr & Hgrow & _); [lia|lia|].
  change (table_size 8) with MAXIMUM_IBLT_SIZE in Hgrow. change (table_size 0) with MINIMUM_IBLT_SIZE in Hgrow.
  unfold size. rewrite Hgrow.
  pose proof (table_size_mono r 8 ltac:(lia)) as Hle. change (table_size 8) with 6553600 in Hle.
  pose proof (table_size_mono 0 r ltac:(lia)) as Hge. change (table_size 0) with 100 in Hge. unfold is_u32. lia.
Qed.

(** The request in answer to a table. *)
Lemma request_step fuel trunk now tip pid size t f y u :
  Store.get_tip trunk = Some tip -> 0 < size -> is_u32 size -> cache_ok (store u) -> cache_ok y ->
  table_of size (stored_keys y) t -> supplies trunk size f (store u) y ->
  (length (stored_keys (store u)) + length (stored_keys y) + 2 <= fuel)%nat ->
  exists u' request,
    Session.ended (Session.deliver fuel trunk now pid [ContentIBLT tip t] (Session.clear u)) = Some u' /\
    caches (store u) (store u') /\ missing (store u) y request /\
    outbox u' = (if decide (request = []) then [] else [(pid, Get request)]).
Proof.
  intros Htip Hpos Hu32 Hcu Hcy Ht Hsup Hfuel.
  destruct (request_missing size trunk f pid tip t y (Session.clear u) Hpos Hu32 Htip Hcu Hcy Ht Hsup)
    as (request & s' & Hmiss & Hcaches & Hrun).
  destruct (Hrun fuel Hfuel) as [t' Hrun'].
  match type of Hrun' with _ = (_, ?x) => exists x, request end. split; [|done].
  cbn [Session.deliver UpdaterOps.handle]. by rewrite (action_bind_ok _ _ _ _ _ Hrun').
Qed.

(** The contents in answer to a request. *)
Lemma serve_step fuel trunk now pid f request u :
  (forall d, d ∈ request -> ContentTable.read_content d (db (store u)) = Ok (Some (f d))) ->
  exists u', Session.ended (Session.deliver fuel trunk now pid
      (if decide (request = []) then [] else [Get request]) (Session.clear u)) = Some u' /\
    store u' = store u /\ outbox u' = (λ m, (pid, m)) <$> ((λ d, ContentMessage (f d)) <$> request).
Proof.
  intros Hf. case_decide as Hr; [rewrite Hr; by eexists|].
  eexists. split; [|split; [|]].
  - cbn [Session.deliver UpdaterOps.handle].
    rewrite (action_bind_ok _ _ (Session.clear u) (Some ()) (advance (Session.clear u) (store u) (timeout u)
      ((λ d, (pid, ContentMessage (f d))) <$> request))); [done|].
    by rewrite (action_bind_ok _ _ _ _ _ (on_get_delivers pid request f (Session.clear u) Hf)).
  - done.
  - cbn. by rewrite <- list_fmap_compose.
Qed.

(** The delivered contents. *)
Lemma deliver_contents fuel trunk now pid cs u u' :
  for_each_do cs (UpdaterOps.on_content trunk pid) u = (Ok (), u') ->
  Session.ended (Session.deliver fuel trunk now pid (ContentMessage <$> cs) u) = Some u'.
Proof.
  revert u. induction cs as [|c cs IH]; intros u; cbn [for_each_do]; [by intros [= <-]|].
  intros ([] & u1 & Hc & Hrun)%action_bind_inv. cbn [fmap list_fmap Session.deliver UpdaterOps.handle].
  rewrite (action_bind_ok _ _ u (Some ()) u1); [by apply IH|]. by rewrite (action_bind_ok _ _ _ _ _ Hc).
Qed.

Lemma missing_caches x x' y y' request :
  caches x x' -> caches y y' -> missing x' y' request -> missing x y request.
Proof. intros [_ ->] [_ ->]. done. Qed.

Lemma content_step fuel trunk now pid size f request x y u :
  cache_ok x -> sketch_ok x -> cache_ok y -> supplies trunk size f x y -> missing x y request ->
  caches x (store u) ->
  exists u', Session.ended (Session.deliver fuel trunk now pid ((λ d, ContentMessage (f d)) <$> request)
      (Session.clear u)) = Some u' /\
    outbox u' = [] /\ cache_ok (store u') /\ sketch_ok (store u') /\
    forall d, stored_in (store u') d <-> stored_in x d \/ stored_in y d.
Proof.
  intros Hcx Hsx Hcy Hsup Hmiss Hcu.
  destruct (missing_delivered size trunk f pid request y x (Session.clear u)) as (u' & Hrun & (Ho & _) & Hrest);
    [done..|].
  exists u'. split; [|by split]. apply (deliver_contents fuel trunk now) in Hrun.
  by rewrite <- list_fmap_compose in Hrun.
Qed.

(** ** The rounds of both *)

(** How large a table the node of [x] sends when it sees the poll of [y]. *)
Definition table_for (x y : ContentStore) (size : Z) : Prop :=
  exists diff, estimate_diff_size (E:=Error) (Store.get_sketch x) (Store.get_nkeys x)
      (Store.get_sketch y) (Store.get_nkeys y) = Ok diff /\
    0 < u32 (diff * 3) / 2 /\ size = grow_size 16 MAXIMUM_IBLT_SIZE (u32 (diff * 3) / 2) MINIMUM_IBLT_SIZE.

Section Rounds.
Context (fuel : nat) (trunk : Trunk) (now : Z) (tip : digest) (pa pb : PeerId) (Htip : Store.get_tip trunk = Some tip).
Implicit Types (f : digest -> Content) (request : list digest).

Lemma round_ok a b a' b' :
  Session.ended (Session.deliver fuel trunk now pb (Session.sent_to pa b) (Session.clear a)) = Some a' ->
  Session.ended (Session.deliver fuel trunk now pa (Session.sent_to pb a) (Session.clear b)) = Some b' ->
  Session.round fuel trunk now pa pb (a, b) = Some (a', b').
Proof. unfold Session.round. cbn [fst snd]. by intros -> ->. Qed.

(** A node that has polled its peer. *)
Definition has_polled pid x u : Prop :=
  store u = x /\ poll_asked u !! pid = Some (UpdaterOps.our_poll tip x) /\
  outbox u = [(pid, PollContent (UpdaterOps.our_poll tip x))].

Lemma connect_polls a b :
  outbox a = [] -> outbox b = [] ->
  exists a' b', Session.connect fuel trunk now pa pb (a, b) = Some (a', b') /\
    has_polled pb (store a) a' /\ has_polled pa (store b) b'.
Proof.
  intros Hoa Hob. destruct (connected_step fuel trunk now tip pb None a Htip) as (a' & Ha & Hsa & Hqa & Hma).
  destruct (connected_step fuel trunk now tip pa None b Htip) as (b' & Hb & Hsb & Hqb & Hmb).
  exists a', b'. rewrite Hoa in Hma. rewrite Hob in Hmb. split; [|by split_and!].
  unfold Session.connect. cbn [fst snd]. by rewrite Ha, Hb.
Qed.

(** A node that has sent a table of what it stores. *)
Definition has_table pid x u (size : Z) t : Prop :=
  caches x (store u) /\ table_of size (stored_keys x) t /\ outbox u = [(pid, ContentIBLT tip t)].

Lemma polls_round x y na nb a b :
  cache_ok x -> cache_ok y -> table_for x y na -> table_for y x nb ->
  has_polled pb x a -> has_polled pa y b ->
  exists a' b' ta tb, Session.round fuel trunk now pa pb (a, b) = Some (a', b') /\
    has_table pb x a' na ta /\ has_table pa y b' nb tb.
Proof.
  intros Hcx Hcy (da & Hda & Hwa & ->) (dbb & Hdb & Hwb & ->) (Hsa & Hqa & Hma) (Hsb & Hqb & Hmb).
  destruct (poll_step fuel trunk now tip pb (UpdaterOps.our_poll tip y) (UpdaterOps.our_poll tip x) da a)
    as (a' & ta & Ha & Hca & Hta & Hoa); rewrite ?Hsa; try done.
  destruct (poll_step fuel trunk now tip pa (UpdaterOps.our_poll tip x) (UpdaterOps.our_poll tip y) dbb b)
    as (b' & tb & Hb & Hcb & Htb & Hob); rewrite ?Hsb; try done.
  rewrite Hsa in Hca, Hta. rewrite Hsb in Hcb, Htb.
  exists a', b', ta, tb. split; [|done]. apply round_ok.
  - by rewrite (sent_to_one pa _ b Hmb).
  - by rewrite (sent_to_one pb _ a Hma).
Qed.

(** A node that has requested what it lacks. *)
Definition has_requested pid x y u request : Prop :=
  caches x (store u) /\ missing x y request /\
  outbox u = (if decide (request = []) then [] else [(pid, Get request)]).

Lemma table_answered pid size f x y t t' size' u :
  0 < size -> is_u32 size -> cache_ok y -> table_of size (stored_keys y) t -> supplies trunk size f x y ->
  (length (stored_keys x) + length (stored_keys y) + 2 <= fuel)%nat -> has_table pid x u size' t' ->
  exists u' request,
    Session.ended (Session.deliver fuel trunk now pid [ContentIBLT tip t] (Session.clear u)) = Some u' /\
    has_requested pid x y u' request.
Proof.
  intros Hpos Hu32 Hcy Ht Hsup Hfuel (Hcaches & _).
  destruct (request_step fuel trunk now tip pid size t f y u) as (u' & request & Hrun & Hc' & Hmiss & Ho);
    [done|done|done|apply Hcaches|done|done| |by rewrite (caches_keys _ _ Hcaches)|].
  - eapply supplies_caches; [exact Hcaches|by apply caches_refl|done].
  - exists u', request. split; [done|]. split; [by eapply caches_trans|]. split; [|done].
    eapply missing_caches; [exact Hcaches|by apply caches_refl|done].
Qed.

Lemma tables_round x y na nb fa fb ta tb a b :
  0 < na -> is_u32 na -> 0 < nb -> is_u32 nb -> cache_ok x -> cache_ok y ->
  supplies trunk nb fb x y -> supplies trunk na fa y x ->
  (length (stored_keys x) + length (stored_keys y) + 2 <= fuel)%nat ->
  has_table pb x a na ta -> has_table pa y b nb tb ->
  exists a' b' ra rb, Session.round fuel trunk now pa pb (a, b) = Some (a', b') /\
    has_requested pb x y a' ra /\ has_requested pa y x b' rb.
Proof.
  intros Hna Hua Hnb Hub Hcx Hcy Hsx Hsy Hfuel Ha Hb.
  destruct (table_answered pb nb fb x y tb ta na a) as (a' & ra & Hra & Hqa); [done|done|done|apply Hb|done|done|exact Ha|].
  destruct (table_answered pa na fa y x ta tb nb b) as (b' & rb & Hrb & Hqb); [done|done|done|apply Ha|done|lia|exact Hb|].
  exists a', b', ra, rb. split; [|done]. apply round_ok.
  - by rewrite (sent_to_one pa _ b (proj2 (proj2 Hb))).
  - by rewrite (sent_to_one pb _ a (proj2 (proj2 Ha))).
Qed.

(** A node that has sent what was requested. *)
Definition has_served pid x u f request : Prop :=
  caches x (store u) /\ outbox u = (λ m, (pid, m)) <$> ((λ d, ContentMessage (f d)) <$> request).

Lemma sent_request pid request u :
  outbox u = (if decide (request = []) then [] else [(pid, Get request)]) ->
  Session.sent_to pid u = (if decide (request = []) then [] else [Get request]).
Proof. intros Ho. case_decide; [by unfold Session.sent_to; rewrite Ho|by apply sent_to_one]. Qed.

(** [x] serves the request of [y]. *)
Lemma request_served pid size f x y r r' u :
  supplies trunk size f y x -> missing y x r' -> has_requested pid x y u r ->
  exists u', Session.ended (Session.deliver fuel trunk now pid (if decide (r' = []) then [] else [Get r'])
      (Session.clear u)) = Some u' /\ has_served pid x u' f r'.
Proof.
  intros Hsup (_ & _ & Hin) (Hcaches & _).
  destruct (serve_step fuel trunk now pid f r' u) as (u' & Hrun & Hs & Ho).
  { intros d [Hx Hy]%Hin. destruct Hcaches as [_ ->]. by apply (sup_content _ _ _ _ _ Hsup d Hx Hy). }
  exists u'. split; [done|]. split; [by rewrite Hs|done].
Qed.

Lemma requests_round x y na nb fa fb ra rb a b :
  supplies trunk nb fb x y -> supplies trunk na fa y x ->
  has_requested pb x y a ra -> has_requested pa y x b rb ->
  exists a' b', Session.round fuel trunk now pa pb (a, b) = Some (a', b') /\
    has_served pb x a' fa rb /\ has_served pa y b' fb ra.
Proof.
  intros Hsx Hsy Ha Hb. destruct Ha as (Hca & Hma & Hoa), Hb as (Hcb & Hmb & Hob).
  destruct (request_served pb na fa x y ra rb a Hsy Hmb) as (a' & Hra & Hsa); [done|].
  destruct (request_served pa nb fb y x rb ra b Hsx Hma) as (b' & Hrb & Hsb); [done|].
  exists a', b'. split; [|done]. apply round_ok.
  - by rewrite (sent_request pa rb b Hob).
  - by rewrite (sent_request pb ra a Hoa).
Qed.

(** A node that has the contents of both, and nothing to send. *)
Definition has_both x y u : Prop :=
  outbox u = [] /\ cache_ok (store u) /\ sketch_ok (store u) /\
  forall d, stored_in (store u) d <-> stored_in x d \/ stored_in y d.

Lemma contents_round x y na nb fa fb ra rb a b :
  cache_ok x -> sketch_ok x -> cache_ok y -> sketch_ok y ->
  supplies trunk nb fb x y -> supplies trunk na fa y x -> missing x y ra -> missing y x rb ->
  has_served pb x a fa rb -> has_served pa y b fb ra ->
  exists a' b', Session.round fuel trunk now pa pb (a, b) = Some (a', b') /\ has_both x y a' /\ has_both y x b'.
Proof.
  intros Hcx Hsx Hcy Hsy Hsupx Hsupy Hmx Hmy [Hca Hoa] [Hcb Hob].
  destruct (content_step fuel trunk now pb nb fb ra x y a) as (a' & Ha & Hbotha); [done..|].
  destruct (content_step fuel trunk now pa na fa rb y x b) as (b' & Hb & Hbothb); [done..|].
  exists a', b'. split; [|done]. apply round_ok.
  - by rewrite (sent_to_all pa _ b Hob).
  - by rewrite (sent_to_all pb _ a Hoa).
Qed.
End Rounds.

Lemma session_run fuel trunk now tip pa pb na nb fa fb a b :
  Store.get_tip trunk = Some tip -> outbox a = [] -> outbox b = [] ->
  cache_ok (store a) -> sketch_ok (store a) -> cache_ok (store b) -> sketch_ok (store b) ->
  table_for (store a) (store b) na -> table_for (store b) (store a) nb ->
  supplies trunk nb fb (store a) (store b) -> supplies trunk na fa (store b) (store a) ->
  (length (stored_keys (store a)) + length (stored_keys (store b)) + 2 <= fuel)%nat ->
  exists a' b',
    (ab ← Session.connect fuel trunk now pa pb (a, b); Session.rounds fuel trunk now pa pb 4 ab) = Some (a', b') /\
    outbox a' = [] /\ outbox b' = [] /\
    cache_ok (store a') /\ sketch_ok (store a') /\ cache_ok (store b') /\ sketch_ok (store b') /\
    forall d, (stored_in (store a') d <-> stored_in (store a) d \/ stored_in (store b) d) /\
              (stored_in (store b') d <-> stored_in (store a) d \/ stored_in (store b) d).
Proof.
  intros Htip Hoa Hob Hca Hsa Hcb Hsb Hta Htb Hsupa Hsupb Hfuel.
  assert (0 < na /\ is_u32 na) as [Hpa Hua] by (destruct Hta as (da & _ & _ & ->); apply grow_size_u32).
  assert (0 < nb /\ is_u32 nb) as [Hpb Hub] by (destruct Htb as (da & _ & _ & ->); apply grow_size_u32).
  destruct (connect_polls fuel trunk now tip pa pb Htip a b Hoa Hob) as (a0 & b0 & Hconn & Ha0 & Hb0).
  destruct (polls_round fuel trunk now tip pa pb Htip (store a) (store b) na nb a0 b0 Hca Hcb Hta Htb Ha0 Hb0)
    as (a1 & b1 & ta & tb & H1' & Ha1 & Hb1).
  destruct (tables_round fuel trunk now tip pa pb Htip (store a) (store b) na nb fa fb ta tb a1 b1) as (a2 & b2 & ra & rb & H2' & Ha2 & Hb2);
    [done..|].
  destruct (requests_round fuel trunk now pa pb (store a) (store b) na nb fa fb ra rb a2 b2) as (a3 & b3 & H3' & Ha3 & Hb3); [done..|].
  destruct (contents_round fuel trunk now pa pb (store a) (store b) na nb fa fb ra rb a3 b3)
    as (a4 & b4 & H4' & (Hoa4 & Hca4 & Hsa4 & Ha4) & (Hob4 & Hcb4 & Hsb4 & Hb4)); [done|done|done|done|done|done|apply Ha2|apply Hb2|done|done|].
  exists a4, b4. split.
  - rewrite Hconn. cbn [mbind option_bind Session.rounds]. rewrite H1'. cbn [mbind option_bind].
    rewrite H2'. cbn [mbind option_bind]. rewrite H3'. cbn [mbind option_bind]. by rewrite H4'.
  - split_and!; [done..|]. intros d. split; [apply Ha4|]. rewrite (Hb4 d). tauto.
Qed.

(** C1: Two nodes at the same height that connect, and whose sketches differ, have each
    other's contents after four rounds of messages: polls, tables, requests and
    contents. If each can supply what the other lacks with a table of the size it
    estimates, both end with exactly the contents of both and nothing left to
    send, with cached tables, sketch and count of what they store. *)
Theorem session_converges fuel trunk now tip pa pb na nb fa fb a b :
  Store.get_tip trunk = Some tip -> outbox a = [] -> outbox b = [] ->
  cache_ok (store a) -> sketch_ok (store a) -> cache_ok (store b) -> sketch_ok (store b) ->
  table_for (store a) (store b) na -> table_for (store b) (store a) nb ->
  supplies trunk nb fb (store a) (store b) -> supplies trunk na fa (store b) (store a) ->
  (length (stored_keys (store a)) + length (stored_keys (store b)) + 2 <= fuel)%nat ->
  exists a' b',
    (ab ← Session.connect fuel trunk now pa pb (a, b); Session.rounds fuel trunk now pa pb 4 ab) = Some (a', b') /\
    outbox a' = [] /\ outbox b' = [] /\
    cache_ok (store a') /\ sketch_ok (store a') /\ cache_ok (store b') /\ sketch_ok (store b') /\
    forall d, (stored_in (store a') d <-> stored_in (store a) d \/ stored_in (store b) d) /\
              (stored_in (store b') d <-> stored_in (store a) d \/ stored_in (store b) d).
Proof. apply session_run. Qed.
End Converge.
