(* ===== verification/UpdaterExamples.v ===== *)
(** * Examples of the exchange of contents

    A node with an empty store and a peer that stores one content, on the chain
    of StoreExamples.v. *)

From S2P Require Import Prelude Machine IbltTable IbltCells IbltAlgebra IbltRefine IbltPeel IbltSync.
From S2P Require Import Sketch Keys Strings Text Bitcoin Content Effects Db DbContent DbContentSpec.
From S2P Require Import Wallet DbWallet Trunk Store StoreTables StoreSpec Messages Toy StoreExamples.
From S2P Require Import Updater UpdaterSpec UpdaterSync UpdaterPoll UpdaterSession.
#[local] Open Scope Z_scope.

Module UpdaterExamples.
Import StoreExamples.

Definition digest1 : digest := AdOps.digest_of ad1.
Definition db_one : DB := set_content (<[id1 := row1]> ∅) create_tables.
Definition toy_timeout : Timeout ExpectedReply := (∅ : gmap (Z * ExpectedReply) Z).
Definition node_a : Updater := UpdaterOps.new (store_on create_tables) toy_timeout 0.
Definition node_b : Updater := UpdaterOps.new (store_on db_one) toy_timeout 0.
Definition peer_a : @PeerId ToyPeers := 7.
Definition peer_b : @PeerId ToyPeers := 8.
Definition the_tip : digest := header_hash (hdr 3).

Lemma tip_of_chain : Store.get_tip chain_trunk = Some the_tip.
Proof. reflexivity. Qed.
Lemma db_one_wf : ids_wf (Db.content db_one).
Proof. apply ids_wf_insert, ids_wf_empty. Qed.
Lemma node_a_cache : cache_ok (store node_a).
Proof. apply store_on_cache, ids_wf_empty. Qed.
Lemma node_b_cache : cache_ok (store node_b).
Proof. apply store_on_cache, db_one_wf. Qed.

Definition key1 : ContentKey := mkContentKey digest1.
Lemma difference : set_diff [key1] [] = [Inserted key1].
Proof. reflexivity. Qed.

Lemma one_honest : honest (new_params 100 NH K0 K1) [Inserted key1].
Proof. apply honestb_honest. vm_compute. reflexivity. Qed.
Lemma one_honest_deleted : honest (new_params 100 NH K0 K1) [Deleted key1].
Proof. apply honestb_honest. vm_compute. reflexivity. Qed.

(** A single entry does not get stuck. *)
Lemma single_not_stuck e R :
  e = Inserted key1 \/ e = Deleted key1 -> R ⊆+ [e] -> stuck (new_params 100 NH K0 K1) R -> R = [].
Proof.
  intros He HR Hst. destruct R as [|e' R]; [done|]. exfalso.
  pose proof (submseteq_length _ _ HR) as Hlen. destruct R; [|simpl in Hlen; lia].
  assert (e' = e) as ->.
  { apply list_elem_of_singleton. eapply elem_of_submseteq; [apply list_elem_of_here|exact HR]. }
  set (j := default 0%nat (head (key_cells (new_params 100 NH K0 K1) key1))).
  assert ((j < p_len (new_params 100 NH K0 K1))%nat) as Hj.
  { apply Nat.ltb_lt. vm_compute. reflexivity. }
  apply (Hst j Hj). destruct He as [->| ->]; vm_compute; reflexivity.
Qed.

Definition iblt_one : IBLT ContentKey :=
  match build (E:=Error) 100 NH K0 K1 [key1] with Ok t => t | _ => mkIBLT [] 0 0 0 [] end.
Lemma iblt_one_build : build (E:=Error) 100 NH K0 K1 [key1] = Ok iblt_one.
Proof. vm_compute. reflexivity. Qed.

Lemma content_iblt_requests_missing_witness :
  exists s' request,
    UpdaterOps.on_content_iblt 3 chain_trunk peer_b the_tip iblt_one node_a =
      (Ok (Some ()),
       let t := timeout_received peer_b 1 R_ContentIBLT (timeout node_a) in
       if decide (request = []) then advance node_a s' t []
       else advance node_a s' (timeout_expect peer_b (Z.of_nat (length request)) R_Content t)
              [(peer_b, Get request)]) /\
    cache_ok s' /\ s' = Store.set_iblts (iblts s') (store node_a) /\ NoDup request /\
    (forall d, d ∈ request ->
       mkContentKey d ∈ [key1] /\ Db.content (db (store node_a)) !! to_hex d = None) /\
    ((forall R, R ⊆+ set_diff [key1] (stored_keys (store node_a)) ->
        stuck (new_params 100 NH K0 K1) R -> R = []) ->
     forall d, mkContentKey d ∈ [key1] -> Db.content (db (store node_a)) !! to_hex d = None -> d ∈ request).
Proof.
  apply (content_iblt_requests_missing 100 chain_trunk peer_b the_tip iblt_one [key1] node_a 3);
    [lia|unfold is_u32; lia|exact tip_of_chain|exact node_a_cache|apply NoDup_singleton|
     exact iblt_one_build|exact one_honest|reflexivity].
Defined.

Lemma read_one : ContentTable.read_content digest1 (db (store node_b)) = Ok (Some content1).
Proof.
  assert (content_length content1 <> 0) as Hlen by (by rewrite content1_length).
  destruct (store_then_read 1 (header_hash (hdr 1)) content1 5000 create_tables [99] hash_default
    ad1_text Hlen) as (db' & Hs & _ & Hr & _).
  rewrite (store_content_spec _ _ _ _ _ _ ad1_text Hlen) in Hs. injection Hs as <-.
  by apply Hr.
Qed.

Lemma get_spec_witness :
  UpdaterOps.on_get peer_a [digest1] node_b =
    (Ok (), advance node_b (store node_b) (timeout node_b)
       ((λ d, (peer_a, ContentMessage content1)) <$> [digest1])) /\
  (forall d post, Db.content (db (store node_b)) !! to_hex d = None ->
     UpdaterOps.on_get peer_a ([digest1] ++ d :: post) node_b =
       (Panicked UnwrapOnErr, advance node_b (store node_b) (timeout node_b)
          ((λ d, (peer_a, ContentMessage content1)) <$> [digest1]))).
Proof.
  apply (get_spec peer_a [digest1] (λ _, content1) node_b).
  intros d ->%list_elem_of_singleton. exact read_one.
Defined.

Lemma node_b_keys : stored_keys (store node_b) = [key1].
Proof.
  unfold stored_keys, table_keys. cbn [db store node_b UpdaterOps.new store_on Db.content db_one set_content].
  rewrite insert_empty, map_to_list_singleton. cbn [fmap list_fmap fst].
  exact (f_equal (λ k, [k]) (key_of_hex digest1)).
Qed.
Lemma node_a_keys : stored_keys (store node_a) = [].
Proof. unfold stored_keys, table_keys. cbn. by rewrite map_to_list_empty. Qed.

Lemma node_a_fits : fits (store node_a) (content_length content1 + 0).
Proof.
  assert (total_length (store node_a) = 0) as Htot.
  { unfold total_length. cbn. by rewrite map_to_list_empty. }
  unfold fits. rewrite Htot, content1_length. split_and!; [|by vm_compute|reflexivity].
  intros id r Hr. cbn in Hr. by rewrite lookup_empty in Hr.
Qed.

(** What the peer stores can be brought over with a table of the least size. *)
Lemma b_supplies_a : supplies chain_trunk 100 (λ _, content1) (store node_a) (store node_b).
Proof.
  split; rewrite ?node_b_keys, ?node_a_keys.
  - exact one_honest.
  - intros R. apply single_not_stuck. by left.
  - intros d Hd _. apply (stored_keys_elem _ _ node_b_cache) in Hd. rewrite node_b_keys in Hd.
    apply list_elem_of_singleton in Hd. injection Hd as ->.
    split; [exact read_one|]. split; [reflexivity|]. split; [exact content1_storable|].
    exists 1, (hdr 1), committing_output. exact content1_committed.
  - exact node_a_fits.
Qed.

Lemma exchange_converges_witness :
  exists t sb, Store.get_iblt 100 (store node_b) = (Ok t, sb) /\
  exists request a1 b1 a2,
    UpdaterOps.on_content_iblt 3 chain_trunk peer_b the_tip t node_a = (Ok (Some ()), a1) /\
    outbox a1 = outbox node_a ++ (if decide (request = []) then [] else [(peer_b, Get request)]) /\
    (forall d, d ∈ request <-> stored_in (store node_b) d /\ ~ stored_in (store node_a) d) /\
    UpdaterOps.on_get peer_a request node_b = (Ok (), b1) /\
    outbox b1 = outbox node_b ++ ((λ _, (peer_a, ContentMessage content1)) <$> request) /\
    for_each_do ((λ _, content1) <$> request) (UpdaterOps.on_content chain_trunk peer_b) a1 = (Ok (), a2) /\
    cache_ok (store a2) /\ sketch_ok (store a2) /\
    forall d, stored_in (store a2) d <-> stored_in (store node_a) d \/ stored_in (store node_b) d.
Proof.
  destruct (get_iblt_spec 100 (store node_b) node_b_cache eq_refl) as (t & sb & Hget & _).
  exists t, sb. split; [exact Hget|].
  apply (exchange_converges 100 chain_trunk the_tip peer_a peer_b (λ _, content1) node_a node_b t sb 3);
    [lia|unfold is_u32; lia|exact tip_of_chain|exact node_a_cache|apply store_on_sketch|exact node_b_cache
    |exact Hget|exact b_supplies_a|].
  rewrite node_b_keys, node_a_keys. reflexivity.
Defined.

(** ** The whole connection *)

Lemma a_supplies_b : supplies chain_trunk 100 (λ _, content1) (store node_b) (store node_a).
Proof.
  split; rewrite ?node_b_keys, ?node_a_keys.
  - exact one_honest_deleted.
  - intros R. apply single_not_stuck. by right.
  - intros d Hd. apply (stored_keys_elem _ _ node_a_cache) in Hd. rewrite node_a_keys in Hd.
    by apply not_elem_of_nil in Hd.
  - cbn [list_difference fmap list_fmap foldr]. unfold fits.
    assert (total_length (store node_b) = r_length row1) as ->.
    { unfold total_length. cbn [db store node_b UpdaterOps.new store_on Db.content db_one set_content].
      rewrite insert_empty, map_to_list_singleton. cbn. lia. }
    split_and!; [|by vm_compute|by vm_compute].
    intros id r Hr. cbn in Hr. apply lookup_insert_Some in Hr as [[_ <-]|[_ Hr]]; [by vm_compute|].
    by rewrite lookup_empty in Hr.
Qed.

Lemma session_converges_witness :
  exists a' b',
    (ab ← Session.connect 3 chain_trunk 0 peer_a peer_b (node_a, node_b);
     Session.rounds 3 chain_trunk 0 peer_a peer_b 4 ab) = Some (a', b') /\
    outbox a' = [] /\ outbox b' = [] /\
    cache_ok (store a') /\ sketch_ok (store a') /\ cache_ok (store b') /\ sketch_ok (store b') /\
    forall d, (stored_in (store a') d <-> stored_in (store node_a) d \/ stored_in (store node_b) d) /\
              (stored_in (store b') d <-> stored_in (store node_a) d \/ stored_in (store node_b) d).
Proof.
  apply (session_converges 3 chain_trunk 0 the_tip peer_a peer_b 100 100 (λ _, content1) (λ _, content1)
           node_a node_b);
    [exact tip_of_chain|reflexivity|reflexivity|exact node_a_cache|apply store_on_sketch|exact node_b_cache
    |apply store_on_sketch| | |exact b_supplies_a|exact a_supplies_b|].
  - exists 1. split_and!; [vm_compute; reflexivity|vm_compute; reflexivity|vm_compute; reflexivity].
  - exists 1. split_and!; [vm_compute; reflexivity|vm_compute; reflexivity|vm_compute; reflexivity].
  - rewrite node_b_keys, node_a_keys. reflexivity.
Defined.

(** The node answers a poll of a peer whose sketch differs in half of its places. *)
Definition poll_a : PollContentMessage := mkPollContent the_tip (replicate 20 5) 100.
Definition poll_b : PollContentMessage := mkPollContent the_tip (replicate 10 5 ++ replicate 10 6) 100.

Lemma poll_reply_spec_witness :
  exists diff,
  estimate_diff_size (E:=Error) (pc_sketch poll_a) (pc_size poll_a) (pc_sketch poll_b) (pc_size poll_b) =
    Ok diff /\
  let wanted := u32 (diff * 3) / 2 in
  (0 < wanted -> forall tip, Store.get_tip chain_trunk = Some tip -> pc_tip poll_a = tip -> pc_tip poll_b = tip ->
   exists r t s', (r <= 8)%nat /\
     grow_size 16 MAXIMUM_IBLT_SIZE wanted MINIMUM_IBLT_SIZE = table_size r /\
     UpdaterOps.poll_reply chain_trunk peer_b poll_a poll_b node_a =
       (Ok (), UpdaterOps.set_timeout (timeout_expect peer_b 1 R_ContentIBLT
                 (timeout_received peer_b 1 R_PollContent (timeout node_a)))
                 (after_poll peer_b node_a s' [(peer_b, ContentIBLT tip t)])) /\
     table_of (table_size r) (stored_keys (store node_a)) t /\
     cache_ok s' /\ s' = Store.set_iblts (iblts s') (store node_a) /\
     (r = 8%nat \/ wanted <= table_size r) /\ (forall q, (q < r)%nat -> table_size q < wanted)) /\
  (wanted = 0 \/ ~ (Store.get_tip chain_trunk = Some (pc_tip poll_a) /\ pc_tip poll_a = pc_tip poll_b) ->
   UpdaterOps.poll_reply chain_trunk peer_b poll_a poll_b node_a =
     (Ok (), after_poll peer_b node_a (store node_a) [])).
Proof.
  exists 66. split; [vm_compute; reflexivity|].
  apply (poll_reply_spec chain_trunk peer_b poll_a poll_b 66 node_a node_a_cache).
  vm_compute. reflexivity.
Defined.

Lemma poll_round_in_sync_witness :
  let kinds := [R_PollContent; R_ContentIBLT; R_Content; R_Get] in
  let poll := UpdaterOps.our_poll the_tip (store node_b) in
  exists a1 b1 a2,
    UpdaterOps.idle chain_trunk 61000000000 (Some peer_b) node_b = (Ok (), a1) /\
    outbox a1 = outbox node_b ++ [(peer_b, PollContent poll)] /\
    UpdaterOps.on_poll chain_trunk peer_a poll node_b = (Ok (), b1) /\
    outbox b1 = outbox node_b ++ [(peer_a, PollContent poll)] /\
    UpdaterOps.on_poll chain_trunk peer_b poll a1 = (Ok (), a2) /\ outbox a2 = outbox a1 /\
    poll_asked a2 = delete peer_b (poll_asked node_b) /\
    timeout a2 = timeout_received peer_b 1 R_PollContent
                   (timeout_expect peer_b 1 R_PollContent (timeout_check kinds (timeout node_b))) /\
    poll_asked b1 = <[peer_a := poll]> (poll_asked node_b) /\
    timeout b1 = timeout_expect peer_a 1 R_PollContent (timeout node_b).
Proof.
  apply (poll_round_in_sync chain_trunk the_tip 61000000000 peer_a peer_b node_b node_b);
    [exact tip_of_chain|exact node_b_cache|apply store_on_sketch|apply store_on_sketch|done|
     apply lookup_empty|vm_compute; intros [=]].
Defined.

(** A content that is delivered. *)
Definition delivered : PeerMessage Message := Incoming peer_b (ContentMessage content1).

Lemma updater_refines_store_witness :
  exists u', UpdaterOps.handle 3 chain_trunk 5 delivered node_a = (Ok (Some ()), u') /\
    exists again, recounted (again ++ []) (store u') /\
    (again = [] \/ exists pid c, delivered = Incoming pid (ContentMessage c) /\ is_stored c (store node_a) /\
                                again = [content_key c]) /\
    (in_sync (store node_a) -> again = [] -> with_cells (iblts (store u')) ->
     steps (store node_a) (store u') /\ in_sync (store u') /\
     (iblts (store node_a) <> ∅ -> sketch_ok (store node_a) -> sketch_ok (store u'))).
Proof.
  destruct (on_content_fresh chain_trunk peer_b content1 node_a 0) as (u' & Hrun & _).
  - exact node_a_cache.
  - apply store_on_sketch.
  - split; [exact content1_storable|]. exists 1, (hdr 1), committing_output. exact content1_committed.
  - exact not_stored_fresh.
  - lia.
  - exact node_a_fits.
  - assert (UpdaterOps.handle 3 chain_trunk 5 delivered node_a = (Ok (Some ()), u')) as Hh.
    { unfold delivered. cbn [UpdaterOps.handle]. by rewrite (action_bind_ok _ _ _ _ _ Hrun). }
    exists u'. split; [exact Hh|].
    apply (updater_refines_store 3 chain_trunk 5 delivered node_a (Some ()) u' []); [|exact Hh].
    apply recounted_in_sync; [exact node_a_cache|]. apply sketch_ok_shape, store_on_sketch.
Defined.
End UpdaterExamples.
