(* ===== verification/BlockDownload.v ===== *)
(** * Header and block download (src/blockdownload.rs)

    The thread that follows the bitcoin network: it feeds headers to murmel's
    header database, keeps the blocks it wants and those it asked for in two
    queues, and passes headers, blocks and unwound headers downstream.  What it
    sends to the network and what it passes downstream are recorded in order;
    Network.v lets the content store take the latter. *)

From S2P Require Import Prelude Machine Keys Strings Bitcoin Effects Trunk Messages.
#[local] Open Scope Z_scope.

(** ** The bitcoin network's messages and murmel's header database *)

Inductive InvType : Type := Inv_Error | Inv_Transaction | Inv_Block | Inv_WitnessBlock | Inv_WitnessTransaction.
#[export] Instance InvType_eq_dec : EqDecision InvType.
Proof. solve_decision. Defined.
Record Inventory : Type := mkInventory { inv_type : InvType; inv_hash : digest }.
#[export] Instance Inventory_eq_dec : EqDecision Inventory.
Proof. solve_decision. Defined.

(** An [Addr] entry: when the peer saw it, its services and its address, if it
    has a socket address. *)
Record AddrEntry : Type := mkAddrEntry {
  ae_last_seen : Z; ae_services : Z; ae_socket_addr : option SocketAddr
}.

Inductive NetworkMessage : Type :=
  | NM_Headers (headers : list BlockHeader)
  | NM_Inv (inv : list Inventory)
  | NM_Block (block : Block)
  | NM_GetHeaders (locator : list digest) (stop_hash : digest)
  | NM_GetData (inv : list Inventory)
  | NM_Tx (tx : Transaction)
  | NM_Addr (av : list AddrEntry)
  | NM_Other.

(** The answer of [ChainDB::add_header]: the stored header with the hashes that
    were unwound and those that form the new trunk; nothing for a known or
    orphan header; an error. *)
Inductive AddHeader : Type :=
  | Stored (stored : CachedHeader) (unwinds forwards : option (list digest))
  | NotStored
  | SpvBadProofOfWork
  | OtherError.

Class HeaderChain : Type := {
  HeaderDB : Type;
  view : HeaderDB -> ChainDB;
  chain_add_header : BlockHeader -> HeaderDB -> AddHeader * HeaderDB;
  header_locators : HeaderDB -> list digest;
  SERVICE_BLOCKS : Z
}.

(** murmel's [ExpectedReply] of the bitcoin network, as far as it is used. *)
Inductive BitcoinReply : Type := B_Headers | B_Block.

(** What goes to the network. *)
Inductive Sent `{Peers} : Type :=
  | SendNetwork (pid : PeerId) (m : NetworkMessage)
  | SendRandomNetwork (m : NetworkMessage)
  | BanPeer (pid : PeerId) (score : Z)
  | NewHeight (height : Z).

(** The calls of the trait [Downstream]. *)
Inductive Downstream : Type :=
  | block_connected (block : Block) (height : Z)
  | header_connected (header : BlockHeader) (height : Z)
  | block_disconnected (header : BlockHeader).

Record BlockDownload `{HeaderChain, !Peers, !Timeouts BitcoinReply} : Type := mkBlockDownload {
  chaindb : HeaderDB;
  bd_timeout : Timeout BitcoinReply;
  bd_sent : list Sent;
  downstream : list Downstream;
  blocks_wanted : list (digest * Z);
  blocks_asked : list (digest * Z);
  block_download_peer : option PeerId;
  birth : Z
}.

Module BlockDownloadOps.
Section Ops.
Context `{Bitcoin, HeaderChain, !Peers, !Timeouts BitcoinReply}.
(** [p2p.peer_version(pid)]: the services of a connected peer. *)
Variable peer_services : PeerId -> option Z.

Definition set_chaindb (x : HeaderDB) (s : BlockDownload) : BlockDownload :=
  mkBlockDownload _ _ _ x (bd_timeout s) (bd_sent s) (downstream s) (blocks_wanted s) (blocks_asked s)
    (block_download_peer s) (birth s).
Definition set_timeout (x : Timeout BitcoinReply) (s : BlockDownload) : BlockDownload :=
  mkBlockDownload _ _ _ (chaindb s) x (bd_sent s) (downstream s) (blocks_wanted s) (blocks_asked s)
    (block_download_peer s) (birth s).
Definition set_sent (x : list Sent) (s : BlockDownload) : BlockDownload :=
  mkBlockDownload _ _ _ (chaindb s) (bd_timeout s) x (downstream s) (blocks_wanted s) (blocks_asked s)
    (block_download_peer s) (birth s).
Definition set_downstream (x : list Downstream) (s : BlockDownload) : BlockDownload :=
  mkBlockDownload _ _ _ (chaindb s) (bd_timeout s) (bd_sent s) x (blocks_wanted s) (blocks_asked s)
    (block_download_peer s) (birth s).
Definition set_queues (wanted asked : list (digest * Z)) (s : BlockDownload) : BlockDownload :=
  mkBlockDownload _ _ _ (chaindb s) (bd_timeout s) (bd_sent s) (downstream s) wanted asked
    (block_download_peer s) (birth s).
Definition set_peer (x : option PeerId) (s : BlockDownload) : BlockDownload :=
  mkBlockDownload _ _ _ (chaindb s) (bd_timeout s) (bd_sent s) (downstream s) (blocks_wanted s) (blocks_asked s)
    x (birth s).

Definition expect_replies (pid : PeerId) (n : Z) (r : BitcoinReply) : action BlockDownload Error unit :=
  modify (λ s, set_timeout (timeout_expect pid n r (bd_timeout s)) s).
Definition received (pid : PeerId) (r : BitcoinReply) : action BlockDownload Error unit :=
  modify (λ s, set_timeout (timeout_received pid 1 r (bd_timeout s)) s).
Definition send (m : Sent) : action BlockDownload Error unit :=
  modify (λ s, set_sent (bd_sent s ++ [m]) s).
Definition call (d : Downstream) : action BlockDownload Error unit :=
  modify (λ s, set_downstream (downstream s ++ [d]) s).

(** The loop of [new] that walks from the tip back to the last processed block,
    to the wallet's birth or to the genesis block. *)
Fixpoint wanted_back (fuel : nat) (db : ChainDB) (birth : Z) (stop_at : digest)
    (h : CachedHeader) (block_hash : digest) (wanted : list (digest * Z)) :
    res Error (option (list (digest * Z))) :=
  match fuel with
  | O => Ok None
  | S fuel =>
      if decide (block_hash = stop_at) then Ok (Some wanted)
      else
        let wanted := (block_hash, stored_height h) :: wanted in
        let block_hash := prev_blockhash (stored_header h) in
        if decide (block_hash <> hash_default) then
          match cdb_get_header db block_hash with
          | None => Panicked UnwrapOnNone
          | Some h =>
              if time (stored_header h) <? birth then Ok (Some wanted)
              else wanted_back fuel db birth stop_at h block_hash wanted
          end
        else wanted_back fuel db birth stop_at h block_hash wanted
  end.

Definition wanted_at_start (fuel : nat) (db : ChainDB) (processed_block : option digest) (birth : Z) :
    res Error (option (list (digest * Z))) :=
  match header_tip db with
  | Some h =>
      if birth <? time (stored_header h) then
        wanted_back fuel db birth (default hash_default processed_block) h
          (header_hash (stored_header h)) []
      else Ok (Some [])
  | None => Ok (Some [])
  end.

Definition new (fuel : nat) (db : HeaderDB) (t : Timeout BitcoinReply) (processed_block : option digest)
    (birth : Z) : res Error (option BlockDownload) :=
  wanted ← wanted_at_start fuel (view db) processed_block birth;
  Ok (option_map (λ wanted, mkBlockDownload _ _ _ db t [] [] wanted [] None birth) wanted).

(** [self.p2p.peer_version(peer)] and its services. *)
Definition is_serving_blocks (peer : PeerId) : bool :=
  match peer_services peer with
  | Some services => negb (Z.land services SERVICE_BLOCKS =? 0)
  | None => false
  end.

Definition get_headers (peer : PeerId) : action BlockDownload Error unit :=
  busy ← gets (λ s, is_busy_with peer B_Headers (bd_timeout s));
  if busy : bool then mret ()
  else
    locator ← gets (λ s, header_locators (chaindb s));
    match locator with
    | first :: _ =>
        _ ← expect_replies peer 1 B_Headers;
        send (SendNetwork peer (NM_GetHeaders locator first))
    | [] => mret ()
    end.

Definition ask_blocks (pid : PeerId) : action BlockDownload Error unit :=
  busy ← gets (λ s, is_busy_with pid B_Block (bd_timeout s));
  if negb busy then
    _ ← modify (λ s, set_queues (drop 1000 (blocks_wanted s))
                                (blocks_asked s ++ take 1000 (blocks_wanted s)) s);
    asked ← gets blocks_asked;
    if decide (asked = []) then mret ()
    else
      _ ← send (SendNetwork pid (NM_GetData ((λ '(hash, _), mkInventory Inv_Block hash) <$> asked)));
      expect_replies pid (Z.of_nat (length asked)) B_Block
  else mret ().

Definition on_block (block : Block) (pid : PeerId) : action BlockDownload Error unit :=
  download_peer ← gets block_download_peer;
  if decide (download_peer = Some pid) then
    asked ← gets blocks_asked;
    match asked with
    | (expected, height) :: asked =>
        if decide (header_hash (header block) = expected) then
          _ ← received pid B_Block;
          _ ← modify (λ s, set_queues (blocks_wanted s) asked s);
          call (block_connected block height)
        else mret ()
    | [] => mret ()
    end
  else mret ().

Definition on_inv (v : list Inventory) (peer : PeerId) : action BlockDownload Error unit :=
  known ← gets (λ s, cdb_get_header (view (chaindb s)));
  if existsb (λ i, bool_decide (inv_type i = Inv_Block) && bool_decide (known (inv_hash i) = None)) v
  then get_headers peer else mret ().

(** What one pass over the queue of headers has found. *)
Record found : Type := mkFound {
  connected : list (Z * BlockHeader); disconnected : list BlockHeader;
  some_new : bool; moved_tip : bool; new_height : Z
}.

Fixpoint unwound_headers (db : ChainDB) (unwinds : list digest) : res Error (list BlockHeader) :=
  match unwinds with
  | [] => Ok []
  | h :: unwinds =>
      cached ← unwrap (cdb_get_header db h);
      rest ← unwound_headers db unwinds;
      Ok (stored_header cached :: rest)
  end.

(** [while let Some(header) = headers_queue.pop_front()] up to a re-org; what is
    left of the queue comes with it. *)
Fixpoint add_headers (queue : list BlockHeader) (peer : PeerId) (f : found) :
    action BlockDownload Error (found * list BlockHeader) :=
  match queue with
  | [] => mret (f, [])
  | header :: queue =>
      added ← (λ s, let '(a, db) := chain_add_header header (chaindb s) in (Ok a, set_chaindb db s));
      match added with
      | Stored stored unwinds forwards =>
          moved ← lift (match forwards with
                        | Some fs => _ ← unwrap (last fs); Ok true
                        | None => Ok (moved_tip f)
                        end);
          let f := mkFound (connected f ++ [(stored_height stored, stored_header stored)])
                     (disconnected f) true moved (stored_height stored) in
          match unwinds with
          | Some us =>
              hs ← ask (λ s, unwound_headers (view (chaindb s)) us);
              mret (mkFound (connected f) (disconnected f ++ hs) (some_new f) (moved_tip f) (new_height f), queue)
          | None => add_headers queue peer f
          end
      | NotStored => add_headers queue peer f
      | SpvBadProofOfWork => _ ← send (BanPeer peer 100); add_headers queue peer f
      | OtherError => add_headers queue peer f
      end
  end.

Definition unwind (header : BlockHeader) : action BlockDownload Error unit :=
  born ← gets birth;
  if born <? time header then
    _ ← modify (λ s, set_queues (removelast (blocks_wanted s)) (blocks_asked s) s);
    call (block_disconnected header)
  else mret ().

Definition connect (c : Z * BlockHeader) : action BlockDownload Error unit :=
  let '(height, header) := c in
  born ← gets birth;
  if born <? time header then
    _ ← modify (λ s, set_queues (blocks_wanted s ++ [(header_hash header, height)]) (blocks_asked s) s);
    call (header_connected header height)
  else mret ().

(** The outer loop; a pass takes at least one header off a non-empty queue, so
    the length of the queue bounds the passes. *)
Fixpoint headers_loop (fuel : nat) (queue : list BlockHeader) (peer : PeerId) (f : found) :
    action BlockDownload Error found :=
  match fuel, queue with
  | S fuel, _ :: _ =>
      '(f, queue) ← add_headers queue peer (mkFound [] [] (some_new f) (moved_tip f) (new_height f));
      _ ← for_each_do (disconnected f) unwind;
      _ ← for_each_do (connected f) connect;
      headers_loop fuel queue peer f
  | _, _ => mret f
  end.

Definition on_headers (headers : list BlockHeader) (peer : PeerId) : action BlockDownload Error unit :=
  _ ← received peer B_Headers;
  if decide (headers = []) then mret ()
  else
    tip ← gets (λ s, header_tip (view (chaindb s)));
    match tip with
    | None => mret ()
    | Some tip =>
        f ← headers_loop (length headers) headers peer (mkFound [] [] false false (stored_height tip));
        _ ← (if some_new f then get_headers peer else mret ());
        if moved_tip f then send (NewHeight (new_height f)) else mret ()
    end.

(** The body of the [match] on a message from the dispatcher. *)
Definition handle (msg : PeerMessage NetworkMessage) : action BlockDownload Error unit :=
  match msg with
  | Connected pid _ =>
      if is_serving_blocks pid then
        _ ← get_headers pid;
        modify (λ s, match block_download_peer s with
                     | None => set_peer (Some pid) s
                     | Some _ => s
                     end)
      else mret ()
  | Disconnected pid _ =>
      modify (λ s, if decide (block_download_peer s = Some pid)
                   then set_queues (blocks_asked s ++ blocks_wanted s) [] (set_peer None s)
                   else s)
  | Incoming pid msg =>
      _ ← match msg with
          | NM_Headers headers => if is_serving_blocks pid then on_headers headers pid else mret ()
          | NM_Inv inv => if is_serving_blocks pid then on_inv inv pid else mret ()
          | NM_Block block => on_block block pid
          | _ => mret ()
          end;
      _ ← modify (λ s, match block_download_peer s with
                       | None => set_peer (Some pid) s
                       | Some _ => s
                       end);
      download_peer ← gets block_download_peer;
      if decide (download_peer = Some pid) then ask_blocks pid else mret ()
  | Outgoing _ => mret ()
  end.

(** The messages of a run, one after the other. *)
Definition run (msgs : list (PeerMessage NetworkMessage)) : action BlockDownload Error unit :=
  for_each_do msgs handle.
End Ops.
End BlockDownloadOps.
