(* ===== verification/BlockDownloadSpec.v ===== *)
(** * Theorems on header and block download

    Without re-orgs the blocks go downstream in the order of their headers, none
    is skipped and none passed twice, whatever the peers send and however often
    they are lost.  The blocks wanted at start are those after the last
    processed one, or after the wallet's birth. *)

From S2P Require Import Prelude Machine Keys Strings Bitcoin Effects Trunk Messages BlockDownload.
#[local] Open Scope Z_scope.

Section Pipeline.
Context `{Bitcoin, HeaderChain, !Peers, !Timeouts BitcoinReply}.
Variable peer_services : PeerId -> option Z.
Implicit Types (s : BlockDownload).

(** The blocks and the headers that were passed downstream. *)
Definition passed_blocks (log : list Downstream) : list (digest * Z) :=
  omap (λ d, match d with block_connected b h => Some (header_hash (header b), h) | _ => None end) log.
Definition passed_headers (log : list Downstream) : list (digest * Z) :=
  omap (λ d, match d with header_connected hd h => Some (header_hash hd, h) | _ => None end) log.
Definition unwound (log : list Downstream) : list BlockHeader :=
  omap (λ d, match d with block_disconnected hd => Some hd | _ => None end) log.

(** Passed, asked for and wanted, in this order. *)
Definition pipeline s : list (digest * Z) :=
  passed_blocks (downstream s) ++ blocks_asked s ++ blocks_wanted s.

(** The pipeline only grows, by the headers that are passed on. *)
Definition extends s s' : Prop :=
  exists l, passed_headers (downstream s') = passed_headers (downstream s) ++ l /\
            pipeline s' = pipeline s ++ l.

#[export] Instance extends_preorder : PreOrder extends.
Proof.
  split.
  - intros s. exists []. by rewrite !app_nil_r.
  - intros s1 s2 s3 (l & Hh & Hp) (l' & Hh' & Hp'). exists (l ++ l').
    by rewrite Hh', Hp', Hh, Hp, !(assoc_L (++)).
Qed.

(** The parts of the state that the pipeline does not depend on. *)
Lemma extends_same s s' :
  downstream s' = downstream s -> blocks_asked s' ++ blocks_wanted s' = blocks_asked s ++ blocks_wanted s ->
  extends s s'.
Proof. intros Hd Hq. exists []. unfold pipeline. by rewrite Hd, Hq, !app_nil_r. Qed.

Lemma evolves_same {A} (m : action BlockDownload Error A) :
  (forall s r s', m s = (Ok r, s') -> downstream s' = downstream s /\ blocks_asked s' = blocks_asked s /\
     blocks_wanted s' = blocks_wanted s) -> evolves extends m.
Proof. intros Hm s r s' (Hd & Ha & Hw)%Hm. by apply extends_same; rewrite ?Ha, ?Hw. Qed.

Lemma get_headers_extends pid : evolves extends (BlockDownloadOps.get_headers pid).
Proof.
  unfold BlockDownloadOps.get_headers, BlockDownloadOps.expect_replies, BlockDownloadOps.send.
  evolve; by apply evolves_modify; intros; apply extends_same.
Qed.

Lemma ask_blocks_extends pid : evolves extends (BlockDownloadOps.ask_blocks pid).
Proof.
  unfold BlockDownloadOps.ask_blocks, BlockDownloadOps.expect_replies, BlockDownloadOps.send.
  evolve; apply evolves_modify; intros s; apply extends_same; try done.
  cbn. by rewrite <- (assoc_L (++)), take_drop.
Qed.

Lemma on_block_extends b pid : evolves extends (BlockDownloadOps.on_block b pid).
Proof.
  intros s [] s'. unfold BlockDownloadOps.on_block, gets, mbind, action_bind.
  case_decide; [|intros [= <-]; reflexivity].
  destruct (blocks_asked s) as [|[expected height] asked] eqn:Ha; [intros [= <-]; reflexivity|].
  case_decide as Hh; intros [= <-]; [|reflexivity].
  exists []. unfold pipeline, passed_blocks, passed_headers. cbn.
  rewrite !omap_app, Ha. cbn. rewrite Hh, !app_nil_r. split; [done|].
  by rewrite <- (assoc_L (++)).
Qed.

Lemma on_inv_extends v pid : evolves extends (BlockDownloadOps.on_inv v pid).
Proof. unfold BlockDownloadOps.on_inv. evolve_by ltac:(apply get_headers_extends). Qed.

Lemma connect_extends c : evolves extends (BlockDownloadOps.connect c).
Proof.
  destruct c as [height hd]. intros s [] s'. unfold BlockDownloadOps.connect, gets, mbind, action_bind.
  destruct (birth s <? time hd); intros [= <-]; [|reflexivity].
  exists [(header_hash hd, height)]. unfold pipeline, passed_blocks, passed_headers. cbn.
  rewrite !omap_app. cbn. by rewrite app_nil_r, !(assoc_L (++)).
Qed.

(** Adding headers to the database passes nothing on. *)
Lemma add_headers_extends queue pid f : evolves extends (BlockDownloadOps.add_headers queue pid f).
Proof.
  revert f. induction queue as [|hd queue IH]; intros f; cbn [BlockDownloadOps.add_headers]; [evolve|].
  apply evolves_bind; [apply _| |intros added].
  { apply evolves_same. intros s r s'. destruct (chain_add_header hd (chaindb s)). by intros [= _ <-]. }
  destruct added as [stored unwinds forwards| | |]; [|apply IH| |apply IH].
  - apply evolves_bind; [apply _|apply evolves_lift; apply _|intros moved]. cbv zeta.
    destruct unwinds; [evolve|apply IH].
  - apply evolves_bind; [apply _| |intros _; apply IH].
    apply evolves_modify. intros s. by apply extends_same.
Qed.

(** *** Without re-orgs *)

(** No header of the peers beats the trunk from a fork. *)
Definition no_reorgs : Prop :=
  forall hd db stored us forwards db', chain_add_header hd db <> (Stored stored (Some us) forwards, db').

Lemma add_headers_disconnected queue pid f s f' q s' :
  no_reorgs -> BlockDownloadOps.add_headers queue pid f s = (Ok (f', q), s') ->
  BlockDownloadOps.disconnected f' = BlockDownloadOps.disconnected f.
Proof.
  intros Hno. revert f s. induction queue as [|hd queue IH]; intros f s; cbn [BlockDownloadOps.add_headers];
    [by intros [= <- _ _]|].
  intros (added & s1 & Hadd & Hrun)%action_bind_inv.
  destruct (chain_add_header hd (chaindb s)) as [a db'] eqn:Ha. injection Hadd as -> <-.
  destruct added as [stored [us|] forwards| | |].
  - by apply Hno in Ha.
  - apply action_bind_inv in Hrun as (moved & s2 & Hl & Hrun). by apply IH in Hrun.
  - by apply IH in Hrun.
  - apply action_bind_inv in Hrun as (x & s2 & Hl & Hrun). by apply IH in Hrun.
  - by apply IH in Hrun.
Qed.

Lemma headers_loop_extends fuel queue pid f :
  no_reorgs -> evolves extends (BlockDownloadOps.headers_loop fuel queue pid f).
Proof.
  intros Hno. revert queue f. induction fuel as [|fuel IH]; intros queue f; [evolve|].
  cbn [BlockDownloadOps.headers_loop]. destruct queue as [|hd queue]; [evolve|].
  intros s r s' ([f1 q1] & s1 & Hadd & Hrun)%action_bind_inv.
  pose proof (add_headers_disconnected _ _ _ _ _ _ _ Hno Hadd) as Hd. cbn in Hd. rewrite Hd in Hrun.
  transitivity s1; [by eapply add_headers_extends|].
  apply action_bind_inv in Hrun as ([] & s2 & H2 & Hrun). injection H2 as <-.
  apply action_bind_inv in Hrun as ([] & s2 & Hcon & Hrun). transitivity s2; [|by eapply IH].
  revert Hcon. apply (evolves_for_each extends). intros c _. apply connect_extends.
Qed.

Lemma on_headers_extends headers pid :
  no_reorgs -> evolves extends (BlockDownloadOps.on_headers headers pid).
Proof.
  intros Hno. unfold BlockDownloadOps.on_headers. apply evolves_bind; [apply _| |intros _].
  { apply evolves_modify. intros s. by apply extends_same. }
  evolve_by ltac:(first [by apply headers_loop_extends | apply get_headers_extends
    | apply evolves_modify; intros ?; by apply extends_same]).
Qed.

Lemma handle_extends msg : no_reorgs -> evolves extends (BlockDownloadOps.handle peer_services msg).
Proof.
  intros Hno. destruct msg as [m|pid m|pid addr|pid banned]; cbn [BlockDownloadOps.handle].
  - evolve.
  - apply evolves_bind; [apply _| |intros _].
    + destruct m; evolve_by ltac:(solve [auto using on_headers_extends, on_inv_extends, on_block_extends]).
    + apply evolves_bind; [apply _| |intros _].
      { apply evolves_modify. intros s. by destruct (block_download_peer s) eqn:?; apply extends_same. }
      evolve_by ltac:(apply ask_blocks_extends).
  - evolve_by ltac:(apply get_headers_extends).
    apply evolves_modify. intros s. by destruct (block_download_peer s) eqn:?; apply extends_same.
  - apply evolves_modify. intros s. case_decide; [|reflexivity]. apply extends_same; [done|].
    done.
Qed.
End Pipeline.

(** C15: Whatever messages arrive in whatever order, as long as no header starts a
    re-org, the blocks passed downstream, those asked for and those wanted are
    together the blocks wanted at the start followed by those of the headers that
    were passed downstream: blocks are passed in the order of their headers,
    none is skipped and none is passed twice. *)
Theorem blocks_in_header_order `{Bitcoin, HeaderChain, !Peers, !Timeouts BitcoinReply}
    (peer_services : PeerId -> option Z) fuel db t processed birth msgs s0 s :
  no_reorgs -> BlockDownloadOps.new fuel db t processed birth = Ok (Some s0) ->
  BlockDownloadOps.run peer_services msgs s0 = (Ok (), s) ->
  passed_blocks (downstream s) ++ blocks_asked s ++ blocks_wanted s =
  blocks_wanted s0 ++ passed_headers (downstream s).
Proof.
  intros Hno Hnew Hrun.
  assert (downstream s0 = [] /\ blocks_asked s0 = []) as [Hd Ha].
  { revert Hnew. unfold BlockDownloadOps.new.
    destruct (BlockDownloadOps.wanted_at_start _ _ _ _) as [[w|]|e|p]; [|done..].
    cbn. by intros [= <-]. }
  assert (extends s0 s) as (l & Hh & Hp).
  { revert Hrun. apply (evolves_for_each extends). intros msg _. by apply handle_extends. }
  unfold pipeline in Hp. rewrite Hd, Ha in Hp. rewrite Hd in Hh. cbn in Hh, Hp. by rewrite Hp, Hh.
Qed.

(** ** Re-orgs and headers off the trunk *)

Section Reorgs.
Context `{Bitcoin, HeaderChain, !Peers, !Timeouts BitcoinReply}.
Implicit Types (s : BlockDownload).

(** The parts of the state that asking for headers leaves alone. *)
Definition same_queues s s' : Prop :=
  downstream s' = downstream s /\ blocks_asked s' = blocks_asked s /\
  blocks_wanted s' = blocks_wanted s /\ block_download_peer s' = block_download_peer s /\
  chaindb s' = chaindb s.

Lemma get_headers_total pid s :
  exists s', BlockDownloadOps.get_headers pid s = (Ok (), s') /\ same_queues s s'.
Proof.
  unfold BlockDownloadOps.get_headers, gets, mbind, action_bind.
  destruct (is_busy_with pid B_Headers (bd_timeout s)); [by exists s|].
  destruct (header_locators (chaindb s)); by eexists.
Qed.

Lemma take_removelast {A} (l : list A) n :
  take (length (removelast l) - n) (removelast l) = take (length l - S n) l.
Proof. rewrite removelast_firstn_len, length_take, take_take. f_equal. lia. Qed.

(** The headers younger than the wallet, the only ones that are passed on. *)
Definition younger s (hs : list BlockHeader) : list BlockHeader := filter (λ h, birth s < time h) hs.

(** [pop_back] once for each unwound header that is younger than the wallet, then
    the call downstream. *)
Lemma unwind_all hs s :
  for_each_do hs BlockDownloadOps.unwind s =
  (Ok (), BlockDownloadOps.set_downstream (downstream s ++ (block_disconnected <$> younger s hs))
     (BlockDownloadOps.set_queues (take (length (blocks_wanted s) - length (younger s hs)) (blocks_wanted s))
        (blocks_asked s) s)).
Proof.
  revert s. induction hs as [|h hs IH]; intros s.
  { cbn [for_each_do younger filter list_filter length]. rewrite Nat.sub_0_r, firstn_all. cbn [fmap list_fmap].
    rewrite app_nil_r. by destruct s. }
  cbn [for_each_do]. unfold younger. rewrite filter_cons. case_decide as Hh.
  2: { rewrite (action_bind_ok _ _ s () s); [apply IH|].
       unfold BlockDownloadOps.unwind, gets, mbind, action_bind.
       by rewrite (proj2 (Z.ltb_ge _ _)) by lia. }
  set (s1 := BlockDownloadOps.set_downstream (downstream s ++ [block_disconnected h])
    (BlockDownloadOps.set_queues (removelast (blocks_wanted s)) (blocks_asked s) s)).
  rewrite (action_bind_ok _ _ s () s1).
  2: { unfold BlockDownloadOps.unwind, gets, mbind, action_bind. by rewrite (proj2 (Z.ltb_lt _ _)). }
  rewrite IH. change (younger s1 hs) with (younger s hs). fold (younger s hs).
  cbn [downstream blocks_wanted blocks_asked BlockDownloadOps.set_downstream BlockDownloadOps.set_queues].
  unfold BlockDownloadOps.set_downstream, BlockDownloadOps.set_queues. cbn.
  rewrite <- (assoc_L (++)). do 2 f_equal. apply take_removelast.
Qed.

(** A header that is passed on, or not. *)
Definition passed s (stored : CachedHeader) : list Downstream :=
  if decide (birth s < time (stored_header stored))
  then [header_connected (stored_header stored) (stored_height stored)] else [].
Definition newly_wanted s (stored : CachedHeader) : list (digest * Z) :=
  if decide (birth s < time (stored_header stored))
  then [(header_hash (stored_header stored), stored_height stored)] else [].

Lemma connect_one stored s :
  BlockDownloadOps.connect (stored_height stored, stored_header stored) s =
  (Ok (), BlockDownloadOps.set_downstream (downstream s ++ passed s stored)
     (BlockDownloadOps.set_queues (blocks_wanted s ++ newly_wanted s stored) (blocks_asked s) s)).
Proof.
  unfold BlockDownloadOps.connect, passed, newly_wanted, gets, mbind, action_bind.
  case_decide as Hb; [by rewrite (proj2 (Z.ltb_lt _ _))|].
  rewrite (proj2 (Z.ltb_ge _ _)) by lia. rewrite !app_nil_r. by destruct s.
Qed.

(** The pass over one new header. *)
Lemma add_headers_one hd stored us fs db' hs pid f s :
  chain_add_header hd (chaindb s) = (Stored stored us fs, db') -> fs <> Some [] ->
  BlockDownloadOps.unwound_headers (view db') (default [] us) = Ok hs ->
  exists moved, BlockDownloadOps.add_headers [hd] pid f s =
    (Ok (BlockDownloadOps.mkFound (BlockDownloadOps.connected f ++ [(stored_height stored, stored_header stored)])
           (BlockDownloadOps.disconnected f ++ hs) true moved (stored_height stored), []),
     BlockDownloadOps.set_chaindb db' s).
Proof.
  intros Hadd Hfs Hhs. cbn [BlockDownloadOps.add_headers].
  rewrite (action_bind_ok _ _ s (Stored stored us fs) (BlockDownloadOps.set_chaindb db' s)) by by rewrite Hadd.
  set (moved := match fs with Some _ => true | None => BlockDownloadOps.moved_tip f end). exists moved.
  rewrite (action_bind_ok (lift _) _ _ moved (BlockDownloadOps.set_chaindb db' s)).
  2: { unfold lift. destruct fs as [l|]; [|done]. destruct (last l) as [x|] eqn:Hl; [done|].
       apply last_None in Hl. by subst. }
  cbv zeta. destruct us as [us|]; cbn [default from_option id] in Hhs.
  - rewrite (action_bind_ok (ask _) _ _ hs (BlockDownloadOps.set_chaindb db' s)); [done|].
    unfold ask. cbn [chaindb BlockDownloadOps.set_chaindb]. by rewrite Hhs.
  - injection Hhs as <-. cbn. by rewrite app_nil_r.
Qed.

(** What a delivered block does that is the next one asked for. *)
Lemma on_block_next b n rest peer s :
  blocks_asked s = (header_hash (header b), n) :: rest -> block_download_peer s = Some peer ->
  exists s2, BlockDownloadOps.on_block b peer s = (Ok (), s2) /\
    downstream s2 = downstream s ++ [block_connected b n].
Proof.
  intros Ha Hp. unfold BlockDownloadOps.on_block.
  rewrite (action_bind_ok (gets block_download_peer) _ s (Some peer) s) by (unfold gets; by rewrite <- Hp).
  rewrite decide_True by done.
  rewrite (action_bind_ok (gets blocks_asked) _ s ((header_hash (header b), n) :: rest) s)
    by (unfold gets; by rewrite <- Ha).
  rewrite decide_True by done. by eexists.
Qed.

(** The message with one new header. *)
Lemma on_headers_one hd stored us fs tip db' hs pid s :
  header_tip (view (chaindb s)) = Some tip ->
  chain_add_header hd (chaindb s) = (Stored stored us fs, db') -> fs <> Some [] ->
  BlockDownloadOps.unwound_headers (view db') (default [] us) = Ok hs ->
  exists s', BlockDownloadOps.on_headers [hd] pid s = (Ok (), s') /\
    same_queues (BlockDownloadOps.set_chaindb db'
      (BlockDownloadOps.set_downstream (downstream s ++ (block_disconnected <$> younger s hs) ++ passed s stored)
      (BlockDownloadOps.set_queues (take (length (blocks_wanted s) - length (younger s hs)) (blocks_wanted s) ++
         newly_wanted s stored) (blocks_asked s) s))) s'.
Proof.
  intros Htip Hadd Hfs Hhs.
  set (s1 := BlockDownloadOps.set_timeout (timeout_received pid 1 B_Headers (bd_timeout s)) s).
  destruct (add_headers_one hd stored us fs db' hs pid
    (BlockDownloadOps.mkFound [] [] false false (stored_height tip)) s1) as [moved Hpass]; [done..|].
  pose proof (unwind_all hs (BlockDownloadOps.set_chaindb db' s1)) as Hunwind.
  match type of Hunwind with _ = (_, ?x) => set (s3 := x) in * end.
  set (s4 := BlockDownloadOps.set_downstream
    (downstream s3 ++ passed s stored)
    (BlockDownloadOps.set_queues (blocks_wanted s3 ++ newly_wanted s stored) (blocks_asked s3) s3)).
  assert (for_each_do [(stored_height stored, stored_header stored)] BlockDownloadOps.connect s3 = (Ok (), s4))
    as Hcon.
  { cbn [for_each_do]. rewrite (action_bind_ok _ _ _ _ _ (connect_one stored s3)). reflexivity. }
  destruct (get_headers_total pid s4) as (s5 & Hget & Hd5 & Ha5 & Hw5 & Hp5 & Hc5).
  exists (if moved then BlockDownloadOps.set_sent (bd_sent s5 ++ [NewHeight (stored_height stored)]) s5 else s5).
  split.
  - unfold BlockDownloadOps.on_headers. rewrite (action_bind_ok _ _ s () s1) by done.
    rewrite decide_False by done. rewrite (action_bind_ok (gets _) _ s1 (Some tip) s1)
      by (unfold gets; by rewrite <- Htip).
    cbn [length BlockDownloadOps.headers_loop BlockDownloadOps.some_new BlockDownloadOps.moved_tip
      BlockDownloadOps.new_height].
    match type of Hpass with _ = (Ok (?f, _), _) => rewrite (action_bind_ok _ _ s1 f s4) end.
    + cbn [BlockDownloadOps.some_new BlockDownloadOps.moved_tip BlockDownloadOps.new_height].
      rewrite (action_bind_ok _ _ _ _ _ Hget). by destruct moved.
    + rewrite (action_bind_ok _ _ _ _ _ Hpass). cbn [BlockDownloadOps.disconnected BlockDownloadOps.connected app].
      rewrite (action_bind_ok _ _ _ _ _ Hunwind). by rewrite (action_bind_ok _ _ _ _ _ Hcon).
  - destruct moved; split_and!; try done; cbn [downstream BlockDownloadOps.set_downstream
      BlockDownloadOps.set_chaindb BlockDownloadOps.set_sent]; by rewrite Hd5, (assoc_L (++)).
Qed.

(** C38: A new header that is younger than the wallet is passed downstream as
    connected and its block wanted, whether it is on the trunk or on a fork; one
    that is not younger is stored, but neither passed on nor its block wanted. If
    it starts a re-org, one block per unwound header younger than the wallet is
    taken off the end of the wanted blocks, and none off those already asked
    for: a block that was asked for stays so, be it one of the unwound ones, and
    is passed downstream as connected when the peer delivers it, after its header
    was passed as disconnected; of the new branch only the last header is
    passed. *)
Theorem new_header_spec hd stored us fs tip db' hs pid s :
  header_tip (view (chaindb s)) = Some tip ->
  chain_add_header hd (chaindb s) = (Stored stored us fs, db') -> fs <> Some [] ->
  BlockDownloadOps.unwound_headers (view db') (default [] us) = Ok hs ->
  exists s', BlockDownloadOps.on_headers [hd] pid s = (Ok (), s') /\
    chaindb s' = db' /\ blocks_asked s' = blocks_asked s /\
    blocks_wanted s' = take (length (blocks_wanted s) - length (younger s hs)) (blocks_wanted s) ++
      (if decide (birth s < time (stored_header stored))
       then [(header_hash (stored_header stored), stored_height stored)] else []) /\
    downstream s' = downstream s ++ (block_disconnected <$> younger s hs) ++
      (if decide (birth s < time (stored_header stored))
       then [header_connected (stored_header stored) (stored_height stored)] else []) /\
    forall b n rest peer,
      blocks_asked s = (header_hash (header b), n) :: rest -> block_download_peer s = Some peer ->
      exists s2, BlockDownloadOps.on_block b peer s' = (Ok (), s2) /\
        downstream s2 = downstream s' ++ [block_connected b n].
Proof.
  intros Htip Hadd Hfs Hhs.
  destruct (on_headers_one hd stored us fs tip db' hs pid s) as (s' & Hrun & Hd & Ha & Hw & Hp & Hc); [done..|].
  exists s'. split_and!; [done..|]. intros b n rest peer Hasked Hpeer.
  by apply (on_block_next b n rest); [rewrite Ha|rewrite Hp].
Qed.
End Reorgs.
