(* ===== verification/BlockDownloadStart.v ===== *)
(** * The blocks wanted at start

    [BlockDownload::new] walks from the tip of the trunk back to the last
    processed block or to the wallet's birth.  On a linked chain it collects
    exactly the blocks after that point; for a last processed block that is not on
    the trunk nothing but the birth stops it. *)

From S2P Require Import Prelude Machine Keys Strings Bitcoin Effects Trunk Messages BlockDownload.
#[local] Open Scope Z_scope.

Section Start.
Context `{Bitcoin}.
Implicit Types (chain : list BlockHeader) (h : BlockHeader).

(** Headers linked by their hashes, genesis first. *)
Record linked chain : Prop := {
  linked_nodup : NoDup (header_hash <$> chain);
  linked_no_default : hash_default ∉ header_hash <$> chain;
  linked_genesis : forall h, chain !! O = Some h -> prev_blockhash h = hash_default;
  linked_prev : forall i h h', chain !! i = Some h -> chain !! S i = Some h' ->
                  prev_blockhash h' = header_hash h
}.

Lemma linked_hash_inj chain j k hj hk :
  linked chain -> chain !! j = Some hj -> chain !! k = Some hk -> header_hash hj = header_hash hk -> j = k.
Proof.
  intros Hl Hj Hk Heq. apply (NoDup_lookup _ j k (header_hash hk) (linked_nodup _ Hl)).
  - by rewrite list_lookup_fmap, Hj, <- Heq.
  - by rewrite list_lookup_fmap, Hk.
Qed.

(** The blocks of the trunk from height [i] on. *)
Definition blocks_from chain (i : nat) : list (digest * Z) :=
  (λ '(k, h), (header_hash h, Z.of_nat k)) <$> drop i (enumerate chain).

Lemma blocks_from_S chain i h :
  chain !! i = Some h -> blocks_from chain i = (header_hash h, Z.of_nat i) :: blocks_from chain (S i).
Proof.
  intros Hi. unfold blocks_from. rewrite (drop_S _ (i, h)); [done|].
  by rewrite lookup_enumerate, Hi.
Qed.

Lemma blocks_from_end chain : blocks_from chain (length chain) = [].
Proof.
  unfold blocks_from. rewrite drop_ge; [done|]. unfold enumerate. by rewrite length_imap.
Qed.

Definition cached chain (i : nat) (h : BlockHeader) : CachedHeader := mkCachedHeader h (Z.of_nat i).

(** The trunk of a header database, which may hold forks besides it. *)
Record trunk_of (db : ChainDB) chain : Prop := {
  trunk_linked :> linked chain;
  trunk_get : forall i h, chain !! i = Some h -> cdb_get_header db (header_hash h) = Some (cached chain i h);
  trunk_pos : forall i h, chain !! i = Some h -> is_Some (pos_on_trunk db (header_hash h));
  trunk_tip : header_tip db = (λ h, mkCachedHeader h (Z.of_nat (length chain) - 1)) <$> last chain
}.

Lemma chain_db_trunk chain : linked chain -> trunk_of (chain_db chain) chain.
Proof.
  intros Hl. split; [done|..|done]; intros i h Hi; cbn;
    rewrite (find_height_lookup chain i h) by (done || apply Hl); by try eexists.
Qed.

Lemma linked_hash_ne chain i h : linked chain -> chain !! i = Some h -> header_hash h <> hash_default.
Proof.
  intros Hl Hi Heq. apply (linked_no_default _ Hl). rewrite <- Heq.
  apply list_elem_of_fmap. exists h. split; [done|]. by eapply list_elem_of_lookup_2.
Qed.

(** One step of the walk at a block that is not the stop. *)
Lemma wanted_back_step db chain fuel birth stop i h h0 w :
  trunk_of db chain -> chain !! S i = Some h -> chain !! i = Some h0 -> header_hash h <> stop ->
  w = blocks_from chain (S (S i)) ->
  BlockDownloadOps.wanted_back (S fuel) db birth stop (cached chain (S i) h) (header_hash h) w =
  if time h0 <? birth then Ok (Some (blocks_from chain (S i)))
  else BlockDownloadOps.wanted_back fuel db birth stop (cached chain i h0) (header_hash h0)
         (blocks_from chain (S i)).
Proof.
  intros Hl Hh Hh0 Hne ->. cbn [BlockDownloadOps.wanted_back]. rewrite decide_False by done.
  cbn [stored_header stored_height cached]. rewrite (linked_prev _ Hl i h0 h) by done.
  rewrite decide_True by (by eapply (linked_hash_ne chain _ _ Hl)). rewrite (trunk_get _ _ Hl i h0) by done.
  cbn [stored_header cached]. by rewrite (blocks_from_S chain (S i) h).
Qed.

(** The walk from height [j + n] stops above [j]. *)
Lemma wanted_back_spec db chain birth stop j hj n i h fuel :
  trunk_of db chain -> chain !! j = Some hj -> i = (j + n)%nat -> (n < fuel)%nat -> chain !! i = Some h ->
  (forall k hk, (j < k <= i)%nat -> chain !! k = Some hk -> header_hash hk <> stop) ->
  (forall k hk, (j < k < i)%nat -> chain !! k = Some hk -> birth <= time hk) ->
  header_hash hj = stop \/ ((0 < n)%nat /\ time hj < birth) ->
  BlockDownloadOps.wanted_back fuel db birth stop (cached chain i h) (header_hash h)
    (blocks_from chain (S i)) = Ok (Some (blocks_from chain (S j))).
Proof.
  intros Hl Hj. revert i h fuel. induction n as [|n IH]; intros i h fuel Hi Hf Hh Hstop Hborn Hor.
  - destruct fuel as [|fuel]; [lia|]. rewrite Nat.add_0_r in Hi. subst i.
    rewrite Hj in Hh. injection Hh as <-. destruct Hor as [Heq|[? _]]; [|lia].
    cbn [BlockDownloadOps.wanted_back]. by rewrite decide_True.
  - destruct fuel as [|fuel]; [lia|]. rewrite Nat.add_succ_r in Hi. subst i.
    destruct (lookup_lt_is_Some_2 chain (j + n)) as [h0 Hh0]; [apply lookup_lt_Some in Hh; lia|].
    rewrite (wanted_back_step db chain fuel birth stop (j + n) h h0); [|done..|by apply (Hstop (S (j + n))); [lia|]|done].
    destruct (Z.ltb_spec (time h0) birth) as [Hlt|Hge].
    + destruct (decide (n = 0%nat)) as [->|Hn]; [by rewrite Nat.add_0_r|].
      specialize (Hborn (j + n)%nat h0 ltac:(lia) Hh0). lia.
    + apply IH; [done|lia|done|intros k hk ?; apply Hstop; lia|intros k hk ?; apply Hborn; lia|].
      destruct Hor as [?|[_ Hlt]]; [by left|right]. split; [|done].
      destruct n; [|lia]. rewrite Nat.add_0_r, Hj in Hh0. injection Hh0 as ->. lia.
Qed.

(** The walk that nothing stops before the genesis block. *)
Lemma wanted_back_genesis db chain birth stop n : forall h fuel w,
  trunk_of db chain -> (n + 1 < fuel)%nat -> chain !! n = Some h -> w = blocks_from chain (S n) ->
  (forall k hk, (k <= n)%nat -> chain !! k = Some hk -> header_hash hk <> stop) ->
  (forall k hk, (k < n)%nat -> chain !! k = Some hk -> birth <= time hk) ->
  exists g, BlockDownloadOps.wanted_back fuel db birth stop (cached chain n h) (header_hash h) w =
    BlockDownloadOps.wanted_back (fuel - S n) db birth stop g hash_default (blocks_from chain 0) /\
    prev_blockhash (stored_header g) = hash_default.
Proof.
  induction n as [|n IH]; intros h fuel w Hl Hf Hh -> Hstop Hborn.
  - exists (cached chain 0 h). destruct fuel as [|fuel]; [lia|]. rewrite Nat.sub_succ, Nat.sub_0_r.
    cbn [BlockDownloadOps.wanted_back].
    rewrite decide_False by (by apply (Hstop 0%nat)). cbn [stored_header stored_height cached].
    rewrite (linked_genesis _ Hl h Hh). rewrite decide_False by (intros Hn; by apply Hn).
    split; [|done]. by rewrite (blocks_from_S chain 0 h).
  - destruct fuel as [|fuel]; [lia|].
    destruct (lookup_lt_is_Some_2 chain n) as [h0 Hh0]; [apply lookup_lt_Some in Hh; lia|].
    rewrite (wanted_back_step db chain fuel birth stop n h h0); [|done..|by apply (Hstop (S n))|done].
    rewrite (proj2 (Z.ltb_ge _ _)) by (apply (Hborn n); [lia|done]).
    destruct (IH h0 fuel (blocks_from chain (S n)) Hl ltac:(lia) Hh0 eq_refl) as (g & -> & Hg).
    + intros k hk ?. apply Hstop. lia.
    + intros k hk ?. apply Hborn. lia.
    + exists g. by replace (S fuel - S (S n))%nat with (fuel - S n)%nat by lia.
Qed.

Lemma wanted_back_endless db birth stop fuel g w :
  hash_default <> stop -> prev_blockhash (stored_header g) = hash_default ->
  BlockDownloadOps.wanted_back fuel db birth stop g hash_default w = Ok None.
Proof.
  intros Hne Hg. revert w. induction fuel as [|fuel IH]; intros w; [done|].
  cbn [BlockDownloadOps.wanted_back]. rewrite decide_False by done.
  rewrite Hg. rewrite decide_False by (intros Hn; by apply Hn). apply IH.
Qed.

(** More fuel does not change an outcome. *)
Lemma wanted_back_more db birth stop fuel k g x w r :
  BlockDownloadOps.wanted_back fuel db birth stop g x w = r -> r <> Ok None ->
  BlockDownloadOps.wanted_back (fuel + k) db birth stop g x w = r.
Proof.
  intros <-. revert g x w. induction fuel as [|fuel IH]; intros g x w Hr; [done|].
  cbn [BlockDownloadOps.wanted_back Nat.add] in *.
  repeat case_decide; try done; [|by apply IH].
  destruct (cdb_get_header db (prev_blockhash (stored_header g))) as [g'|]; [|done].
  destruct (time (stored_header g') <? birth); [done|]. by apply IH.
Qed.

Lemma wanted_at_start_tip db chain tip birth processed fuel :
  trunk_of db chain ->
  last chain = Some tip -> birth < time tip ->
  chain !! (length chain - 1)%nat = Some tip /\
  BlockDownloadOps.wanted_at_start fuel db processed birth =
  BlockDownloadOps.wanted_back fuel db birth (default hash_default processed)
    (cached chain (length chain - 1) tip) (header_hash tip) (blocks_from chain (S (length chain - 1))).
Proof.
  intros Ht Htip Hb. pose proof (last_lookup chain) as Hl. rewrite Htip in Hl.
  assert (0 < length chain)%nat as Hlen by (destruct chain; [done|simpl; lia]).
  split; [rewrite Hl; f_equal; lia|].
  unfold BlockDownloadOps.wanted_at_start. rewrite (trunk_tip _ _ Ht), Htip.
  cbn [fmap option_fmap option_map stored_header]. rewrite (proj2 (Z.ltb_lt _ _) Hb).
  replace (S (length chain - 1)) with (length chain) by lia. rewrite blocks_from_end.
  unfold cached. by replace (Z.of_nat (length chain - 1)) with (Z.of_nat (length chain) - 1) by lia.
Qed.

Lemma wanted_at_start_run db chain tip processed birth fuel :
  trunk_of db chain -> last chain = Some tip -> birth < time tip -> (length chain + 1 < fuel)%nat ->
  (forall j hj, chain !! j = Some hj ->
     processed = Some (header_hash hj) \/ ((j + 1 < length chain)%nat /\ time hj < birth) ->
     (forall k hk, (j < k)%nat -> chain !! k = Some hk -> processed <> Some (header_hash hk) /\ birth <= time hk) ->
     BlockDownloadOps.wanted_at_start fuel db processed birth =
       Ok (Some (blocks_from chain (S j)))) /\
  (processed = None -> (forall k hk, chain !! k = Some hk -> birth <= time hk) ->
     BlockDownloadOps.wanted_at_start fuel db processed birth =
       Ok (Some (blocks_from chain 0))).
Proof.
  intros Hl Htip Hb Hf. destruct (wanted_at_start_tip db chain tip birth processed fuel Hl Htip Hb) as [Hi ->].
  assert (forall k hk, chain !! k = Some hk -> processed <> Some (header_hash hk) ->
    header_hash hk <> default hash_default processed) as Hstop.
  { intros k hk Hk Hne. destruct processed as [p|]; cbn; [congruence|by eapply (linked_hash_ne chain _ _ Hl)]. }
  split.
  - intros j hj Hj Hor Habove. pose proof (lookup_lt_Some _ _ _ Hj) as Hlt.
    apply (wanted_back_spec db chain birth _ j hj (length chain - 1 - j)); try done; try lia.
    + intros k hk Hk Hkk. apply (Hstop k hk Hkk). apply (Habove k hk); [lia|done].
    + intros k hk Hk Hkk. apply (Habove k hk); [lia|done].
    + destruct Hor as [->|[Hj' Hold]]; [by left|right]. split; [lia|done].
  - intros -> Hall. change (default hash_default None) with hash_default.
    destruct (wanted_back_genesis db chain birth hash_default (length chain - 1) tip fuel _ Hl
      ltac:(lia) Hi eq_refl) as (g & -> & Hg).
    + intros k hk _ Hk. by eapply (linked_hash_ne chain _ _ Hl).
    + intros k hk _ Hk. by eapply Hall.
    + pose proof (lookup_lt_Some _ _ _ Hi).
      destruct (fuel - S (length chain - 1))%nat as [|f] eqn:Hff; [lia|].
      cbn [BlockDownloadOps.wanted_back]. by rewrite decide_True.
Qed.

(** At start the node wants exactly the blocks of the trunk after the last
    processed one, or after the last header below it that is older than the wallet,
    in the order of their heights; without a processed block, and with no header
    older than the wallet, it wants the whole chain; the walk takes no more
    steps than there are headers. *)
Theorem wanted_at_start_spec db chain tip processed birth fuel :
  trunk_of db chain -> last chain = Some tip -> birth < time tip -> (length chain + 1 < fuel)%nat ->
  (forall j hj, chain !! j = Some hj ->
     processed = Some (header_hash hj) \/ ((j + 1 < length chain)%nat /\ time hj < birth) ->
     (forall k hk, (j < k)%nat -> chain !! k = Some hk -> processed <> Some (header_hash hk) /\ birth <= time hk) ->
     BlockDownloadOps.wanted_at_start fuel db processed birth =
       Ok (Some (blocks_from chain (S j)))) /\
  (processed = None -> (forall k hk, chain !! k = Some hk -> birth <= time hk) ->
     BlockDownloadOps.wanted_at_start fuel db processed birth =
       Ok (Some (blocks_from chain 0))).
Proof. apply wanted_at_start_run. Qed.

(** C26: A last processed block that is not on the trunk, as a re-org while the node
    was down leaves it, never stops the walk: on a chain younger than the wallet
    it goes on pushing blocks for ever. *)
Theorem stale_processed_diverges db chain tip x birth fuel :
  trunk_of db chain -> last chain = Some tip -> birth < time tip ->
  (forall k hk, chain !! k = Some hk -> birth <= time hk) ->
  x <> hash_default -> x ∉ header_hash <$> chain ->
  BlockDownloadOps.wanted_at_start fuel db (Some x) birth = Ok None.
Proof.
  intros Hl Htip Hb Hall Hx Hnin.
  destruct (wanted_at_start_tip db chain tip birth (Some x) fuel Hl Htip Hb) as [Hi ->].
  change (default hash_default (Some x)) with x.
  destruct (decide (BlockDownloadOps.wanted_back fuel db birth x
    (cached chain (length chain - 1) tip) (header_hash tip) (blocks_from chain (S (length chain - 1))) = Ok None))
    as [|Hne]; [done|]. exfalso.
  pose proof (wanted_back_more _ _ _ _ (length chain + 2) _ _ _ _ eq_refl Hne) as Hmore.
  pose proof (lookup_lt_Some _ _ _ Hi) as Hlt.
  destruct (wanted_back_genesis db chain birth x (length chain - 1) tip (fuel + (length chain + 2)) _ Hl
    ltac:(lia) Hi eq_refl) as (g & Heq & Hg).
  - intros k hk _ Hk Heq. apply Hnin. apply list_elem_of_fmap. exists hk. split; [done|].
    by eapply list_elem_of_lookup_2.
  - intros k hk _ Hk. by eapply Hall.
  - rewrite Heq, wanted_back_endless in Hmore by done. by rewrite <- Hmore in Hne.
Qed.
End Start.
