(* ===== verification/Address.v ===== *)
(** * Network addresses and the address table (src/discovery.rs, src/db.rs)

    Conversion between socket addresses and the keys of the address tables, and
    the slots of the database that keep the addresses of both networks: storing
    into a slot, choosing an address to connect to, the table and the sketch of
    the recent addresses. *)

From S2P Require Import Prelude Machine IbltTable IbltRefine Sketch Keys Strings Text Bitcoin.
From S2P Require Import Content Effects Db DbContent Wallet DbWallet.
#[local] Open Scope Z_scope.

(** The names of the networks, ["defiads"] and ["bitcoin"]. *)
Definition DEFIADS : str := [100; 101; 102; 105; 97; 100; 115].
Definition BITCOIN : str := [98; 105; 116; 99; 111; 105; 110].

Definition ONION : list Z := [64903; 55422; 60227].   (* 0xFD87, 0xD87E, 0xEB43 *)

Module NetAddressOps.
(** [Ipv4Addr::to_ipv6_mapped().segments()] *)
Definition to_ipv6_mapped (o : vec Z 4) : vec Z 8 :=
  [# 0; 0; 0; 0; 0; 65535;
     256 * (o !!! 0%fin) + (o !!! 1%fin);
     256 * (o !!! 2%fin) + (o !!! 3%fin)].

(** [Ipv6Addr::to_ipv4()]: mapped and compatible addresses. *)
Definition to_ipv4 (s : vec Z 8) : option (vec Z 4) :=
  match vec_to_list s with
  | [0; 0; 0; 0; 0; f; g; h] =>
      if decide (f = 0 \/ f = 65535)
      then Some [# Z.shiftr g 8; g mod 256; Z.shiftr h 8; h mod 256]
      else None
  | _ => None
  end.

Definition new (socket : SocketAddr) : NetAddress :=
  match socket with
  | V4 octets port => mkNetAddress (to_ipv6_mapped octets) port
  | V6 segments port _ _ => mkNetAddress segments port
  end.

Definition socket_address (a : NetAddress) : res Error SocketAddr :=
  if decide (take 3 (vec_to_list (Keys.address a)) = ONION) then Err (IO AddrNotAvailable)
  else match to_ipv4 (Keys.address a) with
       | Some ipv4 => Ok (V4 ipv4 (port a))
       | None => Ok (V6 (Keys.address a) (port a) 0 0)
       end.
End NetAddressOps.

(** What the text of a socket address keeps of it. *)
Definition shown (a : SocketAddr) : SocketAddr :=
  match a with V4 o p => V4 o p | V6 s p _ _ => V6 s p 0 0 end.

Definition OLD_CONNECTION : Z := 5 * 24 * 60 * 60.
Definition BAN_TIME : Z := 60 * 60 * 24.

Module AddressTable.
Section Ops.
Context `{SipHasher, SQLite}.

Definition address_slot (k0 k1 : Z) (network : str) (a : SocketAddr) : Z :=
  u16 (sip_hash k0 k1 (utf8 network :: (le_bytes16 <$> vec_to_list (Keys.address (NetAddressOps.new a))))
       mod ADDRESS_SLOTS).

Definition put (network : str) (slot : Z) (a : SocketAddr) (connected last_seen banned : Z) :
    action DB Error Z :=
  _ ← modify (λ db, set_address (<[(network, slot) :=
        mkAddressRow (shown a) (i64 connected) (i64 last_seen) (i64 banned)]> (Db.address db)) db);
  mret 1.

(** [r0] and [r1] are what the generator draws for a missing seed, [now] is the
    time in seconds. *)
Definition store_address (r0 r1 now : Z) (network : str) (a : SocketAddr) (connected last_seen banned : Z) :
    action DB Error Z :=
  '(k0, k1) ← WalletTables.read_seed r0 r1;
  let slot := address_slot k0 k1 network a in
  old ← gets (λ db, Db.address db !! (network, slot));
  match old with
  | Some r =>
      if decide (ip r <> a) then
        if (0 <? u64 (Db.banned r)) || (u64 (Db.connected r) <? u64 (now - OLD_CONNECTION)) then
          put network slot a connected last_seen banned
        else mret 0
      else
        put network slot a (Z.max (u64 (Db.connected r)) connected)
          (Z.max (u64 (Db.last_seen r)) last_seen) (Z.max (u64 (Db.banned r)) banned)
  | None => put network slot a connected last_seen banned
  end.

(** [select ip from address where network = ?1 and last_seen > ?2 and banned < ?2] *)
Definition recent (network : str) (yesterday : Z) (db : DB) : list SocketAddr :=
  (ip ∘ snd) <$> filter (λ '((n, _), r), n = network /\ i64 yesterday < Db.last_seen r /\
                                         Db.banned r < i64 yesterday) (scan (Db.address db)).

Definition compute_address_iblt (now len : Z) (db : DB) : res Error (IBLT NetAddress) :=
  iblt ← Iblt.new len NH K0 K1;
  for_each (recent DEFIADS (u64 (now - 24 * 60 * 60)) db) (λ iblt a,
    Iblt.insert iblt (NetAddressOps.new a)) iblt.

Definition compute_address_sketch (now : Z) (len : nat) (db : DB) : res Error (list Z * Z) :=
  '(sketch, _, n_keys) ← min_sketch len K0 K1
    (NetAddressOps.new <$> recent DEFIADS (u64 (now - 24 * 60 * 60)) db);
  Ok (sketch, n_keys).

(** [order by last_seen desc] *)
Definition by_last_seen_desc (x y : AddressRow) : Prop := Db.last_seen y <= Db.last_seen x.
#[global] Instance by_last_seen_desc_dec : RelDecision by_last_seen_desc.
Proof. intros x y. unfold by_last_seen_desc. apply _. Defined.

Definition eligible (now : Z) (network : str) (other_than : gset SocketAddr) (db : DB) : list SocketAddr :=
  filter (λ a, a ∉ other_than)
    (ip <$> order_by by_last_seen_desc
       (snd <$> filter (λ '((n, _), r), n = network /\ Db.banned r < i64 (u64 (now - BAN_TIME)))
                  (scan (Db.address db)))).

(** [sample] is the draw of the Poisson distribution, truncated to an index. *)
Definition get_an_address (now : Z) (network : str) (other_than : gset SocketAddr) (sample : nat)
    (db : DB) : res Error (option SocketAddr) :=
  let eligible := eligible now network other_than db in
  let len := length eligible in
  if decide (len = O) then Ok None
  else a ← index eligible (Nat.min (len - 1) sample); Ok (Some a).
End Ops.
End AddressTable.
