(* ===== verification/AddressSpec.v ===== *)
(** * Theorems on network addresses and the address table *)

From S2P Require Import Prelude Machine IbltTable IbltCells IbltAlgebra IbltRefine IbltSync Sketch.
From S2P Require Import Keys Strings Text Bitcoin Content Effects Db DbContent Wallet DbWallet Address.
#[local] Open Scope Z_scope.
#[local] Ltac Zify.zify_post_hook ::= Z.to_euclidean_division_equations.

(** ** Conversions *)

(** Socket addresses whose key converts back: all of IPv4, and the IPv6 addresses
    outside of the ranges that stand for IPv4 or for onions. *)
Definition plain (a : SocketAddr) : Prop :=
  match a with
  | V4 octets _ => Forall is_u8 (vec_to_list octets)
  | V6 segments _ flowinfo scope =>
      take 3 (vec_to_list segments) <> ONION /\ take 5 (vec_to_list segments) <> [0; 0; 0; 0; 0] /\
      flowinfo = 0 /\ scope = 0
  end.

Lemma to_ipv4_mapped (o : vec Z 4) :
  Forall is_u8 (vec_to_list o) -> NetAddressOps.to_ipv4 (NetAddressOps.to_ipv6_mapped o) = Some o.
Proof.
  inv_vec o. intros a b c d Ho. apply Forall_cons in Ho as [Ha Ho]. apply Forall_cons in Ho as [Hb Ho].
  apply Forall_cons in Ho as [Hc Ho]. apply Forall_cons in Ho as [Hd _]. unfold is_u8 in *.
  unfold NetAddressOps.to_ipv6_mapped, NetAddressOps.to_ipv4. cbn -[Z.mul Z.add Z.shiftr Z.modulo].
  rewrite !Z.shiftr_div_pow2 by lia. change (2 ^ 8) with 256.
  repeat f_equal; lia.
Qed.

Lemma to_ipv4_none (s : vec Z 8) :
  take 5 (vec_to_list s) <> [0; 0; 0; 0; 0] -> NetAddressOps.to_ipv4 s = None.
Proof.
  unfold NetAddressOps.to_ipv4. destruct (vec_to_list s) as [|[] [|[] [|[] [|[] [|[] l]]]]]; try done.
Qed.

(** The key of a socket address converts back to it: all of IPv4, and the
    IPv6 addresses outside the ranges that embed IPv4 or onion addresses. An
    IPv4-compatible IPv6 address, the loopback [::1] among them, comes back as
    an IPv4 address, and an onion address is an error. *)
Theorem net_address_roundtrip a :
  (plain a -> NetAddressOps.socket_address (NetAddressOps.new a) = Ok a) /\
  (forall g h port flowinfo scope, is_u16 g -> is_u16 h -> a = V6 [# 0; 0; 0; 0; 0; 0; g; h] port flowinfo scope ->
     NetAddressOps.socket_address (NetAddressOps.new a) =
       Ok (V4 [# g / 256; g mod 256; h / 256; h mod 256] port)) /\
  (forall segments port flowinfo scope, a = V6 segments port flowinfo scope ->
     take 3 (vec_to_list segments) = ONION ->
     NetAddressOps.socket_address (NetAddressOps.new a) = Err (IO AddrNotAvailable)).
Proof.
  unfold NetAddressOps.socket_address. split_and!.
  - destruct a as [o p|s p f i]; cbn [plain NetAddressOps.new Keys.address port].
    + intros Ho. rewrite decide_False; [by rewrite to_ipv4_mapped|]. inv_vec o. done.
    + intros (Hon & Hz & -> & ->). by rewrite decide_False, to_ipv4_none.
  - intros g h p f i Hg Hh ->. cbn [NetAddressOps.new Keys.address port]. rewrite decide_False by done.
    unfold NetAddressOps.to_ipv4. cbn [vec_to_list]. rewrite decide_True by (by left).
    by rewrite !Z.shiftr_div_pow2 by lia.
  - intros s p f i -> Hon. cbn [NetAddressOps.new Keys.address]. by rewrite decide_True.
Qed.

(** ** The slots *)

Section Slots.
Context `{SipHasher, SQLiteLaws}.
Implicit Types (db : DB).

(** The key pair of the slots: the stored one, or the one drawn now. *)
Definition slot_keys (r0 r1 : Z) db : Z * Z :=
  match seed db with Some (k0, k1) => (u64 k0, u64 k1) | None => (r0, r1) end.

Definition new_row (a : SocketAddr) (c l b : Z) : AddressRow := mkAddressRow (shown a) (i64 c) (i64 l) (i64 b).

(** What happens to the row of the slot. *)
Definition stored_row (now : Z) (a : SocketAddr) (c l b : Z) (old : option AddressRow) : AddressRow :=
  match old with
  | None => new_row a c l b
  | Some r =>
      if decide (ip r = a) then
        new_row a (Z.max (u64 (Db.connected r)) c) (Z.max (u64 (Db.last_seen r)) l)
          (Z.max (u64 (Db.banned r)) b)
      else if decide (0 < u64 (Db.banned r) \/ u64 (Db.connected r) < u64 (now - OLD_CONNECTION))
      then new_row a c l b else r
  end.

Lemma store_address_run r0 r1 now network a c l b db :
  let '(k0, k1) := slot_keys r0 r1 db in
  let slot := AddressTable.address_slot k0 k1 network a in
  exists n db', AddressTable.store_address r0 r1 now network a c l b db = (Ok n, db') /\
    Db.address db' = <[(network, slot) := stored_row now a c l b (Db.address db !! (network, slot))]>
                       (Db.address db) /\ Db.content db' = Db.content db /\
    (is_u64 r0 -> is_u64 r1 -> forall q0 q1, slot_keys q0 q1 db' = slot_keys r0 r1 db).
Proof.
  destruct (slot_keys r0 r1 db) as [k0 k1] eqn:Hk. intros slot.
  set (db1 := match seed db with Some _ => db | None => set_seed (Some (i64 r0, i64 r1)) db end).
  assert (WalletTables.read_seed r0 r1 db = (Ok (k0, k1), db1)) as Hseed.
  { unfold WalletTables.read_seed, db1. unfold slot_keys in Hk.
    destruct (seed db) as [[s0 s1]|]; by injection Hk as <- <-. }
  assert (Db.address db1 = Db.address db /\ Db.content db1 = Db.content db) as [Ha Hc]
    by (unfold db1; by destruct (seed db)).
  assert (forall t, is_u64 r0 -> is_u64 r1 -> forall q0 q1, slot_keys q0 q1 (set_address t db1) = (k0, k1)) as Hkeys.
  { intros t H0' H1' q0 q1. rewrite <- Hk. unfold slot_keys, db1. destruct (seed db) as [[s0 s1]|] eqn:Hs; cbn; [by rewrite Hs|].
    by rewrite !i64_u64. }
  unfold AddressTable.store_address. rewrite (action_bind_ok _ _ _ _ _ Hseed). fold slot.
  unfold gets, mbind, action_bind. rewrite Ha. unfold stored_row.
  destruct (Db.address db !! (network, slot)) as [r|] eqn:Hr.
  - destruct (decide (ip r = a)) as [Heq|Hne].
    + rewrite decide_False by (intros Hn; by apply Hn). eexists _, _. split; [reflexivity|].
      cbn. rewrite Ha. auto.
    + rewrite decide_True by done.
      destruct ((0 <? u64 (Db.banned r)) || (u64 (Db.connected r) <? u64 (now - OLD_CONNECTION))) eqn:Hb.
      * rewrite decide_True by (apply orb_true_iff in Hb as [Hb|Hb]; apply Z.ltb_lt in Hb; auto).
        eexists _, _. split; [reflexivity|]. cbn. rewrite Ha. auto.
      * rewrite decide_False.
        2: { apply orb_false_iff in Hb as [Hb1 Hb2]. apply Z.ltb_ge in Hb1, Hb2. lia. }
        eexists _, _. split; [reflexivity|]. rewrite Ha. split; [by rewrite insert_id|].
        split; [done|]. specialize (Hkeys (Db.address db1)). by destruct db1.
  - eexists _, _. split; [reflexivity|]. cbn. rewrite Ha. auto.
Qed.

(** Rows hold addresses that were parsed back from their text. *)
Definition rows_shown db : Prop := forall k r, Db.address db !! k = Some r -> shown (ip r) = ip r.

Lemma shown_shown a : shown (shown a) = shown a.
Proof. by destruct a. Qed.

Lemma u64_max_i64 x y : is_u64 y -> u64 (i64 (Z.max (u64 x) y)) = Z.max (u64 x) y.
Proof. intros Hy. apply i64_u64. pose proof (u64_range x). unfold is_u64 in *. lia. Qed.

Lemma store_address_cases r0 r1 now network a c l b db :
  is_u64 c -> is_u64 l -> is_u64 b -> rows_shown db ->
  let slot := AddressTable.address_slot (slot_keys r0 r1 db).1 (slot_keys r0 r1 db).2 network a in
  exists n db' r', AddressTable.store_address r0 r1 now network a c l b db = (Ok n, db') /\
    Db.content db' = Db.content db /\ rows_shown db' /\
    (forall k, k <> (network, slot) -> Db.address db' !! k = Db.address db !! k) /\
    Db.address db' !! (network, slot) = Some r' /\
    (Db.address db !! (network, slot) = None -> r' = new_row a c l b) /\
    (forall r, Db.address db !! (network, slot) = Some r ->
       (ip r' <> ip r -> ip r <> a /\ r' = new_row a c l b /\
          (0 < u64 (Db.banned r) \/ u64 (Db.connected r) < u64 (now - OLD_CONNECTION))) /\
       (ip r = a -> u64 (Db.connected r') = Z.max (u64 (Db.connected r)) c /\
          u64 (Db.last_seen r') = Z.max (u64 (Db.last_seen r)) l /\
          u64 (Db.banned r') = Z.max (u64 (Db.banned r)) b) /\
       (ip r <> a -> u64 (Db.banned r) = 0 -> u64 (now - OLD_CONNECTION) <= u64 (Db.connected r) -> r' = r)).
Proof.
  intros Hc Hl Hb Hrows. pose proof (store_address_run r0 r1 now network a c l b db) as Hrun.
  destruct (slot_keys r0 r1 db) as [k0 k1] eqn:Hk. cbn [fst snd]. cbv zeta in Hrun |- *.
  set (slot := AddressTable.address_slot k0 k1 network a) in *.
  destruct Hrun as (n & db' & Hrun & Ha & Hct & _).
  exists n, db', (stored_row now a c l b (Db.address db !! (network, slot))).
  split; [done|]. split; [done|]. split_and!.
  - intros k r. rewrite Ha. intros [[<- <-]|[_ Hr]]%lookup_insert_Some; [|by eapply Hrows].
    destruct (Db.address db !! (network, slot)) as [r|] eqn:Hr; cbn [stored_row]; [|apply shown_shown].
    repeat case_decide; [apply shown_shown..|by eapply Hrows].
  - intros k Hk'. by rewrite Ha, lookup_insert_ne.
  - by rewrite Ha, lookup_insert_eq.
  - by intros ->.
  - intros r Hr. rewrite Hr. cbn [stored_row]. destruct (decide (ip r = a)) as [Heq|Hne]; [|case_decide as Hold].
    + split_and!; [|intros _|done].
      * intros Hip. pose proof (Hrows _ _ Hr) as Hs. rewrite Heq in Hs. cbn in Hip. congruence.
      * cbn. by rewrite !u64_max_i64.
    + split_and!; [by intros _|done|]. intros _ Hz Hge. lia.
    + by split_and!.
Qed.

(** C17: An address goes to one slot of its network and touches no other. A slot
    changes its address only if the old one was banned or not connected for five
    days; for the same address the times only grow, so a ban is not forgotten
    when the address is heard of again; the slot of a fresh address holds what
    was stored. *)
Theorem store_address_spec r0 r1 now network a c l b db :
  is_u64 c -> is_u64 l -> is_u64 b -> rows_shown db ->
  let slot := AddressTable.address_slot (slot_keys r0 r1 db).1 (slot_keys r0 r1 db).2 network a in
  exists n db' r', AddressTable.store_address r0 r1 now network a c l b db = (Ok n, db') /\
    Db.content db' = Db.content db /\ rows_shown db' /\
    (forall k, k <> (network, slot) -> Db.address db' !! k = Db.address db !! k) /\
    Db.address db' !! (network, slot) = Some r' /\
    (Db.address db !! (network, slot) = None -> r' = new_row a c l b) /\
    (forall r, Db.address db !! (network, slot) = Some r ->
       (ip r' <> ip r -> ip r <> a /\ r' = new_row a c l b /\
          (0 < u64 (Db.banned r) \/ u64 (Db.connected r) < u64 (now - OLD_CONNECTION))) /\
       (ip r = a -> u64 (Db.connected r') = Z.max (u64 (Db.connected r)) c /\
          u64 (Db.last_seen r') = Z.max (u64 (Db.last_seen r)) l /\
          u64 (Db.banned r') = Z.max (u64 (Db.banned r)) b) /\
       (ip r <> a -> u64 (Db.banned r) = 0 -> u64 (now - OLD_CONNECTION) <= u64 (Db.connected r) -> r' = r)).
Proof. apply store_address_cases. Qed.

(** ** Choosing an address *)

Lemma elem_of_eligible now network other_than a db :
  a ∈ AddressTable.eligible now network other_than db <->
  a ∉ other_than /\ exists slot r, Db.address db !! (network, slot) = Some r /\ ip r = a /\
    Db.banned r < i64 (u64 (now - BAN_TIME)).
Proof.
  unfold AddressTable.eligible. rewrite list_elem_of_filter, list_elem_of_fmap.
  match goal with |- context [order_by ?R ?l] =>
    set (rows := l); pose proof (order_by_perm R rows) as Hperm end.
  assert (forall r, r ∈ rows <-> exists slot, Db.address db !! (network, slot) = Some r /\
    Db.banned r < i64 (u64 (now - BAN_TIME))) as Hrows.
  { intros r. unfold rows. rewrite list_elem_of_fmap. setoid_rewrite list_elem_of_filter.
    split.
    - intros ([[n slot] r'] & -> & (Hn & Hb) & Hr%elem_of_scan). cbn in *. subst n. by exists slot.
    - intros (slot & Hr%elem_of_scan & Hb). by exists ((network, slot), r). }
  split.
  - intros (Ho & r & -> & Hr). split; [done|]. rewrite Hperm in Hr. apply Hrows in Hr as (slot & Hr & Hb).
    by exists slot, r.
  - intros (Ho & slot & r & Hr & <- & Hb). split; [done|]. exists r. split; [done|].
    rewrite Hperm. apply Hrows. by exists slot.
Qed.

Lemma get_an_address_cases now network other_than sample db :
  exists o, AddressTable.get_an_address now network other_than sample db = Ok o /\
    (forall a, o = Some a -> a ∉ other_than /\ exists slot r,
       Db.address db !! (network, slot) = Some r /\ ip r = a /\ Db.banned r < i64 (u64 (now - BAN_TIME))) /\
    (o = None -> forall slot r, Db.address db !! (network, slot) = Some r ->
       Db.banned r < i64 (u64 (now - BAN_TIME)) -> ip r ∈ other_than).
Proof.
  pose proof (λ a, elem_of_eligible now network other_than a db) as Hel.
  unfold AddressTable.get_an_address. destruct (AddressTable.eligible now network other_than db) as [|a0 l].
  - exists None. cbn. split_and!; [done|done|]. intros _ slot r Hr Hb.
    destruct (decide (ip r ∈ other_than)) as [|Hn]; [done|]. exfalso.
    apply (not_elem_of_nil (ip r)), Hel. eauto 10.
  - rewrite decide_False by done.
    destruct (lookup_lt_is_Some_2 (a0 :: l) (Nat.min (length (a0 :: l) - 1) sample)) as [a Ha]; [simpl; lia|].
    exists (Some a). rewrite (index_Some _ _ a) by done. split_and!; [done| |done].
    intros a' [= <-]. apply Hel. by eapply list_elem_of_lookup_2.
Qed.

(** An address to connect to is one of the network that was not banned within
    the last day and is not among those already used, whatever is drawn; there is
    none only if no address qualifies; the choice never panics. *)
Theorem get_an_address_spec now network other_than sample db :
  exists o, AddressTable.get_an_address now network other_than sample db = Ok o /\
    (forall a, o = Some a -> a ∉ other_than /\ exists slot r,
       Db.address db !! (network, slot) = Some r /\ ip r = a /\ Db.banned r < i64 (u64 (now - BAN_TIME))) /\
    (o = None -> forall slot r, Db.address db !! (network, slot) = Some r ->
       Db.banned r < i64 (u64 (now - BAN_TIME)) -> ip r ∈ other_than).
Proof. apply get_an_address_cases. Qed.
End Slots.
