(* ===== verification/Discovery.v ===== *)
(** * The exchange of addresses (src/discovery.rs)

    The thread that exchanges the addresses of defiads nodes: polls with a sketch of
    the recent addresses, tables sized by the estimated difference, and the
    addresses peeled off the peer's table.  It also notes connections and bans in
    the address table. *)

From S2P Require Import Prelude Machine IbltTable Sketch Keys Strings Text Bitcoin Content Effects.
From S2P Require Import Db DbContent Wallet DbWallet Messages Updater Address.
#[local] Open Scope Z_scope.

Definition MINIMUM_IBLT_SIZE : Z := 100.
Definition MAXIMUM_IBLT_SIZE : Z := Z.shiftl MINIMUM_IBLT_SIZE 2.
Definition POLL_FREQUENCY : Z := 60.
Definition SKETCH_SIZE : nat := 10.

Record Discovery `{Bitcoin, !Peers, !Timeouts ExpectedReply} : Type := mkDiscovery {
  d_db : DB;
  d_timeout : Timeout ExpectedReply;
  d_outbox : list (PeerId * Message);
  d_poll_asked : gmap PeerId PollAddressMessage;
  iblt_sent : gmap PeerId (IBLT NetAddress);
  addresses : gmap PeerId SocketAddr;
  d_last_polled : Z
}.

Module DiscoveryOps.
Section Ops.
Context `{SipHasher, Bitcoin, SQLite, !Peers, !Timeouts ExpectedReply}.
(** What the generator draws if the seed of the slots is missing. *)
Variables r0 r1 : Z.

Definition set_db (x : DB) (d : Discovery) : Discovery :=
  mkDiscovery _ _ _ x (d_timeout d) (d_outbox d) (d_poll_asked d) (iblt_sent d) (addresses d) (d_last_polled d).
Definition set_timeout (x : Timeout ExpectedReply) (d : Discovery) : Discovery :=
  mkDiscovery _ _ _ (d_db d) x (d_outbox d) (d_poll_asked d) (iblt_sent d) (addresses d) (d_last_polled d).
Definition set_outbox (x : list (PeerId * Message)) (d : Discovery) : Discovery :=
  mkDiscovery _ _ _ (d_db d) (d_timeout d) x (d_poll_asked d) (iblt_sent d) (addresses d) (d_last_polled d).
Definition set_poll_asked (x : gmap PeerId PollAddressMessage) (d : Discovery) : Discovery :=
  mkDiscovery _ _ _ (d_db d) (d_timeout d) (d_outbox d) x (iblt_sent d) (addresses d) (d_last_polled d).
Definition set_iblt_sent (x : gmap PeerId (IBLT NetAddress)) (d : Discovery) : Discovery :=
  mkDiscovery _ _ _ (d_db d) (d_timeout d) (d_outbox d) (d_poll_asked d) x (addresses d) (d_last_polled d).
Definition set_addresses (x : gmap PeerId SocketAddr) (d : Discovery) : Discovery :=
  mkDiscovery _ _ _ (d_db d) (d_timeout d) (d_outbox d) (d_poll_asked d) (iblt_sent d) x (d_last_polled d).
Definition set_last_polled (x : Z) (d : Discovery) : Discovery :=
  mkDiscovery _ _ _ (d_db d) (d_timeout d) (d_outbox d) (d_poll_asked d) (iblt_sent d) (addresses d) x.

Definition new (db : DB) (t : Timeout ExpectedReply) (now : Z) : Discovery :=
  mkDiscovery _ _ _ db t [] ∅ ∅ ∅ now.

Definition on_db {A} : action DB Error A -> action Discovery Error A := zoom d_db set_db.
Definition expect_replies (pid : PeerId) (r : ExpectedReply) : action Discovery Error unit :=
  modify (λ d, set_timeout (timeout_expect pid 1 r (d_timeout d)) d).
Definition received (pid : PeerId) (r : ExpectedReply) : action Discovery Error unit :=
  modify (λ d, set_timeout (timeout_received pid 1 r (d_timeout d)) d).
Definition send_network (pid : PeerId) (m : Message) : action Discovery Error unit :=
  modify (λ d, set_outbox (d_outbox d ++ [(pid, m)]) d).

(** The poll the node makes of its recent addresses, in a transaction that only reads. *)
Definition our_poll (secs : Z) : action Discovery Error PollAddressMessage :=
  '(sketch, size) ← ask (λ d, expect (AddressTable.compute_address_sketch secs SKETCH_SIZE (d_db d)));
  mret (mkPollAddress sketch size).

Definition poll_address (secs : Z) (pid : PeerId) : action Discovery Error unit :=
  poll ← our_poll secs;
  _ ← modify (λ d, set_poll_asked (<[pid := poll]> (d_poll_asked d)) d);
  _ ← send_network pid (PollAddress poll);
  expect_replies pid R_PollAddress.

(** The transaction of this handler is dropped without a commit. *)
Definition on_connected (secs : Z) (pid : PeerId) (addr : option SocketAddr) : action Discovery Error unit :=
  _ ← (match addr with
       | Some address =>
           _ ← modify (λ d, set_addresses (<[pid := address]> (addresses d)) d);
           _ ← uncommitted d_db set_db
                 (on_db (expect_action (AddressTable.store_address r0 r1 secs DEFIADS address secs secs 0)));
           mret ()
       | None => mret ()
       end);
  poll_address secs pid.

Definition on_disconnected (secs : Z) (pid : PeerId) (banned : bool) : action Discovery Error unit :=
  _ ← (if banned then
         known ← gets (λ d, addresses d !! pid);
         match known with
         | Some address =>
             _ ← modify (λ d, set_addresses (delete pid (addresses d)) d);
             _ ← transaction d_db set_db
                   (on_db (expect_action (AddressTable.store_address r0 r1 secs BITCOIN address 0 0 secs)));
             mret ()
         | None => mret ()
         end
       else mret ());
  modify (λ d, set_iblt_sent (delete pid (iblt_sent d)) (set_poll_asked (delete pid (d_poll_asked d)) d)).

Definition poll_reply (secs : Z) (pid : PeerId) (question poll : PollAddressMessage) :
    action Discovery Error unit :=
  _ ← received pid R_PollAddress;
  diff ← lift (estimate_diff_size (pa_sketch question) (pa_size question) (pa_sketch poll) (pa_size poll));
  let diff := u32 (diff * 3) / 2 in
  if 0 <? diff then
    let size := grow_size 16 MAXIMUM_IBLT_SIZE diff MINIMUM_IBLT_SIZE in
    iblt ← ask (λ d, expect (AddressTable.compute_address_iblt secs size (d_db d)));
    _ ← modify (λ d, set_iblt_sent (<[pid := iblt]> (iblt_sent d)) d);
    _ ← expect_replies pid R_AddressIBLT;
    send_network pid (AddressIBLT iblt)
  else mret ().

Definition on_poll (secs : Z) (pid : PeerId) (poll : PollAddressMessage) : action Discovery Error unit :=
  asked ← gets (λ d, d_poll_asked d !! pid);
  match asked with
  | Some question =>
      _ ← modify (λ d, set_poll_asked (delete pid (d_poll_asked d)) d);
      poll_reply secs pid question poll
  | None => poll_address secs pid
  end.

(** [for entry in iblt.into_iter() { .. }] *)
Fixpoint store_entries (fuel : nat) (secs : Z) (it : IBLTIterator.t NetAddress) :
    action DB Error (option unit) :=
  match fuel with
  | O => mret None
  | S fuel =>
      '(item, it) ← lift (IBLTIterator.next it);
      match item with
      | None => mret (Some ())
      | Some (inl (Inserted key)) =>
          match NetAddressOps.socket_address key with
          | Ok addr =>
              _ ← expect_action (AddressTable.store_address r0 r1 secs DEFIADS addr 0 secs 0);
              store_entries fuel secs it
          | _ => store_entries fuel secs it
          end
      | Some (inl (Deleted _)) => store_entries fuel secs it
      | Some (inr _) => mret (Some ())
      end
  end.

Definition on_address_iblt (fuel : nat) (secs : Z) (pid : PeerId) (iblt : IBLT NetAddress) :
    action Discovery Error (option unit) :=
  _ ← received pid R_AddressIBLT;
  sent ← gets (λ d, iblt_sent d !! pid);
  iblt ← (match sent with
          | Some sent =>
              _ ← modify (λ d, set_iblt_sent (delete pid (iblt_sent d)) d);
              lift (Iblt.substract iblt sent)
          | None => mret iblt
          end);
  transaction d_db set_db (on_db (store_entries fuel secs (IBLTIterator.new iblt))).

(** The body of the [match] on a message; [now] is the time in nanoseconds. *)
Definition handle (fuel : nat) (now : Z) (msg : PeerMessage Message) : action Discovery Error (option unit) :=
  match msg with
  | Connected pid addr =>
      _ ← on_connected (as_secs now) pid addr;
      _ ← modify (set_last_polled now);
      mret (Some ())
  | Disconnected pid banned => _ ← on_disconnected (as_secs now) pid banned; mret (Some ())
  | Incoming pid (PollAddress poll) => _ ← on_poll (as_secs now) pid poll; mret (Some ())
  | Incoming pid (AddressIBLT iblt) => on_address_iblt fuel (as_secs now) pid iblt
  | Incoming _ _ => mret (Some ())
  | Outgoing _ => mret (Some ())
  end.

(** What the loop does when no message arrived for a second. *)
Definition idle (now : Z) (random_peer : option PeerId) : action Discovery Error unit :=
  _ ← modify (λ d, set_timeout (timeout_check [R_PollAddress; R_AddressIBLT] (d_timeout d)) d);
  elapsed ← ask (λ d, duration_since now (d_last_polled d));
  if POLL_FREQUENCY <? as_secs elapsed then
    _ ← modify (set_last_polled now);
    poll ← our_poll (as_secs now);
    match random_peer with
    | Some pid =>
        _ ← send_network pid (PollAddress poll);
        _ ← modify (λ d, set_poll_asked (<[pid := poll]> (d_poll_asked d)) d);
        expect_replies pid R_PollAddress
    | None => mret ()
    end
  else mret ().
End Ops.
End DiscoveryOps.
