(* ===== verification/DiscoverySpec.v ===== *)
(** * Theorems on the exchange of addresses *)

From S2P Require Import Prelude Machine IbltTable IbltCells IbltAlgebra IbltRefine IbltSync Sketch.
From S2P Require Import Keys Strings Text Bitcoin Content Effects Db DbContent Wallet DbWallet Messages.
From S2P Require Import Updater Address AddressSpec Discovery.
#[local] Open Scope Z_scope.

Section Safety.
Context `{SipHasher, Bitcoin, SQLiteLaws, !Peers, !Timeouts ExpectedReply}.
Implicit Types (db : DB) (d : Discovery).

(** A row that is not banned and was connected to within five days. *)
Definition trusted (secs : Z) (r : AddressRow) : Prop :=
  u64 (Db.banned r) = 0 /\ u64 (secs - OLD_CONNECTION) <= u64 (Db.connected r).

Definition no_worse (r r' : AddressRow) : Prop :=
  ip r' = ip r /\ u64 (Db.banned r') = u64 (Db.banned r) /\
  u64 (Db.connected r) <= u64 (Db.connected r') /\ u64 (Db.last_seen r) <= u64 (Db.last_seen r').

(** Other networks keep their rows, and this one its trusted rows. *)
Definition gentle (secs : Z) db db' : Prop :=
  rows_shown db ->
  rows_shown db' /\ Db.content db' = Db.content db /\
  forall network slot r, Db.address db !! (network, slot) = Some r ->
    (network <> DEFIADS -> Db.address db' !! (network, slot) = Some r) /\
    (trusted secs r -> exists r', Db.address db' !! (network, slot) = Some r' /\ no_worse r r').

Lemma no_worse_trusted secs r r' : no_worse r r' -> trusted secs r -> trusted secs r'.
Proof. intros (_ & Hb & Hc & _) [Hb' Hc']. split; lia. Qed.

#[export] Instance no_worse_preorder : PreOrder no_worse.
Proof.
  split; [intros r; split_and!; done|].
  intros r1 r2 r3 (Hi & Hb & Hc & Hl) (Hi' & Hb' & Hc' & Hl'). split_and!; [congruence..|lia|lia].
Qed.

#[export] Instance gentle_preorder secs : PreOrder (gentle secs).
Proof.
  split.
  - intros db Hs. split_and!; [done..|]. intros n s r Hr. split; [done|]. intros _. by exists r.
  - intros db1 db2 db3 H12 H23 Hs. destruct (H12 Hs) as (Hs2 & Hc2 & Hk2).
    destruct (H23 Hs2) as (Hs3 & Hc3 & Hk3). split_and!; [done|congruence|].
    intros n s r Hr. destruct (Hk2 n s r Hr) as [Ho Ht]. split.
    + intros Hn. exact (proj1 (Hk3 n s r (Ho Hn)) Hn).
    + intros Htr. destruct (Ht Htr) as (r2 & Hr2 & Hw2).
      destruct (Hk3 n s r2 Hr2) as [_ Ht3]. destruct Ht3 as (r3 & Hr3 & Hw3); [by eapply no_worse_trusted|].
      exists r3. split; [done|]. by transitivity r2.
Qed.

Lemma store_address_gentle r0 r1 secs a :
  is_u64 secs ->
  evolves (gentle secs) (expect_action (E':=Error)
    (AddressTable.store_address r0 r1 secs DEFIADS a 0 secs 0)).
Proof.
  intros Hsecs db n db' Hrun Hrows.
  destruct (store_address_cases r0 r1 secs DEFIADS a 0 secs 0 db ltac:(unfold is_u64; lia) Hsecs
    ltac:(unfold is_u64; lia) Hrows) as (n' & db2 & r2 & Hrun2 & Hc & Hrows2 & Hframe & Hr2 & Hnone & Hsome).
  unfold expect_action in Hrun. rewrite Hrun2 in Hrun. injection Hrun as _ <-.
  split_and!; [done|done|]. intros network slot r Hr.
  set (slot0 := AddressTable.address_slot _ _ DEFIADS a) in *.
  destruct (decide ((network, slot) = (DEFIADS, slot0))) as [[= -> ->]|Hne].
  2: { rewrite Hframe by done. split; [done|]. intros _. by exists r. }
  split; [done|]. intros [Hb Hcon]. exists r2. split; [done|].
  destruct (Hsome r Hr) as (Hip & Hmax & Hkeep). destruct (decide (ip r = a)) as [Heq|Hneq].
  - destruct (Hmax Heq) as (Hc2 & Hl2 & Hb2). split_and!; [|lia..].
    destruct (decide (ip r2 = ip r)) as [|Hn]; [done|]. by destruct (Hip Hn).
  - by rewrite (Hkeep Hneq Hb Hcon).
Qed.

Lemma store_entries_gentle r0 r1 fuel secs it :
  is_u64 secs -> evolves (gentle secs) (DiscoveryOps.store_entries r0 r1 fuel secs it).
Proof.
  intros Hsecs. revert it. induction fuel as [|fuel IH]; intros it; cbn [DiscoveryOps.store_entries]; [evolve|].
  apply evolves_bind; [apply _|apply evolves_lift; apply _|]. intros [item it'].
  destruct item as [[[key|key]|e]|]; [|apply IH|evolve|evolve].
  destruct (NetAddressOps.socket_address key) as [addr|e|p]; [|apply IH..].
  apply evolves_bind; [apply _|by apply store_address_gentle|intros _; apply IH].
Qed.

(** C21: Whatever table a peer sends, taking in its addresses leaves the addresses of
    the other network and all contents as they are, and no address that is not
    banned and was connected to within five days loses its slot, its ban mark or
    its times. *)
Theorem learned_addresses_are_safe r0 r1 fuel secs pid iblt d x d' :
  is_u64 secs -> rows_shown (d_db d) ->
  DiscoveryOps.on_address_iblt r0 r1 fuel secs pid iblt d = (Ok x, d') ->
  rows_shown (d_db d') /\ Db.content (d_db d') = Db.content (d_db d) /\
  forall network slot r, Db.address (d_db d) !! (network, slot) = Some r ->
    (network <> DEFIADS -> Db.address (d_db d') !! (network, slot) = Some r) /\
    (trusted secs r -> exists r', Db.address (d_db d') !! (network, slot) = Some r' /\ no_worse r r').
Proof.
  intros Hsecs Hrows Hrun. enough (gentle secs (d_db d) (d_db d')) as Hg by by apply Hg. revert x Hrun.
  unfold DiscoveryOps.on_address_iblt. intros x.
  intros (y & d1 & Hm1 & Hrun)%action_bind_inv. injection Hm1 as _ <-.
  apply action_bind_inv in Hrun as (sent & d2 & Hm2 & Hrun). injection Hm2 as <- <-.
  apply action_bind_inv in Hrun as (diff & d3 & Hm3 & Hrun).
  assert (d_db d3 = d_db d) as <-.
  { cbn [iblt_sent DiscoveryOps.set_timeout] in Hm3. destruct (iblt_sent d !! pid); [|by injection Hm3 as _ <-].
    apply action_bind_inv in Hm3 as (z & d4 & Hm4 & Hm3). injection Hm4 as _ <-. by injection Hm3 as _ <-. }
  unfold transaction, DiscoveryOps.on_db, zoom in Hrun.
  destruct (DiscoveryOps.store_entries r0 r1 fuel secs (IBLTIterator.new diff) (d_db d3)) as [[z|e|p] db'] eqn:Hs;
    [|done..].
  injection Hrun as _ <-. cbn [d_db DiscoveryOps.set_db]. by eapply store_entries_gentle.
Qed.

(** ** Connections and bans *)

(** The discovery does not record a connection: its transaction is dropped, so
    the database is as before. A ban it records in the slots of the bitcoin
    network, where a free slot then holds the banned defiads node; the slots of
    the defiads network are as before. *)
Theorem discovery_bookkeeping r0 r1 secs pid addr d :
  is_u64 secs -> rows_shown (d_db d) ->
  (forall d', DiscoveryOps.on_connected r0 r1 secs pid addr d = (Ok (), d') -> d_db d' = d_db d) /\
  (forall a, addresses d !! pid = Some a ->
     exists d', DiscoveryOps.on_disconnected r0 r1 secs pid true d = (Ok (), d') /\
       (forall network slot, network <> BITCOIN ->
          Db.address (d_db d') !! (network, slot) = Db.address (d_db d) !! (network, slot)) /\
       let keys := slot_keys r0 r1 (d_db d) in
       let slot := AddressTable.address_slot keys.1 keys.2 BITCOIN a in
       (Db.address (d_db d) !! (BITCOIN, slot) = None ->
        Db.address (d_db d') !! (BITCOIN, slot) = Some (new_row a 0 0 secs))).
Proof.
  intros Hsecs Hrows. split.
  - intros d'. unfold DiscoveryOps.on_connected. intros (x & d1 & Hm1 & Hrun)%action_bind_inv.
    assert (d_db d1 = d_db d) as <-.
    { destruct addr as [a|]; [|by injection Hm1 as _ <-].
      apply action_bind_inv in Hm1 as (y & d2 & Hm2 & Hm1). injection Hm2 as _ <-.
      apply action_bind_inv in Hm1 as (n & d3 & Hm3 & Hm1). injection Hm1 as _ <-.
      unfold uncommitted in Hm3. destruct (DiscoveryOps.on_db _ _) as [r d4] eqn:Hd4. by injection Hm3 as _ <-. }
    unfold DiscoveryOps.poll_address, DiscoveryOps.our_poll in Hrun.
    apply action_bind_inv in Hrun as (poll & d2 & Hm2 & Hrun).
    apply action_bind_inv in Hm2 as ([sketch size] & d3 & Hm3 & Hm2).
    injection Hm2 as _ <-. injection Hm3 as _ <-. by injection Hrun as <-.
  - intros a Ha.
    destruct (store_address_cases r0 r1 secs BITCOIN a 0 0 secs (d_db d) ltac:(unfold is_u64; lia)
      ltac:(unfold is_u64; lia) Hsecs Hrows) as (n & db' & r' & Hrun & _ & _ & Hframe & Hr' & Hnone & _).
    eexists. split; [|split].
    + unfold DiscoveryOps.on_disconnected, gets, modify, mbind, action_bind. rewrite Ha.
      unfold transaction, DiscoveryOps.on_db, zoom, expect_action.
      cbn [d_db DiscoveryOps.set_addresses]. rewrite Hrun. cbn [expect]. reflexivity.
    + intros network slot Hn. cbn. apply Hframe. congruence.
    + intros keys slot Hfree. rewrite <- (Hnone Hfree). exact Hr'.
Qed.
End Safety.
