(* ===== verification/DiscoverySync.v ===== *)
(** * A node that takes in a peer's addresses

    The table of a peer's addresses, less the table the node sent: the addresses
    that the node lacks go to their slots one after the other, as a
    function of the address table. *)

From S2P Require Import Prelude Machine IbltTable IbltCells IbltAlgebra IbltRefine IbltPeel IbltSync.
From S2P Require Import Sketch Keys Strings Text Bitcoin Content Effects Db DbContent DbContentSpec.
From S2P Require Import Wallet DbWallet Messages Updater Address AddressSpec Discovery DiscoverySpec.
#[local] Open Scope Z_scope.

Section Learning.
Context `{SipHasher, Bitcoin, SQLiteLaws, !Peers, !Timeouts ExpectedReply}.
Implicit Types (db : DB) (d : Discovery).
Variables r0 r1 : Z.
Hypothesis Hr0 : is_u64 r0.
Hypothesis Hr1 : is_u64 r1.

(** ** One address *)

(** The slot of an address of the network under the key pair [k]. *)
Definition slot_of (k : Z * Z) (a : SocketAddr) : str * Z :=
  (DEFIADS, AddressTable.address_slot k.1 k.2 DEFIADS a).

(** What hearing of an address at [secs] does to the table. *)
Definition learn (k : Z * Z) (secs : Z) (t : gmap (str * Z) AddressRow) (a : SocketAddr) :
    gmap (str * Z) AddressRow :=
  <[slot_of k a := stored_row secs a 0 secs 0 (t !! slot_of k a)]> t.

Lemma learn_run secs a db :
  exists n db', AddressTable.store_address r0 r1 secs DEFIADS a 0 secs 0 db = (Ok n, db') /\
    Db.address db' = learn (slot_keys r0 r1 db) secs (Db.address db) a /\
    Db.content db' = Db.content db /\ slot_keys r0 r1 db' = slot_keys r0 r1 db.
Proof.
  pose proof (store_address_run r0 r1 secs DEFIADS a 0 secs 0 db) as Hrun. unfold learn, slot_of.
  destruct (slot_keys r0 r1 db) as [k0 k1]. cbn [fst snd].
  destruct Hrun as (n & db' & Hrun & Ha & Hc & Hk). exists n, db'. auto.
Qed.

(** ** The entries of a table *)

Definition inserted_key (e : IBLTEntry NetAddress) : option NetAddress :=
  match e with Inserted key => Some key | Deleted _ => None end.

Lemma elem_of_inserted_keys (Y : list (IBLTEntry NetAddress)) key :
  key ∈ omap inserted_key Y <-> Inserted key ∈ Y.
Proof.
  rewrite list_elem_of_omap. split; [|by exists (Inserted key)].
  intros ([x|x] & Hin & Heq); by simplify_eq/=.
Qed.

Lemma NoDup_inserted_keys (Y : list (IBLTEntry NetAddress)) : NoDup Y -> NoDup (omap inserted_key Y).
Proof.
  induction 1 as [|[key|key] Y He _ IH]; [constructor| |exact IH].
  apply (NoDup_cons_2 key); [by rewrite elem_of_inserted_keys|exact IH].
Qed.

Lemma inserted_keys_set_diff (A B : list NetAddress) : omap inserted_key (set_diff A B) = list_difference A B.
Proof.
  unfold set_diff. rewrite omap_app.
  assert (forall X : list NetAddress, omap inserted_key (Inserted <$> X) = X) as Hins.
  { induction X as [|x X IH]; [done|]. cbn [fmap list_fmap omap list_omap inserted_key]. f_equal. exact IH. }
  assert (forall X : list NetAddress, omap inserted_key (Deleted <$> X) = []) as Hdel by (by induction X).
  by rewrite Hins, Hdel, app_nil_r.
Qed.

(** The socket addresses of keys; an onion has none. *)
Definition reachable (keys : list NetAddress) : list SocketAddr :=
  omap (λ key, match NetAddressOps.socket_address key with Ok a => Some a | _ => None end) keys.

Definition learn_all (k : Z * Z) (secs : Z) (keys : list NetAddress) (t : gmap (str * Z) AddressRow) :
    gmap (str * Z) AddressRow :=
  foldl (learn k secs) t (reachable keys).

Lemma store_entries_run fuel secs it Y ok db :
  IBLTIterator.run (E:=Error) fuel it = Ok (Some (final_items Y ok)) ->
  exists db', DiscoveryOps.store_entries r0 r1 fuel secs it db = (Ok (Some ()), db') /\
    Db.address db' = learn_all (slot_keys r0 r1 db) secs (omap inserted_key Y) (Db.address db) /\
    Db.content db' = Db.content db.
Proof.
  revert it Y db. induction fuel as [|fuel IH]; intros it Y db; [done|].
  cbn [IBLTIterator.run DiscoveryOps.store_entries]. unfold lift at 1, mbind at 3, action_bind at 1.
  destruct (IBLTIterator.next it) as [[item it']|e|q]; [|done..]. cbn [mbind res_bind].
  destruct item as [x|].
  2: { intros [= Hnil]. exists db. destruct Y; [|done]. split_and!; done. }
  destruct (IBLTIterator.run fuel it') as [[rest|]|e|q] eqn:Hrun; [|done..]. cbn.
  intros [= Hitems]. unfold final_items in Hitems. destruct Y as [|y Y].
  { destruct ok; [done|]. injection Hitems as -> ->. by exists db. }
  injection Hitems as -> ->. destruct y as [key|key].
  - cbn [omap list_omap inserted_key]. unfold learn_all, reachable. cbn [omap list_omap].
    destruct (NetAddressOps.socket_address key) as [a|e|q]; [|by apply IH..].
    destruct (learn_run secs a db) as (n & db1 & Hrun1 & Ha & Hc & Hk).
    rewrite (action_bind_ok _ _ db n db1) by (unfold expect_action; by rewrite Hrun1).
    destruct (IH it' Y db1 Hrun) as (db' & Hrun' & Ha' & Hc'). exists db'. split; [done|].
    rewrite Ha', Hk, Ha. split; [done|congruence].
  - exact (IH it' Y db Hrun).
Qed.
(** ** The slots of what was learned *)

Lemma reachable_shown keys a : a ∈ reachable keys -> shown a = a.
Proof.
  intros (key & _ & Hkey)%list_elem_of_omap. unfold NetAddressOps.socket_address in Hkey.
  case_decide; [done|]. destruct (NetAddressOps.to_ipv4 (Keys.address key)); by injection Hkey as <-.
Qed.

Lemma stored_row_again secs a :
  is_u64 secs -> shown a = a -> stored_row secs a 0 secs 0 (Some (new_row a 0 secs 0)) = new_row a 0 secs 0.
Proof.
  intros Hs Ha. unfold stored_row, new_row. cbn [ip Db.connected Db.last_seen Db.banned].
  rewrite decide_True by done. rewrite !i64_u64 by (done || (unfold is_u64; lia)). by rewrite !Z.max_id.
Qed.

(** A free slot that one learned address hashes to holds that address. *)
Lemma learned_row (k : Z * Z) (secs : Z) (l : list SocketAddr) (a : SocketAddr) (t : gmap (str * Z) AddressRow) :
  is_u64 secs -> shown a = a -> a ∈ l -> (forall a', a' ∈ l -> slot_of k a' = slot_of k a -> a' = a) ->
  t !! slot_of k a = None ->
  foldl (learn k secs) t l !! slot_of k a = Some (new_row a 0 secs 0).
Proof.
  intros Hsecs Ha Hin Huniq Hfree.
  assert (forall (l : list SocketAddr) (t : gmap (str * Z) AddressRow), (forall a', a' ∈ l -> slot_of k a' = slot_of k a -> a' = a) ->
    t !! slot_of k a = Some (new_row a 0 secs 0) ->
    foldl (learn k secs) t l !! slot_of k a = Some (new_row a 0 secs 0)) as Hkeep.
  { clear - Hsecs Ha. intros l. induction l as [|x l IH]; intros t Hu Ht; [done|]. cbn [foldl].
    apply IH; [intros; apply Hu; [by apply list_elem_of_further|done]|]. unfold learn.
    destruct (decide (slot_of k x = slot_of k a)) as [Heq|Hne]; [|by rewrite lookup_insert_ne].
    assert (x = a) as -> by (apply Hu; [apply list_elem_of_here|done]).
    rewrite lookup_insert_eq, Ht. by rewrite stored_row_again. }
  revert t Hfree Hin Huniq. induction l as [|x l IH]; intros t Hfree Hin Huniq; [by apply not_elem_of_nil in Hin|].
  cbn [foldl]. destruct (decide (slot_of k x = slot_of k a)) as [Heq|Hne].
  - assert (x = a) as -> by (apply Huniq; [apply list_elem_of_here|done]).
    apply Hkeep; [intros; apply Huniq; [by apply list_elem_of_further|done]|].
    unfold learn. by rewrite lookup_insert_eq, Hfree.
  - apply IH; [by unfold learn; rewrite lookup_insert_ne| |].
    + apply elem_of_cons in Hin as [->|Hin]; [done|exact Hin].
    + intros a' Ha'. apply Huniq. by apply list_elem_of_further.
Qed.

(** ** The tables that are sent *)

Lemma for_each_fmap {S A B} (f : A -> B) (l : list A) (body : S -> B -> res Error S) s :
  for_each l (λ s x, body s (f x)) s = for_each (f <$> l) body s.
Proof. revert s. induction l as [|x l IH]; intros s; [done|]. cbn. destruct (body s (f x)); [apply IH|done..]. Qed.

(** The table a node sends holds the addresses of its network that were seen
    within a day and not banned in that time. *)
Lemma compute_address_iblt_spec now size db :
  0 < size ->
  exists t, AddressTable.compute_address_iblt now size db = Ok t /\
    table_of size (NetAddressOps.new <$> AddressTable.recent DEFIADS (u64 (now - 24 * 60 * 60)) db) t.
Proof.
  intros Hsize. unfold AddressTable.compute_address_iblt.
  destruct (build_is_table_of size (NetAddressOps.new <$> AddressTable.recent DEFIADS
    (u64 (now - 24 * 60 * 60)) db) Hsize) as (t & Hb & Ht). exists t. split; [|done]. rewrite <- Hb.
  unfold build. destruct (Iblt.new size NH K0 K1) as [t0|e|q]; [|done..]. cbn [mbind res_bind].
  apply (for_each_fmap NetAddressOps.new _ Iblt.insert).
Qed.

(** ** The handler *)

(** C11: A node that sent a peer the table of the addresses [A] and gets the peer's
    table of [B] puts addresses of [B] that it lacks, each once, into their
    slots, exactly as if it heard of them one after the other, whatever it knew;
    it takes all of them when no part of the difference gets stuck in the table. An
    address that has a free slot of its own is then known as seen now. The contents
    and the outbox stay as they are. *)
Theorem address_table_learned size fuel secs pid iblt sent A B d :
  is_u64 secs -> NoDup A -> NoDup B ->
  iblt_sent d !! pid = Some sent -> table_of size A sent -> table_of size B iblt ->
  honest (new_params size NH K0 K1) (set_diff B A) -> (length A + length B + 2 <= fuel)%nat ->
  let k := slot_keys r0 r1 (d_db d) in
  exists keys d', DiscoveryOps.on_address_iblt r0 r1 fuel secs pid iblt d = (Ok (Some ()), d') /\
    NoDup keys /\ (forall key, key ∈ keys -> key ∈ B /\ key ∉ A) /\
    ((forall R, R ⊆+ set_diff B A -> stuck (new_params size NH K0 K1) R -> R = []) ->
     keys ≡ₚ list_difference B A) /\
    Db.address (d_db d') = learn_all k secs keys (Db.address (d_db d)) /\
    (forall a, a ∈ reachable keys -> Db.address (d_db d) !! slot_of k a = None ->
       (forall a', a' ∈ reachable keys -> slot_of k a' = slot_of k a -> a' = a) ->
       Db.address (d_db d') !! slot_of k a = Some (new_row a 0 secs 0)) /\
    Db.content (d_db d') = Db.content (d_db d) /\
    iblt_sent d' = delete pid (iblt_sent d) /\ d_outbox d' = d_outbox d.
Proof.
  intros Hsecs HA HB Hsent [Hps Hrs] [Hpi Hri] Hh Hfuel k.
  destruct (substract_set_diff (E:=Error) iblt sent B A HB HA Hri Hrs ltac:(congruence)) as (diff & Hsub & Hpd & Hrd).
  rewrite Hpi in Hpd. pose proof (proj1 Hrd) as Hw. rewrite Hpd in Hw.
  destruct (peel_run (E:=Error) _ _ Hw Hh diff Hpd Hrd) as (Y & R & ok & HYR & Hst & _ & Hrun).
  specialize (Hrun fuel ltac:(pose proof (set_diff_length B A HB HA); lia)).
  destruct (store_entries_run fuel secs (IBLTIterator.new diff) Y ok (d_db d) Hrun) as (db' & Hstore & Ha & Hc).
  set (d1 := DiscoveryOps.set_timeout (timeout_received pid 1 R_AddressIBLT (d_timeout d)) d).
  set (d2 := DiscoveryOps.set_iblt_sent (delete pid (iblt_sent d)) d1).
  exists (omap inserted_key Y), (DiscoveryOps.set_db db' d2). split_and!; [| | | |exact Ha| |exact Hc|done|done].
  - unfold DiscoveryOps.on_address_iblt. rewrite (action_bind_ok _ _ d () d1) by done.
    rewrite (action_bind_ok _ _ d1 (Some sent) d1) by (unfold gets; cbn; by rewrite Hsent).
    rewrite (action_bind_ok _ _ d1 diff d2) by (unfold mbind, action_bind, lift; cbn; by rewrite Hsub).
    unfold transaction, DiscoveryOps.on_db, zoom. cbn [d_db d2 d1 DiscoveryOps.set_iblt_sent DiscoveryOps.set_timeout].
    by rewrite Hstore.
  - apply NoDup_inserted_keys, (NoDup_app Y R). rewrite HYR. by apply NoDup_set_diff.
  - intros key Hkey%elem_of_inserted_keys. apply (elem_of_set_diff B A (Inserted key)).
    rewrite <- HYR. apply elem_of_app. by left.
  - intros Hall. rewrite (Hall R) in HYR; [|by rewrite <- HYR; apply submseteq_inserts_l|done].
    rewrite app_nil_r in HYR. rewrite HYR. by rewrite inserted_keys_set_diff.
  - intros a Hin Hfree Huniq. cbn [d_db DiscoveryOps.set_db]. rewrite Ha.
    by apply learned_row; [|eapply reachable_shown| | |].
Qed.
End Learning.
