(* ===== verification/Network.v ===== *)
(** * The set-up of the two networks (src/p2p_bitcoin.rs, src/p2p_defiads.rs,
    src/find_peers.rs)

    The driver that lets the content store take what the block download passes
    downstream, the re-org that may have happened while the node was down, the
    pools of known addresses, the choice of further peers, and the
    configuration and framing of the defiads protocol. *)

From S2P Require Import Prelude Machine IbltTable Sketch Keys Strings Text Bitcoin Content Effects.
From S2P Require Import Db DbContent Wallet DbWallet Trunk Store Messages BlockDownload Address.
#[local] Open Scope Z_scope.

(** ** [BitcoinDriver] *)

Module BitcoinDriver.
Section Ops.
Context `{SipHasher, Snap, Bitcoin, !Cbor Ad, SQLite, !WalletCrate, !AccountStorage}.

Definition block_connected (trunk : Trunk) (block : Block) : action ContentStore Error unit :=
  expect_action (Store.block_connected trunk block).
Definition header_connected (height : Z) : action ContentStore Error unit :=
  expect_action (Store.add_header height).
Definition block_disconnected (header : BlockHeader) : action ContentStore Error unit :=
  expect_action (Store.unwind_tip header).

(** The store takes one call of the block download. *)
Definition drive (trunk : Trunk) (d : Downstream) : action ContentStore Error unit :=
  match d with
  | BlockDownload.block_connected block _ => block_connected trunk block
  | BlockDownload.header_connected _ height => header_connected height
  | BlockDownload.block_disconnected header => block_disconnected header
  end.
End Ops.
End BitcoinDriver.

(** ** The pools of known addresses *)

Record AddressPool `{Peers} : Type := mkAddressPool { pool_db : DB; pool_addresses : gmap PeerId SocketAddr }.

Module AddressPoolMaintainer.
Section Ops.
Context `{SipHasher, Bitcoin, SQLite, !Peers}.
Variables r0 r1 : Z.
(** Both networks run the same code under their own name. *)
Variable network : str.

Definition new (db : DB) : AddressPool := mkAddressPool _ db ∅.
Definition new_defiads (db : DB) : AddressPool := mkAddressPool _ db ∅.
Definition set_db (x : DB) (m : AddressPool) : AddressPool := mkAddressPool _ x (pool_addresses m).
Definition set_addresses (x : gmap PeerId SocketAddr) (m : AddressPool) : AddressPool :=
  mkAddressPool _ (pool_db m) x.

Definition store (now : Z) (a : SocketAddr) (connected last_seen banned : Z) :
    action AddressPool Error unit :=
  _ ← zoom pool_db set_db
        (expect_action (AddressTable.store_address r0 r1 now network a connected last_seen banned));
  mret ().

Definition on_connected (now : Z) (pid : PeerId) (addr : option SocketAddr) : action AddressPool Error unit :=
  match addr with
  | Some address =>
      _ ← modify (λ m, set_addresses (<[pid := address]> (pool_addresses m)) m);
      transaction pool_db set_db (store now address now now 0)
  | None => mret ()
  end.

Definition on_disconnected (now : Z) (pid : PeerId) (banned : bool) : action AddressPool Error unit :=
  if banned then
    known ← gets (λ m, pool_addresses m !! pid);
    match known with
    | Some address =>
        _ ← modify (λ m, set_addresses (delete pid (pool_addresses m)) m);
        transaction pool_db set_db (store now address 0 0 now)
    | None => mret ()
    end
  else mret ().

(** The bitcoin network also learns addresses from its peers. *)
Definition on_addr (now needed_services : Z) (av : list AddrEntry) : action AddressPool Error unit :=
  transaction pool_db set_db (for_each_do av (λ a,
    if (ae_last_seen a <? now) && (Z.land (ae_services a) needed_services =? needed_services) then
      match ae_socket_addr a with
      | Some addr => store now addr 0 (ae_last_seen a) 0
      | None => mret ()
      end
    else mret ())).

(** The handlers of the bitcoin network; [now] is the time in seconds. *)
Definition handle (now needed_services : Z) (msg : PeerMessage NetworkMessage) : action AddressPool Error unit :=
  match msg with
  | Connected pid addr => on_connected now pid addr
  | Disconnected pid banned => on_disconnected now pid banned
  | Incoming _ (NM_Addr av) => on_addr now needed_services av
  | _ => mret ()
  end.

(** The handlers of the defiads network. *)
Definition handle_defiads (now : Z) (msg : PeerMessage Message) : action AddressPool Error unit :=
  match msg with
  | Connected pid addr => on_connected now pid addr
  | Disconnected pid banned => on_disconnected now pid banned
  | _ => mret ()
  end.
End Ops.
End AddressPoolMaintainer.

(** ** Keeping connected *)

Module KeepConnected.
Section Ops.
Context `{SQLite}.

(** One [poll]: the set of addresses tried so far, and the address to connect to
    if one was chosen; [sample] and [rnd] are draws of the generator. *)
Definition poll (network : str) (min_connections now : Z) (connected_peers dns : list SocketAddr)
    (n_connected_peers : Z) (sample : nat) (rnd : Z) (db : DB) (earlier : gset SocketAddr) :
    res Error (gset SocketAddr * option SocketAddr) :=
  if n_connected_peers <? min_connections then
    let earlier := list_to_set connected_peers ∪ earlier in
    choice ← expect (AddressTable.get_an_address now network earlier sample db);
    match choice with
    | Some choice => Ok ({[choice]} ∪ earlier, Some choice)
    | None =>
        let eligible := filter (λ a, a ∉ earlier) dns in
        if (0 <? Z.of_nat (length eligible)) then
          choice ← index eligible (Z.to_nat (rnd mod Z.of_nat (length eligible)));
          Ok ({[choice]} ∪ earlier, Some choice)
        else Ok (earlier, None)
    end
  else Ok (earlier, None).

(** The copies of [poll] in the two networks. *)
Definition poll_bitcoin := poll BITCOIN.
Definition poll_defiads := poll DEFIADS.

(** The struct: its clones share the set of addresses tried. *)
Record t : Type := mkT { min_connections : Z; earlier : gset SocketAddr; dns : list SocketAddr }.

(** What a [poll] finds: the time, the connections, the database, and two draws. *)
Record Interval : Type := mkInterval {
  i_now : Z; i_connected_peers : list SocketAddr; i_n_connected_peers : Z; i_db : DB;
  i_sample : nat; i_rnd : Z
}.

(** The [for_each] over the intervals: the addresses connected to, in order. *)
Fixpoint run (network : str) (intervals : list Interval) (k : t) : res Error (t * list SocketAddr) :=
  match intervals with
  | [] => Ok (k, [])
  | i :: intervals =>
      '(tried, choice) ← poll network (min_connections k) (i_now i) (i_connected_peers i) (dns k)
                           (i_n_connected_peers i) (i_sample i) (i_rnd i) (i_db i) (earlier k);
      '(k, choices) ← run network intervals (mkT (min_connections k) tried (dns k));
      Ok (k, option_list choice ++ choices)
  end.
End Ops.
End KeepConnected.

(** ** The bitcoin network after a time down *)

Module P2PBitcoin.
Section Ops.
Context `{SipHasher, Snap, Bitcoin, !Cbor Ad, SQLite, !WalletCrate, !AccountStorage}.
Context `{HeaderChain, !Peers, !Timeouts BitcoinReply}.

(** [while chaindb.pos_on_trunk(&processed_block).is_none()] *)
Fixpoint walk_back (fuel : nat) (db : ChainDB) (processed_block : digest) (header : CachedHeader)
    (disconnected : list BlockHeader) : res Error (option (list BlockHeader)) :=
  match fuel with
  | O => Ok None
  | S fuel =>
      match pos_on_trunk db processed_block with
      | Some _ => Ok (Some disconnected)
      | None =>
          let disconnected := disconnected ++ [stored_header header] in
          let processed_block := prev_blockhash (stored_header header) in
          header ← unwrap (cdb_get_header db processed_block);
          walk_back fuel db processed_block header disconnected
      end
  end.

Definition disconnected_while_down (fuel : nat) (db : ChainDB) (processed_block : digest) :
    res Error (option (list BlockHeader)) :=
  match cdb_get_header db processed_block with
  | Some header => walk_back fuel db processed_block header []
  | None => Panicked ExplicitPanic
  end.

(** [if let Some(mut processed_block) = processed_block] walks a copy back: the
    block download is created with the last processed block as it was read. *)
Definition catch_up (fuel : nat) (chaindb : HeaderDB) (t : Timeout BitcoinReply) (birth : Z) :
    action ContentStore Error (option BlockDownload) :=
  processed_block ← ask (λ s, expect (WalletTables.read_processed (db s)));
  disconnected ← lift (match processed_block with
                       | Some processed_block => disconnected_while_down fuel (view chaindb) processed_block
                       | None => Ok (Some [])
                       end);
  match disconnected with
  | None => mret None
  | Some disconnected =>
      _ ← for_each_do disconnected BitcoinDriver.block_disconnected;
      lift (BlockDownloadOps.new fuel chaindb t processed_block birth)
  end.
End Ops.
End P2PBitcoin.

(** ** The defiads network and its protocol *)

Definition BIADNET_PORT : Z := 21766.
Definition SEEDER : list str := [].

(** [seed]: the addresses that the lookup of the seed hosts gives. *)
Definition seed (lookup : str -> Z -> option (list SocketAddr)) (test : bool) : list SocketAddr :=
  concat ((λ seedhost, default [] (lookup seedhost (u16 (BIADNET_PORT + if test then 100 else 0)))) <$> SEEDER).

Definition MAGIC : Z := 45485.   (* 0xB1AD *)
Definition MAX_PROTOCOL_VERSION : Z := 1.
Definition MIN_PROTOCOL_VERSION : Z := 1.
(** [2^26] is an exclusive or. *)
Definition MAX_MESSAGE_SIZE : Z := Z.lxor 2 26.

Module P2PBiadNet.
(** [SocketAddr::new(addr.ip(), port)] *)
Definition with_port (port : Z) (a : SocketAddr) : SocketAddr :=
  match a with V4 o _ => V4 o port | V6 s _ _ _ => V6 s port 0 0 end.
End P2PBiadNet.

Record BiadnetP2PConfig : Type := mkConfig {
  cfg_nonce : Z; cfg_user_agent : str; cfg_max_protocol_version : Z; cfg_server : bool
}.

(** murmel's [Buffer] and what serde_cbor reads from it. *)
Inductive CborItem (A : Type) : Type :=
  | Item (a : A) | NoItem | CborEof | CborOther.
#[global] Arguments Item {A} a.
#[global] Arguments NoItem {A}.
#[global] Arguments CborEof {A}.
#[global] Arguments CborOther {A}.
Class MessageBuffer (A : Type) : Type := {
  Buffer : Type;
  buffer_len : Buffer -> Z;
  commit : Buffer -> Buffer;
  rollback : Buffer -> Buffer;
  next_item : Buffer -> CborItem A * Buffer;
  to_writer : A -> Buffer -> option Buffer
}.

Module BiadnetConfig.
Section Ops.
Context `{Bitcoin, !MessageBuffer Envelope}.

(** "defiads 0.1.0" *)
Definition USER_AGENT : str := [100; 101; 102; 105; 97; 100; 115; 32; 48; 46; 49; 46; 48].

Definition version (cfg : BiadnetP2PConfig) (secs : Z) (remote : SocketAddr) (max_protocol_version : Z) : Message :=
  Version (mkVersionMessage (Z.min MAX_PROTOCOL_VERSION max_protocol_version) secs
    (NetAddressOps.new remote) (mkNetAddress (vreplicate 8 0) 0) (cfg_nonce cfg) USER_AGENT 0).
Definition nonce (cfg : BiadnetP2PConfig) : Z := cfg_nonce cfg.
Definition magic : Z := MAGIC.
Definition user_agent (cfg : BiadnetP2PConfig) : str := cfg_user_agent cfg.
Definition get_height : Z := 0.
Definition max_protocol_version (cfg : BiadnetP2PConfig) : Z := cfg_max_protocol_version cfg.
Definition min_protocol_version : Z := MIN_PROTOCOL_VERSION.
Definition verack : Message := Verack.
Definition wrap (m : Message) : Envelope := mkEnvelope _ MAGIC m.
Definition unwrap (e : Envelope) : res ErrorKind Message := Ok (payload e).

Definition encode (e : Envelope) (dst : Buffer) : res ErrorKind Buffer :=
  match to_writer e dst with
  | None => Err InvalidInput
  | Some dst => Ok dst
  end.

Definition decode : action Buffer ErrorKind (option Envelope) := λ src,
  let '(item, src) := next_item src in
  match item with
  | NoItem =>
      if MAX_MESSAGE_SIZE <? buffer_len src then (Err InvalidInput, src)
      else (Ok None, rollback src)
  | Item m => (Ok (Some m), commit src)
  | CborEof => (Ok None, rollback src)
  | CborOther => (Err InvalidInput, src)
  end.
End Ops.
End BiadnetConfig.
