(* ===== verification/NetworkSpec.v ===== *)
(** * Theorems on the set-up of the networks *)

From S2P Require Import Prelude Machine IbltTable IbltCells IbltAlgebra IbltRefine IbltSync Sketch.
From S2P Require Import Keys Strings Text Bitcoin Content Effects Db DbContent DbContentSpec Wallet.
From S2P Require Import DbWallet Trunk Store StoreTables StoreSpec Messages BlockDownload Address.
From S2P Require Import AddressSpec Network.
#[local] Open Scope Z_scope.

(** ** Bans *)

Section Bans.
Context `{SipHasher, Bitcoin, SQLiteLaws, !Peers}.
Implicit Types (db : DB).

(** Every row holds an address, in its own slot, with a time of its ban that is
    not negative. *)
Definition rows_ok (r0 r1 : Z) db : Prop :=
  rows_shown db /\
  forall network slot r, Db.address db !! (network, slot) = Some r ->
    slot = AddressTable.address_slot (slot_keys r0 r1 db).1 (slot_keys r0 r1 db).2 network (ip r) /\
    0 <= Db.banned r < 2 ^ 63.

Lemma small_i64 z : - 2 ^ 63 <= z < 2 ^ 63 -> i64 z = z.
Proof.
  intros Hz. unfold i64. rewrite Z.mod_small; lia.
Qed.

Lemma small_u64 z : 0 <= z < 2 ^ 63 -> u64 z = z.
Proof. intros Hz. unfold u64. rewrite Z.mod_small; lia. Qed.

Lemma i64_u64_signed z : - 2 ^ 63 <= z < 2 ^ 63 -> i64 (u64 z) = z.
Proof. intros Hz. unfold i64, u64. Z.to_euclidean_division_equations. lia. Qed.

(** The row of a banned address says so. *)
Lemma stored_row_banned now a old :
  0 <= now < 2 ^ 63 -> (forall r, old = Some r -> 0 <= Db.banned r < 2 ^ 63) -> shown a = a ->
  ip (stored_row now a 0 0 now old) = a -> now <= Db.banned (stored_row now a 0 0 now old).
Proof.
  intros Hnow Hold Ha. destruct old as [r|]; cbn [stored_row].
  - specialize (Hold r eq_refl). destruct (decide (ip r = a)) as [Hip|Hip].
    + intros _. cbn [Db.banned new_row]. rewrite (small_u64 (Db.banned r)) by done.
      rewrite small_i64 by lia. lia.
    + case_decide; [|done]. intros _. cbn [Db.banned new_row]. rewrite small_i64 by lia. lia.
  - intros _. cbn [Db.banned new_row]. rewrite small_i64 by lia. lia.
Qed.

Lemma stored_row_below now a old :
  0 <= now < 2 ^ 63 -> (forall r, old = Some r -> 0 <= Db.banned r < 2 ^ 63) ->
  Db.banned (stored_row now a 0 0 now old) < 2 ^ 63.
Proof.
  intros Hnow Hold. destruct old as [r|]; cbn [stored_row].
  - specialize (Hold r eq_refl). repeat case_decide; cbn [Db.banned new_row]; [|rewrite small_i64; lia|lia].
    rewrite (small_u64 (Db.banned r)) by done. rewrite small_i64; lia.
  - cbn [Db.banned new_row]. rewrite small_i64; lia.
Qed.
End Bans.

(** ** Keeping connected *)

(** The node connects to a further peer only below the wanted number of
    connections, and only to an address it is not connected to and has not
    tried before, which then counts as tried; it never panics, and it gives up
    only when every eligible stored address and every seed has been tried. *)
Lemma poll_fresh `{SipHasher, SQLiteLaws} network min_connections now peers dns n sample rnd db earlier :
  let known := if decide (n < min_connections) then list_to_set peers ∪ earlier else earlier in
  exists o,
    KeepConnected.poll network min_connections now peers dns n sample rnd db earlier =
      Ok (list_to_set (option_list o) ∪ known, o) /\
    (forall a, o = Some a -> n < min_connections /\ a ∉ known) /\
    (o = None -> n < min_connections ->
       (forall a, a ∈ dns -> a ∈ known) /\
       forall slot r, Db.address db !! (network, slot) = Some r ->
         Db.banned r < i64 (u64 (now - BAN_TIME)) -> ip r ∈ known).
Proof.
  unfold KeepConnected.poll. destruct (Z.ltb_spec n min_connections) as [Hn|Hn].
  2: { rewrite decide_False by lia. exists None. split_and!; [|done|lia].
       cbn. by rewrite (left_id_L ∅ (∪)). }
  rewrite decide_True by done. set (known := list_to_set peers ∪ earlier). cbv zeta.
  destruct (get_an_address_cases now network known sample db) as ([a|] & -> & Hsome & Hnone);
    cbn [expect mbind res_bind].
  - destruct (Hsome a eq_refl) as [Ha _]. exists (Some a). cbn. rewrite (right_id_L ∅ (∪)).
    split_and!; [done| |done]. by intros a' [= <-].
  - destruct (filter (λ a, a ∉ known) dns) as [|e0 es] eqn:Hel.
    + exists None. cbn. rewrite (left_id_L ∅ (∪)). split_and!; [done..|]. intros _ _. split; [|by apply Hnone].
      intros a Ha. destruct (decide (a ∈ known)) as [|Hna]; [done|].
      assert (a ∈ filter (λ a, a ∉ known) dns) as Hin by by apply list_elem_of_filter.
      rewrite Hel in Hin. by apply not_elem_of_nil in Hin.
    + cbn [Z.ltb]. rewrite (proj2 (Z.ltb_lt _ _)) by (simpl; lia).
      destruct (lookup_lt_is_Some_2 (e0 :: es) (Z.to_nat (rnd mod Z.of_nat (length (e0 :: es))))) as [a Ha].
      { pose proof (Z.mod_pos_bound rnd (Z.of_nat (length (e0 :: es))) ltac:(simpl; lia)). lia. }
      rewrite (index_Some _ _ a) by done. cbn [mbind res_bind].
      exists (Some a). cbn. rewrite (right_id_L ∅ (∪)). split_and!; [done| |done].
      intros a' [= <-]. apply list_elem_of_lookup_2 in Ha. rewrite <- Hel in Ha.
      by apply list_elem_of_filter in Ha as [Ha _].
Qed.

(** ** A ban holds for a day *)

Section BannedForADay.
Context `{SipHasher, Bitcoin, SQLiteLaws, !Peers}.
Implicit Types (db : DB).

(** The address of a later call of [store_address], with what it draws and stores. *)
Record Learned : Type := mkLearned {
  l_r0 : Z; l_r1 : Z; l_now : Z; l_network : str; l_address : SocketAddr;
  l_connected : Z; l_last_seen : Z; l_banned : Z
}.
Definition hear (x : Learned) : action DB Error unit :=
  _ ← AddressTable.store_address (l_r0 x) (l_r1 x) (l_now x) (l_network x) (l_address x)
        (l_connected x) (l_last_seen x) (l_banned x);
  mret ().

Section Held.
Context (k0 k1 now : Z) (network : str) (a : SocketAddr).
Let slot := AddressTable.address_slot k0 k1 network a.

(** The row of the slot gives way to the address. *)
Definition gives_way db : Prop :=
  forall r, Db.address db !! (network, slot) = Some r ->
    ip r = a \/ 0 < u64 (Db.banned r) \/ u64 (Db.connected r) < u64 (now - OLD_CONNECTION).

(** What is learned later leaves the slot alone, or is the address itself, and the
    slot holds it. *)
Definition undisturbed db (x : Learned) : Prop :=
  is_u64 (l_r0 x) /\ is_u64 (l_r1 x) /\ 0 <= l_banned x < 2 ^ 63 /\
  (l_network x = network -> AddressTable.address_slot k0 k1 network (l_address x) = slot ->
   l_address x = a /\ gives_way db).

(** Every row of the address is in its slot and says that it is banned. *)
Definition held (takes : Prop) db : Prop :=
  (forall q0 q1, slot_keys q0 q1 db = (k0, k1)) /\
  (forall slot' r, Db.address db !! (network, slot') = Some r -> ip r = a ->
     slot' = slot /\ now <= Db.banned r < 2 ^ 63) /\
  (takes -> exists r, Db.address db !! (network, slot) = Some r /\ ip r = a).

Lemma address_slot_shown n x : AddressTable.address_slot k0 k1 n (shown x) = AddressTable.address_slot k0 k1 n x.
Proof. by destruct x. Qed.

Lemma ip_stored_row t x c l b old :
  ip (stored_row t x c l b old) = shown x \/ old = Some (stored_row t x c l b old).
Proof. destruct old as [r|]; cbn [stored_row]; [|by left]. repeat case_decide; auto. Qed.

(** Learning an address keeps the ban, also that of the banned address itself. *)
Lemma learned_held takes x db0 db :
  shown a = a -> 0 <= now -> (gives_way db0 -> takes) -> undisturbed db0 x -> held takes db ->
  exists db', hear x db = (Ok (), db') /\ held takes db'.
Proof.
  intros Ha Hnow Htakes (Hr0 & Hr1 & Hb & Hx) (Hkeys & Hrows & Hslot).
  pose proof (store_address_run (l_r0 x) (l_r1 x) (l_now x) (l_network x) (l_address x)
    (l_connected x) (l_last_seen x) (l_banned x) db) as Hrun.
  rewrite Hkeys in Hrun. cbv zeta in Hrun. destruct Hrun as (n & db' & Hrun & Haddr & _ & Hk).
  exists db'. split; [unfold hear; by rewrite (action_bind_ok _ _ _ _ _ Hrun)|].
  set (slot' := AddressTable.address_slot k0 k1 (l_network x) (l_address x)) in *.
  set (row := stored_row _ _ _ _ _ _) in *.
  destruct (decide ((l_network x, slot') = (network, slot))) as [[= Hn Hs]|Hne].
  - assert (AddressTable.address_slot k0 k1 network (l_address x) = slot) as Hs' by (unfold slot' in Hs; congruence).
    destruct (Hx Hn Hs') as [Hxa Hgw]. specialize (Htakes Hgw).
    destruct (Hslot Htakes) as (r & Hr & Hip). destruct (Hrows slot r Hr Hip) as [_ Hban].
    assert (row = new_row a (Z.max (u64 (Db.connected r)) (l_connected x)) (Z.max (u64 (Db.last_seen r)) (l_last_seen x))
      (Z.max (Db.banned r) (l_banned x))) as Hrow.
    { unfold row. rewrite Hn, Hs, Hr, Hxa. cbn [stored_row]. rewrite decide_True by done.
      by rewrite (small_u64 (Db.banned r)) by lia. }
    assert (now <= Db.banned row < 2 ^ 63 /\ ip row = a) as [Hban' Hip'].
    { rewrite Hrow. cbn [Db.banned ip new_row]. rewrite small_i64 by lia. split; [lia|done]. }
    rewrite Hn, Hs in Haddr. split; [intros q0 q1; by rewrite (Hk Hr0 Hr1)|]. split.
    + intros s' r'. rewrite Haddr. intros [[[= <-] <-]|[_ Hr']]%lookup_insert_Some Hipr; [done|by apply (Hrows s' r')].
    + intros _. exists row. by rewrite Haddr, lookup_insert_eq.
  - split; [intros q0 q1; by rewrite (Hk Hr0 Hr1)|]. split.
    + intros s' r'. rewrite Haddr. intros [[[= Hn <-] <-]|[_ Hr']]%lookup_insert_Some Hipr; [|by apply (Hrows s' r')].
      destruct (ip_stored_row (l_now x) (l_address x) (l_connected x) (l_last_seen x) (l_banned x)
        (Db.address db !! (l_network x, slot'))) as [Hsh|Hold]; fold row in Hsh || fold row in Hold.
      * destruct Hne. unfold slot', slot. by rewrite Hn, <- (address_slot_shown network (l_address x)), <- Hsh, Hipr.
      * rewrite Hn in Hold. by apply (Hrows slot' row).
    + intros Ht. destruct (Hslot Ht) as (r & Hr & Hip). exists r. split; [|done]. by rewrite Haddr, lookup_insert_ne.
Qed.

Lemma all_learned_held takes xs db0 db :
  shown a = a -> 0 <= now -> (gives_way db0 -> takes) -> Forall (undisturbed db0) xs -> held takes db ->
  exists db', for_each_do xs hear db = (Ok (), db') /\ held takes db'.
Proof.
  intros Ha Hnow Ht Hxs. revert db. induction Hxs as [|x xs Hx _ IH]; intros db Hdb; [by exists db|].
  destruct (learned_held takes x db0 db Ha Hnow Ht Hx Hdb) as (db1 & Hrun & Hdb1).
  destruct (IH db1 Hdb1) as (db' & Hrun' & Hdb'). exists db'. split; [|done].
  cbn [for_each_do]. by rewrite (action_bind_ok _ _ _ _ _ Hrun).
Qed.

(** The address is chosen only if it is a seed. *)
Lemma held_not_chosen takes later min_connections peers dns n sample rnd db earlier tried :
  held takes db -> 0 <= now -> now <= later < now + BAN_TIME -> later < 2 ^ 63 ->
  KeepConnected.poll network min_connections later peers dns n sample rnd db earlier = Ok (tried, Some a) ->
  a ∈ dns.
Proof.
  intros (_ & Hrows & _) Hnow Hlater Hmax Hpoll. unfold KeepConnected.poll in Hpoll.
  destruct (n <? min_connections); [|done]. set (known := list_to_set peers ∪ earlier) in *. cbv zeta in Hpoll.
  destruct (get_an_address_cases later network known sample db) as ([c|] & Hget & Hsome & _);
    rewrite Hget in Hpoll; cbn [expect mbind res_bind] in Hpoll.
  - injection Hpoll as _ ->. destruct (Hsome a eq_refl) as (_ & slot' & r & Hr & Hip & Hb).
    destruct (Hrows slot' r Hr Hip) as [_ Hban].
    rewrite i64_u64_signed in Hb by (unfold BAN_TIME in *; lia). unfold BAN_TIME in *. lia.
  - destruct (0 <? _); [|done].
    match type of Hpoll with context [index ?l ?i] => destruct (index l i) as [c| |] eqn:Hi; [|done..] end.
    cbn [mbind res_bind] in Hpoll. injection Hpoll as _ ->.
    unfold index in Hi. case_match eqn:Hl; [|done]. injection Hi as ->.
    apply list_elem_of_lookup_2, list_elem_of_filter in Hl. apply Hl.
Qed.
End Held.

(** C27: After a peer was banned, the node does not choose its address from the
    address table for a new connection for a day, whatever is drawn, and also if
    the address is heard of again meanwhile, with any other addresses - as long
    as no other address takes its slot, and, if it is heard of again, the ban
    found the slot free, held by the address, or by one that was banned or old.
    (The seeds that the node falls back to are not checked for bans: it is chosen
    then only if it is one of them.) *)
Theorem banned_for_a_day r0 r1 network now pid a m xs later min_connections peers dns n sample rnd earlier :
  rows_ok r0 r1 (pool_db m) -> is_u64 r0 -> is_u64 r1 ->
  0 <= now -> now <= later < now + BAN_TIME -> later < 2 ^ 63 ->
  pool_addresses m !! pid = Some a -> shown a = a ->
  let keys := slot_keys r0 r1 (pool_db m) in
  Forall (undisturbed keys.1 keys.2 now network a (pool_db m)) xs ->
  exists m' db', AddressPoolMaintainer.on_disconnected r0 r1 network now pid true m = (Ok (), m') /\
    pool_addresses m' = delete pid (pool_addresses m) /\
    for_each_do xs hear (pool_db m') = (Ok (), db') /\
    forall tried, KeepConnected.poll network min_connections later peers dns n sample rnd db' earlier =
                    Ok (tried, Some a) -> a ∈ dns.
Proof.
  intros [Hshown Hrows] Hr0 Hr1 Hnow Hlater Hmax Hpid Ha keys Hxs. unfold keys in Hxs.
  pose proof (store_address_run r0 r1 now network a 0 0 now (pool_db m)) as Hrun.
  destruct (slot_keys r0 r1 (pool_db m)) as [k0 k1] eqn:Hkeys. cbn [fst snd] in Hrows, Hxs. cbv zeta in Hrun.
  destruct Hrun as (j & db1 & Hrun & Haddr & _ & Hk).
  set (slot := AddressTable.address_slot k0 k1 network a) in *.
  assert (held k0 k1 now network a (gives_way k0 k1 now network a (pool_db m)) db1) as Hheld.
  { split; [by apply Hk|]. split.
    - intros slot' r. rewrite Haddr. intros [[[= <-] <-]|[Hne Hr]]%lookup_insert_Some Hip.
      + split; [done|]. assert (forall r, Db.address (pool_db m) !! (network, slot) = Some r -> 0 <= Db.banned r < 2 ^ 63)
          as Hold by (intros r Hr; by destruct (Hrows network slot r Hr)).
        split; [apply stored_row_banned in Hip; [done|unfold BAN_TIME in *; lia|done..]|].
        apply stored_row_below; [unfold BAN_TIME in *; lia|done].
      + destruct (Hrows network slot' r Hr) as [Hs _]. destruct Hne. rewrite Hip in Hs. by rewrite Hs.
    - intros Hgw. eexists. split; [rewrite Haddr; apply lookup_insert_eq|].
      destruct (Db.address (pool_db m) !! (network, slot)) as [r|] eqn:Hr; cbn [stored_row]; [|done].
      destruct (decide (ip r = a)) as [Hip|Hip]; [done|].
      destruct (Hgw r Hr) as [?|Hold]; [done|]. by rewrite decide_True. }
  destruct (all_learned_held k0 k1 now network a _ xs (pool_db m) db1 Ha Hnow (λ Hg, Hg) Hxs Hheld)
    as (db2 & Hall & Hheld2).
  eexists _, db2. split; [|split; [|split]].
  - unfold AddressPoolMaintainer.on_disconnected, gets, modify, mbind, action_bind. rewrite Hpid.
    unfold transaction, AddressPoolMaintainer.store, zoom, expect_action, mbind, action_bind.
    cbn [pool_db AddressPoolMaintainer.set_addresses]. rewrite Hrun. cbn [expect]. reflexivity.
  - done.
  - exact Hall.
  - intros tried. by apply (held_not_chosen k0 k1 now network a (gives_way k0 k1 now network a (pool_db m))).
Qed.
End BannedForADay.

(** ** The start after a re-org *)

Section Reorg.
Context `{SipHasher, Snap, !SnapLaws, BitcoinLaws, !Cbor Ad, SQLiteLaws, !WalletCrate, !AccountStorage}.
Context `{HeaderChain, !Peers, !Timeouts BitcoinReply}.
Implicit Types (s : ContentStore) (hs : list BlockHeader).

(** The headers from [x] back to [fork] lie off the trunk, [fork] is on it. *)
Fixpoint branch (cdb : ChainDB) (x : digest) hs (fork : digest) : Prop :=
  match hs with
  | [] => x = fork /\ is_Some (pos_on_trunk cdb x) /\ is_Some (cdb_get_header cdb x)
  | h :: hs =>
      header_hash h = x /\ (exists height, cdb_get_header cdb x = Some (mkCachedHeader h height)) /\
      pos_on_trunk cdb x = None /\ branch cdb (prev_blockhash h) hs fork
  end.

Lemma branch_header cdb x hs fork : branch cdb x hs fork -> is_Some (cdb_get_header cdb x).
Proof. destruct hs as [|h hs]; cbn [branch]; [tauto|]. intros (_ & [height ->] & _). by eexists. Qed.

Lemma walk_back_branch cdb fork hs : forall fuel x g acc,
  branch cdb x hs fork -> (length hs < fuel)%nat -> cdb_get_header cdb x = Some g ->
  P2PBitcoin.walk_back fuel cdb x g acc = Ok (Some (acc ++ hs)).
Proof.
  induction hs as [|h hs IH]; intros fuel x g acc Hb Hf Hg; destruct fuel as [|fuel]; cbn in Hf; try lia.
  - destruct Hb as (_ & [pos Hp] & _). cbn [P2PBitcoin.walk_back]. by rewrite Hp, app_nil_r.
  - destruct Hb as (_ & [height Hh] & Hp & Hb). cbn [P2PBitcoin.walk_back]. rewrite Hp.
    rewrite Hg in Hh. injection Hh as ->. cbn [stored_header].
    destruct (branch_header _ _ _ _ Hb) as [g' Hg']. rewrite Hg'. cbn [unwrap mbind res_bind].
    rewrite (IH fuel _ g') by (done || lia). by rewrite <- app_assoc.
Qed.

(** The store unwinds a branch of headers. *)
Lemma unwind_branch cdb fork hs : forall s x,
  branch cdb x hs fork -> cache_ok s -> WalletTables.read_processed (db s) = Ok (Some x) ->
  exists s', for_each_do hs BitcoinDriver.block_disconnected s = (Ok (), s') /\ cache_ok s' /\
    same_rest s s' /\ WalletTables.read_processed (db s') = Ok (Some fork) /\
    (forall id r, Db.content (db s') !! id = Some r <->
       Db.content (db s) !! id = Some r /\
       forall h, h ∈ hs -> r_block_id r <> to_hex_d (header_hash h)).
Proof.
  induction hs as [|h hs IH]; intros s x Hb Hc Hp; cbn [for_each_do].
  - destruct Hb as (<- & _). exists s. split_and!; try done. intros id r. split; [|tauto].
    intros Hr. split; [done|]. intros h Hin. by apply not_elem_of_nil in Hin.
  - destruct Hb as (_ & _ & _ & Hb).
    destruct (unwind_tip_run h s Hc) as (s1 & Hrun & Hc1 & Hcont & Hp1 & _ & (Hl1 & Hs1 & Hd1) & _).
    destruct (IH s1 _ Hb Hc1 Hp1) as (s' & Hrun' & Hc' & (Hl & Hs & Hd) & Hp' & Hcont').
    exists s'. split_and!; [|done|split_and!; congruence|done|].
    + rewrite (action_bind_ok _ _ s () s1); [done|].
      unfold BitcoinDriver.block_disconnected, expect_action. by rewrite Hrun.
    + intros id r. rewrite Hcont', Hcont. setoid_rewrite elem_of_cons. naive_solver.
Qed.

(** C22: After a re-org while the node was down the store removes exactly the
    contents the blocks of the left branch confirmed and goes back to the fork;
    the block download is however created with the block of the left branch, not
    with the fork. *)
Theorem start_after_reorg fuel chaindb t birth x hs fork s :
  cache_ok s -> WalletTables.read_processed (db s) = Ok (Some x) ->
  branch (view chaindb) x hs fork -> (length hs < fuel)%nat ->
  exists s', P2PBitcoin.catch_up fuel chaindb t birth s =
      (BlockDownloadOps.new fuel chaindb t (Some x) birth, s') /\
    cache_ok s' /\ same_rest s s' /\ WalletTables.read_processed (db s') = Ok (Some fork) /\
    (forall id r, Db.content (db s') !! id = Some r <->
       Db.content (db s) !! id = Some r /\
       forall h, h ∈ hs -> r_block_id r <> to_hex_d (header_hash h)).
Proof.
  intros Hc Hp Hb Hf. destruct (unwind_branch _ _ _ _ _ Hb Hc Hp) as (s' & Hrun & Hrest).
  exists s'. split; [|done]. unfold P2PBitcoin.catch_up.
  rewrite (action_bind_ok _ _ s (Some x) s) by (unfold ask; by rewrite Hp).
  destruct (branch_header _ _ _ _ Hb) as [g Hg].
  rewrite (action_bind_ok _ _ s (Some hs) s).
  - rewrite (action_bind_ok _ _ s () s') by exact Hrun. done.
  - unfold lift, P2PBitcoin.disconnected_while_down. rewrite Hg.
    by rewrite (walk_back_branch _ fork hs).
Qed.
End Reorg.
