(* ===== verification/Framing.v ===== *)
(** * The framing of the defiads protocol (src/p2p_defiads.rs)

    Messages go over a stream of bytes that arrives in pieces.  The laws of the
    buffer and of serde_cbor that [encode] and [decode] of Network.v rely on are
    a class; with them a receiver that decodes after each piece gets the
    messages that were sent. *)

From S2P Require Import Prelude Machine IbltTable Keys Strings Bitcoin Content Effects Messages.
From S2P Require Import Db BlockDownload Address Network.
#[local] Open Scope Z_scope.

(** ** What a buffer promises *)

(** [enc] are the bytes that serde_cbor writes for an item, if it can; [pending]
    the bytes in the buffer since the last commit, [unread] those of them from
    the position of the reader on; [arrive] appends bytes. *)
Class MessageBufferLaws (A : Type) `{!MessageBuffer A} : Type := {
  enc : A -> option str;
  pending : Buffer -> str;
  unread : Buffer -> str;
  arrive : str -> Buffer -> Buffer;
  enc_nonempty a : enc a <> Some [];
  pending_arrive bs b : pending (arrive bs b) = pending b ++ bs;
  unread_arrive bs b : unread (arrive bs b) = unread b ++ bs;
  pending_commit b : pending (commit b) = unread b;
  unread_commit b : unread (commit b) = unread b;
  pending_rollback b : pending (rollback b) = pending b;
  unread_rollback b : unread (rollback b) = pending b;
  len_unread b : unread b = [] -> buffer_len b = 0;
  pending_next b : pending (next_item b).2 = pending b;
  next_none b : unread b = [] -> (next_item b).1 = NoItem /\ unread (next_item b).2 = [];
  next_item_whole b a bs rest :
    enc a = Some bs -> unread b = bs ++ rest ->
    (next_item b).1 = Item a /\ unread (next_item b).2 = rest;
  next_item_part b a part rest :
    enc a = Some (part ++ rest) -> part <> [] -> rest <> [] -> unread b = part ->
    (next_item b).1 = CborEof;
  written a b : to_writer a b = (λ bs, arrive bs b) <$> enc a
}.

Section Framing.
Context `{Bitcoin, !MessageBuffer Envelope, !MessageBufferLaws Envelope}.
Implicit Types (b : Buffer) (m : Message) (e : Envelope) (ms : list Message).

(** ** A connection *)

(** The sender wraps and encodes one message after the other. *)
Fixpoint send_all ms b : res ErrorKind Buffer :=
  match ms with
  | [] => Ok b
  | m :: ms => b ← BiadnetConfig.encode (BiadnetConfig.wrap m) b; send_all ms b
  end.

(** The receiver decodes and unwraps until there is no whole message left; [None]
    when the fuel is out. *)
Fixpoint drain (fuel : nat) : action Buffer ErrorKind (option (list Message)) :=
  match fuel with
  | O => mret None
  | S fuel =>
      e ← BiadnetConfig.decode;
      match e with
      | None => mret (Some [])
      | Some e =>
          m ← lift (BiadnetConfig.unwrap e);
          ms ← drain fuel;
          mret (cons m <$> ms)
      end
  end.

(** It does so after each piece that arrives. *)
Fixpoint receive (fuel : nat) (pieces : list str) : action Buffer ErrorKind (option (list Message)) :=
  match pieces with
  | [] => mret (Some [])
  | piece :: pieces =>
      _ ← modify (arrive piece);
      ms ← drain fuel;
      match ms with
      | None => mret None
      | Some ms => later ← receive fuel pieces; mret (app ms <$> later)
      end
  end.

(** ** What the sender puts on the wire *)

Inductive stream : list Message -> str -> Prop :=
  | stream_nil : stream [] []
  | stream_cons m ms bs rest :
      enc (BiadnetConfig.wrap m) = Some bs -> stream ms rest -> stream (m :: ms) (bs ++ rest).

Lemma send_all_stream ms b b' :
  send_all ms b = Ok b' -> exists bs, stream ms bs /\ pending b' = pending b ++ bs.
Proof.
  revert b. induction ms as [|m ms IH]; intros b Hsend; cbn [send_all] in Hsend.
  - injection Hsend as <-. exists []. split; [constructor|by rewrite app_nil_r].
  - unfold BiadnetConfig.encode in Hsend. rewrite written in Hsend.
    destruct (enc (BiadnetConfig.wrap m)) as [bs|] eqn:Henc; [|done].
    destruct (IH _ Hsend) as (rest & Hrest & Hp). exists (bs ++ rest).
    split; [by constructor|]. by rewrite Hp, pending_arrive, app_assoc.
Qed.

(** ** One decoding *)

(** Between two decodings the reader is at the last commit. *)
Definition settled b : Prop := unread b = pending b.

Lemma decode_whole b m bs rest :
  enc (BiadnetConfig.wrap m) = Some bs -> settled b -> pending b = bs ++ rest ->
  exists b', BiadnetConfig.decode b = (Ok (Some (BiadnetConfig.wrap m)), b') /\ settled b' /\ pending b' = rest.
Proof.
  intros Henc Hset Hp. unfold BiadnetConfig.decode.
  destruct (next_item_whole b _ bs rest Henc) as [Hi Hu]; [by rewrite Hset|].
  destruct (next_item b) as [i b1]. cbn in Hi, Hu. subst i. exists (commit b1). split; [done|].
  unfold settled. by rewrite pending_commit, unread_commit.
Qed.

(** What is there of the next message, if any: not all of it. *)
Definition waiting ms (part : str) : Prop :=
  match ms with
  | [] => part = []
  | m :: _ => exists rest, enc (BiadnetConfig.wrap m) = Some (part ++ rest) /\ rest <> []
  end.

(** A message that is not there whole is waited for, of whatever length it is:
    the limit is looked at only when nothing is there. *)
Lemma decode_part b ms :
  settled b -> waiting ms (pending b) ->
  exists b', BiadnetConfig.decode b = (Ok None, b') /\ settled b' /\ pending b' = pending b.
Proof.
  intros Hset Hp. unfold BiadnetConfig.decode. pose proof (pending_next b) as Hpn.
  destruct (decide (pending b = [])) as [Hnil|Hnil].
  - destruct (next_none b) as [Hi Hu]; [by rewrite Hset|].
    destruct (next_item b) as [i b1]. cbn in Hi, Hu, Hpn. subst i. rewrite (len_unread _ Hu).
    exists (rollback b1). split; [done|]. unfold settled. by rewrite unread_rollback, pending_rollback, Hpn.
  - destruct ms as [|m ms]; [done|]. destruct Hp as (rest & Henc & Hrest).
    pose proof (next_item_part b _ _ _ Henc Hnil Hrest Hset) as Hi.
    destruct (next_item b) as [i b1]. cbn in Hi, Hpn. subst i. exists (rollback b1). split; [done|].
    unfold settled. by rewrite unread_rollback, pending_rollback, Hpn.
Qed.

(** ** All that a receiver decodes *)

(** The first message of a stream that has arrived in part is there, or waited for. *)
Lemma stream_arrived m ms bs rest part missing :
  enc (BiadnetConfig.wrap m) = Some bs -> bs ++ rest = part ++ missing ->
  (exists part', part = bs ++ part' /\ rest = part' ++ missing) \/ waiting (m :: ms) part.
Proof.
  intros Henc Heq. apply app_eq_inv in Heq as [(part' & -> & ->)|(bs' & -> & ->)].
  - destruct part' as [|x part']; [left; exists []; by rewrite !app_nil_r|right].
    by exists (x :: part').
  - left. by exists bs'.
Qed.

Lemma drain_stream ms fuel b missing :
  stream ms (pending b ++ missing) -> settled b -> (length ms < fuel)%nat ->
  exists ms1 ms2 b', ms = ms1 ++ ms2 /\ drain fuel b = (Ok (Some ms1), b') /\ settled b' /\
    stream ms2 (pending b' ++ missing) /\ waiting ms2 (pending b').
Proof.
  remember (pending b ++ missing) as all eqn:Hall. intros Hs. revert fuel b Hall.
  induction Hs as [|m ms bs rest Henc Hs IH]; intros fuel b Hall Hset Hfuel;
    (destruct fuel as [|fuel]; [cbn in Hfuel; lia|]); cbn [drain].
  - symmetry in Hall. apply app_eq_nil in Hall as [Hp ->].
    destruct (decode_part b [] Hset Hp) as (b' & Hd & Hset' & Hp').
    exists [], [], b'. rewrite (action_bind_ok _ _ _ _ _ Hd), Hp', Hp. split_and!; [done..|constructor|done].
  - destruct (stream_arrived m ms bs rest _ _ Henc Hall) as [(part & Hp & ->)|Hw].
    + destruct (decode_whole b m bs part Henc Hset Hp) as (b1 & Hd & Hset1 & <-).
      destruct (IH fuel b1 eq_refl Hset1) as (ms1 & ms2 & b' & -> & Hdr & Hrest); [cbn in Hfuel; lia|].
      exists (m :: ms1), ms2, b'. split; [done|]. split; [|exact Hrest].
      rewrite (action_bind_ok _ _ _ _ _ Hd), (action_bind_ok _ _ b1 m b1) by done.
      by rewrite (action_bind_ok _ _ _ _ _ Hdr).
    + destruct (decode_part b (m :: ms) Hset Hw) as (b' & Hd & Hset' & Hp').
      exists [], (m :: ms), b'. rewrite (action_bind_ok _ _ _ _ _ Hd), Hp'. split_and!; [done..| |done].
      rewrite <- Hall. by constructor.
Qed.

Lemma waiting_stream ms part : stream ms part -> waiting ms part -> ms = [] /\ part = [].
Proof.
  intros Hs Hw. destruct Hs as [|m ms bs rest Henc Hs]; [done|].
  destruct Hw as (more & Henc' & Hmore). rewrite Henc in Henc'. injection Henc' as Hbs.
  apply (f_equal length) in Hbs. rewrite !length_app in Hbs. destruct more; [done|cbn in Hbs; lia].
Qed.

Lemma receive_stream pieces ms fuel b missing :
  stream ms (pending b ++ concat pieces ++ missing) -> settled b -> waiting ms (pending b) ->
  (length ms < fuel)%nat ->
  exists ms1 ms2 b', ms = ms1 ++ ms2 /\ receive fuel pieces b = (Ok (Some ms1), b') /\ settled b' /\
    stream ms2 (pending b' ++ missing) /\ waiting ms2 (pending b').
Proof.
  revert ms b. induction pieces as [|piece pieces IH]; intros ms b Hs Hset Hw Hfuel; cbn [receive].
  - by exists [], ms, b.
  - destruct (drain_stream ms fuel (arrive piece b) (concat pieces ++ missing))
      as (ms1 & ms2 & b1 & -> & Hd & Hset1 & Hs1 & Hw1); [| |done|].
    + rewrite pending_arrive. cbn [concat] in Hs. by rewrite <- !app_assoc in *.
    + unfold settled in *. by rewrite unread_arrive, pending_arrive, Hset.
    + destruct (IH ms2 b1 Hs1 Hset1 Hw1) as (ms3 & ms4 & b' & -> & Hr & Hrest);
        [rewrite length_app in Hfuel; lia|].
      exists (ms1 ++ ms3), ms4, b'. split; [by rewrite app_assoc|]. split; [|exact Hrest].
      rewrite (action_bind_ok _ _ b () (arrive piece b)), (action_bind_ok _ _ _ _ _ Hd) by done.
      by rewrite (action_bind_ok _ _ _ _ _ Hr).
Qed.

(** C13: In whatever pieces the bytes of encoded messages arrive, decoding after
    each piece gives the messages that were sent, in their order and each once,
    and never an error: at any time those that are there whole, however long
    the one is that is waited for, and all of them when all bytes are there. *)
Theorem stream_decoded ms pieces missing fuel dst dst' src :
  send_all ms dst = Ok dst' -> pending dst = [] -> pending dst' = concat pieces ++ missing ->
  settled src -> pending src = [] -> (length ms < fuel)%nat ->
  exists ms1 ms2 src', ms = ms1 ++ ms2 /\ receive fuel pieces src = (Ok (Some ms1), src') /\
    settled src' /\ stream ms2 (pending src' ++ missing) /\ waiting ms2 (pending src') /\
    (missing = [] -> ms1 = ms /\ pending src' = []).
Proof.
  intros Hsend Hdst Hdst' Hset Hsrc Hfuel. apply send_all_stream in Hsend as (bs & Hs & Hbs).
  rewrite Hdst, Hdst' in Hbs. cbn in Hbs. subst bs.
  destruct (receive_stream pieces ms fuel src missing)
    as (ms1 & ms2 & src' & -> & Hr & Hset' & Hs' & Hw'); [by rewrite Hsrc|done| |done|].
  { rewrite Hsrc. destruct Hs as [|m ms bs rest Henc Hs]; [done|]. exists bs. split; [done|].
    intros ->. by apply enc_nonempty in Henc. }
  exists ms1, ms2, src'. split_and!; [done..|]. intros ->. rewrite app_nil_r in Hs'.
  destruct (waiting_stream _ _ Hs' Hw') as [-> ->]. by rewrite app_nil_r.
Qed.

(** The magic number of what arrives is not looked at. *)
Lemma any_magic_accepted x m : BiadnetConfig.unwrap (mkEnvelope _ x m) = Ok m.
Proof. reflexivity. Qed.
End Framing.
