(* ===== verification/ResumeSpec.v ===== *)
(** * A restart loses nothing

    The composition of the block download, the driver and the store, across a
    restart of the node: the blocks that were passed to the store before, and those
    the new block download wants, are together the blocks of the trunk from the
    first one younger than the wallet on, each once and in order, if the times of
    the trunk pass the wallet's birth once. *)

From S2P Require Import Prelude Machine IbltTable Sketch Keys Strings Text Bitcoin Content Effects.
From S2P Require Import Db DbContent Wallet DbWallet Trunk Store Messages BlockDownload.
From S2P Require Import BlockDownloadSpec BlockDownloadStart Network.
#[local] Open Scope Z_scope.

(** ** The last processed block *)

Section Processed.
Context `{SipHasher, Snap, BitcoinLaws, !Cbor Ad, SQLite, !WalletCrate, !AccountStorage}.
Implicit Types (s : ContentStore).

Definition same_processed s s' : Prop := Db.processed (Store.db s') = Db.processed (Store.db s).
#[local] Instance same_processed_preorder : PreOrder same_processed.
Proof. split; [by intros s|]. intros s1 s2 s3 H12 H23. unfold same_processed in *. congruence. Qed.

Definition db_same_processed (d d' : DB) : Prop := Db.processed d' = Db.processed d.
#[local] Instance db_same_processed_preorder : PreOrder db_same_processed.
Proof. split; [by intros d|]. intros d1 d2 d3 H12 H23. unfold db_same_processed in *. congruence. Qed.

Lemma on_db_same {A} (m : action DB Error A) :
  evolves db_same_processed m -> evolves same_processed (Store.on_db m).
Proof.
  intros Hm s a s'. unfold Store.on_db, zoom. destruct (m (Store.db s)) as [r d] eqn:Hr.
  intros [= -> <-]. unfold same_processed. cbn [Store.db Store.set_db]. by eapply Hm.
Qed.

Lemma update_same f : evolves same_processed (Store.update f).
Proof.
  unfold Store.update. intros s [] s' (m & s1 & Hm & Hrun)%action_bind_inv.
  injection Hm as _ <-. by injection Hrun as <-.
Qed.

Lemma drop_keys_same keys flag : evolves same_processed (Store.drop_keys keys flag).
Proof.
  revert flag. induction keys as [|key keys IH]; intros flag; cbn [Store.drop_keys]; [evolve|].
  evolve_by ltac:(first [apply update_same | apply IH]).
Qed.

Lemma delete_where_same P : evolves db_same_processed (ContentTable.delete_where P).
Proof. unfold ContentTable.delete_where. evolve. by apply evolves_modify. Qed.

Lemma add_header_same height : evolves same_processed (Store.add_header height).
Proof.
  unfold Store.add_header, Store.in_transaction, ContentTable.delete_expired, Store.refresh_sketch, Store.query.
  apply evolves_transaction. evolve_by ltac:(first
    [ apply on_db_same, delete_where_same | apply drop_keys_same | by apply evolves_modify
    | by intros ??? [= _ <-] ]).
Qed.

Lemma store_content_same height block_id c amount :
  evolves db_same_processed (ContentTable.store_content height block_id c amount).
Proof. unfold ContentTable.store_content. evolve; by apply evolves_modify. Qed.

Lemma accept_content_same height header c o : evolves same_processed (Store.accept_content height header c o).
Proof.
  unfold Store.accept_content, Store.in_transaction.
  evolve_by ltac:(first [ apply update_same | apply evolves_transaction, on_db_same, store_content_same ]).
  intros s x s'. destruct (add_to_min_sketch (min_hashes s) a (st_ksequence s)); by intros [= _ <-].
Qed.

Lemma add_content_same trunk c : evolves same_processed (Store.add_content trunk c).
Proof. unfold Store.add_content. cbv zeta. evolve_by ltac:(apply accept_content_same). Qed.

(** A block that was connected is the last processed one. *)
Lemma block_connected_processed trunk block s s' :
  Store.block_connected trunk block s = (Ok (), s') ->
  Db.processed (Store.db s') = Some (to_hex_d (header_hash (header block))).
Proof.
  unfold Store.block_connected. intros (newly & s1 & Htx & Hrun)%action_bind_inv.
  transitivity (Db.processed (Store.db s1)).
  { revert Hrun. apply (evolves_for_each same_processed). intros [[[[tix fu] id] [ad|]] term] _; [|evolve].
    evolve_by ltac:(apply add_content_same). }
  unfold Store.in_transaction, transaction in Htx.
  match type of Htx with context [(?b ≫= ?k) s] => destruct ((b ≫= k) s) as [[n| |] s2] eqn:Hb; [|done..] end.
  injection Htx as _ <-. apply action_bind_inv in Hb as (us & s3 & _ & Hb).
  apply action_bind_inv in Hb as (nw & s4 & _ & Hb). apply action_bind_inv in Hb as (pr & s5 & _ & Hb).
  apply action_bind_inv in Hb as (cs & s6 & _ & Hb). apply action_bind_inv in Hb as (u1 & s7 & _ & Hb).
  apply action_bind_inv in Hb as (u2 & s8 & Hs & Hb). injection Hb as _ <-. by injection Hs as _ <-.
Qed.

(** The last block of a list of those passed on, or the one before them. *)
Definition last_passed (p : option digest) (l : list (digest * Z)) : option digest :=
  match last l with Some (h, _) => Some h | None => p end.

Lemma last_passed_cons p x l : last_passed (Some x.1) l = last_passed p (x :: l).
Proof.
  destruct x as [h n]. unfold last_passed. destruct l as [|y l]; [done|]. rewrite (last_cons (h, n)).
  destruct (last (y :: l)) as [[]|] eqn:Hl; [done|]. by apply last_None in Hl.
Qed.

(** What the store takes of the block download, each call with the trunk of its
    moment, leaves the last block as the processed one. *)
Lemma drive_processed calls p s s' :
  unwound calls.*2 = [] -> WalletTables.read_processed (Store.db s) = Ok p ->
  for_each_do calls (λ '(trunk, d), BitcoinDriver.drive trunk d) s = (Ok (), s') ->
  WalletTables.read_processed (Store.db s') = Ok (last_passed p (passed_blocks calls.*2)).
Proof.
  revert p s. induction calls as [|[trunk d] calls IH]; intros p s Hu Hp Hrun.
  { injection Hrun as <-. exact Hp. }
  cbn [for_each_do] in Hrun. apply action_bind_inv in Hrun as ([] & s1 & Hd & Hrun).
  unfold BitcoinDriver.drive in Hd. destruct d as [block n|hd n|hd]; [| |by cbn in Hu].
  - unfold BitcoinDriver.block_connected, expect_action in Hd.
    destruct (Store.block_connected trunk block s) as [[[]| |] s2] eqn:Hb; [|done..]. injection Hd as <-.
    apply block_connected_processed in Hb. cbn [passed_blocks fmap list_fmap omap list_omap snd].
    rewrite <- last_passed_cons. cbn [fst]. apply (IH _ s2); [exact Hu| |exact Hrun].
    unfold WalletTables.read_processed. rewrite Hb. by rewrite from_hex_to_hex_d.
  - unfold BitcoinDriver.header_connected, expect_action in Hd.
    destruct (Store.add_header n s) as [[[]| |] s2] eqn:Hb; [|done..]. injection Hd as <-.
    apply (IH _ s2); [exact Hu| |exact Hrun].
    apply add_header_same in Hb. unfold WalletTables.read_processed. rewrite Hb. exact Hp.
Qed.
End Processed.

(** ** The trunk grows by the headers that are passed on *)

Section Headers.
Context `{Bitcoin, HeaderChain, !Peers, !Timeouts BitcoinReply}.
Variable peer_services : PeerId -> option Z.
Implicit Types (s : BlockDownload) (chain news : list BlockHeader).

(** A header database that only takes headers that extend its trunk. *)
Definition fork_free : Prop := forall hd db a db',
  chain_add_header hd db = (a, db') ->
  match a with
  | Stored stored us _ =>
      us = None /\ forall chain, trunk_of (view db) chain ->
        stored = cached chain (length chain) hd /\ trunk_of (view db') (chain ++ [hd])
  | _ => view db' = view db
  end.

Lemma fork_free_no_reorgs : fork_free -> no_reorgs.
Proof. intros Hff hd db stored us fs db' Ha. by apply Hff in Ha as [? _]. Qed.

(** The headers [news] on top of a chain of [n] headers, with their heights, and
    the blocks they stand for. *)
Definition at_heights (n : nat) news : list (Z * BlockHeader) := imap (λ k h, (Z.of_nat (n + k), h)) news.
Definition blocks_of (l : list (Z * BlockHeader)) : list (digest * Z) := (λ '(k, h), (header_hash h, k)) <$> l.

Lemma at_heights_cons n h news : at_heights n (h :: news) = (Z.of_nat n, h) :: at_heights (S n) news.
Proof.
  unfold at_heights. cbn [imap]. rewrite Nat.add_0_r. f_equal. apply imap_ext. intros k x _.
  cbn. by rewrite Nat.add_succ_r.
Qed.

Lemma at_heights_app n l l' : at_heights n (l ++ l') = at_heights n l ++ at_heights (n + length l) l'.
Proof.
  revert n. induction l as [|x l IH]; intros n; cbn [app length]; [by rewrite Nat.add_0_r|].
  rewrite !at_heights_cons, IH. cbn. by rewrite Nat.add_succ_r.
Qed.

Lemma blocks_from_heights chain i : blocks_from chain i = drop i (blocks_of (at_heights 0 chain)).
Proof.
  unfold blocks_from, blocks_of, enumerate, at_heights. rewrite <- fmap_drop. cbn [Nat.add].
  rewrite !fmap_drop. f_equal. rewrite !fmap_imap. by apply imap_ext.
Qed.

Lemma length_heights n news : length (at_heights n news) = length news.
Proof. unfold at_heights. apply length_imap. Qed.

(** The blocks from some height on, when the chain grows. *)
Lemma blocks_from_app chain news i :
  (i <= length chain)%nat ->
  blocks_from (chain ++ news) i = blocks_from chain i ++ blocks_of (at_heights (length chain) news).
Proof.
  intros Hi. rewrite !blocks_from_heights, at_heights_app. unfold blocks_of.
  rewrite fmap_app, drop_app_le; [done|]. by rewrite length_fmap, length_heights.
Qed.

(** Those later than the birth. *)
Definition born_after (born : Z) (l : list (Z * BlockHeader)) : list (Z * BlockHeader) :=
  filter (λ x, born < time x.2) l.

(** A state whose headers extend [chain] by [news], of which those later than the
    birth were passed on. *)
Record follows (born : Z) chain news s : Prop := {
  follows_trunk : trunk_of (view (chaindb s)) (chain ++ news);
  follows_birth : birth s = born;
  follows_passed : passed_headers (downstream s) = blocks_of (born_after born (at_heights (length chain) news));
  follows_unwound : unwound (downstream s) = []
}.

(** What the other handlers keep. *)
Definition same_headers s s' : Prop :=
  chaindb s' = chaindb s /\ birth s' = birth s /\
  passed_headers (downstream s') = passed_headers (downstream s) /\
  unwound (downstream s') = unwound (downstream s).

#[local] Instance same_headers_preorder : PreOrder same_headers.
Proof.
  split; [by intros s|]. intros s1 s2 s3 (H12 & H12' & H12'' & Hu) (H23 & H23' & H23'' & Hu').
  unfold same_headers. by rewrite H23, H23', H23'', Hu', H12, H12', H12'', Hu.
Qed.

Lemma same_headers_follows born chain news s s' :
  same_headers s s' -> follows born chain news s -> follows born chain news s'.
Proof. intros (Hc & Hb & Hp & Hu) [? ? ? ?]. split; by rewrite ?Hc, ?Hb, ?Hp, ?Hu. Qed.

Lemma get_headers_same pid : evolves same_headers (BlockDownloadOps.get_headers pid).
Proof.
  unfold BlockDownloadOps.get_headers, BlockDownloadOps.expect_replies, BlockDownloadOps.send.
  evolve; by apply evolves_modify.
Qed.

Lemma ask_blocks_same pid : evolves same_headers (BlockDownloadOps.ask_blocks pid).
Proof.
  unfold BlockDownloadOps.ask_blocks, BlockDownloadOps.expect_replies, BlockDownloadOps.send.
  evolve; by apply evolves_modify.
Qed.

Lemma on_inv_same v pid : evolves same_headers (BlockDownloadOps.on_inv v pid).
Proof. unfold BlockDownloadOps.on_inv. evolve_by ltac:(apply get_headers_same). Qed.

Lemma on_block_same b pid : evolves same_headers (BlockDownloadOps.on_block b pid).
Proof.
  unfold BlockDownloadOps.on_block, BlockDownloadOps.received, BlockDownloadOps.call.
  evolve; apply evolves_modify; try done. intros s. unfold same_headers, passed_headers, unwound. cbn.
  by rewrite !omap_app, !app_nil_r.
Qed.

(** What one pass over a queue of headers does. *)
Definition pass_grows chain (f f' : BlockDownloadOps.found) (q : list BlockHeader) s s' : Prop :=
  q = [] /\ BlockDownloadOps.disconnected f' = BlockDownloadOps.disconnected f /\
  downstream s' = downstream s /\ birth s' = birth s /\
  exists news, trunk_of (view (chaindb s')) (chain ++ news) /\
    BlockDownloadOps.connected f' = BlockDownloadOps.connected f ++ at_heights (length chain) news.

Lemma pass_skip chain f f' q s s1 s' :
  downstream s1 = downstream s -> birth s1 = birth s ->
  pass_grows chain f f' q s1 s' -> pass_grows chain f f' q s s'.
Proof.
  intros Hd Hb (-> & Hdis & Hds & Hbs & Hnews). split_and!; [done|done|congruence..|exact Hnews].
Qed.

Lemma add_headers_grow queue pid f s f' q s' chain :
  fork_free -> trunk_of (view (chaindb s)) chain ->
  BlockDownloadOps.add_headers queue pid f s = (Ok (f', q), s') -> pass_grows chain f f' q s s'.
Proof.
  intros Hff. revert f s chain. induction queue as [|hd queue IH]; intros f s chain Ht Hrun.
  { injection Hrun as <- <- <-. split_and!; try done. exists []. rewrite !app_nil_r.
    by split. }
  cbn [BlockDownloadOps.add_headers] in Hrun.
  apply action_bind_inv in Hrun as (added & s1 & Hadd & Hrun).
  destruct (chain_add_header hd (chaindb s)) as [a db'] eqn:Ha. injection Hadd as -> <-.
  pose proof (Hff _ _ _ _ Ha) as Hstep. destruct added as [stored us fs| | |].
  - destruct Hstep as [-> Hstep]. destruct (Hstep chain Ht) as [-> Ht']. clear Hstep.
    apply action_bind_inv in Hrun as (moved & s2 & Hl & Hrun). injection Hl as _ <-.
    apply (IH _ _ (chain ++ [hd])) in Hrun as (-> & Hdis & Hds & Hbs & news & Ht'' & Hc); [|exact Ht'].
    split_and!; [done|exact Hdis|exact Hds|exact Hbs|]. exists (hd :: news). split.
    + by rewrite <- (assoc_L (++)) in Ht''.
    + rewrite Hc, at_heights_cons, length_app, Nat.add_1_r. cbn. by rewrite <- (assoc_L (++)).
  - eapply pass_skip; [..|eapply IH; [|exact Hrun]]; cbn; by rewrite ?Hstep.
  - apply action_bind_inv in Hrun as (x & s2 & [= _ <-] & Hrun).
    eapply pass_skip; [..|eapply IH; [|exact Hrun]]; cbn; by rewrite ?Hstep.
  - eapply pass_skip; [..|eapply IH; [|exact Hrun]]; cbn; by rewrite ?Hstep.
Qed.

(** Passing on the headers later than the birth. *)
Lemma connect_all l s s' :
  for_each_do l BlockDownloadOps.connect s = (Ok (), s') ->
  chaindb s' = chaindb s /\ birth s' = birth s /\
  passed_headers (downstream s') = passed_headers (downstream s) ++ blocks_of (born_after (birth s) l) /\
  unwound (downstream s') = unwound (downstream s).
Proof.
  revert s. induction l as [|[k h] l IH]; intros s Hrun.
  { injection Hrun as <-. cbn. by rewrite app_nil_r. }
  cbn [for_each_do] in Hrun. apply action_bind_inv in Hrun as ([] & s1 & Hc & Hrun).
  unfold BlockDownloadOps.connect, gets, mbind, action_bind in Hc.
  unfold born_after. rewrite filter_cons. cbn [snd]. case_decide as Hb.
  - rewrite (proj2 (Z.ltb_lt _ _)) in Hc by done. injection Hc as <-.
    apply IH in Hrun as (Hdb & Hb' & Hp & Hu). split_and!; [exact Hdb|exact Hb'|..].
    + rewrite Hp. unfold passed_headers. cbn. rewrite omap_app. cbn. by rewrite <- (assoc_L (++)).
    + rewrite Hu. unfold unwound. cbn. rewrite omap_app. cbn. by rewrite app_nil_r.
  - rewrite (proj2 (Z.ltb_ge _ _)) in Hc by lia. injection Hc as <-. by apply IH.
Qed.

Lemma headers_loop_grow fuel queue pid f s f' s' born chain news :
  fork_free -> follows born chain news s ->
  BlockDownloadOps.headers_loop fuel queue pid f s = (Ok f', s') -> exists news', follows born chain news' s'.
Proof.
  intros Hff Hs Hrun. destruct fuel as [|fuel]; [by injection Hrun as _ <-; exists news|].
  cbn [BlockDownloadOps.headers_loop] in Hrun. destruct queue as [|hd queue]; [by injection Hrun as _ <-; exists news|].
  apply action_bind_inv in Hrun as ([f1 q1] & s1 & Hadd & Hrun).
  apply (add_headers_grow _ _ _ _ _ _ _ (chain ++ news) Hff) in Hadd
    as (-> & Hdis & Hds & Hbs & more & Ht & Hc); [|apply Hs].
  cbn in Hdis, Hc. rewrite Hdis, Hc in Hrun.
  apply action_bind_inv in Hrun as ([] & s2 & [= <-] & Hrun).
  apply action_bind_inv in Hrun as ([] & s3 & Hcon & Hrun).
  assert (s' = s3) as -> by (destruct fuel; by injection Hrun).
  apply connect_all in Hcon as (Hdb & Hb & Hp & Hu). rewrite Hbs, (follows_birth _ _ _ _ Hs) in Hp, Hb.
  exists (news ++ more). split.
  - by rewrite Hdb, (assoc_L (++)).
  - exact Hb.
  - rewrite Hp, Hds, (follows_passed _ _ _ _ Hs), at_heights_app, length_app.
    unfold blocks_of, born_after. by rewrite filter_app, fmap_app.
  - rewrite Hu, Hds. apply Hs.
Qed.

Lemma on_headers_grow headers pid s s' born chain news :
  fork_free -> follows born chain news s ->
  BlockDownloadOps.on_headers headers pid s = (Ok (), s') -> exists news', follows born chain news' s'.
Proof.
  intros Hff Hs Hrun. unfold BlockDownloadOps.on_headers in Hrun.
  apply action_bind_inv in Hrun as ([] & s0 & Hrec & Hrun).
  assert (follows born chain news s0) as Hs0.
  { eapply same_headers_follows; [|exact Hs]. revert Hrec. by apply evolves_modify. }
  case_decide; [injection Hrun as <-; by exists news|].
  apply action_bind_inv in Hrun as (tip & s1 & [= <- <-] & Hrun).
  destruct (header_tip _) as [tip|]; [|injection Hrun as <-; by exists news].
  apply action_bind_inv in Hrun as (f & s1 & Hl & Hrun).
  apply (headers_loop_grow _ _ _ _ _ _ _ born chain news Hff) in Hl as [news' Hs1]; [|done].
  exists news'. eapply same_headers_follows; [|exact Hs1]. revert Hrun. apply (evolves_bind same_headers).
  - evolve_by ltac:(apply get_headers_same).
  - intros _. evolve_by ltac:(by apply evolves_modify).
Qed.

Lemma handle_grow msg s s' born chain news :
  fork_free -> follows born chain news s ->
  BlockDownloadOps.handle peer_services msg s = (Ok (), s') -> exists news', follows born chain news' s'.
Proof.
  intros Hff Hs Hrun.
  assert (evolves same_headers (BlockDownloadOps.handle peer_services msg) -> exists news', follows born chain news' s')
    as Hsame by (intros He; exists news; by eapply same_headers_follows; [eapply He|]).
  destruct msg as [m|pid m|pid addr|pid banned]; cbn [BlockDownloadOps.handle] in *.
  - apply Hsame. evolve.
  - apply action_bind_inv in Hrun as ([] & s1 & Hm & Hrun).
    assert (exists news', follows born chain news' s1) as [news' Hs1].
    { destruct m as [headers|inv|block| | | | |]; try (by injection Hm as <-; exists news).
      - destruct (BlockDownloadOps.is_serving_blocks peer_services pid); [|by injection Hm as <-; exists news].
        by eapply on_headers_grow; [|exact Hs|exact Hm].
      - exists news. eapply same_headers_follows; [|exact Hs]. revert Hm.
        destruct (BlockDownloadOps.is_serving_blocks peer_services pid); [apply on_inv_same|evolve].
      - exists news. eapply same_headers_follows; [|exact Hs]. revert Hm. apply on_block_same. }
    exists news'. eapply same_headers_follows; [|exact Hs1]. revert Hrun. apply (evolves_bind same_headers).
    + apply evolves_modify. intros s0. by destruct (block_download_peer s0).
    + intros _. evolve_by ltac:(apply ask_blocks_same).
  - apply Hsame. evolve_by ltac:(apply get_headers_same).
    apply evolves_modify. intros s0. by destruct (block_download_peer s0).
  - apply Hsame. apply evolves_modify. intros s0. by case_decide.
Qed.

Lemma run_grow msgs s s' born chain news :
  fork_free -> follows born chain news s ->
  BlockDownloadOps.run peer_services msgs s = (Ok (), s') -> exists news', follows born chain news' s'.
Proof.
  intros Hff. revert s news. induction msgs as [|msg msgs IH]; intros s news Hs Hrun.
  { injection Hrun as <-. by exists news. }
  unfold BlockDownloadOps.run in Hrun. cbn [for_each_do] in Hrun.
  apply action_bind_inv in Hrun as ([] & s1 & Hm & Hrun).
  destruct (handle_grow msg s s1 born chain news) as [news1 Hs1]; [done..|].
  by eapply IH; [exact Hs1|exact Hrun].
Qed.
End Headers.

(** ** The blocks wanted at a restart *)

Section Resume.
Context `{SipHasher, Snap, BitcoinLaws, !Cbor Ad, SQLite, !WalletCrate, !AccountStorage}.
Context `{HeaderChain, !Peers, !Timeouts BitcoinReply}.
Implicit Types (chain news : list BlockHeader) (p : option digest) (st : ContentStore).

Definition on_chain chain p : Prop :=
  p = None \/ exists k hk, chain !! k = Some hk /\ p = Some (header_hash hk).

(** A last processed block on the trunk, or none: nothing is to be unwound. *)
Lemma catch_up_on_trunk fuel db t born st p chain :
  trunk_of (view db) chain -> (0 < fuel)%nat -> WalletTables.read_processed (Store.db st) = Ok p ->
  on_chain chain p -> P2PBitcoin.catch_up fuel db t born st = (BlockDownloadOps.new fuel db t p born, st).
Proof.
  intros Ht Hf Hp Hon. unfold P2PBitcoin.catch_up.
  rewrite (action_bind_ok _ _ st p st) by (unfold ask; by rewrite Hp).
  rewrite (action_bind_ok _ _ st (Some []) st); [done|].
  destruct Hon as [->|(k & hk & Hk & ->)]; [done|]. unfold lift, P2PBitcoin.disconnected_while_down.
  rewrite (trunk_get _ _ Ht k hk Hk). destruct fuel as [|fuel]; [lia|]. cbn [P2PBitcoin.walk_back].
  by destruct (trunk_pos _ _ Ht k hk Hk) as [pos ->].
Qed.

(** The block at height [i] is the next one to process: what lies above is later
    than the birth, the block below was processed or is older than the wallet. *)
Record resume_point chain p (born : Z) (i : nat) : Prop := {
  resume_len : (i <= length chain)%nat;
  resume_later : forall k hk, (i <= k)%nat -> chain !! k = Some hk -> born < time hk;
  resume_processed : p = None \/ exists k hk, (k < i)%nat /\ chain !! k = Some hk /\ p = Some (header_hash hk);
  resume_below : forall j, i = S j ->
    exists hj, chain !! j = Some hj /\ (p = Some (header_hash hj) \/ time hj < born)
}.

Lemma resume_on_chain chain p born i : resume_point chain p born i -> on_chain chain p.
Proof. intros [_ _ [->|(k & hk & _ & Hk & ->)] _]; [by left|right; by exists k, hk]. Qed.

(** The times of a chain pass the birth once, at height [j]: no block below is later
    than it, the one next below is earlier, and all from there on are later. *)
Record passes_birth chain (born : Z) (j : nat) : Prop := {
  passes_len : (j <= length chain)%nat;
  passes_young : forall k hk, (j <= k)%nat -> chain !! k = Some hk -> born < time hk;
  passes_old : forall k hk, (k < j)%nat -> chain !! k = Some hk -> time hk <= born;
  passes_edge : forall k, j = S k -> exists hk, chain !! k = Some hk /\ time hk < born
}.

(** With more headers, what is next to process is the same, or the first young one. *)
Lemma resume_grow chain news p born i j :
  resume_point chain p born i -> passes_birth (chain ++ news) born j ->
  resume_point (chain ++ news) p born (max i j).
Proof.
  intros [Hi Hlater Hp Hbelow] [Hj Hyoung Hold Hedge]. split.
  - rewrite length_app in *. lia.
  - intros k hk Hk. apply Hyoung. lia.
  - destruct Hp as [->|(k & hk & Hk & Hkk & ->)]; [by left|right]. exists k, hk.
    split_and!; [lia|by apply lookup_app_l_Some|done].
  - intros m Hm. destruct (decide (j <= i)%nat) as [Hji|Hij].
    + destruct (Hbelow m) as (hj & Hjj & Hor); [lia|]. exists hj. split; [by apply lookup_app_l_Some|done].
    + destruct (Hedge m) as (hk & Hk & Hlt); [lia|]. exists hk. auto.
Qed.

Lemma filter_drop {A} (P : A -> Prop) `{!forall x, Decision (P x)} (l : list A) d :
  (forall k x, l !! k = Some x -> P x <-> (d <= k)%nat) -> filter P l = drop d l.
Proof.
  revert d. induction l as [|x l IH]; intros d Hl; [by rewrite drop_nil|].
  rewrite filter_cons. pose proof (Hl 0%nat x eq_refl) as Hx. destruct d as [|d].
  - rewrite decide_True by (apply Hx; lia). rewrite drop_0. f_equal. rewrite <- (drop_0 l) at 2. apply IH.
    intros k y Hy. rewrite (Hl (S k) y Hy). lia.
  - rewrite decide_False by (rewrite Hx; lia). cbn [drop]. apply IH.
    intros k y Hy. rewrite (Hl (S k) y Hy). lia.
Qed.

(** What is wanted of a chain and of what is added to it, is wanted of the whole. *)
Lemma blocks_from_grow chain news p born i j :
  resume_point chain p born i -> passes_birth (chain ++ news) born j ->
  blocks_from chain i ++ blocks_of (born_after born (at_heights (length chain) news)) =
  blocks_from (chain ++ news) (max i j).
Proof.
  intros [Hi Hlater _ _] [Hj Hyoung Hold _].
  assert (born_after born (at_heights (length chain) news) =
    drop (j - length chain) (at_heights (length chain) news)) as ->.
  { apply filter_drop. intros k x. unfold at_heights. rewrite list_lookup_imap.
    destruct (news !! k) as [h|] eqn:Hk; [|done]. cbn [fmap option_fmap option_map]. intros [= <-]. cbn [snd].
    assert ((chain ++ news) !! (length chain + k)%nat = Some h) as Hkk.
    { rewrite lookup_app_r by lia. by rewrite Nat.add_comm, Nat.add_sub. }
    destruct (decide (j <= length chain + k)%nat) as [Hle|Hlt].
    - split; [lia|]. intros _. exact (Hyoung _ _ Hle Hkk).
    - pose proof (Hold (length chain + k)%nat h ltac:(lia) Hkk). lia. }
  rewrite !blocks_from_heights, at_heights_app. unfold blocks_of. rewrite fmap_app, fmap_drop, Nat.add_0_l.
  rewrite drop_app, length_fmap, length_heights. destruct (decide (j <= i)%nat) as [Hji|Hij].
  - rewrite Nat.max_l by done. do 2 f_equal. lia.
  - assert (i = length chain) as ->.
    { destruct (decide (i = length chain)) as [|Hne]; [done|].
      destruct (lookup_lt_is_Some_2 chain i ltac:(lia)) as [h Hh].
      pose proof (Hlater i h ltac:(lia) Hh). assert ((chain ++ news) !! i = Some h) as Hh' by by apply lookup_app_l_Some.
      pose proof (Hold i h ltac:(lia) Hh'). lia. }
    rewrite Nat.max_r by lia. f_equal. rewrite !drop_ge; [done|..]; rewrite length_fmap, length_heights; lia.
Qed.

Lemma resume_at chain born j hj :
  chain !! j = Some hj -> (forall k hk, (j < k)%nat -> chain !! k = Some hk -> born < time hk) ->
  resume_point chain (Some (header_hash hj)) born (S j).
Proof.
  intros Hj Hlater. split.
  - by apply lookup_lt_Some in Hj.
  - intros k hk Hk. by apply Hlater.
  - right. exists j, hj. split_and!; [lia|done|done].
  - intros j' [= <-]. exists hj. auto.
Qed.

(** The walk from the tip stops exactly there. *)
Lemma resume_wanted cdb chain p born i fuel :
  trunk_of cdb chain -> chain <> [] -> resume_point chain p born i -> (length chain + 1 < fuel)%nat ->
  BlockDownloadOps.wanted_at_start fuel cdb p born = Ok (Some (blocks_from chain i)).
Proof.
  intros Ht Hne [Hi Hlater Hp Hbelow] Hf.
  destruct (last chain) as [tip|] eqn:Htip; [|by apply last_None in Htip].
  pose proof (eq_trans (eq_sym (last_lookup chain)) Htip) as Hlt.
  assert (0 < length chain)%nat as Hlen by (destruct chain; [done|simpl; lia]).
  destruct (Z.lt_ge_cases born (time tip)) as [Hb|Hb].
  - destruct (wanted_at_start_run cdb chain tip p born fuel Ht Htip Hb Hf) as [Habove Hall].
    destruct i as [|j].
    + apply Hall; [destruct Hp as [?|(k & hk & ? & _)]; [done|lia]|].
      intros k hk Hk. apply Z.lt_le_incl. by apply (Hlater k); [lia|].
    + destruct (Hbelow j eq_refl) as (hj & Hj & Hor). apply (Habove j hj Hj).
      * destruct Hor as [?|Hold]; [by left|right]. split; [|done].
        destruct (decide (j = pred (length chain))) as [->|]; [|lia]. rewrite Hlt in Hj. injection Hj as ->. lia.
      * intros k hk Hk Hkk. split; [|apply Z.lt_le_incl; by apply (Hlater k); [lia|]].
        destruct Hp as [->|(k' & hk' & Hk' & Hkk' & ->)]; [done|]. intros [= Heq].
        pose proof (linked_hash_inj _ _ _ _ _ Ht Hkk' Hkk Heq). lia.
  - assert (i = length chain) as ->.
    { destruct (decide (i = length chain)); [done|]. specialize (Hlater (pred (length chain)) tip ltac:(lia) Hlt). lia. }
    unfold BlockDownloadOps.wanted_at_start. rewrite (trunk_tip _ _ Ht), Htip.
    cbn [fmap option_fmap option_map stored_header]. by rewrite (proj2 (Z.ltb_ge _ _) Hb), blocks_from_end.
Qed.

Lemma blocks_from_lookup chain i k h n :
  blocks_from chain i !! k = Some (h, n) -> exists hd, chain !! (i + k)%nat = Some hd /\ h = header_hash hd.
Proof.
  rewrite blocks_from_heights, lookup_drop. unfold blocks_of, at_heights. rewrite list_lookup_fmap, list_lookup_imap.
  destruct (chain !! (i + k)%nat) as [hd|]; [|done]. cbn. intros [= <- _]. by exists hd.
Qed.

(** After some blocks were passed on, the next one is the next one to process. *)
Lemma resume_passed chain p born i passed rest :
  resume_point chain p born i -> passed ++ rest = blocks_from chain i ->
  resume_point chain (last_passed p passed) born (i + length passed) /\
  rest = blocks_from chain (i + length passed).
Proof.
  intros Hr Heq. split.
  - unfold last_passed. destruct (last passed) as [[h n]|] eqn:Hl.
    + rewrite last_lookup in Hl. assert (0 < length passed)%nat by (destruct passed; [done|simpl; lia]).
      assert (blocks_from chain i !! pred (length passed) = Some (h, n)) as Hb.
      { rewrite <- Heq. by apply lookup_app_l_Some. }
      apply blocks_from_lookup in Hb as (hd & Hhd & ->).
      replace (i + length passed)%nat with (S (i + pred (length passed)))%nat by lia.
      apply resume_at; [done|]. intros k hk Hk. apply (resume_later _ _ _ _ Hr). lia.
    + apply last_None in Hl. subst. cbn. by rewrite Nat.add_0_r.
  - rewrite blocks_from_heights, <- drop_drop, <- blocks_from_heights, <- Heq. by rewrite drop_app_length.
Qed.

(** C9: Without forks, a node that is stopped after any run - the first
    synchronisation included - and started again wants exactly the blocks that
    it had asked for or wanted, and nothing that the store has taken, if the
    times of the trunk it has then pass the wallet's birth once: the blocks that
    were passed to the store before the restart and those wanted after it are,
    in this order, the blocks of the trunk from the first one to process on -
    or from the first one younger than the wallet -, each once. (Where the times
    of the headers fall behind the birth again, the walk back at the restart stops
    early.) *)
Theorem restart_loses_nothing peer_services chain p born i fuel db t msgs calls s0 s st st' :
  fork_free -> trunk_of (view db) chain -> chain <> [] -> resume_point chain p born i ->
  (length chain + 1 < fuel)%nat -> WalletTables.read_processed (Store.db st) = Ok p ->
  P2PBitcoin.catch_up fuel db t born st = (Ok (Some s0), st) ->
  BlockDownloadOps.run peer_services msgs s0 = (Ok (), s) ->
  calls.*2 = downstream s ->
  for_each_do calls (λ '(trunk, d), BitcoinDriver.drive trunk d) st = (Ok (), st') ->
  exists news, trunk_of (view (chaindb s)) (chain ++ news) /\
    forall j fuel' t', passes_birth (chain ++ news) born j -> (length (chain ++ news) + 1 < fuel')%nat ->
    exists s1, P2PBitcoin.catch_up fuel' (chaindb s) t' born st' = (Ok (Some s1), st') /\
      blocks_asked s1 = [] /\ blocks_wanted s1 = blocks_asked s ++ blocks_wanted s /\
      passed_blocks (downstream s) ++ blocks_wanted s1 = blocks_from (chain ++ news) (max i j).
Proof.
  intros Hff Ht Hne Hr Hf Hp Hstart Hrun Hcalls Hdrive.
  rewrite (catch_up_on_trunk fuel db t born st p chain) in Hstart
    by (done || lia || by eapply resume_on_chain). injection Hstart as Hnew.
  unfold BlockDownloadOps.new in Hnew. rewrite (resume_wanted _ chain p born i) in Hnew by done. injection Hnew as <-.
  set (s0 := mkBlockDownload _ _ _ db t [] [] (blocks_from chain i) [] None born) in *.
  destruct (run_grow peer_services msgs s0 s born chain []) as [news [Ht' _ Hpassed Hunwound]]; [done..| |done|].
  { split; [by rewrite app_nil_r|done..]. }
  assert (extends s0 s) as (l & Hl & Hpipe).
  { revert Hrun. apply (evolves_for_each extends). intros msg _. by apply handle_extends, fork_free_no_reorgs. }
  cbn in Hl. rewrite Hpassed in Hl. subst l. unfold pipeline in Hpipe. cbn [downstream blocks_asked blocks_wanted s0] in Hpipe.
  change (passed_blocks [] ++ [] ++ blocks_from chain i) with (blocks_from chain i) in Hpipe.
  apply (drive_processed calls p) in Hdrive; [|by rewrite Hcalls|done]. rewrite Hcalls in Hdrive.
  exists news. split; [done|]. intros j fuel' t' Hj Hf'. rewrite (blocks_from_grow _ _ p _ _ j Hr Hj) in Hpipe.
  pose proof (resume_grow chain news p born i j Hr Hj) as Hr2. clear Hr. rename Hr2 into Hr. pose proof (resume_passed _ _ _ _ _ _ Hr Hpipe) as [Hr' Hrest].
  rewrite (catch_up_on_trunk fuel' (chaindb s) t' born st' _ (chain ++ news) Ht' ltac:(lia) Hdrive)
    by by eapply resume_on_chain.
  unfold BlockDownloadOps.new. rewrite (resume_wanted _ (chain ++ news) _ born _ fuel' Ht') by (done || by destruct chain).
  cbn. eexists. split; [reflexivity|]. cbn. rewrite <- Hrest. by split_and!.
Qed.
End Resume.
