(* ===== verification/SendTx.v ===== *)
(** * The relay of transactions (src/sendtx.rs)

    The listener that serves and announces transactions on the bitcoin network:
    those of other nodes from a cache, the node's own from its database.  The
    cache is the crate lru_cache's, a parameter with its documented behaviour as
    laws. *)

From S2P Require Import Prelude Machine Keys Strings Text Bitcoin Content Effects Db Wallet DbWallet.
From S2P Require Import Trunk Messages BlockDownload.
#[local] Open Scope Z_scope.

(** ** lru_cache *)

Class LruCaches (K V : Type) : Type := {
  LruCache : Type;
  lru_new : Z -> LruCache;
  contains_key : K -> LruCache -> bool;
  get_mut : K -> LruCache -> option V * LruCache;
  lru_insert : K -> V -> LruCache -> option V * LruCache
}.
#[global] Arguments LruCache K V {_}.

(** A new cache is empty; a look-up marks an entry as used and changes no value;
    an insertion answers with the value that was there, stores the new one, and
    keeps nothing that was not there. *)
Class LruLaws {K V : Type} `{!LruCaches K V} : Prop := {
  lru_new_empty n k : contains_key k (lru_new n) = false;
  contains_get k c : contains_key k c = bool_decide (is_Some (get_mut k c).1);
  get_get k k' c : (get_mut k' (get_mut k c).2).1 = (get_mut k' c).1;
  insert_old k v c : (lru_insert k v c).1 = (get_mut k c).1;
  insert_new k v c : (get_mut k (lru_insert k v c).2).1 = Some v;
  insert_other k v k' v' c :
    (get_mut k' (lru_insert k v c).2).1 = Some v' -> k' = k \/ (get_mut k' c).1 = Some v'
}.
#[global] Arguments LruLaws K V {_}.

Record SendTx `{Peers, !LruCaches digest Transaction} : Type := mkSendTx {
  sx_sent : list Sent;
  sx_db : DB;
  cache : LruCache digest Transaction
}.

Definition CACHE_SIZE : Z := 1000.

Module SendTxOps.
Section Ops.
Context `{SipHasher, Snap, Bitcoin, !Cbor Ad, SQLite, !WalletCrate, !AccountStorage}.
Context `{!Peers, !LruCaches digest Transaction}.

Definition set_sent (x : list Sent) (s : SendTx) : SendTx := mkSendTx _ _ x (sx_db s) (cache s).
Definition set_cache (x : LruCache digest Transaction) (s : SendTx) : SendTx :=
  mkSendTx _ _ (sx_sent s) (sx_db s) x.
Definition send (m : Sent) : action SendTx Error unit := modify (λ s, set_sent (sx_sent s ++ [m]) s).

(** The map of the node's own transactions that [new] collects is not used. *)
Definition new (db : DB) : res Error SendTx :=
  _ ← expect (WalletTables.read_unconfirmed db);
  Ok (mkSendTx _ _ [] db (lru_new CACHE_SIZE)).

Definition transactions (inv : list Inventory) : list digest :=
  inv_hash <$> filter (λ i, inv_type i = Inv_Transaction) inv.

Definition announce (txid : digest) : action SendTx Error unit :=
  send (SendRandomNetwork (NM_Inv [mkInventory Inv_Transaction txid])).

(** The [filter_map] that serves from the cache and keeps what is not in it. *)
Fixpoint serve_cached (pid : PeerId) (txs : list digest) : action SendTx Error (list digest) :=
  match txs with
  | [] => mret []
  | h :: txs =>
      cached ← (λ s, let '(cached, c) := get_mut h (cache s) in (Ok cached, set_cache c s));
      match cached with
      | Some cached => _ ← send (SendNetwork pid (NM_Tx cached)); serve_cached pid txs
      | None => rest ← serve_cached pid txs; mret (h :: rest)
      end
  end.

Definition serve_own (pid : PeerId) (txs : list digest) : action SendTx Error unit :=
  unconfirmed ← ask (λ s, expect (WalletTables.read_unconfirmed (sx_db s)));
  for_each_do (filter (λ '(t, _), txid t ∈ txs) unconfirmed)
              (λ '(t, _), send (SendNetwork pid (NM_Tx t))).

Definition on_get_data (pid : PeerId) (inv : list Inventory) : action SendTx Error unit :=
  let txs := transactions inv in
  if decide (txs = []) then mret ()
  else
    txs ← serve_cached pid txs;
    if decide (txs = []) then mret () else serve_own pid txs.

Definition on_inv (pid : PeerId) (inv : list Inventory) : action SendTx Error unit :=
  have_not ← gets (λ s, filter (λ i, inv_type i = Inv_Transaction /\
                                     contains_key (inv_hash i) (cache s) = false) inv);
  if decide (have_not = []) then mret () else send (SendNetwork pid (NM_GetData have_not)).

Definition on_tx (tx : Transaction) : action SendTx Error unit :=
  old ← (λ s, let '(old, c) := lru_insert (txid tx) tx (cache s) in (Ok old, set_cache c s));
  match old with
  | None => announce (txid tx)
  | Some _ => mret ()
  end.

Definition on_message (msg : PeerMessage NetworkMessage) : action SendTx Error unit :=
  match msg with
  | Incoming pid (NM_GetData inv) => on_get_data pid inv
  | Incoming pid (NM_Inv inv) => on_inv pid inv
  | Incoming _ (NM_Tx tx) => on_tx tx
  | Outgoing (NM_Tx transaction) => announce (txid transaction)
  | _ => mret ()
  end.

Definition announce_own : action SendTx Error unit :=
  unconfirmed ← ask (λ s, expect (WalletTables.read_unconfirmed (sx_db s)));
  for_each_do unconfirmed (λ '(transaction, _),
    known ← gets (λ s, contains_key (txid transaction) (cache s));
    if known : bool then mret () else announce (txid transaction)).

(** One turn of the loop of [run]: the message, then once a minute the node's
    own transactions; times are in nanoseconds, [now] and [now'] are read one
    after the other. *)
Definition turn (last_announcement now now' : Z) (msg : PeerMessage NetworkMessage) : action SendTx Error Z :=
  _ ← on_message msg;
  elapsed ← lift (if now <? last_announcement then Panicked UnwrapOnErr
                  else Ok ((now - last_announcement) / 1000000000));
  if 60 <? elapsed then _ ← announce_own; mret now' else mret last_announcement.

(** The turns of a run, each with the times it reads. *)
Fixpoint run (last_announcement : Z) (turns : list (Z * Z * PeerMessage NetworkMessage)) :
    action SendTx Error Z :=
  match turns with
  | [] => mret last_announcement
  | (now, now', msg) :: turns =>
      last_announcement ← turn last_announcement now now' msg;
      run last_announcement turns
  end.
End Ops.
End SendTxOps.
