(* ===== verification/SendTxSpec.v ===== *)
(** * Theorems on the relay of transactions

    The cache holds transactions under their own ids; a request is answered with
    exactly what was asked for and is known; a transaction is announced when it is
    seen for the first time; a withdrawal is served to the peer that asks for it. *)

From S2P Require Import Prelude Machine IbltTable Keys Strings Text Bitcoin Content Effects Db DbContent.
From S2P Require Import Wallet DbWallet Trunk Store Messages BlockDownload SendTx.
#[local] Open Scope Z_scope.

Section Relay.
Context `{SipHasher, Snap, !SnapLaws, BitcoinLaws, !Cbor Ad, SQLiteLaws, !WalletCrate, !AccountStorage}.
Context `{!Peers, !LruCaches digest Transaction, !LruLaws digest Transaction}.
Implicit Types (s : SendTx) (c : LruCache digest Transaction).

(** What the cache answers for an id. *)
Definition cached c (h : digest) : option Transaction := (get_mut h c).1.

(** Transactions lie under their own ids. *)
Definition cache_typed s : Prop := forall h t, cached (cache s) h = Some t -> txid t = h.

Lemma contains_cached c h : contains_key h c = false <-> cached c h = None.
Proof.
  rewrite contains_get, bool_decide_eq_false, <- eq_None_not_Some. done.
Qed.

(** The caches before and after answer alike, and the database stays. *)
Definition same_cache s s' : Prop :=
  sx_db s' = sx_db s /\ forall h, cached (cache s') h = cached (cache s) h.

(** ** Well-formedness *)

(** What any message does: the cache stays typed, the database stays. *)
Definition relay_step s s' : Prop := (cache_typed s -> cache_typed s') /\ sx_db s' = sx_db s.

#[local] Instance relay_step_preorder : PreOrder relay_step.
Proof.
  split; [by intros s|]. intros s1 s2 s3 [H12 Hd12] [H23 Hd23]. split; [auto|congruence].
Qed.

Lemma send_step m : evolves relay_step (SendTxOps.send m).
Proof. apply evolves_modify. by intros s. Qed.

Lemma get_mut_step h : evolves relay_step
  (λ s, let '(o, c) := get_mut h (cache s) in (Ok (E:=Error) o, SendTxOps.set_cache c s)).
Proof.
  intros s o s'. destruct (get_mut h (cache s)) as [o' c] eqn:Hg. intros [= -> <-]. split; [|done].
  intros Ht h' t. cbn [cache SendTxOps.set_cache]. unfold cached.
  replace c with (get_mut h (cache s)).2 by (by rewrite Hg). rewrite get_get. apply Ht.
Qed.

Lemma insert_step tx : evolves relay_step
  (λ s, let '(o, c) := lru_insert (txid tx) tx (cache s) in (Ok (E:=Error) o, SendTxOps.set_cache c s)).
Proof.
  intros s o s'. destruct (lru_insert (txid tx) tx (cache s)) as [o' c] eqn:Hi. intros [= -> <-].
  split; [|done]. intros Ht h t. cbn [cache SendTxOps.set_cache]. unfold cached.
  replace c with (lru_insert (txid tx) tx (cache s)).2 by (by rewrite Hi). intros Hc.
  destruct (insert_other _ _ _ _ _ Hc) as [->|Ho]; [|by apply Ht].
  rewrite insert_new in Hc. by injection Hc as <-.
Qed.

Lemma serve_cached_step pid txs : evolves relay_step (SendTxOps.serve_cached pid txs).
Proof.
  induction txs as [|h txs IH]; cbn [SendTxOps.serve_cached]; [apply evolves_ret, _|].
  apply evolves_bind; [apply _|apply get_mut_step|]. intros o.
  evolve_by ltac:(first [apply IH | apply send_step]).
Qed.

Ltac relay := evolve_by ltac:(first [apply send_step | apply serve_cached_step | apply insert_step
  | apply evolves_for_each; [apply _|intros [] _] ]).

Lemma on_message_step msg : evolves relay_step (SendTxOps.on_message msg).
Proof.
  unfold SendTxOps.on_message, SendTxOps.on_get_data, SendTxOps.serve_own, SendTxOps.on_inv,
    SendTxOps.on_tx, SendTxOps.announce. cbv zeta. relay.
Qed.

Lemma turn_step last now now' msg : evolves relay_step (SendTxOps.turn last now now' msg).
Proof.
  unfold SendTxOps.turn, SendTxOps.announce_own, SendTxOps.announce.
  apply evolves_bind; [apply _|apply on_message_step|intros _]. relay.
Qed.

(** C37: Whatever the messages of a run and the times at which they arrive, the
    cache of relayed transactions holds every transaction under its own id, and
    the database is only read. *)
Theorem relay_cache_typed d s0 last turns last' s :
  SendTxOps.new d = Ok s0 -> SendTxOps.run last turns s0 = (Ok last', s) ->
  (forall h t, (get_mut h (cache s)).1 = Some t -> txid t = h) /\ sx_db s = d.
Proof.
  intros Hnew Hrun. unfold SendTxOps.new in Hnew.
  destruct (WalletTables.read_unconfirmed d); [|done..]. injection Hnew as <-.
  assert (evolves relay_step (SendTxOps.run last turns)) as Hev.
  { clear Hrun. revert last. induction turns as [|[[now now'] msg] turns IH]; intros last;
      cbn [SendTxOps.run]; [apply evolves_ret, _|].
    apply evolves_bind; [apply _|apply turn_step|auto]. }
  destruct (Hev _ _ _ Hrun) as [Ht Hd]. split; [|exact Hd]. apply Ht.
  intros h t Hc. exfalso. pose proof (lru_new_empty (V:=Transaction) CACHE_SIZE h) as He.
  apply contains_cached in He. cbn [cache] in Hc. unfold cached in *. congruence.
Qed.

(** ** Requests *)

Lemma cached_get_mut h h' c : cached (get_mut h c).2 h' = cached c h'.
Proof. apply get_get. Qed.

Lemma serve_cached_spec pid txs : forall s,
  exists s', SendTxOps.serve_cached pid txs s =
      (Ok (filter (λ h, cached (cache s) h = None) txs), s') /\ same_cache s s' /\
    sx_sent s' = sx_sent s ++ ((λ t, SendNetwork pid (NM_Tx t)) <$> omap (cached (cache s)) txs).
Proof.
  induction txs as [|h txs IH]; intros s; cbn [SendTxOps.serve_cached].
  { exists s. rewrite app_nil_r. by split_and!. }
  unfold mbind, action_bind. destruct (get_mut h (cache s)) as [o c] eqn:Hg.
  assert (cached (cache s) h = o) as Ho by (unfold cached; by rewrite Hg).
  assert (forall h', cached c h' = cached (cache s) h') as Hc.
  { intros h'. rewrite <- (cached_get_mut h h' (cache s)). by rewrite Hg. }
  cbn [omap list_omap]. destruct o as [t|].
  - unfold SendTxOps.send at 1, modify at 1. cbv beta iota. rewrite filter_cons_False by (by rewrite Ho). rewrite Ho.
    cbn [sx_sent SendTxOps.set_cache].
    destruct (IH (SendTxOps.set_sent (sx_sent s ++ [SendNetwork pid (NM_Tx t)]) (SendTxOps.set_cache c s)))
      as (s' & -> & [Hd Hs'] & Hsent). cbn [cache sx_sent sx_db SendTxOps.set_sent SendTxOps.set_cache] in *.
    exists s'. split_and!.
    + f_equal. f_equal. apply list_filter_iff. intros h'. by rewrite Hc.
    + split; [done|]. intros h'. by rewrite Hs', Hc.
    + rewrite Hsent, <- app_assoc. cbn. do 3 f_equal. apply list_omap_ext, Forall_Forall2_diag.
      by apply Forall_forall.
  - rewrite filter_cons_True by (by rewrite Ho). rewrite Ho.
    destruct (IH (SendTxOps.set_cache c s)) as (s' & Hrun & [Hd Hs'] & Hsent).
    cbn [cache sx_sent sx_db SendTxOps.set_cache] in *. exists s'. split_and!.
    + unfold mbind, action_bind in Hrun. rewrite Hrun. unfold mret, action_ret.
      do 3 f_equal. apply list_filter_iff. intros h'. by rewrite Hc.
    + split; [done|]. intros h'. by rewrite Hs', Hc.
    + rewrite Hsent. do 2 f_equal. apply list_omap_ext, Forall_Forall2_diag. by apply Forall_forall.
Qed.

Lemma for_each_send {A} (f : A -> Sent) (body : A -> action SendTx Error unit) (l : list A) : forall s,
  (forall x, body x = SendTxOps.send (f x)) ->
  exists s', for_each_do l body s = (Ok (), s') /\
    cache s' = cache s /\ sx_db s' = sx_db s /\ sx_sent s' = sx_sent s ++ (f <$> l).
Proof.
  induction l as [|x l IH]; intros s Hb; cbn [for_each_do].
  { exists s. by rewrite app_nil_r. }
  rewrite Hb. unfold mbind, action_bind, SendTxOps.send, modify.
  destruct (IH (SendTxOps.set_sent (sx_sent s ++ [f x]) s) Hb) as (s' & Hrun & Hc & Hd & Hs).
  exists s'. split_and!; [exact Hrun|exact Hc|exact Hd|]. rewrite Hs. cbn. by rewrite <- app_assoc.
Qed.

Lemma transactions_elem h inv :
  h ∈ SendTxOps.transactions inv <-> mkInventory Inv_Transaction h ∈ inv.
Proof.
  unfold SendTxOps.transactions. rewrite list_elem_of_fmap. split.
  - intros ([ty h'] & -> & [Hty Hin]%list_elem_of_filter). simpl in *. by subst.
  - intros Hin. exists (mkInventory Inv_Transaction h). split; [done|]. by apply list_elem_of_filter.
Qed.

Lemma get_data_spec pid inv own s :
  cache_typed s -> WalletTables.read_unconfirmed (sx_db s) = Ok own ->
  exists s' ts, SendTxOps.on_get_data pid inv s = (Ok (), s') /\ same_cache s s' /\
    sx_sent s' = sx_sent s ++ ((λ t, SendNetwork pid (NM_Tx t)) <$> ts) /\
    (forall t, t ∈ ts <->
       mkInventory Inv_Transaction (txid t) ∈ inv /\
       (cached (cache s) (txid t) = Some t \/
        cached (cache s) (txid t) = None /\ exists funding, (t, funding) ∈ own)).
Proof.
  intros Ht Hown. set (txs := SendTxOps.transactions inv).
  assert (forall t, t ∈ omap (cached (cache s)) txs <->
    mkInventory Inv_Transaction (txid t) ∈ inv /\ cached (cache s) (txid t) = Some t) as Hcached.
  { intros t. rewrite list_elem_of_omap. split.
    - intros (h & Hh & Hc). pose proof (Ht h t Hc) as <-. split; [by apply transactions_elem|done].
    - intros [Hin Hc]. exists (txid t). split; [by apply transactions_elem|done]. }
  destruct (serve_cached_spec pid txs s) as (s1 & Hrun1 & [Hd1 Hs1] & Hsent1).
  set (rest := filter (λ h, cached (cache s) h = None) txs) in *.
  assert (forall h, h ∈ rest <-> cached (cache s) h = None /\ mkInventory Inv_Transaction h ∈ inv) as Hrest.
  { intros h. unfold rest. rewrite list_elem_of_filter. by unfold txs; rewrite transactions_elem. }
  unfold SendTxOps.on_get_data. cbv zeta. fold txs. destruct (decide (txs = [])) as [Hn|Hn].
  { exists s, []. rewrite app_nil_r. split_and!; [done..|].
    intros t. split; [by intros ?%not_elem_of_nil|]. intros [Hin _]. exfalso.
    apply transactions_elem in Hin. fold txs in Hin. rewrite Hn in Hin. by apply not_elem_of_nil in Hin. }
  rewrite (action_bind_ok _ _ _ _ _ Hrun1). destruct (decide (rest = [])) as [Hr|Hr].
  { exists s1, (omap (cached (cache s)) txs). split_and!; [done..|].
    intros t. rewrite Hcached. split; [tauto|]. intros [Hin [Hc|[Hc _]]]; [done|].
    exfalso. assert (txid t ∈ rest) as Hx by by apply Hrest.
    rewrite Hr in Hx. by apply not_elem_of_nil in Hx. }
  unfold SendTxOps.serve_own. rewrite (action_bind_ok _ _ s1 own s1) by
    (unfold ask; by rewrite Hd1, Hown).
  destruct (for_each_send (λ u, SendNetwork pid (NM_Tx u.1))
    (λ '(t, _), SendTxOps.send (SendNetwork pid (NM_Tx t)))
    (filter (λ '(t, _), txid t ∈ rest) own) s1 ltac:(by intros [])) as (s' & Hrun & Hc & Hd & Hsent).
  exists s', (omap (cached (cache s)) txs ++ (fst <$> filter (λ '(t, _), txid t ∈ rest) own)).
  split; [exact Hrun|]. split; [split; [congruence|intros h; by rewrite Hc]|]. split.
  - rewrite Hsent, Hsent1, fmap_app, <- app_assoc. do 2 f_equal. by rewrite <- list_fmap_compose.
  - intros t. rewrite elem_of_app, Hcached, list_elem_of_fmap. split.
    + intros [[? ?]|([t' f] & -> & [Hx Hin]%list_elem_of_filter)]; [tauto|].
      apply Hrest in Hx as [Hx Hi]. cbn [fst]. split; [done|]. right. split; [done|]. by exists f.
    + intros [Hin [Hc'|[Hx [f Hf]]]]; [by left|]. right. exists (t, f). split; [done|].
      apply list_elem_of_filter. split; [|done]. by apply Hrest.
Qed.

(** C23: A request for transactions is answered with exactly the transactions
    among those asked for that the cache holds or, where it holds none under the
    id, that the database lists as the node's own unconfirmed ones; the answer
    goes to the peer that asked and changes nothing else. *)
Theorem get_data_answered pid inv own s :
  cache_typed s -> WalletTables.read_unconfirmed (sx_db s) = Ok own ->
  exists s' ts, SendTxOps.on_message (Incoming pid (NM_GetData inv)) s = (Ok (), s') /\
    sx_db s' = sx_db s /\ (forall h, cached (cache s') h = cached (cache s) h) /\
    sx_sent s' = sx_sent s ++ ((λ t, SendNetwork pid (NM_Tx t)) <$> ts) /\
    (forall t, t ∈ ts <->
       mkInventory Inv_Transaction (txid t) ∈ inv /\
       (cached (cache s) (txid t) = Some t \/
        cached (cache s) (txid t) = None /\ exists funding, (t, funding) ∈ own)).
Proof.
  intros Ht Hown. destruct (get_data_spec pid inv own s Ht Hown) as (s' & ts & Hrun & [Hd Hc] & Hrest).
  by exists s', ts.
Qed.

(** ** Announcements *)

Lemma on_tx_run tx s : exists s',
  SendTxOps.on_tx tx s = (Ok (), s') /\ cached (cache s') (txid tx) = Some tx /\ sx_db s' = sx_db s /\
  sx_sent s' = sx_sent s ++ (if contains_key (txid tx) (cache s) then []
                             else [SendRandomNetwork (NM_Inv [mkInventory Inv_Transaction (txid tx)])]).
Proof.
  unfold SendTxOps.on_tx, mbind, action_bind.
  pose proof (insert_old (txid tx) tx (cache s)) as Hold.
  pose proof (insert_new (txid tx) tx (cache s)) as Hnew.
  rewrite contains_get. destruct (lru_insert (txid tx) tx (cache s)) as [o c]. cbn [fst snd] in Hold, Hnew.
  rewrite <- Hold. destruct o as [t|]; cbn; eexists; split_and!; try done; by rewrite app_nil_r.
Qed.

Lemma turn_at_once msg s s' :
  SendTxOps.on_message msg s = (Ok (), s') -> SendTxOps.turn 0 0 0 msg s = (Ok 0, s').
Proof. intros Hm. unfold SendTxOps.turn. by rewrite (action_bind_ok _ _ _ _ _ Hm). Qed.

(** A transaction that arrives is announced to one random peer when the cache
    does not hold it, and not again when it arrives a second time; from then on an
    announcement of it by a peer is not answered with a request, and a request for
    it is answered from the cache. *)
Theorem relayed_once pid tx s :
  contains_key (txid tx) (cache s) = false ->
  exists s', SendTxOps.run 0 [(0, 0, Incoming pid (NM_Tx tx)); (0, 0, Incoming pid (NM_Tx tx));
                              (0, 0, Incoming pid (NM_Inv [mkInventory Inv_Transaction (txid tx)]));
                              (0, 0, Incoming pid (NM_GetData [mkInventory Inv_Transaction (txid tx)]))] s =
      (Ok 0, s') /\
    sx_sent s' = sx_sent s ++ [SendRandomNetwork (NM_Inv [mkInventory Inv_Transaction (txid tx)]);
                               SendNetwork pid (NM_Tx tx)].
Proof.
  intros Hno. destruct (on_tx_run tx s) as (s1 & Hrun1 & Hc1 & _ & Hs1). rewrite Hno in Hs1.
  destruct (on_tx_run tx s1) as (s2 & Hrun2 & Hc2 & _ & Hs2).
  assert (contains_key (txid tx) (cache s1) = true) as Hk1.
  { rewrite contains_get. unfold cached in Hc1. by rewrite Hc1. }
  assert (contains_key (txid tx) (cache s2) = true) as Hk2.
  { rewrite contains_get. unfold cached in Hc2. by rewrite Hc2. }
  rewrite Hk1, app_nil_r in Hs2.
  exists (SendTxOps.set_sent (sx_sent s2 ++ [SendNetwork pid (NM_Tx tx)])
            (SendTxOps.set_cache (get_mut (txid tx) (cache s2)).2 s2)).
  split; [|cbn [sx_sent SendTxOps.set_sent]; by rewrite Hs2, Hs1, <- app_assoc].
  assert (SendTxOps.on_message (Incoming pid (NM_Inv [mkInventory Inv_Transaction (txid tx)])) s2 =
    (Ok (), s2)) as Hrun3.
  { cbn [SendTxOps.on_message]. unfold SendTxOps.on_inv, gets, mbind, action_bind.
    rewrite filter_cons_False, filter_nil; [done|]. cbn. intros [_ ?]. congruence. }
  cbn [SendTxOps.run].
  rewrite (action_bind_ok _ _ _ _ _ (turn_at_once (Incoming pid (NM_Tx tx)) _ _ Hrun1)).
  rewrite (action_bind_ok _ _ _ _ _ (turn_at_once (Incoming pid (NM_Tx tx)) _ _ Hrun2)).
  rewrite (action_bind_ok _ _ _ _ _ (turn_at_once _ _ _ Hrun3)).
  erewrite action_bind_ok; [done|]. apply turn_at_once.
  cbn [SendTxOps.on_message]. unfold SendTxOps.on_get_data. cbv zeta.
  change (SendTxOps.transactions [mkInventory Inv_Transaction (txid tx)]) with [txid tx].
  rewrite decide_False by done. cbn [SendTxOps.serve_cached]. unfold mbind, action_bind. unfold cached in Hc2.
  destruct (get_mut (txid tx) (cache s2)) as [o c]. cbn in Hc2. by subst o.
Qed.

(** ** The node's own transactions *)

(** A withdrawal that succeeds leaves its transaction among the unconfirmed ones
    and hands it to the listener. *)
Lemma withdraw_stored trunk pass (address : Address) f amount flip (st st' : ContentStore) tx fee :
  txouts_wf (Store.db st) ->
  Store.withdraw trunk pass address f amount flip st = (Ok (Some (tx, fee)), st') ->
  exists own, WalletTables.read_unconfirmed (Store.db st') = Ok own /\ (tx, None) ∈ own /\
    Store.sent st' = (λ l, l ++ [tx]) <$> Store.sent st.
Proof.
  intros Hwf Hw. unfold Store.withdraw in Hw.
  apply action_bind_inv in Hw as (spent & s1 & Hon & Hw).
  unfold Store.on_wallet, zoom in Hon.
  destruct (WalletOps.withdraw _ _ _ _ _ _ _ _) as [r w]. injection Hon as -> <-.
  destruct spent as [[tx0 fee0]|]; [|done].
  apply action_bind_inv in Hw as ([] & s2 & Htx & Hw).
  apply action_bind_inv in Hw as ([] & s3 & Hsend & Hw). injection Hw as -> -> ->.
  unfold Store.send_tx, modify in Hsend. injection Hsend as <-. cbn [Store.db Store.sent].
  unfold Store.in_transaction, transaction in Htx.
  match type of Htx with context [(?b ≫= ?k) ?s] => destruct ((b ≫= k) s) as [[[]|e|p] s4] eqn:Hbody; [|done..] end.
  injection Htx as <-. apply action_bind_inv in Hbody as (a & s5 & Ha & Hbody). injection Ha as _ <-.
  apply action_bind_inv in Hbody as (n & s5 & Hacc & Hbody).
  unfold Store.on_db, zoom, WalletTables.store_account in Hacc, Hbody.
  destruct (account_instantiated a); [|done]. cbn in Hacc. injection Hacc as _ <-.
  cbn in Hbody. injection Hbody as <-. cbn [Store.db Store.set_db Store.sent Store.set_wallet].
  set (d := set_account _ (Store.db st)). assert (txouts_wf d) as Hwfd by exact Hwf.
  pose proof (store_txout_wf tx None d Hwfd) as Hwf'. eexists. split; [by apply read_unconfirmed_spec|].
  split; [|done]. apply list_elem_of_fmap. eexists. split.
  2: { apply elem_of_unconfirmed_rows. exists (to_hex_d (txid tx)). split; [apply lookup_insert_eq|done]. }
  unfold unconfirmed_of, WalletTables.unconfirmed_row. cbn [t_tx t_publisher].
  by rewrite tx_deserialize_serialize.
Qed.

(** C29: The transaction of a withdrawal is handed to the relay, which announces it
    to a random peer, and is sent to any peer that then asks for it, whatever else
    the database holds. *)
Theorem withdrawal_is_served trunk pass (address : Address) f amount flip (st st' : ContentStore) tx fee pid s :
  txouts_wf (Store.db st) ->
  Store.withdraw trunk pass address f amount flip st = (Ok (Some (tx, fee)), st') ->
  cache_typed s -> cached (cache s) (txid tx) = None -> sx_db s = Store.db st' ->
  Store.sent st' = (λ l, l ++ [tx]) <$> Store.sent st /\
  exists s', SendTxOps.run 0 [(0, 0, Outgoing (NM_Tx tx));
                              (0, 0, Incoming pid (NM_GetData [mkInventory Inv_Transaction (txid tx)]))] s =
      (Ok 0, s') /\
    exists l, sx_sent s' = sx_sent s ++
      SendRandomNetwork (NM_Inv [mkInventory Inv_Transaction (txid tx)]) :: l /\
      SendNetwork pid (NM_Tx tx) ∈ l.
Proof.
  intros Hwf Hw Ht Hc Hd. destruct (withdraw_stored _ _ _ _ _ _ _ _ _ _ Hwf Hw) as (own & Hown & Hin & Hsent).
  split; [done|].
  set (s1 := SendTxOps.set_sent
    (sx_sent s ++ [SendRandomNetwork (NM_Inv [mkInventory Inv_Transaction (txid tx)])]) s).
  destruct (get_data_spec pid [mkInventory Inv_Transaction (txid tx)] own s1) as (s' & ts & Hrun & _ & Hs' & Hts).
  { exact Ht. }
  { cbn [sx_db s1 SendTxOps.set_sent]. by rewrite Hd. }
  exists s'. split.
  - cbn [SendTxOps.run]. rewrite (action_bind_ok _ _ s 0 s1) by (by apply turn_at_once).
    erewrite action_bind_ok; [done|]. by apply turn_at_once.
  - exists ((λ t, SendNetwork pid (NM_Tx t)) <$> ts). rewrite Hs'. cbn [sx_sent s1 SendTxOps.set_sent].
    rewrite <- app_assoc. split; [done|]. apply list_elem_of_fmap. exists tx. split; [done|].
    apply Hts. split; [apply list_elem_of_here|]. right. split; [done|by exists None].
Qed.
End Relay.
