(* ===== verification/Api.v ===== *)
(** * The JSON-RPC interface (src/api.rs) and the texts of the errors (src/error.rs)

    The arguments of a call, one handler per method, and the table of methods.
    JSON values are those of serde_json; the server, a parameter, hands the
    parameters of a request to the handler of its method. *)

From S2P Require Import Prelude Machine IbltTable Keys Strings Text Bitcoin Content Effects.
From S2P Require Import Db DbContent Wallet DbWallet Trunk Store.
#[local] Open Scope Z_scope.

(** ** serde_json and jsonrpc_core *)

Inductive Number : Type := Integer (z : Z) | Float.

Module Value.
Inductive t : Type :=
  | Null | Bool (b : bool) | Number (n : Number) | String (s : str)
  | Array (l : list t) | Object (l : list (string * t)).
End Value.

Module Params.
Inductive t : Type := None | Array (l : list Value.t) | Map (l : list (string * Value.t)).
End Params.

Inductive RpcError : Type := invalid_params (s : string) | internal_error | method_not_found.

Definition as_u64 (n : Number) : option Z :=
  match n with
  | Integer z => if (0 <=? z) && (z <? 2 ^ 64) then Some z else None
  | Float => None
  end.

(** [serde_json::to_value] of lists of strings, of numbers, and of a content. *)
Definition strings (l : list str) : Value.t := Value.Array (Value.String <$> l).
Definition number (z : Z) : Value.t := Value.Number (Integer z).
Definition numbers (l : list Z) : Value.t := Value.Array (number <$> l).
Definition readable_value (r : Readable) : Value.t :=
  let c := rd_retrieved r in
  Value.Object [("id"%string, Value.String (rc_id c)); ("cat"%string, Value.String (rc_cat c));
    ("abs"%string, Value.String (rc_abs c)); ("text"%string, Value.String (rc_text c));
    ("start"%string, number (rd_start r)); ("end"%string, number (rd_end r));
    ("publisher"%string, Value.String (rc_publisher c)); ("height"%string, number (rc_height c));
    ("term"%string, number (rc_term c)); ("length"%string, number (rc_length c));
    ("weight"%string, number (rc_weight c))].

(** ** The texts of errors *)

Section Display.
(** What std's and rusqlite's errors display. *)
Variable io_text : ErrorKind -> string.
Variable sql_text : SqlError -> string.

(** [impl fmt::Display for Error] *)
Definition error_to_string (e : Error) : string :=
  match e with
  | Unsupported s => "Unsupported: " ++ s
  | WalletError s => s
  | IO k => io_text k
  | DBError e => sql_text e
  | ScriptError s => s
  end.
(** [impl fmt::Debug for Error] *)
Definition error_debug (e : Error) : string := error_to_string e.
End Display.

(** ** Arguments *)

Module Arguments.
(** [for s in &array]: every element is a string. *)
Fixpoint all_strings (array : list Value.t) : res RpcError (list str) :=
  match array with
  | [] => Ok []
  | Value.String s :: array => rest ← all_strings array; Ok (s :: rest)
  | _ :: _ => Err (invalid_params "expecting strings")
  end.

Definition parse_arguments (p : Params.t) (api_key : str) : res RpcError (list str) :=
  match p with
  | Params.Array array =>
      result ← all_strings array;
      match result with
      | [] => Err (invalid_params "missing api key")
      | key :: args => if decide (key <> api_key) then Err (invalid_params "invalid api key") else Ok args
      end
  | _ => Err (invalid_params "expecting an array of strings")
  end.

Definition parse_wallet_arguments (p : Params.t) (api_key : str) : res RpcError (str * list Value.t) :=
  match p with
  | Params.Array (key :: passphrase :: args) =>
      match key with
      | Value.String s =>
          if decide (s <> api_key) then Err (invalid_params "invalid api key")
          else match passphrase with
               | Value.String s => Ok (s, args)
               | _ => Err (invalid_params "invalid passpharse")
               end
      | _ => Err (invalid_params "invalid api key")
      end
  | Params.Array _ => Err (invalid_params "missing api key and wallet passphrase")
  | _ => Err (invalid_params "expecting an array of strings")
  end.

(** The blocks that read one argument. *)
Definition u64_argument (error : string) (v : Value.t) : res RpcError Z :=
  match v with
  | Value.Number n => match as_u64 n with Some n => Ok n | None => Err (invalid_params error) end
  | _ => Err (invalid_params error)
  end.
Definition parsed_argument {A} (error : string) (from_str : str -> option A) (v : Value.t) : res RpcError A :=
  match v with
  | Value.String s => match from_str s with Some a => Ok a | None => Err (invalid_params error) end
  | _ => Err (invalid_params error)
  end.
Definition fee_argument (v : Value.t) : res RpcError Z :=
  sats ← u64_argument "malformed fee" v; Ok (Z.min sats 100).
End Arguments.

(** ** The methods *)

Module Api.
Section Methods.
Context `{SipHasher, Snap, Bitcoin, !Cbor Ad, SQLite, !WalletCrate, !AccountStorage}.
Variable trunk : Trunk.
Variable apikey : str.
(** [Address::from_str], [Address::to_string]. *)
Variable address_from_str : str -> option Address.
Variable address_to_string : Address -> str.
Variable io_text : ErrorKind -> string.
Variable sql_text : SqlError -> string.

(** A call on the store whose error is answered with [answer]. *)
Definition answer_error {A} (answer : Error -> RpcError) (m : action ContentStore Error A) :
    action ContentStore RpcError A := λ s,
  match m s with
  | (Ok a, s') => (Ok a, s')
  | (Err e, s') => (Err (answer e), s')
  | (Panicked p, s') => (Panicked p, s')
  end.

Definition told (e : Error) : RpcError := invalid_params (error_to_string io_text sql_text e).

Definition categories (p : Params.t) : action ContentStore RpcError Value.t :=
  _ ← lift (Arguments.parse_arguments p apikey);
  gets (λ s, strings (Store.list_categories s)).

Definition list_ (p : Params.t) : action ContentStore RpcError Value.t :=
  cats ← lift (Arguments.parse_arguments p apikey);
  gets (λ s, Value.Array (strings <$> Store.list_abstracts cats s)).

Definition read (p : Params.t) : action ContentStore RpcError Value.t :=
  ids ← lift (Arguments.parse_arguments p apikey);
  result ← answer_error (λ _, internal_error) (ask (Store.read_contents trunk ids));
  mret (Value.Array (readable_value <$> result)).

Definition balance (p : Params.t) : action ContentStore RpcError Value.t :=
  _ ← lift (Arguments.parse_arguments p apikey);
  gets (λ s, numbers (Store.balance trunk s)).

Definition deposit (p : Params.t) : action ContentStore RpcError Value.t :=
  _ ← lift (Arguments.parse_arguments p apikey);
  a ← expect_action Store.deposit_address;
  mret (Value.String (address_to_string a)).

Definition prepare (p : Params.t) : action ContentStore RpcError Value.t :=
  args ← lift (Arguments.parse_arguments p apikey);
  match args with
  | cat :: abs :: content :: _ =>
      id ← expect_action (Store.prepare_publication cat abs content);
      mret (Value.String (to_hex id))
  | _ => lift (Err (invalid_params "expect: category, abstract, content"))
  end.

Definition list_prepared (p : Params.t) : action ContentStore RpcError Value.t :=
  _ ← lift (Arguments.parse_arguments p apikey);
  ids ← expect_action (ask Store.list_prepared);
  mret (strings (to_hex <$> ids)).

Definition read_prepared (p : Params.t) : action ContentStore RpcError Value.t :=
  args ← lift (Arguments.parse_arguments p apikey);
  match args with
  | [] => lift (Err (invalid_params "expect: prepared publication id"))
  | arg :: _ =>
      match from_hex arg with
      | None => lift (Err (invalid_params "expect: prepared publication id"))
      | Some id =>
          ad ← gets (Store.read_prepared id);
          match ad with
          | Some ad =>
              text ← lift (expect (TextOps.as_string (Content.content ad)));
              mret (strings [cat ad; abs ad; text])
          | None => lift (Err (invalid_params "unkonwn publication"))
          end
      end
  end.

(** [withdraw] and [fund] hand [None] on for a loop of the wallet that runs out
    of fuel, which does not happen (WalletSpec.v). *)
Definition withdraw (coin_flip : nat -> bool) (p : Params.t) : action ContentStore RpcError (option Value.t) :=
  '(passphrase, args) ← lift (Arguments.parse_wallet_arguments p apikey);
  match args with
  | arg0 :: arg1 :: args =>
      address ← lift (Arguments.parsed_argument "malformed address" address_from_str arg0);
      fee_per_vbyte ← lift (Arguments.fee_argument arg1);
      let amount := match args with Value.Number n :: _ => as_u64 n | _ => None end in
      sent ← answer_error told (Store.withdraw trunk passphrase address fee_per_vbyte amount coin_flip);
      mret ((λ '(t, _), Value.String (to_hex_d (txid t))) <$> sent)
  | _ => lift (Err (invalid_params "missing target address and fee per byte"))
  end.

Definition fund (coin_flip : nat -> bool) (p : Params.t) : action ContentStore RpcError (option Value.t) :=
  '(passphrase, args) ← lift (Arguments.parse_wallet_arguments p apikey);
  match args with
  | arg0 :: arg1 :: arg2 :: arg3 :: _ =>
      id ← lift (Arguments.parsed_argument "malformed publication id" from_hex arg0);
      amount ← lift (Arguments.u64_argument "malformed amount" arg1);
      t ← lift (Arguments.u64_argument "malformed term" arg2);
      let term := u16 t in
      fee_per_vbyte ← lift (Arguments.fee_argument arg3);
      sent ← answer_error told (Store.fund trunk id term amount fee_per_vbyte passphrase coin_flip);
      mret ((λ '(t, _, _), Value.String (to_hex_d (txid t))) <$> sent)
  | _ => lift (Err (invalid_params "missing publication, amount, term and fee per byte"))
  end.

(** The methods that [start_api] registers. *)
Definition call (coin_flip : nat -> bool) (method : string) (p : Params.t) :
    action ContentStore RpcError (option Value.t) :=
  let answer m := v ← m p; mret (Some v) in
  if decide (method = "categories"%string) then answer categories
  else if decide (method = "list"%string) then answer list_
  else if decide (method = "read"%string) then answer read
  else if decide (method = "balance"%string) then answer balance
  else if decide (method = "deposit"%string) then answer deposit
  else if decide (method = "prepare"%string) then answer prepare
  else if decide (method = "list_prepared"%string) then answer list_prepared
  else if decide (method = "read_prepared"%string) then answer read_prepared
  else if decide (method = "withdraw"%string) then withdraw coin_flip p
  else if decide (method = "fund"%string) then fund coin_flip p
  else lift (Err method_not_found).
End Methods.
End Api.
