(* ===== verification/ApiSpec.v ===== *)
(** * Theorems on the JSON-RPC interface *)

From S2P Require Import Prelude Machine IbltTable Keys Strings Text Bitcoin Content Effects.
From S2P Require Import Db DbContent Wallet DbWallet Trunk Store Api.
#[local] Open Scope Z_scope.

(** ** Arguments *)

Definition is_invalid_params (e : RpcError) : Prop := exists m, e = invalid_params m.

Lemma all_strings_cases (l : list Value.t) :
  (exists strs, l = Value.String <$> strs /\ Arguments.all_strings l = Ok strs) \/
  (exists m, Arguments.all_strings l = Err (invalid_params m)).
Proof.
  induction l as [|v l [(strs & -> & IH)|[m IH]]]; cbn [Arguments.all_strings].
  - left. by exists [].
  - destruct v; try (right; by eexists). left. exists (s :: strs). by rewrite IH.
  - destruct v; right; rewrite ?IH; by eexists.
Qed.

Lemma all_strings_strings strs : Arguments.all_strings (Value.String <$> strs) = Ok strs.
Proof. induction strs as [|s strs IH]; [done|]. cbn [fmap list_fmap Arguments.all_strings]. by rewrite IH. Qed.

Lemma as_u64_integer z : is_u64 z -> as_u64 (Integer z) = Some z.
Proof. intros [Hz1 Hz2]. cbn [as_u64]. by rewrite (proj2 (Z.leb_le _ _) Hz1), (proj2 (Z.ltb_lt _ _) Hz2). Qed.

(** The first parameter is the key. *)
Definition has_key (key : str) (p : Params.t) : Prop :=
  exists args, p = Params.Array (Value.String key :: args).

Lemma parse_arguments_no_key p key :
  ~ has_key key p -> exists m, Arguments.parse_arguments p key = Err (invalid_params m).
Proof.
  intros Hno. destruct p as [|l|l]; [by eexists| |by eexists]. cbn [Arguments.parse_arguments].
  destruct (all_strings_cases l) as [(strs & -> & ->)|[m ->]]; [|by eexists]. cbn [mbind res_bind].
  destruct strs as [|k strs]; [by eexists|]. rewrite decide_True; [by eexists|].
  intros ->. apply Hno. by eexists.
Qed.

Lemma parse_wallet_arguments_no_key p key :
  ~ has_key key p -> exists m, Arguments.parse_wallet_arguments p key = Err (invalid_params m).
Proof.
  intros Hno. destruct p as [|l|l]; [by eexists| |by eexists]. cbn [Arguments.parse_wallet_arguments].
  destruct l as [|k [|pass args]]; [by eexists..|]. destruct k; try by eexists.
  rewrite decide_True; [by eexists|]. intros ->. apply Hno. by eexists.
Qed.

(** ** The methods *)

Section Methods.
Context `{SipHasher, Snap, Bitcoin, !Cbor Ad, SQLite, !WalletCrate, !AccountStorage}.
Implicit Types (s : ContentStore).
Variable trunk : Trunk.
Variable apikey : str.
Variable address_from_str : str -> option Address.
Variable address_to_string : Address -> str.
Variable io_text : ErrorKind -> string.
Variable sql_text : SqlError -> string.

#[local] Notation call :=
  (Api.call trunk apikey address_from_str address_to_string io_text sql_text).

(** C31: Every method of the interface answers a request whose first parameter is
    not the configured key with an error, and changes nothing. *)
Theorem api_key_required coin_flip method p s :
  ~ has_key apikey p ->
  exists e, call coin_flip method p s = (Err e, s) /\ (is_invalid_params e \/ e = method_not_found).
Proof.
  intros Hno.
  destruct (parse_arguments_no_key p apikey Hno) as [m Ha].
  destruct (parse_wallet_arguments_no_key p apikey Hno) as [m' Hw].
  unfold Api.call. cbv zeta.
  repeat case_decide;
    unfold Api.categories, Api.list_, Api.read, Api.balance, Api.deposit, Api.prepare, Api.list_prepared,
      Api.read_prepared, Api.withdraw, Api.fund, lift, mbind, action_bind; rewrite ?Ha, ?Hw;
    eexists; (split; [done|]); first [by right | left; by eexists].
Qed.

(** The methods that only read leave the store as it is, whatever their
    parameters. *)
Theorem reading_methods coin_flip method p s :
  method ∈ ["categories"; "list"; "read"; "balance"; "list_prepared"; "read_prepared"]%string ->
  (call coin_flip method p s).2 = s.
Proof.
  intros Hm. unfold Api.call. cbv zeta.
  repeat (apply elem_of_cons in Hm as [->|Hm]); [..|by apply not_elem_of_nil in Hm];
    unfold Api.categories, Api.list_, Api.read, Api.balance, Api.list_prepared, Api.read_prepared;
    cbn [decide]; unfold lift, gets, ask, mbind, action_bind, Api.answer_error, expect_action.
  all: simpl; destruct (Arguments.parse_arguments p apikey) as [args|e|q]; try done.
  - by destruct (Store.read_contents trunk args s).
  - by destruct (Store.list_prepared s).
  - destruct args as [|arg args]; [done|]. destruct (from_hex arg) as [id|]; [|done].
    destruct (Store.read_prepared id s) as [ad|]; [|done].
    by destruct (TextOps.as_string (Content.content ad)).
Qed.

(** A call on the store with its outcome told to the client. *)
Definition answered {A} (txid_of : A -> digest) (m : action ContentStore Error (option A)) :
    action ContentStore RpcError (option Value.t) :=
  sent ← Api.answer_error (λ e, invalid_params (error_to_string io_text sql_text e)) m;
  mret ((λ a, Value.String (to_hex_d (txid_of a))) <$> sent).

(** C30: A request to fund a publication with well-formed arguments is the store's
    [fund] with the fee capped at 100 satoshis and the term cut to 16 bits, so that
    a term that is 65536 larger funds exactly the same; the client is told the id
    of the transaction or the text of the error. *)
Theorem fund_call coin_flip pass id_text id amount t sats rest s :
  from_hex id_text = Some id -> is_u64 amount -> is_u64 t -> is_u64 sats ->
  let request t := Params.Array (Value.String apikey :: Value.String pass :: Value.String id_text ::
    number amount :: number t :: number sats :: rest) in
  call coin_flip "fund" (request t) s =
    answered (λ '(tx, _, _), txid tx)
      (Store.fund trunk id (u16 t) amount (Z.min sats 100) pass coin_flip) s /\
  (is_u64 (t + 65536) -> call coin_flip "fund" (request (t + 65536)) s = call coin_flip "fund" (request t) s).
Proof.
  intros Hid Ha Ht Hs request.
  assert (forall t, is_u64 t -> call coin_flip "fund" (request t) s =
    answered (λ '(tx, _, _), txid tx)
      (Store.fund trunk id (u16 t) amount (Z.min sats 100) pass coin_flip) s) as Hcall.
  { intros t' Ht'. unfold Api.call, request, number. cbn [decide]. simpl. unfold Api.fund, lift, mbind, action_bind.
    cbn [Arguments.parse_wallet_arguments]. rewrite decide_False by (intros Hn; by apply Hn).
    unfold Arguments.fee_argument. cbn [Arguments.parsed_argument Arguments.u64_argument].
    rewrite Hid, !as_u64_integer by done. cbn [mbind res_bind]. unfold answered, mbind, action_bind, Api.told.
    destruct (Api.answer_error _ _ s) as [[[[[tx pk] fee]|]|e|q] s']; done. }
  split; [by apply Hcall|]. intros Ht'. rewrite !Hcall by done.
  replace (u16 (t + 65536)) with (u16 t); [done|]. unfold u16.
  change (2 ^ 16) with 65536. rewrite <- (Z_mod_plus_full t 1). f_equal.
Qed.

(** C24: A request to withdraw whose amount is not an unsigned integer - a text, a
    negative number, a fraction - is taken as one without an amount: it withdraws
    the whole available balance. *)
Theorem malformed_amount_withdraws_all coin_flip pass address_text address sats v rest s :
  address_from_str address_text = Some address -> is_u64 sats ->
  (forall n, v = Value.Number n -> as_u64 n = None) ->
  let request args := Params.Array ([Value.String apikey; Value.String pass; Value.String address_text;
    number sats] ++ args) in
  let all := WalletOps.available_balance (wallet s) (trunk_len trunk) (get_height trunk) in
  call coin_flip "withdraw" (request (v :: rest)) s =
    answered (λ '(tx, _), txid tx)
      (Store.withdraw trunk pass address (Z.min sats 100) (Some all) coin_flip) s /\
  (is_u64 all -> call coin_flip "withdraw" (request (v :: rest)) s =
                 call coin_flip "withdraw" (request [number all]) s).
Proof.
  intros Hadd Hs Hv request all.
  assert (forall args amount,
    match args with Value.Number n :: _ => as_u64 n | _ => None end = amount ->
    call coin_flip "withdraw" (request args) s =
    answered (λ '(tx, _), txid tx)
      (Store.withdraw trunk pass address (Z.min sats 100) amount coin_flip) s) as Hcall.
  { intros args amount Ham. unfold Api.call, request, number. cbn [decide app]. simpl.
    unfold Api.withdraw, lift, mbind, action_bind.
    cbn [Arguments.parse_wallet_arguments]. rewrite decide_False by (intros Hn; by apply Hn).
    unfold Arguments.fee_argument. cbn [Arguments.parsed_argument Arguments.u64_argument].
    rewrite Hadd, as_u64_integer by done. cbn [mbind res_bind]. rewrite Ham. unfold answered, mbind, action_bind, Api.told.
    destruct (Api.answer_error _ _ s) as [[[[tx fee]|]|e|q] s']; done. }
  assert (forall (answer : Error -> RpcError), Api.answer_error answer
    (Store.withdraw trunk pass address (Z.min sats 100) None coin_flip) s =
    Api.answer_error answer (Store.withdraw trunk pass address (Z.min sats 100) (Some all) coin_flip) s) as Hall.
  { intros answer. unfold Api.answer_error, Store.withdraw, mbind, action_bind, Store.on_wallet, zoom.
    unfold WalletOps.withdraw, mbind, action_bind, gets. by destruct (try_wallet _). }
  assert (call coin_flip "withdraw" (request (v :: rest)) s =
    answered (λ '(tx, _), txid tx)
      (Store.withdraw trunk pass address (Z.min sats 100) (Some all) coin_flip) s) as Heq.
  { rewrite (Hcall (v :: rest) None) by (destruct v; try done; by apply Hv).
    unfold answered, mbind, action_bind. by rewrite Hall. }
  split; [exact Heq|]. intros Hu64. rewrite Heq. symmetry. apply Hcall. by apply as_u64_integer.
Qed.
End Methods.
