(* ===== verification/Isolation.v ===== *)
(** * What the rest of the node does to the contents: nothing

    The store is shared: the drivers of both networks, the address pools and the
    clients of the JSON-RPC interface call it between each other's calls.  A
    request, a wallet operation or a learned address never touches the
    contents, their tables or their sketch, so that any interleaving of calls
    moves the contents as the ledger of StoreLedger.v, up to an event that the
    store refuses. *)

From S2P Require Import Prelude Machine IbltTable IbltCells IbltAlgebra IbltRefine IbltSync Sketch.
From S2P Require Import Keys Strings Text Bitcoin Content Effects Db DbContent DbContentSpec Wallet.
From S2P Require Import DbWallet Trunk Store StoreTables StoreSpec StoreLedger Messages BlockDownload.
From S2P Require Import Updater Address Discovery Network Api.
#[local] Open Scope Z_scope.

(** ** The content table among the tables *)

Section Tables.
Context `{SipHasher, Snap, Bitcoin, !Cbor Ad, SQLite, !WalletCrate, !AccountStorage}.
Implicit Types (d : DB) (s : ContentStore).

Definition same_content d d' : Prop := Db.content d' = Db.content d.

#[export] Instance same_content_preorder : PreOrder same_content.
Proof. split; [by intros d|]. intros d1 d2 d3 H12 H23. unfold same_content in *. congruence. Qed.

Lemma keep_table (f : DB -> DB) :
  (forall d, Db.content (f d) = Db.content d) -> always same_content (modify (E:=Error) f).
Proof. intros Hf. by apply always_modify. Qed.

Lemma store_account_keeps a : always same_content (WalletTables.store_account a).
Proof. unfold WalletTables.store_account. keep. by apply keep_table. Qed.

Lemma store_coins_keeps coins : always same_content (WalletTables.store_coins coins).
Proof. unfold WalletTables.store_coins. cbv zeta. keep_by ltac:(by apply keep_table). Qed.

Lemma prepare_publication_keeps a : always same_content (WalletTables.prepare_publication a).
Proof. unfold WalletTables.prepare_publication. cbv zeta. keep. by apply keep_table. Qed.

Lemma read_seed_keeps r0 r1 : always same_content (WalletTables.read_seed r0 r1).
Proof. intros d. unfold WalletTables.read_seed. by destruct (Db.seed d) as [[k0 k1]|]. Qed.

Lemma store_address_keeps r0 r1 now network a connected last_seen banned :
  always same_content (AddressTable.store_address r0 r1 now network a connected last_seen banned).
Proof.
  unfold AddressTable.store_address, AddressTable.put.
  keep_by ltac:(first [apply read_seed_keeps | by apply keep_table]).
Qed.

(** ** Calls on the store *)

(** All that the contents are made of. *)
Definition content_part s := (rows s, iblts s, min_hashes s, st_ksequence s, n_keys s, storage_limit s).
Definition same_contents s s' : Prop := content_part s' = content_part s.

#[export] Instance same_contents_preorder : PreOrder same_contents.
Proof. split; [by intros s|]. intros s1 s2 s3 H12 H23. unfold same_contents in *. congruence. Qed.

Lemma on_db_keeps {A} (op : action DB Error A) :
  always same_content op -> always same_contents (Store.on_db op).
Proof.
  apply always_zoom. intros s d Hd. unfold same_contents, content_part, rows.
  cbn [db iblts min_hashes st_ksequence n_keys storage_limit Store.set_db]. by rewrite Hd.
Qed.

Lemma on_wallet_keeps {A} (op : action Wallet Error A) : always same_contents (Store.on_wallet op).
Proof. by apply (always_zoom _ (λ _ _, True)). Qed.

Lemma in_transaction_keeps {A} (body : action ContentStore Error A) :
  always same_contents body -> always same_contents (Store.in_transaction body).
Proof.
  apply always_transaction. intros s s' Hs. unfold same_contents, content_part, rows in *.
  cbn in *. congruence.
Qed.

Lemma store_keeps (f : ContentStore -> ContentStore) :
  (forall s, content_part (f s) = content_part s) -> always same_contents (modify (E:=Error) f).
Proof. intros Hf. by apply always_modify. Qed.
Lemma deposit_address_keeps : always same_contents Store.deposit_address.
Proof. apply on_wallet_keeps. Qed.

Lemma store_prepare_keeps cat abs content : always same_contents (Store.prepare_publication cat abs content).
Proof. apply in_transaction_keeps, always_expect, on_db_keeps, prepare_publication_keeps. Qed.

(** Storing an account and a transaction, and sending it. *)
Lemma store_payment_keeps (n : Z * Z) (f : DB -> DB) :
  (forall d, Db.content (f d) = Db.content d) ->
  always same_contents (Store.in_transaction (
    account ← (λ s, (unwrap (get_account (master (wallet s)) n), s));
    _ ← Store.on_db (WalletTables.store_account account);
    Store.on_db (modify f))).
Proof.
  intros Hf. apply in_transaction_keeps. apply always_bind; [apply _|by intros s|intros account].
  apply always_bind; [apply _|apply on_db_keeps, store_account_keeps|intros _].
  by apply on_db_keeps, keep_table.
Qed.

Lemma send_tx_keeps tx : always same_contents (Store.send_tx tx).
Proof. by apply store_keeps. Qed.

Lemma fund_keeps trunk id term amount fee pass flip :
  always same_contents (Store.fund trunk id term amount fee pass flip).
Proof.
  unfold Store.fund. keep_by ltac:(first [apply on_wallet_keeps | by apply store_payment_keeps | apply send_tx_keeps]).
Qed.

Lemma withdraw_keeps trunk pass address fee amount flip :
  always same_contents (Store.withdraw trunk pass address fee amount flip).
Proof.
  unfold Store.withdraw. keep_by ltac:(first [apply on_wallet_keeps | by apply store_payment_keeps | apply send_tx_keeps]).
Qed.
End Tables.

(** ** The listeners that learn addresses *)

Section Listeners.
Context `{SipHasher, Snap, Bitcoin, !Cbor Ad, SQLite, !Peers, !Timeouts ExpectedReply}.
Variables r0 r1 : Z.

Definition discovery_keeps (d d' : Discovery) : Prop := same_content (d_db d) (d_db d').
Definition pool_keeps (m m' : AddressPool) : Prop := same_content (pool_db m) (pool_db m').

#[local] Instance discovery_keeps_preorder : PreOrder discovery_keeps.
Proof. split; [by intros d|]. intros d1 d2 d3. apply (transitivity (R:=same_content)). Qed.
#[local] Instance pool_keeps_preorder : PreOrder pool_keeps.
Proof. split; [by intros d|]. intros d1 d2 d3. apply (transitivity (R:=same_content)). Qed.

Lemma discovery_on_db_keeps {A} (op : action DB Error A) :
  always same_content op -> always discovery_keeps (DiscoveryOps.on_db op).
Proof. by apply always_zoom. Qed.

Lemma store_entries_keeps fuel secs it : always same_content (DiscoveryOps.store_entries r0 r1 fuel secs it).
Proof.
  revert it. induction fuel as [|fuel IH]; intros it; cbn [DiscoveryOps.store_entries]; [keep|].
  keep_by ltac:(first [apply IH | apply store_address_keeps]).
Qed.

(** No message that the discovery handles, and no turn without one, touches the
    stored contents. *)
Lemma discovery_isolated fuel now msg : always discovery_keeps (DiscoveryOps.handle r0 r1 fuel now msg).
Proof.
  unfold DiscoveryOps.handle, DiscoveryOps.on_connected, DiscoveryOps.on_disconnected, DiscoveryOps.on_poll,
    DiscoveryOps.poll_reply, DiscoveryOps.poll_address, DiscoveryOps.our_poll, DiscoveryOps.on_address_iblt,
    DiscoveryOps.received, DiscoveryOps.expect_replies, DiscoveryOps.send_network. cbv zeta.
  keep_by ltac:(first
    [ by apply always_modify
    | apply always_transaction; [exact (λ _ _ _, eq_refl)|]
    | apply always_uncommitted; [exact (λ _ _ _, eq_refl)|]
    | apply discovery_on_db_keeps
    | apply store_entries_keeps | apply store_address_keeps ]).
Qed.

Lemma pool_isolated network now needed_services msg :
  always pool_keeps (AddressPoolMaintainer.handle r0 r1 network now needed_services msg).
Proof.
  unfold AddressPoolMaintainer.handle, AddressPoolMaintainer.on_connected, AddressPoolMaintainer.on_disconnected,
    AddressPoolMaintainer.on_addr, AddressPoolMaintainer.store.
  keep_by ltac:(first
    [ by apply always_modify
    | apply always_transaction; [exact (λ _ _ _, eq_refl)|]
    | apply (always_zoom _ same_content); [exact (λ _ _ Hd, Hd)|]
    | apply store_address_keeps ]).
Qed.
End Listeners.

(** ** The clients of the interface *)

Section Clients.
Context `{SipHasher, Snap, Bitcoin, !Cbor Ad, SQLite, !WalletCrate, !AccountStorage}.
Implicit Types (s : ContentStore).
Variable apikey : str.
Variable address_from_str : str -> option Address.
Variable address_to_string : Address -> str.
Variable io_text : ErrorKind -> string.
Variable sql_text : SqlError -> string.

#[local] Notation call trunk :=
  (Api.call trunk apikey address_from_str address_to_string io_text sql_text).

Lemma answered_keeps {A} answer (m : action ContentStore Error A) :
  always same_contents m -> always same_contents (Api.answer_error answer m).
Proof. intros Hm s. specialize (Hm s). unfold Api.answer_error. by destruct (m s) as [[a|e|p] s']. Qed.

Lemma call_keeps trunk coin_flip method p : always same_contents (call trunk coin_flip method p).
Proof.
  unfold Api.call. cbv zeta.
  unfold Api.categories, Api.list_, Api.read, Api.balance, Api.deposit, Api.prepare, Api.list_prepared,
    Api.read_prepared, Api.withdraw, Api.fund. cbv zeta.
  keep_by ltac:(first [apply answered_keeps | apply deposit_address_keeps | apply store_prepare_keeps
    | apply withdraw_keeps | apply fund_keeps]).
Qed.

(** C10: No request of a client, whatever its method, parameters and outcome - an
    error or a panic included -, changes the stored contents, the cached tables,
    the sketch or the count of keys that the node shows its peers. *)
Theorem requests_keep_contents trunk coin_flip method p s :
  let s' := (call trunk coin_flip method p s).2 in
  Db.content (db s') = Db.content (db s) /\ iblts s' = iblts s /\
  Store.get_sketch s' = Store.get_sketch s /\ Store.get_nkeys s' = Store.get_nkeys s.
Proof.
  cbv zeta. pose proof (call_keeps trunk coin_flip method p s) as Hs.
  unfold same_contents, content_part, rows in Hs. unfold Store.get_sketch, Store.get_nkeys.
  split_and!; congruence.
Qed.
End Clients.

(** ** Any interleaving of calls *)

Section Calls.
Context `{SipHasher, Snap, !SnapLaws, BitcoinLaws, !Cbor Ad, SQLiteLaws, !WalletCrate, !AccountStorage}.
Implicit Types (s : ContentStore).
Variable apikey : str.
Variable address_from_str : str -> option Address.
Variable address_to_string : Address -> str.
Variable io_text : ErrorKind -> string.
Variable sql_text : SqlError -> string.

(** The part of [block_connected] that runs in a transaction, answering the
    publications of this node that the block confirms. *)
Definition confirm (block : Block) :
    action ContentStore Error (list (nat * PublicKey * digest * option Ad * Z)) :=
  Store.in_transaction (
    unconfirmed ← Store.query WalletTables.read_unconfirmed;
    newly ← gets (λ s, omap (Store.confirmed_publication block (db s)) unconfirmed);
    processed ← (λ s, let '(b, w) := WalletOps.process block (wallet s) in (Ok b, Store.set_wallet w s));
    coins ← gets (λ s, w_coins (wallet s));
    _ ← (if processed : bool then Store.on_db (WalletTables.store_coins coins) else mret ());
    _ ← Store.on_db (modify (WalletTables.store_processed (header_hash (header block))));
    mret newly).

(** It answers what was unconfirmed of this node's own and is in the block. *)
Lemma confirm_newly block us newly s s' :
  WalletTables.read_unconfirmed (db s) = Ok us -> confirm block s = (Ok newly, s') ->
  newly = omap (Store.confirmed_publication block (db s)) us.
Proof.
  intros Hus Hc. unfold confirm, Store.in_transaction, transaction in Hc.
  match type of Hc with context [(?b ≫= ?k) s] => destruct ((b ≫= k) s) as [[n| |] s2] eqn:Hb; [|done..] end.
  injection Hc as -> _. unfold Store.query in Hb. apply action_bind_inv in Hb as (us' & s3 & Hq & Hb).
  rewrite Hus in Hq. injection Hq as <- <-. apply action_bind_inv in Hb as (nw & s3 & Hg & Hb).
  injection Hg as <- <-. do 4 apply action_bind_inv in Hb as (? & ? & _ & Hb). by injection Hb as <- _.
Qed.

(** The calls on the store: those of the ledger, by the driver and the updater; a
    block whose own publications are then offered; a client's request, whose
    errors go to the client; and an address that one of the networks learned. *)
Inductive Call : Type :=
  | Handle (e : Event)
  | Confirm (block : Block)
  | Request (trunk : Trunk) (coin_flip : nat -> bool) (method : string) (p : Params.t)
  | Learn (r0 r1 now : Z) (network : str) (a : SocketAddr) (connected last_seen banned : Z).

Definition run_call (c : Call) : action ContentStore Error unit :=
  match c with
  | Handle e => run_event e
  | Confirm block => _ ← confirm block; mret ()
  | Request trunk coin_flip method p =>
      _ ← is_err (Api.call trunk apikey address_from_str address_to_string io_text sql_text coin_flip method p);
      mret ()
  | Learn r0 r1 now network a connected last_seen banned =>
      _ ← Store.in_transaction (Store.on_db (expect_action
            (AddressTable.store_address r0 r1 now network a connected last_seen banned)));
      mret ()
  end.
Definition run_calls (cs : list Call) : action ContentStore Error unit := for_each_do cs run_call.

(** What the ledger sees of a call. *)
Definition seen (c : Call) : list Event := match c with Handle e => [e] | _ => [] end.

Lemma confirm_keeps block : always same_contents (confirm block).
Proof.
  apply in_transaction_keeps. apply always_bind; [apply _|by intros s|intros us].
  keep_by ltac:(first [apply on_db_keeps, store_coins_keeps | by apply on_db_keeps, keep_table]).
  intros s. by destruct (WalletOps.process block (wallet s)).
Qed.

Lemma run_call_keeps c : seen c = [] -> always same_contents (run_call c).
Proof.
  destruct c as [e|block|trunk flip method p|r0 r1 now network a connected last_seen banned]; [done|..];
    intros _; cbn [run_call]; (apply always_bind; [apply _| |intros ?; apply always_ret; apply _]).
  - apply confirm_keeps.
  - intros s. pose proof (call_keeps apikey address_from_str address_to_string io_text sql_text
      trunk flip method p s) as Hs.
    unfold is_err. by destruct (Api.call _ _ _ _ _ _ _ _ _ s) as [[a|e|q] s'].
  - apply in_transaction_keeps, on_db_keeps, always_expect, store_address_keeps.
Qed.

Lemma same_contents_ledger X s s' : same_contents s s' -> ledger_inv X s -> ledger_inv X s'.
Proof.
  unfold same_contents, content_part, rows. intros Hs ((Hwf & Hm & (Hk & Hids) & Hor) & Hw & Hl).
  assert (Db.content (db s') = Db.content (db s) /\ iblts s' = iblts s /\ min_hashes s' = min_hashes s /\
    st_ksequence s' = st_ksequence s /\ storage_limit s' = storage_limit s) as (H1' & H2' & H3' & H4' & H5')
    by (split_and!; congruence).
  unfold ledger_inv, recounted, sketch_shape, stored_keys, rows in *.
  rewrite H1', H2', H3', H4', H5'. tauto.
Qed.

(** Where a run of calls stops: at an event that the store refuses - by a panic, but
    for a truncation of more than 2^64 bytes -, or at another call that fails. *)
Definition stops (c : Call) s : Prop :=
  match c with
  | Handle e => refused e s /\ (e = Truncate \/ panics e s)
  | _ => (run_call c s).1 <> Ok ()
  end.

Lemma call_cases X c s :
  ledger_inv X s ->
  stops c s \/ exists s' Y, run_call c s = (Ok (), s') /\
    (forall es Z m, ledger_run (storage_limit s) Z es (rows s') m ->
       ledger_run (storage_limit s) (Z ++ Y) (seen c ++ es) (rows s) m) /\
    ledger_inv (Y ++ X) s' /\ storage_limit s' = storage_limit s.
Proof.
  intros Hok. destruct (seen c) as [|e es] eqn:Hseen.
  - destruct (run_call c s) as [r s'] eqn:Hrun.
    pose proof (run_call_keeps c Hseen s) as Hkeep. rewrite Hrun in Hkeep. cbn in Hkeep.
    assert (r = Ok () \/ r <> Ok ()) as [->|Hr] by (destruct r as [[]|e|q]; auto); [right|left].
    + exists s', []. split; [done|]. split; [|split; [by eapply same_contents_ledger|]];
        unfold same_contents, content_part in Hkeep; [|congruence].
      intros es Z m. rewrite app_nil_r. replace (rows s') with (rows s) by congruence. done.
    + destruct c; [done|..]; cbn [stops]; by rewrite Hrun.
  - destruct c as [e'| | |]; [|done..]. injection Hseen as -> <-.
    destruct (event_cases X e s Hok) as [Hruns|Hstop]; [right|by left].
    destruct (runs_inv X e s Hok Hruns) as (s' & Y & Hrun & Hstep & Hok' & Hlim).
    exists s', Y. split_and!; [done| |done..]. intros es Z m Hes. by econstructor.
Qed.

Lemma calls_refine_run X cs s :
  ledger_inv X s ->
  exists ran rest s' Y, cs = ran ++ rest /\
    run_calls ran s = (Ok (), s') /\
    ledger_run (storage_limit s) Y (ran ≫= seen) (rows s) (rows s') /\
    ledger_inv (Y ++ X) s' /\
    (rest = [] \/ exists c rest', rest = c :: rest' /\ stops c s').
Proof.
  revert X s. induction cs as [|c cs IH]; intros X s Hok.
  { exists [], [], s, []. split; [done|]. split; [done|]. split; [constructor|]. split; [done|by left]. }
  destruct (call_cases X c s Hok) as [Hstop|(s1 & Y1 & Hrun & Hledger & Hok1 & Hlim)].
  - exists [], (c :: cs), s, []. split; [done|]. split; [done|]. split; [constructor|]. split; [done|].
    right. by eexists _, _.
  - destruct (IH (Y1 ++ X) s1 Hok1) as (ran & rest & s' & Y2 & -> & Hruns & Hl & Hinv & Hrest).
    exists (c :: ran), rest, s', (Y2 ++ Y1). split; [done|]. split.
    { unfold run_calls. cbn [for_each_do]. by rewrite (action_bind_ok _ _ _ _ _ Hrun). }
    split; [cbn [mbind list_bind]; apply Hledger; by rewrite <- Hlim|].
    by rewrite <- app_assoc.
Qed.

(** C3: Whatever the node does with its store, in any order - headers, unwinds,
    truncations, tables for peers, contents they offer for the first time or
    again, blocks that confirm its own publications, requests of clients that
    succeed or fail, addresses learned on either network -, its contents go
    through the states of the ledger, and each table with cells that is cached
    at the end is the table of the ledger's keys, with one more count at most
    for each time that a content was accepted that was stored already
    ([recounts]); without such an acceptance it is exactly that table.  The run
    gets to its end unless a call outside the ledger fails or an event is
    refused: an offer that passes all checks but whose ad cannot be stored, or
    whose funder's key cannot be tweaked, or that comes while a table without
    cells is cached; a request for such a table while a content is stored (these
    panic); or a truncation of contents of more than 2^64 bytes. *)
Theorem calls_refine_ledger cs s :
  ledger_ok s ->
  exists ran rest s' recounts, cs = ran ++ rest /\
    run_calls ran s = (Ok (), s') /\
    ledger_run (storage_limit s) recounts (ran ≫= seen) (rows s) (rows s') /\
    tables_hold (table_keys (rows s')) recounts (iblts s') /\
    (recounts = [] -> with_cells (iblts s') ->
     tables_for (Inserted <$> table_keys (rows s')) (iblts s')) /\
    (rest = [] \/ exists c rest', rest = c :: rest' /\ stops c s').
Proof.
  intros Hok. destruct (calls_refine_run [] cs s (ledger_ok_inv s Hok))
    as (ran & rest & s' & Y & Hcs & Hrun & Hl & [(_ & Hm & _) _] & Hrest).
  rewrite app_nil_r in Hm. exists ran, rest, s', Y. split_and!; try done.
  intros -> Hc. apply tables_for_hold. by split.
Qed.

(** Connecting a block is its confirmation and then the offers of the
    publications it confirms. *)
Lemma block_connected_calls trunk block s s' :
  Store.block_connected trunk block s = (Ok (), s') ->
  exists offers, run_calls (Confirm block :: (Handle ∘ Offer trunk <$> offers)) s = (Ok (), s').
Proof.
  change (Store.block_connected trunk block) with (newly ← confirm block;
    for_each_do newly (λ '(tix, funder, id, ad, term),
      match ad with
      | Some ad => _ ← Store.add_content trunk (mkContent _ ad (proved_new block tix) funder term); mret ()
      | None => mret (M:=action ContentStore Error) ()
      end)).
  intros (newly & s1 & Hc & Hrun)%action_bind_inv.
  exists (omap (λ '(tix, funder, id, ad, term), (λ ad, mkContent _ ad (proved_new block tix) funder term) <$> ad) newly).
  unfold run_calls. cbn [for_each_do run_call].
  rewrite (action_bind_ok _ _ s () s1) by by rewrite (action_bind_ok _ _ _ _ _ Hc).
  clear Hc. revert s1 Hrun. induction newly as [|[[[[tix fu] id] [ad|]] t] newly IH]; intros s1 Hrun; [done|..].
  - cbn [for_each_do] in Hrun. apply action_bind_inv in Hrun as ([] & s2 & H1' & Hrun).
    cbn [omap list_omap fmap option_fmap option_map list_fmap for_each_do]. 
    rewrite (action_bind_ok _ _ s1 () s2) by exact H1'. by apply IH.
  - apply IH. exact Hrun.
Qed.
End Calls.
