(* ===== verification/Provenance.v ===== *)
(** * Where the stored contents come from

    What a run of the ledger (StoreLedger.v) says of each content that is stored
    at its end: which offer brought it, what its proof committed to, and that
    nothing since then was to remove or to replace it.  The run of the whole node, with all
    its calls between each other, is that of Isolation.v. *)

From S2P Require Import Prelude Machine IbltTable Sketch Keys Strings Text Bitcoin Content Effects.
From S2P Require Import Db DbContent Wallet DbWallet Trunk Store StoreTables StoreSpec StoreLedger.
From S2P Require Import Messages BlockDownload Updater Address Discovery Network Api Isolation.
#[local] Open Scope Z_scope.

Section Provenance.
Context `{SipHasher, Snap, !SnapLaws, BitcoinLaws, !Cbor Ad, SQLiteLaws, !WalletCrate, !AccountStorage}.
Implicit Types (s : ContentStore) (c : Content) (m : gmap str ContentRow) (r : ContentRow) (e : Event).

(** An event that is no reason to drop the row [r] at [id]: a header before the
    end of its term, the unwind of another block than its own, the offer of
    another content or one that is rejected - an accepted offer of the same
    content replaces the row. *)
Definition spares (id : str) r e : Prop :=
  match e with
  | Header height => height < r_height r + r_term r
  | Unwind header => r_block_id r <> to_hex_d (header_hash header)
  | Offer trunk c => ad_id c = id -> forall height header o, ~ committed trunk c height header o
  | _ => True
  end.

(** [r] is the row of a content that was offered with a proof of a funding
    transaction on the trunk of that time, and was spared since. *)
Definition earned (es : list Event) (id : str) r : Prop :=
  exists before trunk c after height header o text,
    es = before ++ Offer trunk c :: after /\
    committed trunk c height header o /\ TextOps.as_string (Content.content (ad c)) = Ok text /\
    id = ad_id c /\ r = ContentTable.content_row height (header_hash header) c (value o) text /\
    Forall (spares id r) after.

Lemma earned_cons e es id r : earned es id r -> earned (e :: es) id r.
Proof.
  intros (before & trunk & c & after & height & header & o & text & -> & Hrest).
  by exists (e :: before), trunk, c, after, height, header, o, text.
Qed.

Lemma committed_unique trunk c h1 d1 o1 h2 d2 o2 :
  committed trunk c h1 d1 o1 -> committed trunk c h2 d2 o2 -> h1 = h2 /\ d1 = d2 /\ o1 = o2.
Proof.
  intros (Hh & _ & Hd & _ & _ & t & Ht & Ho) (Hh' & _ & Hd' & _ & _ & t' & Ht' & Ho').
  rewrite Ht in Ht'. injection Ht' as <-. split_and!; congruence.
Qed.

(** One step back: the row was there and is spared, or it is the one offered. *)
Lemma step_source limit X e m m' id r :
  ledger_step limit X e m m' -> m' !! id = Some r ->
  (m !! id = Some r /\ spares id r e) \/ earned [e] id r.
Proof.
  intros Hstep Hr. destruct Hstep as [height m|header m|m m' Hh|size m|trunk c height header o text m Hc Ht|trunk c m Hno].
  - by apply map_lookup_filter_Some in Hr as [Hr Hle]; left.
  - by apply map_lookup_filter_Some in Hr as [Hr Hle]; left.
  - left. split; [|done]. by eapply lookup_weaken, Hh.
  - by left.
  - apply lookup_insert_Some in Hr as [[<- <-]|[Hne Hr]]; [right|left].
    + by exists [], trunk, c, [], height, header, o, text.
    + split; [done|]. by intros Heq.
  - left. split; [done|]. intros _. exact Hno.
Qed.

(** One step on: a row that is spared stays, but for a truncation. *)
Lemma step_spares limit X e m m' id r :
  ledger_step limit X e m m' -> e <> Truncate -> spares id r e -> m !! id = Some r -> m' !! id = Some r.
Proof.
  intros Hstep He Hsp Hr. destruct Hstep as [height m|header m|m m' Hh|size m|trunk c height header o text m Hc Ht|trunk c m Hno].
  1-2: by apply map_lookup_filter_Some.
  1-2, 4: done.
  rewrite lookup_insert_ne; [done|]. intros Heq. exact (Hsp Heq _ _ _ Hc).
Qed.

Lemma run_source limit X es m m' id r :
  ledger_run limit X es m m' -> m' !! id = Some r ->
  (m !! id = Some r /\ Forall (spares id r) es) \/ earned es id r.
Proof.
  induction 1 as [m|X Y e es m1 m2 m3 Hstep _ IH]; intros Hr; [by left|].
  destruct (IH Hr) as [[Hm2 Hsp]|He]; [|right; by apply earned_cons].
  destruct (step_source _ _ _ _ _ _ _ Hstep Hm2) as [[Hm1 He]|He]; [left; by split; [|constructor]|right].
  destruct He as (before & trunk & c & after & height & header & o & text & Heq & Hrest & Ht & Hid & Hrow & _).
  assert (before = [] /\ e = Offer trunk c) as [-> ->].
  { destruct before as [|b [|b' before]]; [by injection Heq as -> _|discriminate..]. }
  by exists [], trunk, c, es, height, header, o, text.
Qed.

Lemma run_spares limit X es m m' id r :
  ledger_run limit X es m m' -> Truncate ∉ es -> Forall (spares id r) es -> m !! id = Some r ->
  m' !! id = Some r.
Proof.
  induction 1 as [m|X Y e es m1 m2 m3 Hstep _ IH]; intros Hnt Hsp Hr; [done|].
  apply not_elem_of_cons in Hnt as [Hne Hnt]. apply Forall_cons in Hsp as [He Hsp].
  apply (IH Hnt Hsp). by eapply step_spares.
Qed.

Lemma run_earned limit X es m m' id r :
  ledger_run limit X es m m' -> Truncate ∉ es -> earned es id r -> m' !! id = Some r.
Proof.
  intros Hrun Hnt (before & trunk & c & after & height & header & o & text & -> & Hc & Ht & -> & Hrow & Hsp).
  revert X m Hrun Hnt. induction before as [|e before IH]; intros X m Hrun Hnt.
  - inversion Hrun as [|X1 Y1 e es m1 m2 m3 Hstep Hrest]; subst e es m1 m3.
    apply not_elem_of_cons in Hnt as [_ Hnt]. apply (run_spares _ _ _ _ _ _ _ Hrest Hnt Hsp).
    inversion Hstep as [| | | |trunk' c' height' header' o' text' m1 Hc' Ht'|trunk' c' m1 Hno]; subst;
      [|by destruct (Hno _ _ _ Hc)].
    destruct (committed_unique _ _ _ _ _ _ _ _ Hc Hc') as (<- & <- & <-).
    replace text' with text by congruence. by rewrite lookup_insert_eq.
  - inversion Hrun as [|X1 Y1 e' es m1 m2 m3 Hstep Hrest]; subst.
    apply (IH Y1 m2 Hrest). by apply not_elem_of_cons in Hnt as [_ Hnt].
Qed.

Variable apikey : str.
Variable address_from_str : str -> option Address.
Variable address_to_string : Address -> str.
Variable io_text : ErrorKind -> string.
Variable sql_text : SqlError -> string.
#[local] Notation run_calls := (run_calls apikey address_from_str address_to_string io_text sql_text).
#[local] Notation stops := (stops apikey address_from_str address_to_string io_text sql_text).

(** C4: In whatever order the drivers, the peers and the clients of a node call its
    store, each content that it holds in the end was either there at the start
    or offered with a proof that its funder locked the amount stored with it, for
    its term, on the trunk of that time; and since then neither was the block
    of that proof unwound, nor did the term end, nor was the content accepted
    again, with another proof.  As long as nothing is truncated, all such contents,
    and no others, are stored.  The end is that of the calls, or the first one
    that fails or is refused as in [calls_refine_ledger]: an offer that passes all
    checks but whose ad cannot be stored or whose funder's key cannot be tweaked,
    a table without cells, stored lengths of more than 2^64 bytes. *)
Theorem stored_contents_are_paid cs s :
  ledger_ok s ->
  exists ran rest s', cs = ran ++ rest /\ run_calls ran s = (Ok (), s') /\
    (rest = [] \/ exists call rest', rest = call :: rest' /\ stops call s') /\
    let es := ran ≫= seen in
    (forall id r, rows s' !! id = Some r ->
       (rows s !! id = Some r /\ Forall (spares id r) es) \/ earned es id r) /\
    (Truncate ∉ es -> forall id r,
       (rows s !! id = Some r /\ Forall (spares id r) es) \/ earned es id r -> rows s' !! id = Some r).
Proof.
  intros Hok.
  destruct (calls_refine_run apikey address_from_str address_to_string io_text sql_text [] cs s (ledger_ok_inv s Hok))
    as (ran & rest & s' & Y & Hcs & Hrun & Hl & _ & Hrest).
  exists ran, rest, s'. cbv zeta. split_and!; [done..| |].
  - intros id r. by apply (run_source _ _ _ _ _ _ _ Hl).
  - intros Hnt id r [[Hr Hsp]|He]; [by eapply run_spares|by eapply run_earned].
Qed.
End Provenance.
