(* ===== verification/Main.v ===== *)
(** * The main program (src/defiads/main.rs) and the creation of its wallet
    (src/wallet.rs)

    The command line as clap has parsed it into values, the wallet of the first
    run and of the later ones, the re-scan, and the store and networks that the
    program starts with.  Logging, directories and threads are left out. *)

From S2P Require Import Prelude Machine IbltTable Keys Strings Text Bitcoin Content Effects.
From S2P Require Import Db DbContent Wallet DbWallet Trunk Store Messages BlockDownload.
#[local] Open Scope Z_scope.

Inductive Network : Type := Net_Bitcoin | Net_Testnet | Net_Regtest.
#[export] Instance Network_eq_dec : EqDecision Network.
Proof. solve_decision. Defined.

Inductive AddressType : Type := P2SHWPKH | P2WSH (purpose : Z).

(** What the program uses of bitcoin_wallet to create and open a master account. *)
Class WalletKeys `{WalletCrate} : Type := {
  Mnemonic : Type;
  ExtendedPubKey : Type;
  xpub_network : ExtendedPubKey -> Network;
  mnemonic_new : list Z -> option Mnemonic;
  from_mnemonic : Mnemonic -> Z -> Network -> str -> option MasterAccount;
  master_from_encrypted : list Z -> ExtendedPubKey -> Z -> MasterAccount;
  xpub_from_str : str -> option ExtendedPubKey;
  xpub_to_string : ExtendedPubKey -> str;
  master_public : MasterAccount -> ExtendedPubKey;
  master_encrypted : MasterAccount -> list Z;
  master_birth : MasterAccount -> Z;
  add_account : Account -> MasterAccount -> MasterAccount;
  account_new : Unlocker -> AddressType -> Z -> Z -> Z -> option Account
}.

Definition KEY_PURPOSE : Z := 45485.   (* 0xb1ad *)

(** ** The first wallet *)

Module WalletSetup.
Section Ops.
Context `{WalletKeys}.

Definition from_encrypted (encrypted : list Z) (public_master_key : ExtendedPubKey) (birth : Z) : Wallet :=
  mkWallet _ _ coins_new (master_from_encrypted encrypted public_master_key birth).

(** [line.remove(line.len()-1)]: the last byte, if it is a character. *)
Definition remove_eol (line : str) : res Error str :=
  match last line with
  | Some c => if c <? 128 then Ok (removelast line) else Panicked IndexOutOfBounds
  | None => Panicked IndexOutOfBounds
  end.

(** [Wallet::new] with the two lines it reads, its entropy and the time. *)
Definition new (bitcoin_network : Network) (password answer : str) (entropy : list Z) (now : Z) :
    res Error Wallet :=
  password ← remove_eol password;
  if (8 <=? Z.of_nat (length (utf8 password))) then
    mnemonic ← unwrap (mnemonic_new entropy);
    master ← unwrap (from_mnemonic mnemonic now bitcoin_network password);
    unlocker ← unwrap_wallet (unlock master password);
    receiver ← unwrap (account_new unlocker P2SHWPKH 0 0 KEY_LOOK_AHEAD);
    let master := add_account receiver master in
    change ← unwrap (account_new unlocker P2SHWPKH 0 1 KEY_LOOK_AHEAD);
    let master := add_account change master in
    commitments ← unwrap (account_new unlocker (P2WSH KEY_PURPOSE) 1 0 0);
    let master := add_account commitments master in
    receiver ← unwrap (get_account master (0, 0));
    _ ← unwrap (get_key_address receiver 0);
    answer ← remove_eol answer;
    if decide (answer = [121; 101; 115]) then Ok (mkWallet _ _ coins_new master)
    else Panicked AssertionFailed
  else Panicked AssertionFailed.
End Ops.
End WalletSetup.

(** ** The program *)

Record Config : Type := mkMainConfig {
  apikey : str; encryptedwalletkey : str; keyroot : str; lookahead : Z; cfg_birth : Z
}.

(** The values of the command line. *)
Record Matches : Type := mkMatches {
  bitcoin_network : Network;
  biadnet_connections : Z; bitcoin_connections : Z;
  biadnet_peers : list SocketAddr; bitcoin_peers : list SocketAddr;
  bitcoin_discovery : bool; biadnet_discovery : bool;
  http_rpc : option SocketAddr; biadnet_listen : list SocketAddr;
  storage_limit_gb : Z; rescan_present : bool
}.

(** What the program starts: the content store, the connections and peers of the
    two networks, the addresses it listens on and that of the interface. *)
Record Node `{WalletCrate} : Type := mkNode {
  nd_store : ContentStore;
  nd_config : Config;
  nd_bitcoin : Z * list SocketAddr * bool;
  nd_defiads : Z * list SocketAddr * list SocketAddr * bool * bool;
  nd_http : option SocketAddr
}.

Module Main.
Definition set_port (p : Z) (a : SocketAddr) : SocketAddr :=
  match a with V4 o _ => V4 o p | V6 s _ f i => V6 s p f i end.
Definition port_of (a : SocketAddr) : Z := match a with V4 _ p | V6 _ p _ _ => p end.

(** [if bitcoin_network != Network::Bitcoin { sock.set_port(sock.port() + 100) }] *)
Definition network_port (network : Network) (sock : SocketAddr) : SocketAddr :=
  if decide (network <> Net_Bitcoin) then set_port (u16 (port_of sock + 100)) sock else sock.

(** Without discovery the node connects to the peers it was given, and wants some. *)
Definition connections (discovery : bool) (wanted : Z) (peers : list SocketAddr) : res Error Z :=
  if discovery then Ok wanted
  else if decide (length peers = 0%nat) then Panicked ExplicitPanic
  else Ok (Z.of_nat (length peers)).

Definition storage_limit (n : Z) : Z := u64 (u64 (n * 1000) * 1000).

Section Ops.
Context `{SipHasher, Snap, Bitcoin, !Cbor Ad, SQLite, !WalletCrate, !AccountStorage, !WalletKeys}.

(** A configuration file is there: the wallet is read from the database. *)
Definition open_wallet (network : Network) (config : Config) (d : DB) : res Error Wallet :=
  encrypted ← unwrap_result (hex_decode (encryptedwalletkey config));
  keyroot ← unwrap_result (xpub_from_str (keyroot config));
  let master := master_from_encrypted encrypted keyroot (cfg_birth config) in
  if decide (network = xpub_network (master_public master)) then
    account ← expect (WalletTables.read_account 0 0 (lookahead config) d);
    let master := add_account account master in
    account ← expect (WalletTables.read_account 0 1 (lookahead config) d);
    let master := add_account account master in
    account ← expect (WalletTables.read_account 1 0 0 d);
    let master := add_account account master in
    '(coins, master) ← expect (WalletTables.read_coins d master);
    WalletOps.from_storage coins master
  else Panicked AssertionFailed.

(** There is none: the new wallet is stored and described by the new file;
    [key] is [base64::encode] of the drawn key. *)
Definition create_wallet (key : str) (w : Wallet) : action DB Error (Config * Wallet) :=
  let config := mkMainConfig key (hex_encode (master_encrypted (master w)))
                  (xpub_to_string (master_public (master w))) KEY_LOOK_AHEAD (master_birth (master w)) in
  _ ← transaction id (λ d _, d) (
    _ ← expect_action (WalletTables.store_coins (w_coins w));
    expect_action (WalletTables.store_master (master w)));
  mret (config, w).

(** [for t in chaindb.iter_trunk_rev(None)]: the newest header that is older than
    the wallet. *)
Fixpoint after_birth (birth : Z) (trunk_rev : list CachedHeader) : option digest :=
  match trunk_rev with
  | [] => None
  | t :: trunk_rev =>
      if time (stored_header t) <? birth then Some (header_hash (stored_header t))
      else after_birth birth trunk_rev
  end.

Definition rescan (birth : Z) (trunk_rev : list CachedHeader) (w : Wallet) : action DB Error Wallet :=
  match after_birth birth trunk_rev with
  | Some after => _ ← modify (WalletTables.rescan after); mret (WalletOps.rescan w)
  | None => mret w
  end.

(** From the command line to the node; [config] is the content of the configuration
    file, [new_wallet] and [key] are what the first run draws. *)
Definition main (m : Matches) (config : option Config) (new_wallet : res Error Wallet) (key : str)
    (trunk_rev : list CachedHeader) (d : DB) : res Error Node :=
  bitcoin_connections ← connections (bitcoin_discovery m) (bitcoin_connections m) (bitcoin_peers m);
  biadnet_connections ← connections (biadnet_discovery m) (biadnet_connections m) (biadnet_peers m);
  let http_rpc := network_port (bitcoin_network m) <$> http_rpc m in
  let biadnet_listen := network_port (bitcoin_network m) <$> biadnet_listen m in
  '(config, w, d) ← match config with
                    | Some config => w ← open_wallet (bitcoin_network m) config d; Ok (config, w, d)
                    | None =>
                        w ← new_wallet;
                        match create_wallet key w d with
                        | (Ok (config, w), d) => Ok (config, w, d)
                        | (Err e, _) => Err e
                        | (Panicked p, _) => Panicked p
                        end
                    end;
  '(w, d) ← (if rescan_present m then
               match rescan (cfg_birth config) trunk_rev w d with
               | (Ok w, d) => Ok (w, d)
               | (Err e, _) => Err e
               | (Panicked p, _) => Panicked p
               end
             else Ok (w, d));
  store ← expect (Store.new d (storage_limit (storage_limit_gb m)) w);
  Ok (mkNode _ _ store config
        (bitcoin_connections, bitcoin_peers m, bitcoin_discovery m)
        (biadnet_connections, biadnet_peers m, biadnet_listen, biadnet_discovery m,
         bool_decide (bitcoin_network m <> Net_Bitcoin))
        http_rpc).
End Ops.
End Main.
