(* ===== verification/CommandLine.v ===== *)
(** * The command line (src/defiads/main.rs)

    The options that the program declares to clap and what it reads of the values
    that clap finds.  clap itself, and the parsers of addresses and networks, are
    parameters; the parser of numbers is std's. *)

From stdpp Require Import pretty.
From S2P Require Import Prelude Machine IbltTable Keys Strings Text Bitcoin Content Effects.
From S2P Require Import Db DbContent Wallet DbWallet Trunk Store Messages BlockDownload Network Main.
#[local] Open Scope Z_scope.

(** ** clap *)

(** An option: its name, which is its long form too, and what was declared of it
    but for the texts of the help. *)
Record Arg : Type := mkArg {
  arg_name : string;
  takes_value : bool;
  multiple : bool;
  use_delimiter : bool;
  min_values : option Z;
  possible_values : list string;
  case_insensitive : bool;
  default_value : option string
}.

(** The text of a literal. *)
Definition text_of (s : string) : str := (λ c, Z.of_nat (Ascii.nat_of_ascii c)) <$> String.list_ascii_of_string s.

Definition to_ascii_lowercase (c : Z) : Z := if (65 <=? c) && (c <=? 90) then c + 32 else c.
Definition eq_ignore_ascii_case (a b : str) : bool :=
  bool_decide (to_ascii_lowercase <$> a = to_ascii_lowercase <$> b).

(** [ArgMatches], and what the program calls on it; no matches when clap ends the
    program with a message. *)
Class Clap : Type := {
  ArgMatches : Type;
  get_matches : list Arg -> list str -> option ArgMatches;
  value_of : ArgMatches -> string -> option str;
  values_of : ArgMatches -> string -> option (list str);
  is_present : ArgMatches -> string -> bool
}.

(** What clap documents: a default stands in for an option that is not given, and
    a value is among the possible ones, if there are any. *)
Class ClapLaws `{Clap} : Prop := {
  clap_defaulted : forall args line m a d,
    get_matches args line = Some m -> a ∈ args -> default_value a = Some d -> is_Some (value_of m (arg_name a));
  clap_possible : forall args line m a v,
    get_matches args line = Some m -> a ∈ args -> possible_values a <> [] -> value_of m (arg_name a) = Some v ->
    exists p, p ∈ possible_values a /\
      (if case_insensitive a then eq_ignore_ascii_case v (text_of p) = true else v = text_of p);
  clap_no_options : forall args m a,
    get_matches args [] = Some m -> a ∈ args ->
    value_of m (arg_name a) = text_of <$> default_value a /\
    values_of m (arg_name a) = (λ d, [text_of d]) <$> default_value a /\
    (default_value a = None -> is_present m (arg_name a) = false)
}.

(** [SocketAddr::from_str], [Network::from_str]. *)
Class Parsers : Type := {
  socket_addr_from_str : str -> option SocketAddr;
  network_from_str : str -> option Network
}.

(** The names that the network's parser takes, and the addresses that the program
    has for defaults. *)
Class ParserLaws `{Parsers} : Prop := {
  network_names : network_from_str (text_of "bitcoin") = Some Net_Bitcoin /\
    network_from_str (text_of "testnet") = Some Net_Testnet /\
    network_from_str (text_of "regtest") = Some Net_Regtest;
  parse_ipv4_socket : socket_addr_from_str (text_of "127.0.0.1:21767") = Some (V4 [# 127; 0; 0; 1] 21767) /\
    socket_addr_from_str (text_of "0.0.0.0:21766") = Some (V4 [# 0; 0; 0; 0] 21766)
}.

(** ** The options *)

Definition HTTP_RPC : string := "127.0.0.1".
Definition BIADNET_LISTEN : string := "0.0.0.0".

Module CommandLine.
Definition biadnet_listen : string := BIADNET_LISTEN +:+ ":" +:+ pretty BIADNET_PORT.
Definition http_rpc : string := HTTP_RPC +:+ ":" +:+ pretty (BIADNET_PORT + 1).

(** An option with one value and a default. *)
Definition valued (name default : string) : Arg := mkArg name true false false None [] false (Some default).

Definition arguments : list Arg :=
  [mkArg "log-level" true false false None ["OFF"; "ERROR"; "WARN"; "INFO"; "DEBUG"; "TRACE"] true (Some "DEBUG");
   mkArg "bitcoin-network" true false false None ["bitcoin"; "testnet"; "regtest"] false (Some "testnet");
   valued "bitcoin-connections" "5";
   valued "defiads-connections" "5";
   mkArg "bitcoin-peers" true true true (Some 1) [] false None;
   mkArg "defiads-peers" true true true (Some 1) [] false None;
   mkArg "http-rpc" true false false (Some 1) [] false (Some http_rpc);
   mkArg "listen" true true true (Some 1) [] false (Some biadnet_listen);
   valued "storage-limit" "1";
   mkArg "bitcoin-discovery" true false false None ["ON"; "OFF"] true (Some "ON");
   mkArg "defiads-discovery" true false false None ["ON"; "OFF"] true (Some "ON");
   mkArg "rescan" false false false None [] false None]%string.

(** ** The values *)

(** [str::parse] to an unsigned integer below [bound]: an optional plus, then
    digits; each step is checked. *)
Fixpoint digits (bound acc : Z) (s : str) : option Z :=
  match s with
  | [] => Some acc
  | c :: s =>
      if (48 <=? c) && (c <=? 57) then
        let acc := acc * 10 + (c - 48) in
        if acc <? bound then digits bound acc s else None
      else None
  end.
Definition parse_unsigned (bound : Z) (s : str) : option Z :=
  match s with
  | [] => None
  | [43] => None
  | 43 :: s => digits bound 0 s
  | s => digits bound 0 s
  end.

Section Ops.
Context `{Clap, Parsers}.

(** [.map(|s| SocketAddr::from_str(s).expect("invalid socket address")).collect()] *)
Fixpoint socket_addresses (l : list str) : res Error (list SocketAddr) :=
  match l with
  | [] => Ok []
  | s :: l => a ← unwrap_result (socket_addr_from_str s); rest ← socket_addresses l; Ok (a :: rest)
  end.

Definition connections (m : ArgMatches) (name : string) : res Error Z :=
  s ← unwrap (value_of m name); unwrap_result (parse_unsigned (2 ^ 64) s).

Definition discovery (m : ArgMatches) (name : string) : res Error bool :=
  s ← unwrap (value_of m name); Ok (eq_ignore_ascii_case s (text_of "ON")).

(** What [main] reads of the matches, in its order: without discovery there have to
    be peers when the addresses and the storage limit are read. The ports of the
    test networks and the connections wanted without discovery are in [Main.main]. *)
Definition read (m : ArgMatches) : res Error Matches :=
  network ← unwrap (value_of m "bitcoin-network");
  bitcoin_network ← unwrap_result (network_from_str network);
  biadnet_connections ← connections m "defiads-connections";
  bitcoin_connections ← connections m "bitcoin-connections";
  biadnet_peers ← socket_addresses (default [] (values_of m "defiads-peers"));
  bitcoin_peers ← socket_addresses (default [] (values_of m "bitcoin-peers"));
  bitcoin_discovery ← discovery m "bitcoin-discovery";
  _ ← Main.connections bitcoin_discovery bitcoin_connections bitcoin_peers;
  biadnet_discovery ← discovery m "defiads-discovery";
  _ ← Main.connections biadnet_discovery biadnet_connections biadnet_peers;
  http_rpc ← (match value_of m "http-rpc" with
              | Some s => a ← unwrap_result (socket_addr_from_str s); Ok (Some a)
              | None => Ok None
              end);
  biadnet_listen ← socket_addresses (default [] (values_of m "listen"));
  limit ← unwrap (value_of m "storage-limit");
  storage_limit ← unwrap_result (parse_unsigned (2 ^ 64) limit);
  Ok (mkMatches bitcoin_network biadnet_connections bitcoin_connections biadnet_peers bitcoin_peers
        bitcoin_discovery biadnet_discovery http_rpc biadnet_listen storage_limit (is_present m "rescan")).
End Ops.
End CommandLine.

(** ** Theorems *)

Lemma digits_range bound acc s n : 0 <= acc < bound -> CommandLine.digits bound acc s = Some n -> 0 <= n < bound.
Proof.
  revert acc. induction s as [|c s IH]; intros acc Hacc; cbn [CommandLine.digits]; [by intros [= <-]|].
  destruct (Z.leb_spec 48 c), (Z.leb_spec c 57); cbn [andb]; try done.
  destruct (Z.ltb_spec (acc * 10 + (c - 48)) bound); [|done]. apply IH. lia.
Qed.

Lemma parse_unsigned_range bound s n :
  0 < bound -> CommandLine.parse_unsigned bound s = Some n -> 0 <= n < bound.
Proof.
  intros Hb. unfold CommandLine.parse_unsigned. repeat case_match; try done; apply digits_range; lia.
Qed.

Section Start.
Context `{SipHasher, Snap, Bitcoin, !Cbor Ad, SQLite, !WalletCrate, !AccountStorage, !WalletKeys}.
Context `{ClapLaws, ParserLaws}.

(** What the program reads when no option is given. *)
Definition default_matches : Matches :=
  mkMatches Net_Testnet 5 5 [] [] true true (Some (V4 [# 127; 0; 0; 1] 21767)) [V4 [# 0; 0; 0; 0] 21766] 1 false.

Lemma read_defaults m : get_matches CommandLine.arguments [] = Some m -> CommandLine.read m = Ok default_matches.
Proof.
  intros Hm.
  assert (forall i a, CommandLine.arguments !! i = Some a ->
    value_of m (arg_name a) = text_of <$> default_value a /\
    values_of m (arg_name a) = (λ d, [text_of d]) <$> default_value a /\
    (default_value a = None -> is_present m (arg_name a) = false)) as Hdef.
  { intros i a Ha%list_elem_of_lookup_2. by apply (clap_no_options CommandLine.arguments). }
  destruct (Hdef 1%nat _ eq_refl) as (Hnet & _). destruct (Hdef 2%nat _ eq_refl) as (Hbc & _).
  destruct (Hdef 3%nat _ eq_refl) as (Hdc & _). destruct (Hdef 4%nat _ eq_refl) as (_ & Hbp & _).
  destruct (Hdef 5%nat _ eq_refl) as (_ & Hdp & _). destruct (Hdef 6%nat _ eq_refl) as (Hhttp & _).
  destruct (Hdef 7%nat _ eq_refl) as (_ & Hlisten & _). destruct (Hdef 8%nat _ eq_refl) as (Hlimit & _).
  destruct (Hdef 9%nat _ eq_refl) as (Hbd & _). destruct (Hdef 10%nat _ eq_refl) as (Hdd & _).
  destruct (Hdef 11%nat _ eq_refl) as (_ & _ & Hre). clear Hdef.
  cbn [arg_name default_value CommandLine.valued fmap option_fmap option_map] in *.
  unfold CommandLine.read, CommandLine.connections, CommandLine.discovery.
  rewrite Hnet, Hbc, Hdc, Hbp, Hdp, Hhttp, Hlisten, Hlimit, Hbd, Hdd, Hre by done.
  destruct network_names as (_ & Htest & _). destruct parse_ipv4_socket as [Ha1 Ha2].
  cbn [unwrap mbind res_bind]. rewrite Htest. cbn [unwrap_result mbind res_bind from_option id CommandLine.socket_addresses].
  change CommandLine.http_rpc with "127.0.0.1:21767"%string. rewrite Ha1.
  change CommandLine.biadnet_listen with "0.0.0.0:21766"%string. rewrite Ha2.
  reflexivity.
Qed.

(** ** What may go wrong *)

Definition number_ok (m : ArgMatches) (name : string) : Prop :=
  exists s n, value_of m name = Some s /\ CommandLine.parse_unsigned (2 ^ 64) s = Some n.
Definition addresses_ok (l : list str) : Prop := Forall (λ s, is_Some (socket_addr_from_str s)) l.

(** What is read before the peers are looked at, and after: the numbers are numbers
    of 64 bits, and the addresses are addresses. *)
Definition peers_well_formed (m : ArgMatches) : Prop :=
  number_ok m "defiads-connections" /\ number_ok m "bitcoin-connections" /\
  addresses_ok (default [] (values_of m "defiads-peers")) /\
  addresses_ok (default [] (values_of m "bitcoin-peers")).
Definition interfaces_well_formed (m : ArgMatches) : Prop :=
  addresses_ok (option_list (value_of m "http-rpc")) /\
  addresses_ok (default [] (values_of m "listen")) /\ number_ok m "storage-limit".

(** A network has discovery on, or peers. *)
Definition reachable (m : ArgMatches) (discovery peers : string) : Prop :=
  (exists s, value_of m discovery = Some s /\ eq_ignore_ascii_case s (text_of "ON") = true) \/
  default [] (values_of m peers) <> [].
Definition networks_reachable (m : ArgMatches) : Prop :=
  reachable m "bitcoin-discovery" "bitcoin-peers" /\ reachable m "defiads-discovery" "defiads-peers".

(** A result that is there when [P] holds, and a failed parse otherwise. *)
Definition parsed_if {A} (P : Prop) (r : res Error A) : Prop :=
  (P /\ exists a, r = Ok a) \/ (~ P /\ r = Panicked UnwrapOnErr).

#[local] Instance parsed_if_proper {A} : Proper (iff ==> eq ==> iff) (@parsed_if A).
Proof. intros P Q HPQ r ? <-. unfold parsed_if. by rewrite HPQ. Qed.

Lemma parsed_if_bind {A B} (P Q : Prop) (r : res Error A) (k : A -> res Error B) :
  parsed_if P r -> (forall a, parsed_if Q (k a)) -> parsed_if (P /\ Q) (r ≫= k).
Proof. intros [[HP [a ->]]|[HP ->]] Hk; [destruct (Hk a) as [[HQ ?]|[HQ ?]]|]; [left|right|right]; tauto. Qed.

Lemma socket_addresses_cases l : parsed_if (addresses_ok l) (CommandLine.socket_addresses l).
Proof.
  unfold addresses_ok. induction l as [|s l IH]; [left; split; [constructor|by exists []]|].
  cbn [CommandLine.socket_addresses]. rewrite Forall_cons. apply parsed_if_bind.
  - destruct (socket_addr_from_str s) as [a|]; [left; by eauto|right]. split; [by intros [? ?]|done].
  - intros a. destruct IH as [[Hl [as_ ->]]|[Hl ->]]; [left|right]; cbn; eauto.
Qed.

Lemma number_cases m name :
  is_Some (value_of m name) ->
  parsed_if (number_ok m name) (s ← unwrap (value_of m name); unwrap_result (CommandLine.parse_unsigned (2 ^ 64) s)).
Proof.
  intros [s Hs]. unfold number_ok. rewrite Hs. cbn [unwrap mbind res_bind].
  destruct (CommandLine.parse_unsigned (2 ^ 64) s) as [n|] eqn:Hn; [left; eauto 6|right].
  split; [|done]. intros (s' & n & [= <-] & Hn'). congruence.
Qed.

Lemma http_cases m :
  parsed_if (addresses_ok (option_list (value_of m "http-rpc")))
    (match value_of m "http-rpc" with
     | Some s => a ← unwrap_result (socket_addr_from_str s); Ok (Some a)
     | None => Ok (None : option SocketAddr)
     end).
Proof.
  unfold addresses_ok. destruct (value_of m "http-rpc") as [s|]; cbn [option_list option_rect]; [|left; by eauto].
  rewrite Forall_singleton. destruct (socket_addr_from_str s) as [a|]; [left; by eauto|right].
  split; [by intros [? ?]|done].
Qed.

(** A read that ends well, at a failed parse before or after the peers are looked
    at, or where they are missing. *)
Definition outcome {A} (before peers after : Prop) (r : res Error A) : Prop :=
  (before /\ peers /\ after /\ exists a, r = Ok a) \/
  (~ before /\ r = Panicked UnwrapOnErr) \/
  (before /\ ~ peers /\ r = Panicked ExplicitPanic) \/
  (before /\ peers /\ ~ after /\ r = Panicked UnwrapOnErr).

Lemma outcome_parse {A B} (P before peers after : Prop) (r : res Error A) (k : A -> res Error B) :
  parsed_if P r -> (forall a, r = Ok a -> outcome before peers after (k a)) ->
  outcome (P /\ before) peers after (r ≫= k).
Proof.
  unfold outcome. intros [[HP [a ->]]|[HP ->]] Hk; [|right; left; tauto].
  destruct (Hk a eq_refl) as [?|[?|[?|?]]]; cbn [mbind res_bind];
    [left|right; left|right; right; left|right; right; right]; tauto.
Qed.

Lemma outcome_parse_last {A B} (P peers after : Prop) (r : res Error A) (k : A -> res Error B) :
  parsed_if P r -> (forall a, r = Ok a -> outcome True peers after (k a)) -> outcome P peers after (r ≫= k).
Proof.
  intros Hr Hk. destruct (outcome_parse P True peers after r k Hr Hk) as [?|[?|[?|?]]];
    [left|right; left|right; right; left|right; right; right]; tauto.
Qed.

Lemma outcome_parsed {A} (P : Prop) (r : res Error A) : parsed_if P r -> outcome True True P r.
Proof. unfold outcome. intros [?|?]; tauto. Qed.

(** The peers of a network are looked at. *)
Lemma outcome_check {A} m dname pname wanted ps (peers after : Prop) (k : bool -> Z -> res Error A) :
  is_Some (value_of m dname) -> CommandLine.socket_addresses (default [] (values_of m pname)) = Ok ps ->
  (forall b n, outcome True peers after (k b n)) ->
  outcome True (reachable m dname pname /\ peers) after
    (b ← CommandLine.discovery m dname; n ← Main.connections b wanted ps; k b n).
Proof.
  intros [s Hs] Hps Hk.
  assert (ps = [] <-> default [] (values_of m pname) = []) as Hempty.
  { destruct (default [] (values_of m pname)) as [|x l]; [by injection Hps as <-|].
    cbn in Hps. destruct (socket_addr_from_str x); [|done]. cbn in Hps.
    by destruct (CommandLine.socket_addresses l); simplify_eq/=. }
  unfold CommandLine.discovery, Main.connections, reachable. rewrite Hs. cbn [unwrap mbind res_bind].
  destruct (eq_ignore_ascii_case s (text_of "ON")) eqn:Hon.
  - assert (exists s', Some s = Some s' /\ eq_ignore_ascii_case s' (text_of "ON") = true) by eauto.
    destruct (Hk true wanted) as [?|[?|[?|?]]]; [left|right; left|right; right; left|right; right; right]; tauto.
  - case_decide as Hlen; cbn [mbind res_bind].
    + right; right; left. apply nil_length_inv, Hempty in Hlen. split; [done|]. split; [|done].
      intros [[(s' & [= <-] & Hon')|Hne] _]; [congruence|done].
    + assert (default [] (values_of m pname) <> []) by (intros He%Hempty; apply Hlen; by rewrite He).
      destruct (Hk false (Z.of_nat (length ps))) as [?|[?|[?|?]]];
        [left|right; left|right; right; left|right; right; right]; tauto.
Qed.

Lemma network_read line m :
  get_matches CommandLine.arguments line = Some m ->
  exists s n, value_of m "bitcoin-network" = Some s /\ network_from_str s = Some n.
Proof.
  intros Hm. assert (exists a, a ∈ CommandLine.arguments /\ arg_name a = "bitcoin-network"%string /\
    is_Some (default_value a) /\ possible_values a = ["bitcoin"; "testnet"; "regtest"]%string /\
    case_insensitive a = false) as (a & Ha & Hname & [d Hd] & Hposs & Hci).
  { eexists. split; [apply (list_elem_of_lookup_2 _ 1%nat); reflexivity|]. by split_and!. }
  destruct (clap_defaulted _ _ _ a d Hm Ha Hd) as [s Hs].
  destruct (clap_possible _ _ _ a s Hm Ha) as (p & Hp & Heq); [by rewrite Hposs|done|].
  rewrite Hname in Hs. rewrite Hposs in Hp. rewrite Hci in Heq. subst s.
  destruct network_names as (H1' & H2' & H3').
  apply elem_of_cons in Hp as [->|[->|[->|Hp%not_elem_of_nil]%elem_of_cons]%elem_of_cons]; by eauto.
Qed.

(** C39: Of the command lines that clap accepts, those are read whose numbers are
    numbers of 64 bits, whose addresses are addresses, and which give peers for a
    network without discovery; on any other the program panics: at a failed parse, or
    where it finds no peers, which is before the interfaces and the storage limit are
    read. Without options it reads the documented defaults, but for the network,
    which is the test network. *)
Theorem command_line_read line m :
  get_matches CommandLine.arguments line = Some m ->
  (peers_well_formed m -> networks_reachable m -> interfaces_well_formed m ->
   exists ms, CommandLine.read m = Ok ms) /\
  (~ peers_well_formed m -> CommandLine.read m = Panicked UnwrapOnErr) /\
  (peers_well_formed m -> ~ networks_reachable m -> CommandLine.read m = Panicked ExplicitPanic) /\
  (peers_well_formed m -> networks_reachable m -> ~ interfaces_well_formed m ->
   CommandLine.read m = Panicked UnwrapOnErr) /\
  (line = [] -> CommandLine.read m = Ok default_matches).
Proof.
  intros Hm.
  enough (outcome (peers_well_formed m) (networks_reachable m) (interfaces_well_formed m) (CommandLine.read m)) as Hread.
  { unfold outcome in Hread. split; [tauto|]. split; [tauto|]. split; [tauto|]. split; [tauto|].
    intros ->. by apply read_defaults. }
  assert (forall i a, CommandLine.arguments !! i = Some a -> is_Some (default_value a) ->
    is_Some (value_of m (arg_name a))) as Hdef.
  { intros i a Ha%list_elem_of_lookup_2 [d Hd]. by apply (clap_defaulted CommandLine.arguments line m a d). }
  destruct (network_read line m Hm) as (s & n & Hs & Hn).
  unfold CommandLine.read, peers_well_formed, networks_reachable, interfaces_well_formed.
  rewrite Hs. cbn [unwrap mbind res_bind]. rewrite Hn. cbn [unwrap_result mbind res_bind].
  apply outcome_parse; [apply number_cases, (Hdef 3%nat _ eq_refl); by eexists|intros dc _].
  apply outcome_parse; [apply number_cases, (Hdef 2%nat _ eq_refl); by eexists|intros bc _].
  apply outcome_parse; [apply socket_addresses_cases|intros dp Hdp].
  apply outcome_parse_last; [apply socket_addresses_cases|intros bp Hbp].
  apply outcome_check; [apply (Hdef 9%nat _ eq_refl); by eexists|exact Hbp|intros bd bn].
  assert (forall A (r : res Error A) Q, outcome True (reachable m "defiads-discovery" "defiads-peers" /\ True) Q r ->
    outcome True (reachable m "defiads-discovery" "defiads-peers") Q r) as Hlast by (unfold outcome; tauto).
  apply Hlast, outcome_check; [apply (Hdef 10%nat _ eq_refl); by eexists|exact Hdp|intros dd dn].
  apply outcome_parsed, parsed_if_bind; [apply http_cases|intros http].
  apply parsed_if_bind; [apply socket_addresses_cases|intros listen].
  destruct (number_cases m "storage-limit") as [[Hok [limit Hlimit]]|[Hno Hlimit]];
    [apply (Hdef 8%nat _ eq_refl); by eexists|left|right]; (split; [done|]);
    destruct (value_of m "storage-limit") as [s'|]; try done; cbn [unwrap mbind res_bind] in Hlimit |- *;
    rewrite Hlimit; by try eexists.
Qed.

(** The settings of a node that starts, whether its wallet is new or not. *)
Lemma main_settings m config new_wallet key trunk_rev d node :
  Main.main m config new_wallet key trunk_rev d = Ok node ->
  exists bc dc,
    Main.connections (bitcoin_discovery m) (bitcoin_connections m) (bitcoin_peers m) = Ok bc /\
    Main.connections (biadnet_discovery m) (biadnet_connections m) (biadnet_peers m) = Ok dc /\
    nd_bitcoin node = (bc, bitcoin_peers m, bitcoin_discovery m) /\
    nd_defiads node = (dc, biadnet_peers m, Main.network_port (bitcoin_network m) <$> biadnet_listen m,
      biadnet_discovery m, bool_decide (bitcoin_network m <> Net_Bitcoin)) /\
    nd_http node = Main.network_port (bitcoin_network m) <$> http_rpc m /\
    storage_limit (nd_store node) = Main.storage_limit (storage_limit_gb m).
Proof.
  unfold Main.main. destruct (Main.connections (bitcoin_discovery m) _ _) as [bc| |]; [|done..].
  destruct (Main.connections (biadnet_discovery m) _ _) as [dc| |]; [|done..]. cbn [mbind res_bind].
  match goal with |- (?x ≫= _) = _ -> _ => destruct x as [[[cfg w] d1]| |]; [|done..] end. cbn [mbind res_bind].
  match goal with |- (?x ≫= _) = _ -> _ => destruct x as [[w' d']| |]; [|done..] end. cbn [mbind res_bind].
  unfold Store.new. destruct (ContentTable.compute_content_sketch MIN_SKETCH_SIZE d') as [[[sk ks] n]| |]; [|done..].
  cbn [mbind res_bind expect]. intros [= <-]. by exists bc, dc.
Qed.

(** A node that is started without options runs on the test network with five
    connections wanted in either network and discovery on, listens on all
    addresses at port 21866, serves clients at 127.0.0.1 on port 21867, does not
    re-scan, and keeps a million bytes of ads. *)
Lemma default_start m matches config new_wallet key trunk_rev d node :
  get_matches CommandLine.arguments [] = Some m -> CommandLine.read m = Ok matches ->
  Main.main matches config new_wallet key trunk_rev d = Ok node ->
  bitcoin_network matches = Net_Testnet /\
  nd_bitcoin node = (5, [], true) /\
  nd_defiads node = (5, [], [V4 [# 0; 0; 0; 0] 21866], true, true) /\
  nd_http node = Some (V4 [# 127; 0; 0; 1] 21867) /\
  storage_limit (nd_store node) = 1000 * 1000.
Proof.
  intros Hm Hread Hmain. rewrite (read_defaults m Hm) in Hread. injection Hread as <-.
  destruct (main_settings _ _ _ _ _ _ _ Hmain) as (bc & dc & Hbc & Hdc & Hb & Hd & Hh & Hl).
  injection Hbc as <-. injection Hdc as <-. by rewrite Hb, Hd, Hh, Hl.
Qed.
End Start.

(** ** A concrete clap: at most one option and its value *)

Module CommandLineExamples.

Definition allowed (a : Arg) (v : str) : Prop :=
  possible_values a = [] \/ Exists (λ p, if case_insensitive a then eq_ignore_ascii_case v (text_of p) = true
                                        else v = text_of p) (possible_values a).
#[local] Instance allowed_dec a v : Decision (allowed a v).
Proof.
  apply or_dec; [apply _|]. apply Exists_dec. intros p. destruct (case_insensitive a); apply _.
Defined.

Definition default_allowed (a : Arg) : Prop :=
  match default_value a with Some d => allowed a (text_of d) | None => True end.
#[local] Instance default_allowed_dec a : Decision (default_allowed a).
Proof. unfold default_allowed. destruct (default_value a); apply _. Defined.

(** The declared options and the one that was given. *)
Record toy_matches : Type := mkToyMatches { tm_args : list Arg; tm_given : option (string * str) }.

Definition declared (args : list Arg) (n : string) : option Arg := snd <$> list_find (λ a, arg_name a = n) args.

Definition given_ok (args : list Arg) (g : option (string * str)) : bool :=
  match g with
  | Some (n, v) => match declared args n with Some a => bool_decide (allowed a v) | None => false end
  | None => true
  end.

Definition toy_get_matches (args : list Arg) (line : list str) : option toy_matches :=
  g ← match line with
      | [] => Some None
      | [n; v] => a ← snd <$> list_find (λ a, text_of (arg_name a) = n) args; Some (Some (arg_name a, v))
      | _ => None
      end;
  if bool_decide (NoDup (arg_name <$> args)) && bool_decide (Forall default_allowed args) && given_ok args g
  then Some (mkToyMatches args g) else None.

Definition toy_value_of (m : toy_matches) (n : string) : option str :=
  match tm_given m with
  | Some (n', v) => if decide (n' = n) then Some v else text_of <$> (declared (tm_args m) n ≫= default_value)
  | None => text_of <$> (declared (tm_args m) n ≫= default_value)
  end.

#[local] Instance ToyClap : Clap := {|
  ArgMatches := toy_matches;
  get_matches := toy_get_matches;
  value_of := toy_value_of;
  values_of m n := (λ v, [v]) <$> toy_value_of m n;
  is_present m n := bool_decide (is_Some (toy_value_of m n))
|}.

Lemma declared_elem args a : NoDup (arg_name <$> args) -> a ∈ args -> declared args (arg_name a) = Some a.
Proof.
  intros Hnd [i Hi]%list_elem_of_lookup. unfold declared.
  assert (list_find (λ b, arg_name b = arg_name a) args = Some (i, a)) as ->; [|done].
  apply list_find_Some. split_and!; [done..|]. intros j b Hj Hlt Heq.
  enough (i = j) by lia. apply (NoDup_lookup _ i j (arg_name a) Hnd); by rewrite list_lookup_fmap, ?Hi, ?Hj; cbn; rewrite ?Heq.
Qed.

Lemma toy_matches_ok args line m :
  toy_get_matches args line = Some m ->
  tm_args m = args /\ NoDup (arg_name <$> args) /\ Forall default_allowed args /\ given_ok args (tm_given m) = true /\
  (line = [] -> tm_given m = None).
Proof.
  unfold toy_get_matches. intros (g & Hg & Hm)%bind_Some. case_match eqn:Hok; [|done]. injection Hm as <-.
  apply andb_true_iff in Hok as [[Hnd%bool_decide_eq_true Hall%bool_decide_eq_true]%andb_true_iff Hgiven].
  split_and!; [done..|]. intros ->. by injection Hg as <-.
Qed.

#[local] Instance ToyClap_laws : ClapLaws.
Proof.
  split.
  - intros args line m a d Hm Ha Hd. destruct (toy_matches_ok _ _ _ Hm) as (Hargs & Hnd & _).
    cbn. unfold toy_value_of. rewrite Hargs, declared_elem by done. cbn. rewrite Hd.
    destruct (tm_given m) as [[n v]|]; [case_decide|]; by eexists.
  - intros args line m a v Hm Ha Hposs Hv. destruct (toy_matches_ok _ _ _ Hm) as (Hargs & Hnd & Hall & Hg & _).
    assert (allowed a v) as [?|Hex]; [|done|by apply Exists_exists in Hex].
    cbn in Hv. unfold toy_value_of in Hv. rewrite Hargs, declared_elem in Hv by done. cbn in Hv.
    rewrite Forall_forall in Hall. specialize (Hall a Ha). unfold default_allowed in Hall.
    assert (text_of <$> default_value a = Some v -> allowed a v) as Hdef.
    { destruct (default_value a); [|done]. by intros [= <-]. }
    unfold given_ok in Hg. destruct (tm_given m) as [[n v']|]; [|by apply Hdef].
    case_decide as Hn; [|by apply Hdef]. subst n. injection Hv as ->.
    rewrite declared_elem in Hg by done. by apply bool_decide_eq_true in Hg.
  - intros args m a Hm Ha. change (toy_get_matches args [] = Some m) in Hm.
    destruct (toy_matches_ok _ _ _ Hm) as (Hargs & Hnd & _ & _ & Hnone).
    cbn. unfold toy_value_of. rewrite (Hnone eq_refl), Hargs, declared_elem by done. cbn.
    split_and!; [done|by destruct (default_value a)|]. by intros ->.
Qed.

#[local] Instance ToyParsers : Parsers := {|
  socket_addr_from_str s :=
    if decide (s = text_of "127.0.0.1:21767") then Some (V4 [# 127; 0; 0; 1] 21767)
    else if decide (s = text_of "0.0.0.0:21766") then Some (V4 [# 0; 0; 0; 0] 21766) else None;
  network_from_str s :=
    if decide (s = text_of "bitcoin") then Some Net_Bitcoin
    else if decide (s = text_of "testnet") then Some Net_Testnet
    else if decide (s = text_of "regtest") then Some Net_Regtest else None
|}.
#[local] Instance ToyParsers_laws : ParserLaws.
Proof. by split. Qed.

(** An option whose value is not a number. *)
Definition line0 : list str := [text_of "bitcoin-connections"; text_of "many"].
Definition matches0 : toy_matches :=
  mkToyMatches CommandLine.arguments (Some ("bitcoin-connections"%string, text_of "many")).
Lemma line0_accepted : get_matches CommandLine.arguments line0 = Some matches0.
Proof. vm_compute. reflexivity. Qed.

Lemma command_line_read_witness :
  (peers_well_formed matches0 -> networks_reachable matches0 -> interfaces_well_formed matches0 ->
   exists ms, CommandLine.read matches0 = Ok ms) /\
  (~ peers_well_formed matches0 -> CommandLine.read matches0 = Panicked UnwrapOnErr) /\
  (peers_well_formed matches0 -> ~ networks_reachable matches0 ->
   CommandLine.read matches0 = Panicked ExplicitPanic) /\
  (peers_well_formed matches0 -> networks_reachable matches0 -> ~ interfaces_well_formed matches0 ->
   CommandLine.read matches0 = Panicked UnwrapOnErr) /\
  (line0 = [] -> CommandLine.read matches0 = Ok default_matches).
Proof. exact (command_line_read line0 matches0 line0_accepted). Defined.

Example many_connections : CommandLine.read matches0 = Panicked UnwrapOnErr.
Proof. vm_compute. reflexivity. Qed.

(** Discovery switched off without a peer; the program does not get to the storage
    limit, which may be no number. *)
Definition without_peers (limit : string) : toy_matches :=
  mkToyMatches (CommandLine.valued "storage-limit" limit ::
                filter (λ a, arg_name a <> "storage-limit"%string) CommandLine.arguments)
    (Some ("bitcoin-discovery"%string, text_of "off")).
Example peers_missing :
  CommandLine.read (without_peers "1") = Panicked ExplicitPanic /\
  CommandLine.read (without_peers "much") = Panicked ExplicitPanic.
Proof. split; vm_compute; reflexivity. Qed.
End CommandLineExamples.
