(* ===== verification/Startup.v ===== *)
(** * The start of the two networks (src/p2p_bitcoin.rs, src/p2p_defiads.rs, the end
    of src/defiads/main.rs)

    What [P2PBitcoin::start] and [P2PBiadNet::start] do to the store and its
    database, the listeners they create, each with its first state, the peers
    they connect to and what keeps the node connected afterwards.  The listeners
    are given here with the database and the store as they are when they are
    created; from then on they share them. *)

From S2P Require Import Prelude Machine IbltTable Sketch Keys Strings Text Bitcoin Content Effects.
From S2P Require Import Db DbContent Wallet DbWallet Trunk Store Messages Updater BlockDownload.
From S2P Require Import Address Discovery Network SendTx Main.
#[local] Open Scope Z_scope.

(** murmel's [BitcoinP2PConfig]. *)
Record BitcoinP2PConfig : Type := mkBitcoinConfig {
  bc_nonce : Z; bc_network : Network; bc_max_protocol_version : Z; bc_user_agent : str;
  bc_server : bool; bc_height : Z
}.

(** ** [P2PBitcoin] *)

Module BitcoinNetwork.
Definition MAX_PROTOCOL_VERSION : Z := 70001.

(** The header database, the store and its database are arguments of [start]. *)
Record P2PBitcoin : Type := new {
  network : Network; connections : Z; peers : list SocketAddr; discovery : bool; birth : Z
}.

Section Ops.
Context `{SipHasher, Snap, Bitcoin, !Cbor Ad, SQLite, !WalletCrate, !AccountStorage}.
Context `{HeaderChain, !Peers, !Timeouts BitcoinReply, !LruCaches digest Transaction}.

Inductive Listener : Type :=
  | L_AddressPoolMaintainer (m : AddressPool) (needed_services : Z)
  | L_BlockDownload (d : BlockDownload)
  | L_Ping
  | L_SendTx (s : SendTx).

(** [added] are the peers that tasks were spawned for. *)
Record Started : Type := mkStarted {
  config : BitcoinP2PConfig; listeners : list Listener; added : list SocketAddr;
  keep_connected : KeepConnected.t
}.

Definition p2pconfig (p : P2PBitcoin) (nonce : Z) (chaindb : ChainDB) : BitcoinP2PConfig :=
  let height := match header_tip chaindb with Some tip => stored_height tip | None => 0 end in
  mkBitcoinConfig nonce (network p) MAX_PROTOCOL_VERSION BiadnetConfig.USER_AGENT false height.

(** The seeds go to the database in one transaction. *)
Definition store_seeds (r0 r1 now : Z) (network : str) (dns : list SocketAddr) : action ContentStore Error unit :=
  Store.in_transaction (for_each_do dns (λ a,
    _ ← Store.on_db (expect_action (AddressTable.store_address r0 r1 now network a 0 0 0));
    mret ())).

Definition start (fuel : nat) (p : P2PBitcoin) (chaindb : HeaderDB) (t : Timeout BitcoinReply)
    (nonce r0 r1 now : Z) (dns : list SocketAddr) : action ContentStore Error (option Started) :=
  let config := p2pconfig p nonce (view chaindb) in
  download ← P2PBitcoin.catch_up fuel chaindb t (birth p);
  match download with
  | None => mret None
  | Some download =>
      pool ← gets (λ s, if discovery p then
                          [L_AddressPoolMaintainer (AddressPoolMaintainer.new (db s)) SERVICE_BLOCKS]
                        else []);
      sendtx ← ask (λ s, SendTxOps.new (db s));
      _ ← modify Store.set_tx_sender;
      _ ← store_seeds r0 r1 now BITCOIN dns;
      mret (Some (mkStarted config (pool ++ [L_BlockDownload download; L_Ping; L_SendTx sendtx]) (peers p)
                    (KeepConnected.mkT (connections p) (list_to_set (peers p)) dns)))
  end.
End Ops.
End BitcoinNetwork.

(** ** [P2PBiadNet] *)

Module BiadNetwork.
Record P2PBiadNet : Type := new {
  connections : Z; peers : list SocketAddr; listen : list SocketAddr; discovery : bool; test : bool
}.

Section Ops.
Context `{SipHasher, Snap, Bitcoin, !Cbor Ad, SQLite, !WalletCrate, !AccountStorage}.
Context `{!Peers, !Timeouts ExpectedReply}.

Inductive Listener : Type :=
  | L_Discovery (d : Discovery)
  | L_Updater (u : Updater)
  | L_AddressPoolMaintainer (m : AddressPool).

(** [bound] are the addresses sent to [P2PControl::Bind]. *)
Record Started : Type := mkStarted {
  config : BiadnetP2PConfig; listeners : list Listener; bound : list SocketAddr; added : list SocketAddr;
  keep_connected : KeepConnected.t
}.

Definition p2pconfig (nonce : Z) : BiadnetP2PConfig :=
  mkConfig nonce BiadnetConfig.USER_AGENT Network.MAX_PROTOCOL_VERSION false.

(** The configured peers, with the port of the network. *)
Definition sockets (p : P2PBiadNet) : list SocketAddr :=
  P2PBiadNet.with_port (if test p then BIADNET_PORT + 100 else BIADNET_PORT) <$> peers p.

Definition start (p : P2PBiadNet) (lookup : str -> Z -> option (list SocketAddr)) (t : Timeout ExpectedReply)
    (nonce r0 r1 now : Z) : action ContentStore Error Started :=
  listeners ← gets (λ s,
    (if discovery p then [L_Discovery (DiscoveryOps.new (db s) t now)] else []) ++
    [L_Updater (UpdaterOps.new s t now); L_AddressPoolMaintainer (AddressPoolMaintainer.new_defiads (db s))]);
  let dns := seed lookup (test p) in
  _ ← BitcoinNetwork.store_seeds r0 r1 now DEFIADS dns;
  mret (mkStarted (p2pconfig nonce) listeners (listen p) (sockets p)
          (KeepConnected.mkT (connections p) (list_to_set (sockets p)) dns)).
End Ops.
End BiadNetwork.

(** ** The end of [main] *)

Module Networks.
Section Ops.
Context `{WalletCrate}.

(** The networks that [main] creates from what it has read. *)
Definition bitcoin (network : Network) (node : Node) : BitcoinNetwork.P2PBitcoin :=
  let '(connections, peers, discovery) := nd_bitcoin node in
  BitcoinNetwork.new network connections peers discovery (cfg_birth (nd_config node)).
Definition biadnet (node : Node) : BiadNetwork.P2PBiadNet :=
  let '(connections, peers, listen, discovery, test) := nd_defiads node in
  BiadNetwork.new connections peers listen discovery test.
End Ops.

Section Start.
Context `{SipHasher, Snap, Bitcoin, !Cbor Ad, SQLite, !WalletCrate, !AccountStorage}.
Context `{HeaderChain, !Peers, !Timeouts BitcoinReply, !Timeouts ExpectedReply, !LruCaches digest Transaction}.

(** [P2PBitcoin::new(..).start(..); P2PBiadNet::new(..).start(..)] on the store of the node. *)
Definition start (fuel : nat) (m : Matches) (node : Node) (chaindb : HeaderDB)
    (tb : Timeout BitcoinReply) (td : Timeout ExpectedReply) (nonce nonce' r0 r1 now : Z)
    (dns : list SocketAddr) (lookup : str -> Z -> option (list SocketAddr)) :
    action ContentStore Error (option (BitcoinNetwork.Started * BiadNetwork.Started)) :=
  started ← BitcoinNetwork.start fuel (bitcoin (bitcoin_network m) node) chaindb tb nonce r0 r1 now dns;
  match started with
  | None => mret None
  | Some started =>
      started' ← BiadNetwork.start (biadnet node) lookup td nonce' r0 r1 now;
      mret (Some (started, started'))
  end.
End Start.
End Networks.
