(* ===== verification/StartupSpec.v ===== *)
(** * What keeps a started node connected

    The networks of Startup.v, from the command line on, and the choice of further
    peers at each interval. *)

From S2P Require Import Prelude Machine IbltTable Sketch Keys Strings Text Bitcoin Content Effects.
From S2P Require Import Db DbContent Wallet DbWallet Trunk Store Messages Updater BlockDownload.
From S2P Require Import Address AddressSpec Discovery Network NetworkSpec SendTx Main Startup.
#[local] Open Scope Z_scope.

(** ** The intervals *)

Section Intervals.
Context `{SipHasher, SQLiteLaws}.
Implicit Types (k : KeepConnected.t) (i : KeepConnected.Interval).

(** An interval at which the node has fewer connections than it wants. *)
Definition short (wanted : Z) i : Prop := KeepConnected.i_n_connected_peers i < wanted.
#[export] Instance short_decision wanted i : Decision (short wanted i).
Proof. unfold short. apply _. Defined.

(** The addresses it was connected to at such intervals. *)
Definition seen_connected (wanted : Z) (intervals : list KeepConnected.Interval) : list SocketAddr :=
  concat (KeepConnected.i_connected_peers <$> filter (short wanted) intervals).

Lemma run_app network is1 is2 k k1 cs1 k2 cs2 :
  KeepConnected.run network is1 k = Ok (k1, cs1) -> KeepConnected.run network is2 k1 = Ok (k2, cs2) ->
  KeepConnected.run network (is1 ++ is2) k = Ok (k2, cs1 ++ cs2).
Proof.
  revert k cs1. induction is1 as [|i is1 IH]; intros k cs1 Hrun1 Hrun2; cbn [KeepConnected.run app] in *.
  { by injection Hrun1 as <- <-. }
  destruct (KeepConnected.poll _ _ _ _ _ _ _ _ _ _) as [[tried o]|e|p]; [|done..]. cbn [mbind res_bind] in *.
  destruct (KeepConnected.run network is1 _) as [[k' cs]|e|p] eqn:Hrun; [|done..]. cbn [mbind res_bind] in *.
  injection Hrun1 as <- <-. rewrite (IH _ _ Hrun Hrun2). cbn [mbind res_bind]. by rewrite app_assoc.
Qed.

(** No run of intervals fails; what it has tried are the addresses tried before,
    those chosen, and those it was connected to when it looked for more. *)
Lemma run_fresh network intervals k :
  exists k' cs, KeepConnected.run network intervals k = Ok (k', cs) /\
    KeepConnected.min_connections k' = KeepConnected.min_connections k /\
    KeepConnected.dns k' = KeepConnected.dns k /\ NoDup cs /\
    (forall a, a ∈ cs -> a ∉ KeepConnected.earlier k) /\
    forall a, a ∈ KeepConnected.earlier k' <-> a ∈ KeepConnected.earlier k \/ a ∈ cs \/
      a ∈ seen_connected (KeepConnected.min_connections k) intervals.
Proof.
  revert k. induction intervals as [|i intervals IH]; intros k; cbn [KeepConnected.run].
  { exists k, []. split_and!; [done..|constructor| |]; [by intros a ?%not_elem_of_nil|].
    intros a. unfold seen_connected. cbn. set_solver. }
  destruct (poll_fresh network (KeepConnected.min_connections k) (KeepConnected.i_now i)
    (KeepConnected.i_connected_peers i) (KeepConnected.dns k) (KeepConnected.i_n_connected_peers i)
    (KeepConnected.i_sample i) (KeepConnected.i_rnd i) (KeepConnected.i_db i) (KeepConnected.earlier k))
    as (o & -> & Hsome & _). cbn [mbind res_bind].
  set (known := if decide _ then _ else _) in *.
  assert (forall a, a ∈ known <-> a ∈ KeepConnected.earlier k \/
    (short (KeepConnected.min_connections k) i /\ a ∈ KeepConnected.i_connected_peers i)) as Hknown.
  { intros a. unfold known, short. destruct (decide _) as [Hn|Hn]; set_solver. }
  destruct (IH (KeepConnected.mkT (KeepConnected.min_connections k) (list_to_set (option_list o) ∪ known)
    (KeepConnected.dns k))) as (k' & cs & -> & Hmin & Hdns & Hnd & Hnew & Htried). cbn [mbind res_bind].
  cbn [KeepConnected.earlier KeepConnected.min_connections KeepConnected.dns] in *.
  exists k', (option_list o ++ cs). split_and!; [done..| | |].
  - apply NoDup_app. split_and!; [destruct o; cbn; [apply NoDup_singleton|constructor]| |done].
    intros a Ha Hcs. apply (Hnew a Hcs). set_solver.
  - intros a [Ha|Ha]%elem_of_app Hin.
    + destruct o as [b|]; [|by apply not_elem_of_nil in Ha]. apply list_elem_of_singleton in Ha as ->.
      destruct (Hsome b eq_refl) as [_ Hb]. apply Hb, Hknown. by left.
    + apply (Hnew a Ha). apply elem_of_union_r, Hknown. by left.
  - intros a. rewrite Htried, elem_of_union, elem_of_list_to_set, Hknown, elem_of_app.
    unfold seen_connected. rewrite filter_cons. destruct (decide _) as [Hs|Hs]; cbn; rewrite ?elem_of_app; naive_solver.
Qed.

(** However long the node runs, it never chooses an address twice, nor one of
    [before]; when it has too few connections it chooses one more, unless it
    has been connected to all its seeds and all its stored addresses, those
    banned for a day apart. *)
Definition connects_once (network : str) (before : list SocketAddr) k : Prop :=
  forall intervals, exists k' cs, KeepConnected.run network intervals k = Ok (k', cs) /\ NoDup cs /\
    (forall a, a ∈ cs -> a ∉ before) /\
    forall i, short (KeepConnected.min_connections k) i ->
      exists k2 o, KeepConnected.run network (intervals ++ [i]) k = Ok (k2, cs ++ option_list o) /\
        (o = None -> forall a,
           (a ∈ KeepConnected.dns k \/
            exists slot r, Db.address (KeepConnected.i_db i) !! (network, slot) = Some r /\ a = ip r /\
              Db.banned r < i64 (u64 (KeepConnected.i_now i - BAN_TIME))) ->
           a ∈ before \/ a ∈ cs \/ a ∈ seen_connected (KeepConnected.min_connections k) (intervals ++ [i])).

Lemma keeps_connecting network wanted before dns :
  connects_once network before (KeepConnected.mkT wanted (list_to_set before) dns).
Proof.
  intros intervals.
  destruct (run_fresh network intervals (KeepConnected.mkT wanted (list_to_set before) dns))
    as (k' & cs & Hrun & Hmin & Hdns & Hnd & Hnew & Htried).
  cbn [KeepConnected.earlier KeepConnected.min_connections KeepConnected.dns] in *.
  exists k', cs. split_and!; [done..| |].
  { intros a Ha Hb. apply (Hnew a Ha). by apply elem_of_list_to_set. }
  intros i Hi.
  destruct (poll_fresh network wanted (KeepConnected.i_now i)
    (KeepConnected.i_connected_peers i) dns (KeepConnected.i_n_connected_peers i)
    (KeepConnected.i_sample i) (KeepConnected.i_rnd i) (KeepConnected.i_db i) (KeepConnected.earlier k'))
    as (o & Hpoll & _ & Hnone). rewrite decide_True in Hpoll, Hnone by done.
  eexists _, o. split.
  { eapply (run_app _ _ _ _ _ _ _ _ Hrun). cbn [KeepConnected.run]. rewrite Hmin, Hdns, Hpoll.
    cbn [mbind res_bind]. by rewrite app_nil_r. }
  intros Ho a Ha. destruct (Hnone Ho Hi) as [Hall Hrows].
  assert (a ∈ list_to_set (KeepConnected.i_connected_peers i) ∪ KeepConnected.earlier k') as Hin.
  { destruct Ha as [Ha|(slot & r & Hr & -> & Hb)]; [by apply Hall|by eapply Hrows]. }
  rewrite elem_of_union, !elem_of_list_to_set, Htried, elem_of_list_to_set in Hin.
  unfold seen_connected in *. rewrite filter_app, fmap_app, concat_app, elem_of_app.
  rewrite (filter_cons_True _ _ _ Hi). cbn. rewrite app_nil_r. naive_solver.
Qed.
End Intervals.

(** ** From the command line *)

Section Start.
Context `{SipHasher, Snap, Bitcoin, !Cbor Ad, SQLiteLaws, !WalletCrate, !AccountStorage, !WalletKeys}.
Context `{HeaderChain, !Peers, !Timeouts BitcoinReply, !Timeouts ExpectedReply, !LruCaches digest Transaction}.
Implicit Types (s : ContentStore).

Lemma main_networks m config new_wallet key trunk_rev d node :
  Main.main m config new_wallet key trunk_rev d = Ok node ->
  BitcoinNetwork.peers (Networks.bitcoin (bitcoin_network m) node) = bitcoin_peers m /\
  BiadNetwork.peers (Networks.biadnet node) = biadnet_peers m /\
  BiadNetwork.test (Networks.biadnet node) = bool_decide (bitcoin_network m <> Net_Bitcoin).
Proof.
  unfold Main.main. intros Hm.
  destruct (Main.connections (bitcoin_discovery m) _ _) as [bc| |]; [|done..]. cbn [mbind res_bind] in Hm.
  destruct (Main.connections (biadnet_discovery m) _ _) as [ac| |]; [|done..]. cbn [mbind res_bind] in Hm.
  match type of Hm with (?x ≫= _) = _ => destruct x as [[[cfg w] d1]| |]; [|done..] end.
  cbn [mbind res_bind] in Hm.
  match type of Hm with (?x ≫= _) = _ => destruct x as [[w' d']| |]; [|done..] end.
  cbn [mbind res_bind] in Hm.
  match type of Hm with (?x ≫= _) = _ => destruct x as [store| |]; [|done..] end.
  by injection Hm as <-.
Qed.

Lemma bitcoin_started fuel p chaindb t nonce r0 r1 now dns s net s' :
  BitcoinNetwork.start fuel p chaindb t nonce r0 r1 now dns s = (Ok (Some net), s') ->
  BitcoinNetwork.added net = BitcoinNetwork.peers p /\
  BitcoinNetwork.keep_connected net =
    KeepConnected.mkT (BitcoinNetwork.connections p) (list_to_set (BitcoinNetwork.peers p)) dns.
Proof.
  unfold BitcoinNetwork.start. intros (download & s1 & _ & Hrun)%action_bind_inv.
  destruct download as [download|]; [|done].
  apply action_bind_inv in Hrun as (pool & s2 & _ & Hrun). apply action_bind_inv in Hrun as (tx & s3 & _ & Hrun).
  apply action_bind_inv in Hrun as ([] & s4 & _ & Hrun). apply action_bind_inv in Hrun as ([] & s5 & _ & Hrun).
  by injection Hrun as <- _.
Qed.

Lemma biadnet_started p lookup t nonce r0 r1 now s net s' :
  BiadNetwork.start p lookup t nonce r0 r1 now s = (Ok net, s') ->
  BiadNetwork.added net = BiadNetwork.sockets p /\
  BiadNetwork.keep_connected net =
    KeepConnected.mkT (BiadNetwork.connections p) (list_to_set (BiadNetwork.sockets p)) (seed lookup (BiadNetwork.test p)).
Proof.
  unfold BiadNetwork.start. intros (ls & s1 & _ & Hrun)%action_bind_inv. cbv zeta in Hrun.
  apply action_bind_inv in Hrun as ([] & s2 & _ & Hrun). by injection Hrun as <- _.
Qed.

(** C28: A node connects to the peers of its command line when it starts, to those
    of the defiads network at its standard port.  After that it never connects to
    one of them, nor to any other address twice, even when a connection is
    lost; at each interval with too few connections it does connect to a further
    address, as long as there is a seed or a stored address, not banned, that it
    has not been connected to. *)
Theorem lost_peers_stay_lost m config new_wallet key trunk_rev d node fuel chaindb tb td nonce nonce' r0 r1 now
    dns lookup net net' s' :
  Main.main m config new_wallet key trunk_rev d = Ok node ->
  Networks.start fuel m node chaindb tb td nonce nonce' r0 r1 now dns lookup (nd_store node) =
    (Ok (Some (net, net')), s') ->
  let port := if decide (bitcoin_network m = Net_Bitcoin) then BIADNET_PORT else BIADNET_PORT + 100 in
  BitcoinNetwork.added net = bitcoin_peers m /\
  BiadNetwork.added net' = P2PBiadNet.with_port port <$> biadnet_peers m /\
  connects_once BITCOIN (BitcoinNetwork.added net) (BitcoinNetwork.keep_connected net) /\
  connects_once DEFIADS (BiadNetwork.added net') (BiadNetwork.keep_connected net').
Proof.
  intros Hm Hs. cbv zeta. destruct (main_networks _ _ _ _ _ _ _ Hm) as (Hp & Hp' & Ht).
  unfold Networks.start in Hs. apply action_bind_inv in Hs as (o & s1 & Hb & Hs).
  destruct o as [net0|]; [|done]. apply action_bind_inv in Hs as (net1 & s2 & Hd & Hs).
  injection Hs as -> -> _. destruct (bitcoin_started _ _ _ _ _ _ _ _ _ _ _ _ Hb) as [Ha Hk].
  destruct (biadnet_started _ _ _ _ _ _ _ _ _ _ Hd) as [Ha' Hk']. rewrite Hk, Hk', <- Ha, <- Ha'.
  split_and!; [by rewrite Ha| |apply keeps_connecting..].
  rewrite Ha'. unfold BiadNetwork.sockets. rewrite Hp', Ht. by destruct (bitcoin_network m).
Qed.
End Start.
