(* ===== verification/MainSpec.v ===== *)
(** * Theorems on the main program *)

From S2P Require Import Prelude Machine IbltTable Keys Strings Text Bitcoin Content Effects.
From S2P Require Import Db DbContent Wallet DbWallet Trunk Store Messages BlockDownload BlockDownloadStart.
From S2P Require Import Network ResumeSpec Main.
#[local] Open Scope Z_scope.

Section Rescan.
Context `{SipHasher, Snap, !SnapLaws, BitcoinLaws, !Cbor Ad, SQLiteLaws, !WalletCrate, !AccountStorage, !WalletKeys}.
Context `{HeaderChain, !Peers, !Timeouts BitcoinReply}.
Implicit Types (chain : list BlockHeader).

(** The trunk from its tip back. *)
Definition trunk_rev chain : list CachedHeader :=
  reverse (imap (λ i h, mkCachedHeader h (Z.of_nat i)) chain).

Lemma trunk_rev_snoc chain h :
  trunk_rev (chain ++ [h]) = mkCachedHeader h (Z.of_nat (length chain)) :: trunk_rev chain.
Proof. unfold trunk_rev. rewrite imap_app, reverse_app. cbn. by rewrite Nat.add_0_r. Qed.

Lemma after_birth_spec birth j hj chain :
  chain !! j = Some hj -> time hj < birth ->
  (forall k hk, (j < k)%nat -> chain !! k = Some hk -> birth <= time hk) ->
  Main.after_birth birth (trunk_rev chain) = Some (header_hash hj).
Proof.
  induction chain as [|h chain IH] using rev_ind; intros Hj Hb Habove; [done|].
  rewrite trunk_rev_snoc. cbn [Main.after_birth stored_header].
  apply lookup_snoc_Some in Hj as [[Hlt Hj]|[-> ->]].
  - rewrite (proj2 (Z.ltb_ge _ _)).
    + apply IH; [done|done|]. intros k hk Hk Hkk. apply (Habove k); [done|]. by apply lookup_app_l_Some.
    + apply (Habove (length chain)); [done|]. by rewrite lookup_app_r, Nat.sub_diag.
  - by rewrite (proj2 (Z.ltb_lt _ _) Hb).
Qed.

Lemma main_rescanned m config new_wallet key trunk d node :
  rescan_present m = true ->
  Main.main m config new_wallet key trunk d = Ok node ->
  exists w0 d0, (w0, d0) = (wallet (nd_store node), db (nd_store node)) /\
    exists w1 d1, Main.rescan (cfg_birth (nd_config node)) trunk w1 d1 = (Ok w0, d0).
Proof.
  intros Hp Hm. unfold Main.main in Hm.
  destruct (Main.connections (bitcoin_discovery m) _ _) as [bc| |]; [|done..]. cbn [mbind res_bind] in Hm.
  destruct (Main.connections (biadnet_discovery m) _ _) as [ac| |]; [|done..]. cbn [mbind res_bind] in Hm.
  match type of Hm with (?x ≫= _) = _ => destruct x as [[[cfg w] d1]| |]; [|done..] end.
  cbn [mbind res_bind] in Hm. rewrite Hp in Hm.
  destruct (Main.rescan (cfg_birth cfg) trunk w d1) as [[w' | |] d'] eqn:Hr; [|done..]. cbn [mbind res_bind] in Hm.
  unfold Store.new in Hm.
  destruct (ContentTable.compute_content_sketch MIN_SKETCH_SIZE d') as [[[sk ks] n]| |]; [|done..].
  cbn [mbind res_bind expect] in Hm. injection Hm as <-. cbn. exists w', d'. split; [done|]. by exists w, d1.
Qed.

(** C19: A node that is started with the option to re-scan forgets its coins and its
    own unconfirmed transactions, and its block download starts at the newest
    header older than the wallet: it wants exactly the blocks after that header,
    in the order of their heights, whatever was processed before. *)
Theorem rescan_from_birth m config new_wallet key d node chain tip j hj fuel chaindb t :
  rescan_present m = true ->
  Main.main m config new_wallet key (trunk_rev chain) d = Ok node ->
  let birth := cfg_birth (nd_config node) in
  trunk_of (view chaindb) chain -> last chain = Some tip -> birth < time tip ->
  chain !! j = Some hj -> time hj < birth ->
  (forall k hk, (j < k)%nat -> chain !! k = Some hk -> birth <= time hk) ->
  (length chain + 1 < fuel)%nat ->
  w_coins (wallet (nd_store node)) = coins_new /\ Db.coins (db (nd_store node)) = ∅ /\
  WalletTables.read_unconfirmed (db (nd_store node)) = Ok [] /\
  exists download, P2PBitcoin.catch_up fuel chaindb t birth (nd_store node) =
      (Ok (Some download), nd_store node) /\
    blocks_wanted download = blocks_from chain (S j) /\ blocks_asked download = [].
Proof.
  intros Hp Hm birth Ht Htip Hb Hj Hold Habove Hf.
  destruct (main_rescanned _ _ _ _ _ _ _ Hp Hm) as (w0 & d0 & [= -> ->] & w1 & d1 & Hr).
  unfold Main.rescan in Hr. fold birth in Hr. rewrite (after_birth_spec birth j hj chain Hj Hold Habove) in Hr.
  injection Hr as Hw Hd. rewrite <- Hw, <- Hd. split; [done|]. split; [done|]. split.
  { unfold WalletTables.read_unconfirmed, WalletTables.unconfirmed_rows, WalletTables.rescan.
    cbn [Db.txout set_txout set_coins]. by rewrite scan_empty. }
  assert (exists processed, WalletTables.read_processed (db (nd_store node)) = Ok processed /\
    (processed = None \/ processed = Some (header_hash hj))) as (processed & Hread & Hproc).
  { rewrite <- Hd. unfold WalletTables.read_processed, WalletTables.rescan.
    cbn [Db.processed set_processed set_txout set_coins].
    destruct (Db.processed d1) as [b|]; cbn [fmap option_fmap option_map]; [|by exists None; auto].
    rewrite from_hex_to_hex_d. cbn. eexists. split; [done|by right]. }
  assert (j + 1 < length chain)%nat as Hlt.
  { pose proof (lookup_lt_Some _ _ _ Hj). destruct (decide (j + 1 = length chain)%nat) as [He|]; [|lia].
    rewrite last_lookup in Htip. replace (pred (length chain)) with j in Htip by lia.
    rewrite Hj in Htip. injection Htip as ->. lia. }
  assert (BlockDownloadOps.wanted_at_start fuel (view chaindb) processed birth =
    Ok (Some (blocks_from chain (S j)))) as Hwant.
  { apply (wanted_at_start_run (view chaindb) chain tip processed birth fuel Ht Htip Hb Hf) with (hj := hj);
      [done|by right|]. intros k hk Hk Hkk. split; [|by apply (Habove k)].
    destruct Hproc as [->| ->]; [done|]. intros [= Heq].
    pose proof (linked_hash_inj _ _ _ _ _ Ht Hj Hkk Heq). lia. }
  rewrite (catch_up_on_trunk fuel chaindb t birth (nd_store node) processed chain); [|done|lia|exact Hread|].
  - unfold BlockDownloadOps.new. rewrite Hwant. cbn. eexists. by split_and!.
  - destruct Hproc as [->| ->]; [by left|right]. by exists j, hj.
Qed.
End Rescan.
