(* ===== verification/ReopenSpec.v ===== *)
(** * The wallet across restarts of the program

    The wallet of the first run is stored and described by the configuration file;
    the later runs open it from there, but for the network regtest, where the
    second run panics.  What they restore of it, and what they do not: the
    addresses that were handed out. *)

From S2P Require Import Prelude Machine IbltTable Keys Strings Text Bitcoin Content Effects.
From S2P Require Import Db DbContent Wallet DbWallet Trunk Store Messages BlockDownload Main.
#[local] Open Scope Z_scope.

(** What bitcoin_wallet and rust-bitcoin promise of wallets and accounts that were
    just created: they are restored from what is stored of them.  The text of an
    extended key names its network by version bytes, which testnet and regtest
    share: a key of regtest is read back as one of testnet, so that only keys
    of the other two networks, and accounts made with them, come back as they
    were. *)
Class StorageLaws `{WalletKeys, !AccountStorage} : Prop := {
  coins_new_empty : confirmed coins_new = [] /\ unconfirmed coins_new = [];
  xpub_roundtrip : forall k, xpub_network k <> Net_Regtest -> xpub_from_str (xpub_to_string k) = Some k;
  xpub_regtest : forall k, xpub_network k = Net_Regtest ->
    exists k', xpub_from_str (xpub_to_string k) = Some k' /\ xpub_network k' = Net_Testnet;
  from_encrypted_public : forall e k b, master_public (master_from_encrypted e k b) = k;
  master_restored : forall words now network password m,
    from_mnemonic words now network password = Some m ->
    master_from_encrypted (master_encrypted m) (master_public m) (master_birth m) = m /\
    xpub_network (master_public m) = network /\
    forall l, NoDup ((λ a, (account_number a, sub_account_number a)) <$> l) ->
      accounts (foldr add_account m l) ≡ₚ l;
  add_account_keeps : forall a m,
    master_encrypted (add_account a m) = master_encrypted m /\
    master_public (add_account a m) = master_public m /\ master_birth (add_account a m) = master_birth m;
  account_created : forall u ty n sub look_ahead a,
    account_new u ty n sub look_ahead = Some a ->
    account_number a = n /\ sub_account_number a = sub /\ is_Some (account_instantiated a);
  account_restored : forall m password u ty n sub look_ahead a i,
    unlock m password = inr u -> xpub_network (master_public m) <> Net_Regtest ->
    account_new u ty n sub look_ahead = Some a -> account_instantiated a = Some i ->
    new_from_storage (address_type_as_u32 a) n sub (account_master_public a) i look_ahead = Some a
}.

Section Reopen.
Context `{SipHasher, Snap, BitcoinLaws, !Cbor Ad, SQLiteLaws, !WalletCrate, !AccountStorage, !WalletKeys}.
Implicit Types (d : DB) (a : Account) (w : Wallet).

Definition account_key a : Z * Z := (account_number a, sub_account_number a).

(** ** Storing accounts *)

Definition row_of a (i : list Z) : AccountRow :=
  mkAccountRow (address_type_as_u32 a) (account_master_public a) i.

Lemma store_accounts_spec l : forall n d,
  NoDup (account_key <$> l) -> (forall a, a ∈ l -> is_Some (account_instantiated a)) ->
  exists n' t, WalletTables.store_accounts l n d = (Ok n', set_account t d) /\
    (forall k, k ∉ (account_key <$> l) -> t !! k = Db.account d !! k) /\
    forall a i, a ∈ l -> account_instantiated a = Some i -> t !! account_key a = Some (row_of a i).
Proof.
  induction l as [|a l IH]; intros n d Hnd Hi.
  { exists n, (Db.account d). split; [by destruct d|]. split; [done|]. intros a i Ha. by apply not_elem_of_nil in Ha. }
  rewrite fmap_cons in Hnd. apply NoDup_cons in Hnd as [Hnin Hnd].
  destruct (Hi a (list_elem_of_here _ _)) as [i Hia].
  set (d1 := set_account (<[account_key a := row_of a i]> (Db.account d)) d).
  destruct (IH (n + 1) d1 Hnd) as (n' & t & Hrun & Hother & Hin).
  { intros b Hb. apply Hi. by right. }
  exists n', t. split_and!.
  - cbn [WalletTables.store_accounts]. rewrite (action_bind_ok _ _ d 1 d1); [exact Hrun|].
    unfold WalletTables.store_account. rewrite (action_bind_ok (lift _) _ d i d) by (unfold lift; by rewrite Hia).
    done.
  - intros k Hk. rewrite fmap_cons, not_elem_of_cons in Hk. destruct Hk as [Hne Hk].
    rewrite (Hother k Hk). cbn. by rewrite lookup_insert_ne.
  - intros b j [->|Hb]%elem_of_cons Hj; [|by apply Hin].
    rewrite (Hother _ Hnin). cbn. rewrite lookup_insert_eq. congruence.
Qed.

(** ** Opening what was stored *)

Lemma read_account_row `{!StorageLaws} d n sub look_ahead ty i a u m pass :
  unlock m pass = inr u -> xpub_network (master_public m) <> Net_Regtest ->
  account_new u ty n sub look_ahead = Some a -> account_instantiated a = Some i ->
  Db.account d !! (n, sub) = Some (row_of a i) -> WalletTables.read_account n sub look_ahead d = Ok a.
Proof.
  intros Hu Hnet Hnew Hi Hrow. unfold WalletTables.read_account. rewrite Hrow. cbn.
  by rewrite (account_restored _ _ _ _ _ _ _ _ _ Hu Hnet Hnew Hi).
Qed.

(** A database without coins and own transactions: a wallet without coins. *)
Lemma read_no_coins d m :
  Db.coins d = ∅ -> Db.txout d = ∅ -> WalletTables.read_coins d m = Ok (coins_new, m).
Proof.
  intros Hc Ht. unfold WalletTables.read_coins, WalletTables.unconfirmed_rows.
  by rewrite Hc, Ht, !scan_empty.
Qed.

Lemma store_no_coins d : StorageLaws ->
  Db.txout d = ∅ -> WalletTables.store_coins coins_new d = (Ok (), set_coins ∅ d).
Proof.
  intros Hlaws Ht. unfold WalletTables.store_coins. rewrite (action_bind_ok (modify _) _ d () (set_coins ∅ d)) by done.
  cbv zeta. rewrite (proj1 coins_new_empty). rewrite (action_bind_ok _ _ (set_coins ∅ d) () (set_coins ∅ d)) by done.
  rewrite (action_bind_ok _ _ (set_coins ∅ d) [] (set_coins ∅ d)); [done|].
  unfold WalletTables.read_unconfirmed, WalletTables.unconfirmed_rows. cbn [Db.txout set_coins].
  by rewrite Ht, scan_empty.
Qed.

(** The wallet that the dialogue of the first run makes: three accounts. *)
Lemma new_wallet_accounts `{!StorageLaws} network password answer entropy now w :
  WalletSetup.new network password answer entropy now = Ok w ->
  exists words pass m u r c k, from_mnemonic words now network pass = Some m /\ unlock m pass = inr u /\
    account_new u P2SHWPKH 0 0 KEY_LOOK_AHEAD = Some r /\ account_new u P2SHWPKH 0 1 KEY_LOOK_AHEAD = Some c /\
    account_new u (P2WSH KEY_PURPOSE) 1 0 0 = Some k /\
    w = mkWallet _ _ coins_new (add_account k (add_account c (add_account r m))).
Proof.
  unfold WalletSetup.new. destruct (WalletSetup.remove_eol password) as [pass| |]; [|done..].
  cbn [mbind res_bind]. case_match; [|done].
  destruct (mnemonic_new entropy) as [words|]; [|done]. cbn [unwrap mbind res_bind].
  destruct (from_mnemonic words now network pass) as [m|] eqn:Hm; [|done]. cbn [unwrap mbind res_bind].
  destruct (unlock m pass) as [e|u] eqn:Hu; [done|]. cbn [unwrap_wallet mbind res_bind].
  destruct (account_new u P2SHWPKH 0 0 KEY_LOOK_AHEAD) as [r|] eqn:Hr; [|done]. cbn [unwrap mbind res_bind].
  destruct (account_new u P2SHWPKH 0 1 KEY_LOOK_AHEAD) as [c|] eqn:Hc; [|done]. cbn [unwrap mbind res_bind].
  destruct (account_new u (P2WSH KEY_PURPOSE) 1 0 0) as [k|] eqn:Hk; [|done]. cbn [unwrap mbind res_bind].
  destruct (get_account _ (0, 0)) as [a0|]; [|done]. cbn [unwrap mbind res_bind].
  destruct (get_key_address a0 0); [|done]. cbn [unwrap mbind res_bind].
  destruct (WalletSetup.remove_eol answer) as [yes| |]; [|done..]. cbn [mbind res_bind].
  case_decide; [|done]. intros [= <-]. by exists words, pass, m, u, r, c, k.
Qed.

Lemma new_master_accounts `{!StorageLaws} words now network pass m u r c k :
  from_mnemonic words now network pass = Some m ->
  account_new u P2SHWPKH 0 0 KEY_LOOK_AHEAD = Some r -> account_new u P2SHWPKH 0 1 KEY_LOOK_AHEAD = Some c ->
  account_new u (P2WSH KEY_PURPOSE) 1 0 0 = Some k ->
  accounts (add_account k (add_account c (add_account r m))) ≡ₚ [k; c; r].
Proof.
  intros Hm Hr Hc Hk. destruct (master_restored _ _ _ _ _ Hm) as (_ & _ & Hall).
  apply account_created in Hr as (Hr1 & Hr2 & _). apply account_created in Hc as (Hc1 & Hc2 & _).
  apply account_created in Hk as (Hk1 & Hk2 & _). apply (Hall [k; c; r]).
  cbn. rewrite Hk1, Hk2, Hc1, Hc2, Hr1, Hr2. apply (bool_decide_eq_true _). by vm_compute.
Qed.

(** What the first run leaves: the configuration file, and the rows of the three
    accounts. *)
Lemma create_wallet_run `{!StorageLaws} u m pass r c k master key d config w' d' :
  Db.txout d = ∅ -> accounts master ≡ₚ [k; c; r] ->
  account_new u P2SHWPKH 0 0 KEY_LOOK_AHEAD = Some r -> account_new u P2SHWPKH 0 1 KEY_LOOK_AHEAD = Some c ->
  account_new u (P2WSH KEY_PURPOSE) 1 0 0 = Some k ->
  Main.create_wallet key (mkWallet _ _ coins_new master) d = (Ok (config, w'), d') ->
  w' = mkWallet _ _ coins_new master /\
  config = mkMainConfig key (hex_encode (master_encrypted master)) (xpub_to_string (master_public master))
             KEY_LOOK_AHEAD (master_birth master) /\
  Db.coins d' = ∅ /\ Db.txout d' = ∅ /\
  (unlock m pass = inr u -> xpub_network (master_public m) <> Net_Regtest ->
   WalletTables.read_account 0 0 KEY_LOOK_AHEAD d' = Ok r /\
   WalletTables.read_account 0 1 KEY_LOOK_AHEAD d' = Ok c /\ WalletTables.read_account 1 0 0 d' = Ok k).
Proof.
  intros Ht Hacc Hr Hc Hk Hcreate.
  pose proof (account_created _ _ _ _ _ _ Hr) as (Hr1 & Hr2 & ir & Hir).
  pose proof (account_created _ _ _ _ _ _ Hc) as (Hc1 & Hc2 & ic & Hic).
  pose proof (account_created _ _ _ _ _ _ Hk) as (Hk1 & Hk2 & ik & Hik).
  destruct (store_accounts_spec (accounts master) 0 (set_account ∅ (set_coins ∅ d))) as (n & t & Hstore & _ & Hrows).
  { rewrite Hacc. cbn. unfold account_key. rewrite Hk1, Hk2, Hc1, Hc2, Hr1, Hr2.
    apply (bool_decide_eq_true _). by vm_compute. }
  { intros a. rewrite Hacc, !elem_of_cons. intros [->|[->|[->|Hn%not_elem_of_nil]]]; [by eexists..|done]. }
  assert (r ∈ accounts master /\ c ∈ accounts master /\ k ∈ accounts master) as (Hinr & Hinc & Hink)
    by (rewrite Hacc; set_solver).
  apply (Hrows r ir Hinr) in Hir as Htr. apply (Hrows c ic Hinc) in Hic as Htc. apply (Hrows k ik Hink) in Hik as Htk.
  unfold account_key in Htr, Htc, Htk. rewrite Hr1, Hr2 in Htr. rewrite Hc1, Hc2 in Htc. rewrite Hk1, Hk2 in Htk.
  unfold Main.create_wallet in Hcreate. cbv zeta in Hcreate. cbn [Wallet.master w_coins] in Hcreate.
  assert (transaction id (λ d _, d) (
      _ ← expect_action (E' := Error) (WalletTables.store_coins coins_new);
      expect_action (WalletTables.store_master master)) d = (Ok n, set_account t (set_coins ∅ d))) as Htx.
  { unfold transaction, expect_action, mbind, action_bind. rewrite (store_no_coins _ _ Ht).
    cbn [expect]. unfold WalletTables.store_master, modify, mbind, action_bind. rewrite Hstore. done. }
  rewrite (action_bind_ok _ _ _ _ _ Htx) in Hcreate. injection Hcreate as <- <- <-.
  split; [done|]. split; [done|]. split; [done|]. split; [exact Ht|]. intros Hu Hnet. split_and!.
  - by apply (read_account_row _ _ _ _ _ ir r u m pass Hu Hnet Hr Hir).
  - by apply (read_account_row _ _ _ _ _ ic c u m pass Hu Hnet Hc Hic).
  - by apply (read_account_row _ _ _ _ _ ik k u m pass Hu Hnet Hk Hik).
Qed.

(** C12: The wallet that the first run creates is, on bitcoin and on testnet, the one
    that the next run opens with the configuration file and the database that the
    first run leaves: master key, accounts and coins; and the file has the key of
    the interface.  On regtest the next run does not open it: the key in the
    file is read back as one of testnet, and the check of its network panics. *)
Theorem wallet_reopened `{!StorageLaws} network password answer entropy now key d w config w' d' :
  Db.txout d = ∅ ->
  WalletSetup.new network password answer entropy now = Ok w ->
  Main.create_wallet key w d = (Ok (config, w'), d') ->
  w' = w /\ apikey config = key /\
  (network <> Net_Regtest -> Main.open_wallet network config d' = Ok w) /\
  (network = Net_Regtest -> Main.open_wallet network config d' = Panicked AssertionFailed).
Proof.
  intros Ht Hnew Hcreate.
  destruct (new_wallet_accounts _ _ _ _ _ _ Hnew) as (words & pass & m & u & r & c & k & Hm & Hu & Hr & Hc & Hk & ->).
  pose proof (new_master_accounts _ _ _ _ _ _ _ _ _ Hm Hr Hc Hk) as Hacc.
  destruct (master_restored _ _ _ _ _ Hm) as (Hrest & Hnet & _).
  destruct (create_wallet_run u m pass r c k _ _ _ _ _ _ Ht Hacc Hr Hc Hk Hcreate)
    as (-> & -> & Hcoins & Htx & Hread).
  split; [done|]. split; [done|]. unfold Main.open_wallet. cbn [encryptedwalletkey keyroot cfg_birth lookahead].
  rewrite hex_decode_encode. cbn [unwrap_result unwrap mbind res_bind].
  destruct (add_account_keeps k (add_account c (add_account r m))) as (-> & -> & ->).
  destruct (add_account_keeps c (add_account r m)) as (-> & -> & ->).
  destruct (add_account_keeps r m) as (-> & -> & ->). split.
  - intros Hne. rewrite xpub_roundtrip by congruence. cbn [unwrap_result unwrap mbind res_bind].
    rewrite Hrest. cbv zeta. rewrite decide_True by done.
    destruct Hread as (Hrr & Hrc & Hrk); [done|congruence|].
    rewrite Hrr, Hrc, Hrk. cbn [expect mbind res_bind]. rewrite read_no_coins by done. cbn [expect mbind res_bind].
    unfold WalletOps.from_storage. by rewrite (proj1 coins_new_empty), (proj2 coins_new_empty).
  - intros ->. destruct (xpub_regtest (master_public m) Hnet) as (k' & -> & Hk').
    cbn [unwrap_result unwrap mbind res_bind]. rewrite from_encrypted_public. cbv zeta. by rewrite Hk', decide_False.
Qed.

(** ** Deposit addresses *)

(** The addresses that [n] requests of the interface are answered with. *)
Fixpoint deposit_addresses (n : nat) : action ContentStore Error (list Address) :=
  match n with
  | O => mret []
  | S n => a ← Store.deposit_address; l ← deposit_addresses n; mret (a :: l)
  end.

Definition same_db (s s' : ContentStore) : Prop := Store.db s' = Store.db s.
#[local] Instance same_db_preorder : PreOrder same_db.
Proof. split; [by intros s|]. intros s1 s2 s3 H12 H23. unfold same_db in *. congruence. Qed.

Lemma deposit_addresses_db n : evolves same_db (deposit_addresses n).
Proof.
  induction n as [|n IH]; cbn [deposit_addresses]; [evolve|]. evolve_by ltac:(apply IH).
  intros s a s'. unfold Store.deposit_address, Store.on_wallet, zoom.
  destruct (WalletOps.next_address (0, 0) (wallet s)) as [r w]. by intros [= _ <-].
Qed.

(** Opening the wallet leaves the database as it was. *)
Lemma main_opened m config new_wallet key trunk_rev d node :
  rescan_present m = false -> Main.main m (Some config) new_wallet key trunk_rev d = Ok node ->
  Store.db (nd_store node) = d /\
  forall new_wallet' key' trunk_rev', Main.main m (Some config) new_wallet' key' trunk_rev' d = Ok node.
Proof.
  intros Hr Hm. unfold Main.main in Hm |- *.
  destruct (Main.connections (bitcoin_discovery m) _ _) as [bc| |]; [|done..]. cbn [mbind res_bind] in Hm |- *.
  destruct (Main.connections (biadnet_discovery m) _ _) as [ac| |]; [|done..]. cbn [mbind res_bind] in Hm |- *.
  destruct (Main.open_wallet (bitcoin_network m) config d) as [w| |]; [|done..]. cbn [mbind res_bind] in Hm |- *.
  rewrite Hr in Hm |- *. cbn [mbind res_bind] in Hm |- *. split; [|done].
  unfold Store.new in Hm.
  destruct (ContentTable.compute_content_sketch MIN_SKETCH_SIZE d) as [[[sk ks] n]| |]; [|done..].
  cbn [mbind res_bind expect] in Hm. by injection Hm as <-.
Qed.

(** C14: The addresses that a node handed out for deposits are handed out again, in the
    same order, after it was restarted: no request for an address reaches the database. *)
Theorem deposit_addresses_repeat m config new_wallet new_wallet' key key' trunk_rev trunk_rev' d node n l s' :
  rescan_present m = false ->
  Main.main m (Some config) new_wallet key trunk_rev d = Ok node ->
  deposit_addresses n (nd_store node) = (Ok l, s') ->
  exists node', Main.main m (Some config) new_wallet' key' trunk_rev' (Store.db s') = Ok node' /\
    deposit_addresses n (nd_store node') = (Ok l, s').
Proof.
  intros Hr Hm Hrun. destruct (main_opened _ _ _ _ _ _ _ Hr Hm) as [Hd Hagain].
  exists node. split; [|done]. apply deposit_addresses_db in Hrun as Hsame. rewrite Hsame, Hd. apply Hagain.
Qed.
End Reopen.
