(* ===== verification/ToyNetwork.v ===== *)
(** * Concrete instances for the networks

    A header database with forks, a cache of bounded size, and keys of a wallet,
    with which the examples on the networks and the main program compute. *)

From S2P Require Import Prelude Machine IbltTable Keys Strings Text Bitcoin Content Db Wallet.
From S2P Require Import DbWallet Trunk Messages Toy BlockDownload BlockDownloadStart Network Framing SendTx.
From S2P Require Import Main ReopenSpec.
#[local] Open Scope Z_scope.

(** ** The replies of the bitcoin network *)

#[export] Instance BitcoinReply_eq_dec : EqDecision BitcoinReply.
Proof. solve_decision. Defined.
#[export] Instance BitcoinReply_countable : Countable BitcoinReply.
Proof.
  refine (inj_countable' (λ r, match r with B_Headers => true | B_Block => false end)
                         (λ b : bool, if b then B_Headers else B_Block) _).
  by intros [].
Defined.

(** ** Headers: the trunk, and the headers that lost *)

Record toy_headers : Type := mkToyHeaders { th_trunk : list BlockHeader; th_stale : list BlockHeader }.

Definition toy_view (t : toy_headers) : ChainDB :=
  let c := chain_db (th_trunk t) in
  mkChainDB (pos_on_trunk c)
    (λ h, match cdb_get_header c h with
          | Some x => Some x
          | None => (λ '(_, hd), mkCachedHeader hd 0) <$> find_height (th_stale t) h
          end)
    (cdb_get_header_for_height c) (header_tip c).

Lemma toy_view_trunk t : linked (th_trunk t) -> trunk_of (toy_view t) (th_trunk t).
Proof.
  intros Hl. destruct (chain_db_trunk _ Hl) as [_ Hg Hp Ht]. split; [done| |exact Hp|exact Ht].
  intros i h Hi. cbn [cdb_get_header toy_view]. by rewrite (Hg i h Hi).
Qed.

(** A new header on the tip extends the trunk; with [forks], a header on a block
    below unwinds the blocks above. *)
Definition toy_add_header (forks : bool) (h : BlockHeader) (t : toy_headers) : AddHeader * toy_headers :=
  if decide (header_hash h = hash_default \/ is_Some (cdb_get_header (toy_view t) (header_hash h))) then (NotStored, t)
  else match find_height (th_trunk t) (prev_blockhash h) with
  | None => (NotStored, t)
  | Some (i, _) =>
      let above := drop (S i) (th_trunk t) in
      let stored := mkCachedHeader h (Z.of_nat (S i)) in
      let t' := mkToyHeaders (take (S i) (th_trunk t) ++ [h]) (above ++ th_stale t) in
      if decide (above = []) then (Stored stored None (Some [header_hash h]), t')
      else if forks then (Stored stored (Some (header_hash <$> reverse above)) (Some [header_hash h]), t')
      else (NotStored, t)
  end.

Definition ToyChain (forks : bool) : HeaderChain := {|
  HeaderDB := toy_headers;
  view := toy_view;
  chain_add_header := toy_add_header forks;
  header_locators t := header_hash <$> reverse (th_trunk t);
  SERVICE_BLOCKS := 1
|}.

(** Without forks the trunk only grows. *)
Lemma toy_get_snoc t h x :
  cdb_get_header (toy_view t) (header_hash h) = None -> x <> header_hash h ->
  cdb_get_header (toy_view (mkToyHeaders (th_trunk t ++ [h]) (th_stale t))) x = cdb_get_header (toy_view t) x /\
  pos_on_trunk (toy_view (mkToyHeaders (th_trunk t ++ [h]) (th_stale t))) x = pos_on_trunk (toy_view t) x.
Proof.
  intros _ Hx. cbn [cdb_get_header pos_on_trunk toy_view th_trunk th_stale chain_db].
  enough (find_height (th_trunk t ++ [h]) x = find_height (th_trunk t) x) as -> by done.
  unfold find_height. destruct (list_find _ (th_trunk t)) as [[i hd]|] eqn:Hf; [by eapply list_find_app_l|].
  rewrite list_find_app_r by done. cbn. by rewrite decide_False.
Qed.

Lemma toy_get_new t h :
  cdb_get_header (toy_view t) (header_hash h) = None ->
  let t' := mkToyHeaders (th_trunk t ++ [h]) (th_stale t) in
  cdb_get_header (toy_view t') (header_hash h) = Some (mkCachedHeader h (Z.of_nat (length (th_trunk t)))) /\
  pos_on_trunk (toy_view t') (header_hash h) = Some (Z.of_nat (length (th_trunk t))).
Proof.
  cbn [cdb_get_header pos_on_trunk toy_view th_trunk th_stale chain_db]. unfold find_height. intros Hn.
  destruct (list_find _ (th_trunk t)) as [[i hd]|] eqn:Hf; [done|].
  rewrite list_find_app_r by done. cbn. rewrite decide_True by done. done.
Qed.

Lemma toy_trunk_snoc t chain h tip :
  trunk_of (toy_view t) chain -> last (th_trunk t) = Some tip -> prev_blockhash h = header_hash tip ->
  header_hash h <> hash_default -> cdb_get_header (toy_view t) (header_hash h) = None ->
  length chain = length (th_trunk t) /\
  trunk_of (toy_view (mkToyHeaders (th_trunk t ++ [h]) (th_stale t))) (chain ++ [h]).
Proof.
  intros Ht Htip Hprev Hnd Hnew. pose proof (trunk_tip _ _ Ht) as Hlast. cbn in Hlast. rewrite Htip in Hlast.
  destruct (last chain) as [tip'|] eqn:Hl; [|done]. injection Hlast as <- Hlen.
  assert (length chain = length (th_trunk t)) as Hlen' by lia. split; [done|].
  assert (header_hash h ∉ header_hash <$> chain) as Hnin.
  { intros (hd & Heq & (i & Hi)%list_elem_of_lookup)%list_elem_of_fmap.
    pose proof (trunk_get _ _ Ht i hd Hi) as Hg. congruence. }
  assert (forall i hd, chain !! i = Some hd -> header_hash hd <> header_hash h) as Hne.
  { intros i hd Hi Heq. apply Hnin. rewrite <- Heq. apply list_elem_of_fmap.
    exists hd. split; [done|]. by eapply list_elem_of_lookup_2. }
  split.
  - split.
    + rewrite fmap_app, NoDup_app. split_and!; [apply Ht| |apply NoDup_singleton].
      intros x Hx ->%list_elem_of_singleton. done.
    + rewrite fmap_app, elem_of_app. intros [Hx|Hx%list_elem_of_singleton]; [by apply (linked_no_default _ Ht)|done].
    + intros h0. destruct chain as [|c0 chain]; [done|]. apply (linked_genesis _ Ht).
    + intros i h1 h2 H1 H2. apply lookup_snoc_Some in H2 as [[Hi H2]|[Hi <-]].
      * rewrite lookup_app_l in H1 by lia. by apply (linked_prev _ Ht i).
      * rewrite lookup_app_l in H1 by lia. rewrite last_lookup, <- Hi in Hl. cbn in Hl. congruence.
  - intros i hd Hi. apply lookup_snoc_Some in Hi as [[Hi Hhd]|[-> <-]].
    + destruct (toy_get_snoc t h (header_hash hd) Hnew) as [-> _]; [by eapply Hne|].
      by apply (trunk_get _ _ Ht).
    + destruct (toy_get_new t h Hnew) as [-> _]. by rewrite Hlen'.
  - intros i hd Hi. apply lookup_snoc_Some in Hi as [[Hi Hhd]|[-> <-]].
    + destruct (toy_get_snoc t h (header_hash hd) Hnew) as [_ ->]; [by eapply Hne|].
      by apply (trunk_pos _ _ Ht i).
    + destruct (toy_get_new t h Hnew) as [_ ->]. by eexists.
  - cbn. by rewrite !last_snoc, !length_app, Hlen'.
Qed.

Lemma toy_linear_fork_free hd t a t' :
  toy_add_header false hd t = (a, t') ->
  match a with
  | Stored stored us _ =>
      us = None /\ forall chain, trunk_of (toy_view t) chain ->
        stored = cached chain (length chain) hd /\ trunk_of (toy_view t') (chain ++ [hd])
  | _ => toy_view t' = toy_view t
  end.
Proof.
  unfold toy_add_header. case_decide as Hn; [by intros [= <- <-]|].
  destruct (find_height (th_trunk t) (prev_blockhash hd)) as [[i h]|] eqn:Hf; [|by intros [= <- <-]].
  apply list_find_Some in Hf as (Hi & Hprev & _).
  case_decide as Hab; [|by intros [= <- <-]]. intros [= <- <-]. split; [done|]. intros chain Ht.
  apply lookup_lt_Some in Hi as Hlt. assert (length (th_trunk t) = S i) as Hlen.
  { apply (f_equal length) in Hab. rewrite length_drop in Hab. cbn in Hab. lia. }
  rewrite firstn_all2, Hab by lia. apply Decidable.not_or in Hn as [Hd Hg].
  destruct (toy_trunk_snoc t chain hd h) as [Hl Ht']; [done| |done..| |].
  - by rewrite last_lookup, Hlen.
  - by apply eq_None_not_Some.
  - split; [unfold cached; by rewrite Hl, Hlen|done].
Qed.

(** ** A cache of bounded size, the last used entry first *)

Section Lru.
Context {K V : Type} `{EqDecision K}.
Implicit Types (l : list (K * V)).

Fixpoint lru_find (k : K) l : option V :=
  match l with
  | [] => None
  | (k', v) :: l => if decide (k' = k) then Some v else lru_find k l
  end.
Definition lru_remove (k : K) l : list (K * V) := filter (λ kv, kv.1 <> k) l.

Lemma lru_find_remove k k' l : k' <> k -> lru_find k' (lru_remove k l) = lru_find k' l.
Proof.
  intros Hne. unfold lru_remove. induction l as [|[k0 v] l IH]; [done|].
  destruct (decide (k0 = k)) as [->|Hk].
  - rewrite filter_cons_False by (by intros Hn; apply Hn). cbn. by rewrite decide_False.
  - rewrite filter_cons_True by done. cbn. case_decide; [done|exact IH].
Qed.

Lemma lru_find_take n k v l : lru_find k (take n l) = Some v -> lru_find k l = Some v.
Proof.
  revert n. induction l as [|[k0 v0] l IH]; intros [|n]; try done. cbn. case_decide; [done|apply IH].
Qed.

#[export] Instance ToyLru : LruCaches K V := {|
  LruCache := nat * list (K * V);
  lru_new n := (Z.to_nat n, []);
  contains_key k c := bool_decide (is_Some (lru_find k c.2));
  get_mut k c := match lru_find k c.2 with
                 | Some v => (Some v, (c.1, (k, v) :: lru_remove k c.2))
                 | None => (None, c)
                 end;
  lru_insert k v c := (lru_find k c.2, (c.1, take (S c.1) ((k, v) :: lru_remove k c.2)))
|}.

Lemma toy_get_mut_fst k (c : LruCache K V) : (get_mut k c).1 = lru_find k c.2.
Proof. cbn. by destruct (lru_find k c.2). Qed.

#[export] Instance ToyLru_laws : LruLaws K V.
Proof.
  split.
  - done.
  - intros k c. by rewrite toy_get_mut_fst.
  - intros k k' [n l]. rewrite !toy_get_mut_fst. cbn. destruct (lru_find k l) as [v|] eqn:Hk; [|done].
    cbn. case_decide as Hd; [by subst|]. by apply lru_find_remove.
  - intros k v c. by rewrite toy_get_mut_fst.
  - intros k v c. rewrite toy_get_mut_fst. cbn. by rewrite decide_True.
  - intros k v k' v' [n l]. rewrite !toy_get_mut_fst. cbn [lru_insert ToyLru snd].
    intros Hf%lru_find_take. cbn in Hf |- *. case_decide as Hd; [by left|]. right.
    rewrite <- Hf. symmetry. by apply lru_find_remove.
Qed.
End Lru.

(** ** Keys: an account has no secrets *)

Definition toy_network (k : Z) : Network := match k with 0 => Net_Bitcoin | 1 => Net_Testnet | _ => Net_Regtest end.
Definition toy_network_number (n : Network) : Z :=
  match n with Net_Bitcoin => 0 | Net_Testnet => 1 | Net_Regtest => 2 end.

#[export] Instance ToyKeys : @WalletKeys ToyBitcoin ToyWallet := {|
  Mnemonic := list Z;
  ExtendedPubKey := Z;
  xpub_network := toy_network;
  mnemonic_new := Some;
  from_mnemonic _ _ n _ := Some (mkToyMaster (toy_network_number n) ∅);
  master_from_encrypted _ k _ := mkToyMaster k ∅;
  xpub_from_str l := match l with [k] => Some k | _ => None end;
  xpub_to_string k := [if decide (k = 0) then 0 else 1];
  master_public m := m_net m;
  master_encrypted _ := [];
  master_birth _ := 5;
  add_account a m := <[acc_number a := a]> m;
  account_new _ _ n sub _ := Some (mkToyAccount (n, sub) 0 [[9; n; sub]])
|}.

#[export] Instance ToyKeys_laws : @StorageLaws ToyBitcoin ToyWallet ToyKeys ToyStorage.
Proof.
  split; [done| | |done| |done| |].
  - intros k. cbn. unfold toy_network. destruct k as [|[]|]; done.
  - intros k Hk. exists 1. split; [|done]. cbn in Hk |- *. by destruct k.
  - intros words now network password m. cbn. intros [= <-].
    split; [done|]. split; [by destruct network|]. intros l. induction l as [|a l IH]; intros Hnd; [done|].
    apply NoDup_cons in Hnd as [Hnin Hnd]. cbn [foldr]. cbn in Hnin, Hnd, IH |- *.
    unfold insert at 1, toy_master_insert. cbn [m_accounts].
    rewrite map_to_list_insert; [cbn; by rewrite IH|].
    clear IH Hnd. induction l as [|b l IHl]; [done|]. cbn in Hnin |- *.
    unfold insert at 1, toy_master_insert. cbn [m_accounts].
    apply not_elem_of_cons in Hnin as [Hne Hnin]. rewrite lookup_insert_ne; [by apply IHl|].
    intros Heq. apply Hne. by rewrite Heq.
  - intros u ty n sub la a. cbn. intros [= <-]. split; [done|]. split; [done|]. by eexists.
  - intros m pass u ty n sub la a i _ _. cbn. by intros [= <-] [= <-].
Qed.

(** ** A buffer of bytes, for two kinds of messages *)

(** The bytes read and not read since the last commit. *)
Definition toy_buffer : Type := str * str.
Definition toy_enc (e : @Envelope ToyBitcoin) : option str :=
  match payload e with
  | Verack => Some [1; magic e]
  | Get [] => Some [2; magic e; 0]
  | _ => None
  end.
Definition toy_next (b : toy_buffer) : CborItem (@Envelope ToyBitcoin) * toy_buffer :=
  match b.2 with
  | [] => (NoItem, b)
  | 1 :: m :: l => (Item (mkEnvelope _ m Verack), (b.1 ++ [1; m], l))
  | 2 :: m :: 0 :: l => (Item (mkEnvelope _ m (Get [])), (b.1 ++ [2; m; 0], l))
  | [1] | [2] | [2; _] => (CborEof, (b.1 ++ b.2, []))
  | _ => (CborOther, b)
  end.

#[export] Instance ToyBuffer : MessageBuffer (@Envelope ToyBitcoin) := {|
  Buffer := toy_buffer;
  buffer_len b := Z.of_nat (length b.2);
  commit b := ([], b.2);
  rollback b := ([], b.1 ++ b.2);
  next_item := toy_next;
  to_writer e b := (λ bs, (b.1, b.2 ++ bs)) <$> toy_enc e
|}.

Lemma toy_enc_cases e bs :
  toy_enc e = Some bs -> (e = mkEnvelope _ (magic e) Verack /\ bs = [1; magic e]) \/
    (e = mkEnvelope _ (magic e) (Get []) /\ bs = [2; magic e; 0]).
Proof.
  destruct e as [m p]. unfold toy_enc. cbn. destruct p as [| | | | | |[]|]; try done; intros [= <-]; [left|right]; done.
Qed.

#[export, refine] Instance ToyBufferLaws : MessageBufferLaws (@Envelope ToyBitcoin) := {|
  enc := toy_enc;
  pending b := b.1 ++ b.2;
  unread b := b.2;
  arrive bs b := (b.1, b.2 ++ bs)
|}.
Proof.
  - intros e He. by destruct (toy_enc_cases _ _ He) as [[_ ?]|[_ ?]].
  - intros bs [r u]. cbn. by rewrite app_assoc.
  - done.
  - done.
  - done.
  - done.
  - done.
  - intros [r u] Hu. cbn in Hu. by subst u.
  - intros [r u]. cbn. unfold toy_next. cbn. repeat case_match; simplify_eq/=; by rewrite <- ?app_assoc, ?app_nil_r.
  - intros [r u] Hu. cbn in Hu. by subst u.
  - intros [r u] e bs rest He Hu. cbn in Hu. subst u.
    by destruct (toy_enc_cases _ _ He) as [[He' ->]|[He' ->]]; cbn; rewrite <- He'.
  - intros [r u] e part rest He Hpart Hrest Hu. cbn in Hu. subst u.
    destruct (toy_enc_cases _ _ He) as [[_ Hb]|[_ Hb]];
      destruct part as [|x [|y [|z part]]]; simplify_eq/=; try done.
    by destruct part, rest.
  - done.
Defined.
