(* ===== verification/BlockDownloadExamples.v ===== *)
(** * Examples: the download of a small chain, with a fork

    Four linked headers, the last of which competes with the third one. *)

From S2P Require Import Prelude Machine IbltTable Keys Strings Text Bitcoin Content Effects Db DbContent.
From S2P Require Import Wallet DbWallet Trunk Store StoreTables StoreSpec Messages BlockDownload.
From S2P Require Import BlockDownloadSpec BlockDownloadStart Network NetworkSpec ResumeSpec Toy StoreExamples ToyNetwork.
#[local] Open Scope Z_scope.

Module BlockDownloadExamples.
Import StoreExamples.
#[local] Opaque generate_ksequence.

Definition hd0 : BlockHeader := mkBlockHeader 1 hash_default hash_default 10 7 0.
Definition hd1 : BlockHeader := mkBlockHeader 1 (toy_header_hash hd0) hash_default 20 7 1.
Definition hd2 : BlockHeader := mkBlockHeader 1 (toy_header_hash hd1) hash_default 30 7 2.
Definition hd2' : BlockHeader := mkBlockHeader 1 (toy_header_hash hd1) hash_default 31 7 3.
Definition chain3 : list BlockHeader := [hd0; hd1; hd2].

Lemma toy_linked (chain : list BlockHeader) :
  bool_decide (NoDup (header_hash <$> chain)) = true ->
  bool_decide (hash_default ∈ header_hash <$> chain) = false ->
  (forall h, chain !! 0%nat = Some h -> prev_blockhash h = hash_default) ->
  (forall i h h', chain !! i = Some h -> chain !! S i = Some h' -> prev_blockhash h' = header_hash h) ->
  linked chain.
Proof. intros Hn%bool_decide_eq_true Hd%bool_decide_eq_false Hg Hp. by split. Qed.

Lemma chain3_linked : linked chain3.
Proof.
  apply toy_linked; [vm_compute; reflexivity..|by intros h [= <-]|].
  intros [|[|[|i]]] h h' Hh Hh'; cbn in Hh, Hh'; by simplify_eq.
Qed.

(** ** Blocks in the order of the headers *)

Definition peer1 : @PeerId ToyPeers := 1.
Definition services0 (pid : @PeerId ToyPeers) : option Z := Some 1.
Definition msgs0 : list (@PeerMessage ToyPeers NetworkMessage) :=
  [Connected 1 None; Incoming 1 (NM_Headers [hd2]); Incoming 1 (NM_Block (mkBlock hd1 []));
   Disconnected 1 false; Incoming 2 (NM_Block (mkBlock hd2 []))].
Definition linear : HeaderChain := ToyChain false.

Section Linear.
#[local] Existing Instance linear.
Definition db0 : @HeaderDB linear := mkToyHeaders [hd0; hd1] [].
Definition s_start : @BlockDownload linear ToyPeers ToyTimeouts :=
  mkBlockDownload _ _ _ db0 ∅ [] [] [(header_hash hd1, 1)] [] None 5.
Definition s_end : BlockDownload := (BlockDownloadOps.run services0 msgs0 s_start).2.

Lemma linear_fork_free : fork_free.
Proof. intros hd db a db'. apply toy_linear_fork_free. Qed.

Lemma s_start_new fuel (t : Timeout BitcoinReply) :
  (2 < fuel)%nat -> t = ∅ -> BlockDownloadOps.new fuel db0 t (Some (header_hash hd0)) 5 = Ok (Some s_start).
Proof.
  intros Hf ->. unfold BlockDownloadOps.new. destruct fuel as [|[|[|fuel]]]; [lia..|].
  assert (BlockDownloadOps.wanted_at_start (S (S (S fuel))) (view db0) (Some (header_hash hd0)) 5 =
    Ok (Some [(header_hash hd1, 1)])) as -> by (vm_compute; reflexivity).
  reflexivity.
Qed.
Lemma s_end_run : BlockDownloadOps.run services0 msgs0 s_start = (Ok (), s_end).
Proof.
  unfold s_end. rewrite (surjective_pairing (BlockDownloadOps.run services0 msgs0 s_start)) at 1.
  apply (f_equal (λ r, (r, (BlockDownloadOps.run services0 msgs0 s_start).2))). vm_compute. reflexivity.
Qed.

Lemma blocks_in_header_order_witness :
  passed_blocks (downstream s_end) ++ blocks_asked s_end ++ blocks_wanted s_end =
  blocks_wanted s_start ++ passed_headers (downstream s_end).
Proof.
  apply (blocks_in_header_order services0 3 db0 ∅ (Some (header_hash hd0)) 5 msgs0).
  - exact (fork_free_no_reorgs linear_fork_free).
  - by apply s_start_new; [lia|].
  - exact s_end_run.
Defined.

(** The first block went downstream, the second is asked for again. *)
Example s_end_blocks :
  passed_blocks (downstream s_end) = [(header_hash hd1, 1)] /\ blocks_asked s_end = [(header_hash hd2, 2)].
Proof. split; vm_compute; reflexivity. Qed.

(** ** A restart after that run *)

Definition up_db : DB := set_processed (Some (to_hex_d (header_hash hd0))) db1.
Definition store_up : ContentStore := store_on up_db.
Definition calls0 : list (Trunk * @Downstream) := (λ d, (chain_trunk, d)) <$> downstream s_end.
Definition store_after : ContentStore :=
  (for_each_do calls0 (λ '(trunk, d), BitcoinDriver.drive trunk d) store_up).2.

Lemma db0_trunk : trunk_of (view db0) [hd0; hd1].
Proof.
  apply toy_view_trunk. apply toy_linked; [vm_compute; reflexivity..|by intros h [= <-]|].
  intros [|[|i]] h h' Hh Hh'; cbn in Hh, Hh'; by simplify_eq.
Qed.

Lemma up_processed : WalletTables.read_processed (db store_up) = Ok (Some (header_hash hd0)).
Proof. vm_compute. reflexivity. Qed.
Lemma s_start_catch_up :
  P2PBitcoin.catch_up 4 db0 (∅ : Timeout BitcoinReply) 5 store_up = (Ok (Some s_start), store_up).
Proof.
  rewrite (catch_up_on_trunk 4 db0 ∅ 5 store_up _ _ db0_trunk ltac:(lia) up_processed).
  - by rewrite s_start_new by (done || lia).
  - right. by exists 0%nat, hd0.
Qed.
Lemma store_after_run :
  for_each_do calls0 (λ '(trunk, d), BitcoinDriver.drive trunk d) store_up = (Ok (), store_after).
Proof.
  unfold store_after. set (r := for_each_do calls0 _ store_up). rewrite (surjective_pairing r) at 1.
  apply (f_equal (λ x, (x, r.2))). unfold r. vm_compute. reflexivity.
Qed.

Lemma restart_loses_nothing_witness :
  exists news, trunk_of (view (chaindb s_end)) ([hd0; hd1] ++ news) /\
    forall j fuel' (t' : Timeout BitcoinReply), passes_birth ([hd0; hd1] ++ news) 5 j ->
    (length ([hd0; hd1] ++ news) + 1 < fuel')%nat ->
    exists s1, P2PBitcoin.catch_up fuel' (chaindb s_end) t' 5 store_after = (Ok (Some s1), store_after) /\
      blocks_asked s1 = [] /\ blocks_wanted s1 = blocks_asked s_end ++ blocks_wanted s_end /\
      passed_blocks (downstream s_end) ++ blocks_wanted s1 = blocks_from ([hd0; hd1] ++ news) (max 1 j).
Proof.
  apply (restart_loses_nothing services0 [hd0; hd1] (Some (header_hash hd0)) 5 1 4 db0 ∅ msgs0 calls0
           s_start s_end store_up store_after).
  - exact linear_fork_free.
  - exact db0_trunk.
  - discriminate.
  - split.
    + cbn. lia.
    + intros [|[|k]] hk Hk; cbn; [lia|intros [= <-]; cbn; lia|done].
    + right. exists 0%nat, hd0. split_and!; [lia|done|done].
    + intros j [= <-]. exists hd0. split; [done|by left].
  - cbn. lia.
  - exact up_processed.
  - exact s_start_catch_up.
  - exact s_end_run.
  - unfold calls0. rewrite <- list_fmap_compose. apply list_fmap_id.
  - exact store_after_run.
Defined.
End Linear.

(** ** The blocks wanted at start *)

Definition cdb3 : ChainDB := chain_db chain3.
Lemma cdb3_trunk : trunk_of cdb3 chain3.
Proof. exact (chain_db_trunk _ chain3_linked). Qed.

(** Where the times fall behind the birth again, the walk back stops early: the
    block of [hd1] was wanted while its header arrived, and is not after a restart. *)
Definition dip2 : BlockHeader := mkBlockHeader 1 (toy_header_hash hd1) hash_default 14 7 4.
Definition dip3 : BlockHeader := mkBlockHeader 1 (toy_header_hash dip2) hash_default 30 7 5.
Example wanted_dropped_at_restart :
  born_after 15 (at_heights 1 [hd1; dip2; dip3]) = [(1, hd1); (3, dip3)] /\
  BlockDownloadOps.wanted_at_start 6 (chain_db [hd0; hd1; dip2; dip3]) None 15 =
    Ok (Some [(header_hash dip3, 3)]).
Proof. split; vm_compute; reflexivity. Qed.

Lemma chain3_born k hk : chain3 !! k = Some hk -> 5 <= time hk.
Proof. intros Hk. destruct k as [|[|[|k]]]; cbn in Hk; simplify_eq; cbn; lia. Qed.

Lemma wanted_at_start_spec_witness :
  ((forall j hj, chain3 !! j = Some hj ->
     Some (header_hash hd1) = Some (header_hash hj) \/ ((j + 1 < length chain3)%nat /\ time hj < 5) ->
     (forall k hk, (j < k)%nat -> chain3 !! k = Some hk ->
        Some (header_hash hd1) <> Some (header_hash hk) /\ 5 <= time hk) ->
     BlockDownloadOps.wanted_at_start 5 cdb3 (Some (header_hash hd1)) 5 =
       Ok (Some (blocks_from chain3 (S j)))) /\
  (Some (header_hash hd1) = None -> (forall k hk, chain3 !! k = Some hk -> 5 <= time hk) ->
     BlockDownloadOps.wanted_at_start 5 cdb3 (Some (header_hash hd1)) 5 =
       Ok (Some (blocks_from chain3 0)))) /\
  BlockDownloadOps.wanted_at_start 5 cdb3 (Some (header_hash hd1)) 5 = Ok (Some [(header_hash hd2, 2)]).
Proof.
  split; [|vm_compute; reflexivity].
  apply (wanted_at_start_spec cdb3 chain3 hd2 (Some (header_hash hd1)) 5 5).
  - exact cdb3_trunk.
  - reflexivity.
  - cbn. lia.
  - cbn. lia.
Defined.

Lemma hd2'_not_on_chain3 : header_hash hd2' ∉ header_hash <$> chain3.
Proof.
  assert (bool_decide (header_hash hd2' ∈ header_hash <$> chain3) = false) as Hb by (vm_compute; reflexivity).
  by apply bool_decide_eq_false in Hb.
Qed.
Lemma hd2'_hash : header_hash hd2' <> hash_default.
Proof.
  assert (bool_decide (header_hash hd2' = hash_default) = false) as Hb by (vm_compute; reflexivity).
  by apply bool_decide_eq_false in Hb.
Qed.

Lemma stale_processed_diverges_witness :
  BlockDownloadOps.wanted_at_start 1000 cdb3 (Some (header_hash hd2')) 5 = Ok None.
Proof.
  apply (stale_processed_diverges cdb3 chain3 hd2 (header_hash hd2') 5 1000).
  - exact cdb3_trunk.
  - reflexivity.
  - cbn. lia.
  - exact chain3_born.
  - exact hd2'_hash.
  - exact hd2'_not_on_chain3.
Defined.

(** ** A re-org while the block that lost is on its way *)

Definition forked : HeaderChain := ToyChain true.

Section Forked.
#[local] Existing Instance forked.
Definition db3 : @HeaderDB forked := mkToyHeaders chain3 [].
Definition db3' : @HeaderDB forked := mkToyHeaders [hd0; hd1; hd2'] [hd2].
Definition s_asked : @BlockDownload forked ToyPeers ToyTimeouts :=
  mkBlockDownload _ _ _ db3 ∅ [] [] [] [(header_hash hd2, 2)] (Some 1) 5.

Lemma new_header_spec_witness :
  exists s', BlockDownloadOps.on_headers [hd2'] peer1 s_asked = (Ok (), s') /\
    chaindb s' = db3' /\ blocks_asked s' = blocks_asked s_asked /\
    blocks_wanted s' = take (length (blocks_wanted s_asked) - length (younger s_asked [hd2])) (blocks_wanted s_asked) ++
      (if decide (birth s_asked < time hd2') then [(header_hash hd2', 2)] else []) /\
    downstream s' = downstream s_asked ++ (block_disconnected <$> younger s_asked [hd2]) ++
      (if decide (birth s_asked < time hd2') then [header_connected hd2' 2] else []) /\
    forall b n rest peer,
      blocks_asked s_asked = (header_hash (header b), n) :: rest -> block_download_peer s_asked = Some peer ->
      exists s2, BlockDownloadOps.on_block b peer s' = (Ok (), s2) /\
        downstream s2 = downstream s' ++ [block_connected b n].
Proof.
  apply (new_header_spec hd2' (mkCachedHeader hd2' 2) (Some [header_hash hd2]) (Some [header_hash hd2'])
           (mkCachedHeader hd2 2) db3' [hd2] peer1 s_asked).
  - reflexivity.
  - vm_compute. reflexivity.
  - discriminate.
  - vm_compute. reflexivity.
Defined.

(** Here both headers are younger than the wallet. *)
Example unwound_and_wanted :
  younger s_asked [hd2] = [hd2] /\ birth s_asked < time hd2'.
Proof. split; [reflexivity|cbn; lia]. Qed.

(** ** The same re-org while the node was down *)

Definition down_db : DB := set_processed (Some (to_hex_d (header_hash hd2))) db1.
Definition store_down : ContentStore := store_on down_db.

Lemma start_after_reorg_witness :
  exists s', P2PBitcoin.catch_up 5 db3' (∅ : Timeout BitcoinReply) 5 store_down =
      (BlockDownloadOps.new 5 db3' ∅ (Some (header_hash hd2)) 5, s') /\
    cache_ok s' /\ same_rest store_down s' /\
    WalletTables.read_processed (db s') = Ok (Some (header_hash hd1)) /\
    (forall id r, Db.content (db s') !! id = Some r <->
       Db.content (db store_down) !! id = Some r /\
       forall h, h ∈ [hd2] -> r_block_id r <> to_hex_d (header_hash h)).
Proof.
  apply (start_after_reorg 5 db3' (∅ : Timeout BitcoinReply) 5 (header_hash hd2) [hd2] (header_hash hd1) store_down).
  - apply store_on_cache. exact db1_wf.
  - vm_compute. reflexivity.
  - split; [reflexivity|]. split; [exists 0; vm_compute; reflexivity|].
    split; [vm_compute; reflexivity|].
    split; [reflexivity|split; [exists 1; vm_compute; reflexivity|]].
    exists (mkCachedHeader hd1 1). vm_compute. reflexivity.
  - cbn. lia.
Defined.
End Forked.
End BlockDownloadExamples.
