(* ===== verification/NetworkExamples.v ===== *)
(** * Examples: the address table, discovery and the set-up of the networks *)

From S2P Require Import Prelude Machine IbltTable IbltCells IbltAlgebra IbltRefine IbltPeel IbltSync Sketch.
From S2P Require Import Keys Strings Text Bitcoin Content Effects Db DbContent DbContentSpec Wallet DbWallet Trunk.
From S2P Require Import Store Messages BlockDownload Address AddressSpec Updater Discovery DiscoverySpec DiscoverySync.
From S2P Require Import Network NetworkSpec Framing Toy ToyNetwork.
#[local] Open Scope Z_scope.

Module NetworkExamples.

Definition addr1 : SocketAddr := V4 [# 10; 0; 0; 1] 21766.
Definition addr2 : SocketAddr := V4 [# 10; 0; 0; 2] 21766.
Definition now0 : Z := 1000000000.

(** The address table with the row of one node in its slot. *)
Definition seeded : DB := set_seed (Some (1, 2)) create_tables.
Definition slot1 : Z := AddressTable.address_slot 1 2 DEFIADS addr1.
Definition addr_db : DB :=
  set_address (<[(DEFIADS, slot1) := new_row addr1 (now0 - 10) (now0 - 10) 0]> ∅) seeded.

Lemma addr_db_rows k r : Db.address addr_db !! k = Some r ->
  k = (DEFIADS, slot1) /\ r = new_row addr1 (now0 - 10) (now0 - 10) 0.
Proof.
  cbn [Db.address addr_db set_address]. intros [[<- <-]|[_ Hr]]%lookup_insert_Some; [done|].
  by rewrite lookup_empty in Hr.
Qed.

Lemma addr_db_shown : rows_shown addr_db.
Proof. by intros k r [-> ->]%addr_db_rows. Qed.

Lemma store_address_spec_witness :
  let slot := AddressTable.address_slot (slot_keys 3 4 addr_db).1 (slot_keys 3 4 addr_db).2 DEFIADS addr1 in
  exists n db' r', AddressTable.store_address 3 4 now0 DEFIADS addr1 now0 now0 0 addr_db = (Ok n, db') /\
    Db.content db' = Db.content addr_db /\ rows_shown db' /\
    (forall k, k <> (DEFIADS, slot) -> Db.address db' !! k = Db.address addr_db !! k) /\
    Db.address db' !! (DEFIADS, slot) = Some r' /\
    (Db.address addr_db !! (DEFIADS, slot) = None -> r' = new_row addr1 now0 now0 0) /\
    (forall r, Db.address addr_db !! (DEFIADS, slot) = Some r ->
       (ip r' <> ip r -> ip r <> addr1 /\ r' = new_row addr1 now0 now0 0 /\
          (0 < u64 (Db.banned r) \/ u64 (Db.connected r) < u64 (now0 - OLD_CONNECTION))) /\
       (ip r = addr1 -> u64 (Db.connected r') = Z.max (u64 (Db.connected r)) now0 /\
          u64 (Db.last_seen r') = Z.max (u64 (Db.last_seen r)) now0 /\
          u64 (Db.banned r') = Z.max (u64 (Db.banned r)) 0) /\
       (ip r <> addr1 -> u64 (Db.banned r) = 0 -> u64 (now0 - OLD_CONNECTION) <= u64 (Db.connected r) -> r' = r)).
Proof.
  apply (store_address_spec 3 4 now0 DEFIADS addr1 now0 now0 0 addr_db);
    [unfold is_u64, now0; lia..|exact addr_db_shown].
Defined.

(** ** Addresses that a peer sends *)

Definition disc0 : @Discovery ToyBitcoin ToyPeers ToyTimeouts :=
  mkDiscovery _ _ _ addr_db ∅ [] ∅ ∅ (<[(1 : @PeerId ToyPeers) := addr2]> ∅) 0.
Definition peer_table : IBLT NetAddress :=
  match (t ← Iblt.new (E:=Error) 10 2 K0 K1; Iblt.insert t (NetAddressOps.new addr2)) with
  | Ok t => t | _ => mkIBLT [] 0 0 0 []
  end.
Definition peer1 : @PeerId ToyPeers := 1.
Definition learned := DiscoveryOps.on_address_iblt 3 4 20 now0 peer1 peer_table disc0.

Lemma learned_ok : learned = (Ok (Some ()), learned.2).
Proof.
  rewrite (surjective_pairing learned) at 1. apply (f_equal (λ r, (r, learned.2))).
  vm_compute. reflexivity.
Qed.

Lemma learned_addresses_are_safe_witness :
  rows_shown (d_db learned.2) /\ Db.content (d_db learned.2) = Db.content (d_db disc0) /\
  forall network slot r, Db.address (d_db disc0) !! (network, slot) = Some r ->
    (network <> DEFIADS -> Db.address (d_db learned.2) !! (network, slot) = Some r) /\
    (trusted now0 r -> exists r', Db.address (d_db learned.2) !! (network, slot) = Some r' /\ no_worse r r').
Proof.
  apply (learned_addresses_are_safe 3 4 20 now0 peer1 peer_table disc0 (Some ()) learned.2).
  - unfold is_u64, now0. lia.
  - exact addr_db_shown.
  - exact learned_ok.
Defined.

(** The address of the table is in its slot now. *)
Example learned_addr2 :
  Db.address (d_db learned.2) !! (DEFIADS, AddressTable.address_slot 1 2 DEFIADS addr2) =
  Some (new_row addr2 0 now0 0).
Proof. vm_compute. reflexivity. Qed.

(** The node sent the table of its address; the peer knows one more. *)
Definition ours : list NetAddress := [NetAddressOps.new addr1].
Definition theirs : list NetAddress := [NetAddressOps.new addr1; NetAddressOps.new addr2].
Definition table_with (keys : list NetAddress) : IBLT NetAddress :=
  match build (E:=Error) 10 NH K0 K1 keys with Ok t => t | _ => peer_table end.
Definition disc1 : @Discovery ToyBitcoin ToyPeers ToyTimeouts :=
  DiscoveryOps.set_iblt_sent (<[peer1 := table_with ours]> ∅) disc0.

Lemma table_with_of keys : table_of 10 keys (table_with keys).
Proof.
  apply build_table_of; [lia|]. unfold table_with.
  destruct (build_is_table_of 10 keys) as (t & Ht & _); [lia|]. by rewrite Ht.
Qed.

Lemma ours_theirs : NoDup ours /\ NoDup theirs /\
  honest (new_params 10 NH K0 K1) (set_diff theirs ours).
Proof.
  split_and!; [apply (bool_decide_unpack _); by vm_compute..|].
  apply honestb_honest. vm_compute. reflexivity.
Qed.

Lemma address_table_learned_witness :
  let k := slot_keys 3 4 (d_db disc1) in
  exists keys d', DiscoveryOps.on_address_iblt 3 4 20 now0 peer1 (table_with theirs) disc1 = (Ok (Some ()), d') /\
    NoDup keys /\ (forall key, key ∈ keys -> key ∈ theirs /\ key ∉ ours) /\
    ((forall R, R ⊆+ set_diff theirs ours -> stuck (new_params 10 NH K0 K1) R -> R = []) ->
     keys ≡ₚ list_difference theirs ours) /\
    Db.address (d_db d') = learn_all k now0 keys (Db.address (d_db disc1)) /\
    (forall a, a ∈ reachable keys -> Db.address (d_db disc1) !! slot_of k a = None ->
       (forall a', a' ∈ reachable keys -> slot_of k a' = slot_of k a -> a' = a) ->
       Db.address (d_db d') !! slot_of k a = Some (new_row a 0 now0 0)) /\
    Db.content (d_db d') = Db.content (d_db disc1) /\
    iblt_sent d' = delete peer1 (iblt_sent disc1) /\ d_outbox d' = d_outbox disc1.
Proof.
  apply (address_table_learned 3 4 ltac:(unfold is_u64; lia) ltac:(unfold is_u64; lia) 10 20 now0 peer1
    (table_with theirs) (table_with ours) ours theirs disc1).
  - unfold is_u64, now0. lia.
  - exact (proj1 ours_theirs).
  - exact (proj1 (proj2 ours_theirs)).
  - apply lookup_insert_eq.
  - apply table_with_of.
  - apply table_with_of.
  - exact (proj2 (proj2 ours_theirs)).
  - cbn. lia.
Defined.

Lemma discovery_bookkeeping_witness :
  (forall d', DiscoveryOps.on_connected 3 4 now0 peer1 (Some addr2) disc0 = (Ok (), d') -> d_db d' = d_db disc0) /\
  (forall a, Discovery.addresses disc0 !! peer1 = Some a ->
     exists d', DiscoveryOps.on_disconnected 3 4 now0 peer1 true disc0 = (Ok (), d') /\
       (forall network slot, network <> BITCOIN ->
          Db.address (d_db d') !! (network, slot) = Db.address (d_db disc0) !! (network, slot)) /\
       let keys := slot_keys 3 4 (d_db disc0) in
       let slot := AddressTable.address_slot keys.1 keys.2 BITCOIN a in
       (Db.address (d_db disc0) !! (BITCOIN, slot) = None ->
        Db.address (d_db d') !! (BITCOIN, slot) = Some (new_row a 0 0 now0))).
Proof.
  apply (discovery_bookkeeping 3 4 now0 peer1 (Some addr2) disc0).
  - unfold is_u64, now0. lia.
  - exact addr_db_shown.
Defined.

(** ** Bans *)

Definition pool0 : @AddressPool ToyPeers := mkAddressPool _ addr_db (<[peer1 := addr1]> ∅).

(** The banned address is heard of again, on its network, and another one on bitcoin. *)
Definition heard : list Learned :=
  [mkLearned 3 4 (now0 + 60) DEFIADS addr1 0 (now0 + 60) 0; mkLearned 3 4 (now0 + 90) BITCOIN addr2 0 now0 0].

Lemma banned_for_a_day_witness :
  exists m' db', AddressPoolMaintainer.on_disconnected 3 4 DEFIADS now0 peer1 true pool0 = (Ok (), m') /\
    pool_addresses m' = delete peer1 (pool_addresses pool0) /\
    for_each_do heard hear (pool_db m') = (Ok (), db') /\
    forall tried, KeepConnected.poll DEFIADS 5 (now0 + 3600) [] [] 0 0%nat 7 db' ∅ = Ok (tried, Some addr1) ->
      addr1 ∈ [].
Proof.
  apply (banned_for_a_day 3 4 DEFIADS now0 peer1 addr1 pool0 heard (now0 + 3600) 5 [] [] 0 0%nat 7 ∅).
  - split; [exact addr_db_shown|]. intros network slot r [Hk ->]%addr_db_rows.
    apply pair_equal_spec in Hk as [-> ->]. split; [vm_compute; reflexivity|]. vm_compute. split; [discriminate|reflexivity].
  - unfold is_u64. lia.
  - unfold is_u64. lia.
  - unfold now0. lia.
  - unfold now0, BAN_TIME. lia.
  - unfold now0. lia.
  - apply lookup_insert_eq.
  - reflexivity.
  - apply Forall_cons. split; [|apply Forall_singleton].
    + split; [unfold is_u64; cbn; lia|]. split; [unfold is_u64; cbn; lia|]. split; [cbn; lia|].
      intros _ _. split; [done|]. intros r [Hk ->]%addr_db_rows. by left.
    + split; [unfold is_u64; cbn; lia|]. split; [unfold is_u64; cbn; lia|]. split; [cbn; lia|].
      intros Hn. exfalso. assert (bool_decide (BITCOIN = DEFIADS) = false) as Hb by (vm_compute; reflexivity).
      exact (proj1 (bool_decide_eq_false _) Hb Hn).
Defined.

(** ** Two messages in three pieces, the second one not there yet *)

Definition wire : list Message := [Verack; Get []].
Definition pieces : list str := [[1]; [MAGIC; 2]; [MAGIC]].
Definition empty_buffer : @Buffer _ ToyBuffer := ([], []).
Definition sent_buffer : @Buffer _ ToyBuffer := ([], [1; MAGIC; 2; MAGIC; 0]).

Lemma stream_decoded_witness :
  exists ms1 ms2 (src' : @Buffer _ ToyBuffer), wire = ms1 ++ ms2 /\
    receive 3 pieces empty_buffer = (Ok (Some ms1), src') /\
    settled src' /\ stream ms2 (pending src' ++ [0]) /\ waiting ms2 (pending src') /\
    ([0] = [] -> ms1 = wire /\ pending src' = []).
Proof.
  apply (stream_decoded wire pieces [0] 3 empty_buffer sent_buffer empty_buffer).
  - reflexivity.
  - reflexivity.
  - reflexivity.
  - reflexivity.
  - reflexivity.
  - cbn. lia.
Defined.

(** The first message is there after the second piece. *)
Lemma first_piece_waits :
  (receive 3 (take 1 pieces) empty_buffer).1 = Ok (Some []) /\
  (receive 3 (take 2 pieces) empty_buffer).1 = Ok (Some [Verack]).
Proof. split; reflexivity. Qed.
End NetworkExamples.
