(* ===== verification/WalletSpec.v ===== *)
(** * Theorems on payments

    The construction of funding and withdrawal transactions: it ends after two
    passes unless the computed fee is zero, what the outputs pay, the difference
    that wraps around when the fee exceeds the amount, and the term that a funding transaction commits to against the term
    that the store remembers. *)

From S2P Require Import Prelude Machine IbltTable Keys Strings Text Bitcoin Content Effects Db.
From S2P Require Import DbContent Wallet DbWallet Trunk Store.
#[local] Open Scope Z_scope.
#[local] Ltac Zify.zify_post_hook ::= Z.to_euclidean_division_equations.

(** What the program relies on of signing and of weights: a signature fills in
    the inputs' scripts and witnesses and nothing else, and a transaction has a
    positive weight (version and lock time alone weigh 32).  No upper bound: a
    wallet of many coins can build a transaction heavier than a block. *)
Class WalletLaws `{WalletCrate} : Prop := {
  sign_outputs : forall m u r tx tx' n, master_sign m u r tx = inr (tx', n) ->
    output tx' = output tx /\ version tx' = version tx /\ lock_time tx' = lock_time tx /\
    length (input tx') = length (input tx) /\
    (λ i, (previous_output i, sequence i)) <$> input tx' = (λ i, (previous_output i, sequence i)) <$> input tx;
  weight_positive : forall tx, 0 < get_weight tx
}.

Section Spend.
Context `{WalletLaws}.
Implicit Types (w : Wallet) (tx : Transaction).

Definition sum_values (outs : list TxOut) : Z := foldr (λ o s, value o + s) 0 outs.

Lemma clamp_fee_range f : MIN_FEE_PER_VBYTE <= WalletOps.clamp_fee f <= MAX_FEE_PER_VBYTE.
Proof. unfold WalletOps.clamp_fee, MAX_FEE_PER_VBYTE, MIN_FEE_PER_VBYTE. lia. Qed.

(** The fee of the second pass, as the 64-bit arithmetic of the code gives it. *)
Definition fee_of (tx : Transaction) (fee_per_vbyte : Z) : Z :=
  u64 (u64 (get_weight tx * fee_per_vbyte) + 3) / 4.

Lemma fee_of_range tx f : 0 <= fee_of tx f < 2 ^ 62.
Proof. unfold fee_of. pose proof (u64_range (u64 (get_weight tx * f) + 3)) as Hr. unfold is_u64 in Hr. lia. Qed.

(** The fee is the exact one below 2^57 weight units, and zero only if the product wraps. *)
Lemma fee_of_exact tx f :
  1 <= f <= 100 -> get_weight tx < 2 ^ 57 -> fee_of tx f = (get_weight tx * f + 3) / 4.
Proof.
  intros Hf Hlt. pose proof (weight_positive tx) as Hw. unfold fee_of.
  assert (0 < get_weight tx * f <= 2 ^ 57 * 100) by nia.
  by rewrite (u64_small (get_weight tx * f)), u64_small by (unfold is_u64; lia).
Qed.

Lemma fee_of_zero tx f : 1 <= f <= 100 -> fee_of tx f = 0 -> 2 ^ 57 <= get_weight tx.
Proof.
  intros Hf Hz. destruct (Z.le_gt_cases (2 ^ 57) (get_weight tx)) as [|Hlt]; [done|].
  rewrite fee_of_exact in Hz by done. pose proof (weight_positive tx). nia.
Qed.

Lemma outputs_ok amount total fee target change flip outs :
  WalletOps.outputs amount total fee target change flip = Ok outs ->
  DUST < u64 (amount - fee) /\
  (exists o, o ∈ outs /\ script_pubkey o = target /\ value o = u64 (amount - fee)) /\
  sum_values outs = u64 (amount - fee) +
    (if decide (DUST < total - amount) then total - amount else 0) /\
  (forall o, o ∈ outs -> script_pubkey o = target /\ value o = u64 (amount - fee) \/
                         script_pubkey o = change /\ value o = total - amount /\ DUST < value o).
Proof.
  unfold WalletOps.outputs. destruct (Z.ltb_spec DUST (u64 (amount - fee))) as [Hd|]; [|done].
  destruct (Z.ltb_spec amount total) as [Ht|Ht], (Z.ltb_spec DUST (total - amount)) as [Hc|Hc]; cbn [andb];
    try (unfold DUST in *; lia).
  - destruct flip; intros [= <-]; cbn [app sum_values foldr value script_pubkey];
      (split; [done|]; split; [exists (mkTxOut (u64 (amount - fee)) target); split; [set_solver|done]|];
       split; [rewrite decide_True by done; lia|]);
      intros o; rewrite !elem_of_cons, elem_of_nil; intros [->|[->|[]]]; cbn; auto.
  - intros [= <-]. split; [done|]. split; [exists (mkTxOut (u64 (amount - fee)) target); split; [set_solver|done]|].
    split; [cbn; rewrite decide_False by lia; lia|].
    intros o. rewrite elem_of_cons, elem_of_nil. intros [->|[]]. auto.
  - intros [= <-]. split; [done|]. split; [exists (mkTxOut (u64 (amount - fee)) target); split; [set_solver|done]|].
    split; [cbn; rewrite decide_False by lia; lia|].
    intros o. rewrite elem_of_cons, elem_of_nil. intros [->|[]]. auto.
Qed.

(** [tx'] is what one pass makes of [tx]: outputs that take off the [fee], signed. *)
Definition pass amount total fee target change flip tx tx' : Prop :=
  WalletOps.outputs amount total fee target change flip = Ok (output tx') /\
  version tx' = version tx /\ lock_time tx' = lock_time tx /\
  (λ i, (previous_output i, sequence i)) <$> input tx' = (λ i, (previous_output i, sequence i)) <$> input tx.

Lemma pass_signed w u coins amount total fee target change flip tx outs tx' n :
  WalletOps.outputs amount total fee target change flip = Ok outs ->
  try_wallet (master_sign (master w) u (WalletOps.resolve coins)
    (mkTransaction (version tx) (lock_time tx) (input tx) outs)) = Ok (tx', n) ->
  pass amount total fee target change flip tx tx'.
Proof.
  intros Ho Hs. destruct (master_sign _ _ _ _) as [e|[tx1 n1]] eqn:Hs1; [done|].
  cbn in Hs. injection Hs as -> ->. apply sign_outputs in Hs1 as (Ho1 & Hv1 & Hl1 & _ & Hi1).
  cbn in *. unfold pass. rewrite Ho1. by split_and!.
Qed.

(** A build that does not fail: two passes, the fee from the weight that the first
    pass signed, the outputs of the second - or a fee of zero, with which the code
    goes round again. *)
Lemma build_tx_ok w u coins amount total f target change flip tx r :
  WalletOps.build_tx WalletOps.LOOP_FUEL w u coins amount total f 0 target change flip tx = Ok r ->
  exists tx1, pass amount total 0 target change (flip 1%nat) tx tx1 /\
    ((fee_of tx1 f = 0 /\ r = None) \/
     exists tx', r = Some (tx', fee_of tx1 f) /\ 1 <= fee_of tx1 f < 2 ^ 62 /\
       pass amount total (fee_of tx1 f) target change (flip 0%nat) tx tx').
Proof.
  intros Hb. unfold WalletOps.LOOP_FUEL in Hb. cbn [WalletOps.build_tx] in Hb.
  destruct (WalletOps.outputs amount total 0 target change (flip 1%nat)) as [outs1| |] eqn:H1'; [|done..].
  cbn [mbind res_bind] in Hb.
  destruct (try_wallet (master_sign _ _ _ _)) as [[tx1 n1]| |] eqn:Hs1; [|done..]. cbn [mbind res_bind] in Hb.
  apply (pass_signed _ _ _ _ _ _ _ _ _ _ _ _ _ H1') in Hs1. exists tx1. split; [done|].
  case_decide; [done|]. change (0 =? 0) with true in Hb. cbv iota in Hb.
  fold (fee_of tx1 f) in Hb. pose proof (fee_of_range tx1 f) as Hr.
  destruct (WalletOps.outputs amount total (fee_of tx1 f) target change (flip 0%nat)) as [outs2| |] eqn:H2';
    [|done..]. cbn [mbind res_bind] in Hb.
  destruct (try_wallet (master_sign _ _ _ _)) as [[tx2 n2]| |] eqn:Hs2; [|done..]. cbn [mbind res_bind] in Hb.
  apply (pass_signed _ _ _ _ _ _ _ _ _ _ _ _ _ H2') in Hs2 as (Ho2 & Hv2 & Hl2 & Hi2).
  case_decide; [done|].
  destruct (Z.eqb_spec (fee_of tx1 f) 0) as [Hz|Hnz]; [left; by injection Hb as <-|].
  injection Hb as <-. right. exists tx2. split; [done|]. split; [lia|].
  destruct Hs1 as (_ & Hv1 & Hl1 & Hi1). split_and!; [done|congruence..].
Qed.
End Spend.

(** ** Withdrawals and fundings *)

Section Payments.
Context `{WalletLaws}.
Implicit Types (w : Wallet) (tx : Transaction).

(** What a transaction that spends [coins] and pays [amount] less the [fee] to
    [target] looks like, as long as the fee does not exceed the amount. *)
Definition pays (coins : list (OutPoint * Coin * Z)) (amount fee height : Z) (target change : Script) tx : Prop :=
  let total := WalletOps.total_input coins in
  amount <= total /\ version tx = 2 /\ lock_time tx = 0 /\
  (λ i, (previous_output i, sequence i)) <$> input tx =
    (λ i, (previous_output i, sequence i)) <$> (WalletOps.tx_in height <$> coins) /\
  DUST < u64 (amount - fee) /\
  (exists o, o ∈ output tx /\ script_pubkey o = target /\ value o = u64 (amount - fee)) /\
  (forall o, o ∈ output tx -> script_pubkey o = target /\ value o = u64 (amount - fee) \/
                              script_pubkey o = change /\ value o = total - amount /\ DUST < value o) /\
  (fee <= amount -> exists dust, 0 <= dust <= DUST /\ sum_values (output tx) + fee + dust = total).

Lemma pass_pays coins amount fee height target change flip tx :
  is_u64 amount -> 0 <= fee -> amount <= WalletOps.total_input coins ->
  pass amount (WalletOps.total_input coins) fee target change flip
    (mkTransaction 2 0 (WalletOps.tx_in height <$> coins) []) tx ->
  pays coins amount fee height target change tx.
Proof.
  intros Ha Hfee Hle (Ho & Hv & Hl & Hi). apply outputs_ok in Ho as (Hd & Hex & Hsum & Hall).
  refine (conj Hle (conj Hv (conj Hl (conj Hi (conj Hd (conj Hex (conj Hall _))))))).
  intros Hfa. assert (is_u64 (amount - fee)) as Hu by (unfold is_u64 in *; lia).
  rewrite u64_small in Hsum by exact Hu.
  exists (if decide (DUST < WalletOps.total_input coins - amount) then 0
          else WalletOps.total_input coins - amount).
  rewrite Hsum. destruct (decide (DUST < WalletOps.total_input coins - amount)); unfold DUST in *; lia.
Qed.

(** [tx1] is the transaction of the first pass, which takes no fee off. *)
Lemma spend_ok u coins amount height f target change flip w r w' :
  is_u64 amount ->
  WalletOps.spend u coins amount height f target change flip w = (Ok r, w') ->
  exists tx1, pays coins amount 0 height target change tx1 /\
    ((fee_of tx1 f = 0 /\ r = None) \/
     exists tx, r = Some (tx, fee_of tx1 f) /\ 1 <= fee_of tx1 f < 2 ^ 62 /\
       pays coins amount (fee_of tx1 f) height target change tx /\
       w' = (let '(m, c) := process_unconfirmed_transaction tx (master w, w_coins w) in mkWallet _ _ c m)).
Proof.
  intros Ha Hs. unfold WalletOps.spend in Hs.
  destruct (Z.ltb_spec (WalletOps.total_input coins) amount) as [|Hle]; [done|].
  unfold mbind, action_bind in Hs.
  destruct (WalletOps.build_tx _ _ _ _ _ _ _ _ _ _ _ _) as [b| |] eqn:Hb; [|done..].
  apply build_tx_ok in Hb as (tx1 & Hp1 & Hb). exists tx1. split; [by eapply pass_pays; [..|exact Hp1]|].
  destruct Hb as [[Hz ->]|(tx & -> & Hfee & Hp)]; [left; by injection Hs as <-|right].
  unfold WalletOps.process_unconfirmed, modify, mret, action_ret in Hs.
  apply pair_equal_spec in Hs as [Hr Hw']. apply (inj Ok) in Hr. subst r w'.
  exists tx. split_and!; [done|lia|lia| |done]. eapply pass_pays; [done|lia|done|exact Hp].
Qed.

(** C20: A withdrawal that succeeds pays the fee that the weight of the signed
    transaction gives, at the requested rate cut to its limits; its transaction
    spends exactly the chosen coins, pays the target the amount less the fee and
    the rest above the dust limit back to a change address, and, when the fee does
    not exceed the amount, loses at most the dust limit beyond the fee.  The loop
    ends after two passes; it goes round again only if the computed fee is zero,
    which takes a transaction so heavy that the 64-bit product wraps around. *)
Theorem withdraw_spec passphrase address f amt len get_height flip w r w' :
  let rate := WalletOps.clamp_fee f in
  let amount := default (WalletOps.available_balance w len get_height) amt in
  let coins := choose_inputs (w_coins w) amount len get_height in
  is_u64 amount ->
  WalletOps.withdraw passphrase address f amt len get_height flip w = (r, w') ->
  (r = Ok None -> exists signed, 2 ^ 57 <= get_weight signed) /\
  forall tx fee, r = Ok (Some (tx, fee)) ->
    exists change signed,
      pays coins amount 0 len (address_script_pubkey address) change signed /\
      fee = fee_of signed rate /\ 1 <= fee /\
      (get_weight signed < 2 ^ 57 -> fee = (get_weight signed * rate + 3) / 4) /\
      pays coins amount fee len (address_script_pubkey address) change tx.
Proof.
  intros rate amount coins Ha Hw. unfold WalletOps.withdraw, gets in Hw.
  unfold mbind at 1, action_bind at 1 in Hw.
  destruct (try_wallet (unlock (master w) passphrase)) as [u|e|p]; [|by injection Hw as <- <-..].
  unfold mbind at 1, action_bind at 1 in Hw. unfold mbind at 1, action_bind at 1 in Hw.
  destruct (WalletOps.next_address (0, 1) w) as [[change|e|p] w1] eqn:Hc; [|by injection Hw as <- <-..].
  unfold mbind at 1, action_bind at 1 in Hw.
  assert (w_coins w1 = w_coins w) as Hcoins.
  { unfold WalletOps.next_address, WalletOps.with_account, mbind, action_bind, lift, modify in Hc.
    destruct (get_account (master w) (0, 1)) as [a|]; [|done]. cbn [unwrap] in Hc.
    destruct (next_key a) as [|[x a']]; [done|]. cbn in Hc. by injection Hc as _ <-. }
  rewrite Hcoins in Hw. fold amount coins rate in Hw. split.
  - intros ->. apply spend_ok in Hw as (tx1 & _ & [[Hz _]|(? & ? & _)]); [|done..].
    exists tx1. apply fee_of_zero in Hz; [done|apply clamp_fee_range].
  - intros tx fee ->. apply spend_ok in Hw as (tx1 & Hp1 & [[_ ?]|(tx' & [= <- ->] & Hfee & Hp & _)]); [done| |done].
    exists (address_script_pubkey change), tx1. split_and!; [done|done|lia| |done].
    apply fee_of_exact, clamp_fee_range.
Qed.

(** C40: When the fee exceeds the amount, the check of the dust limit does not
    catch it: the difference wraps around, and the transaction that is built,
    signed and recorded pays the target more than the amount. *)
Theorem fee_above_amount_wraps u coins amount height f target change flip w tx fee w' :
  is_u64 amount ->
  WalletOps.spend u coins amount height f target change flip w = (Ok (Some (tx, fee)), w') ->
  amount < fee -> WalletOps.total_input coins < 2 ^ 63 ->
  (exists o, o ∈ output tx /\ script_pubkey o = target /\ value o = 2 ^ 64 + amount - fee) /\
  WalletOps.total_input coins < sum_values (output tx).
Proof.
  intros Ha Hs Hlt Htot.
  apply spend_ok in Hs as (tx1 & _ & [[_ ?]|(tx' & [= <- ->] & Hfee & Hp & _)]); [done| |done].
  set (fee := fee_of tx1 f) in *.
  destruct Hp as (Hle & _ & _ & _ & _ & (o & Ho & Hsc & Hv) & Hall & _).
  assert (value o = 2 ^ 64 + amount - fee) as Hv' by (rewrite Hv; unfold u64, is_u64 in *; lia).
  assert (forall outs, (forall o, o ∈ outs -> 0 <= value o) -> forall o, o ∈ outs -> value o <= sum_values outs) as Hsum.
  { intros outs Hpos. induction outs as [|x outs IH]; intros y Hy; [by apply elem_of_nil in Hy|].
    assert (0 <= sum_values outs) as Hnn.
    { clear IH Hy. assert (forall o, o ∈ outs -> 0 <= value o) as Hp by (intros; apply Hpos; set_solver).
      clear Hpos. induction outs as [|z outs IH]; simpl; [lia|].
      pose proof (Hp z (list_elem_of_here _ _)). assert (0 <= sum_values outs); [|lia].
      apply IH. intros; apply Hp. by apply list_elem_of_further. }
    simpl. fold (sum_values outs). pose proof (Hpos x (list_elem_of_here _ _)).
    apply elem_of_cons in Hy as [->|Hy]; [lia|].
    assert (value y <= sum_values outs); [|lia]. apply IH; [|done]. intros; apply Hpos. by apply list_elem_of_further. }
  split; [by exists o|].
  assert (value o <= sum_values (output tx)); [|unfold is_u64 in *; lia].
  apply Hsum; [|done]. intros x Hx. destruct (Hall x Hx) as [[_ ->]|(_ & _ & ?)]; [|unfold DUST in *; lia].
  pose proof (u64_range (amount - fee)) as Hr. unfold is_u64 in Hr. lia.
Qed.
End Payments.

(** ** Funding an ad *)

Section Funding.
Context `{WalletLaws}.

Lemma with_account_ok {A} n (f : Account -> res Error (A * Account)) w x w' :
  WalletOps.with_account n f w = (Ok x, w') ->
  exists a a', get_account (master w) n = Some a /\ f a = Ok (x, a') /\
    w' = mkWallet _ _ (w_coins w) (put_account (master w) n a').
Proof.
  unfold WalletOps.with_account, mbind, action_bind, lift, modify.
  destruct (get_account (master w) n) as [a|]; [|done]. cbn [unwrap].
  destruct (f a) as [[y a']| |] eqn:Hf; [|done..]. intros Heq.
  apply pair_equal_spec in Heq as [Hx Hw]. apply (inj Ok) in Hx. subst. exists a, a'. done.
Qed.

Lemma fund_ok id term pass f amount len gh scripter flip w tx funder fee w' :
  is_u64 amount ->
  WalletOps.fund id term pass f amount len gh scripter flip w = (Ok (Some (tx, funder, fee)), w') ->
  exists acct kix acct' addr change,
    add_script_key acct scripter (Some (vec_to_list id)) (Some (Z.min MAX_TERM term)) = inr (kix, acct') /\
    get_key_address acct' kix = Some addr /\ compute_base_public_key acct' kix = inr funder /\
    1 <= fee /\
    pays (choose_inputs (w_coins w) amount len gh) amount fee len (address_script_pubkey addr) change tx.
Proof.
  intros Ha Hf. unfold WalletOps.fund in Hf. unfold mbind at 1, action_bind at 1 in Hf.
  destruct (try_wallet (unlock (master w) pass)) as [u|e|p]; [|done..].
  unfold mbind at 1, action_bind at 1 in Hf.
  destruct (WalletOps.next_address (0, 1) w) as [[change|e|p] w1] eqn:Hc; [|done..].
  apply with_account_ok in Hc as (a & a' & _ & _ & ->). unfold gets in Hf.
  unfold mbind at 1, action_bind at 1 in Hf. cbn [w_coins] in Hf.
  unfold mbind at 1, action_bind at 1 in Hf.
  match type of Hf with context [WalletOps.with_account ?n ?g ?w0] =>
    destruct (WalletOps.with_account n g w0) as [[[addr fu]|e|p] w2] eqn:Hk; [|done..] end.
  apply with_account_ok in Hk as (acct & acct2 & _ & Hk & ->).
  destruct (add_script_key acct scripter (Some (vec_to_list id)) (Some (Z.min MAX_TERM term)))
    as [|[kix acct']] eqn:Hadd; [done|]. cbn [unwrap_wallet mbind res_bind] in Hk.
  destruct (get_key_address acct' kix) as [addr'|] eqn:Hg; [|done]. cbn [unwrap mbind res_bind] in Hk.
  destruct (compute_base_public_key acct' kix) as [|fu'] eqn:Hb; [done|]. cbn [unwrap_wallet mbind res_bind] in Hk.
  apply (inj Ok) in Hk. injection Hk as <- <- <-.
  unfold mbind at 1, action_bind at 1 in Hf.
  destruct (WalletOps.spend _ _ _ _ _ _ _ _ _) as [[r|e|p] w3] eqn:Hs; [|done..].
  apply spend_ok in Hs as (tx1 & _ & [[_ ->]|(tx' & -> & Hfee & Hp & _)]); [done| |done].
  cbn in Hf. injection Hf as <- <- <- _.
  exists acct, kix, acct', addr', (address_script_pubkey change). split_and!; [done..|lia|done].
Qed.
End Funding.

Section StoreFund.
Context `{SipHasher, Snap, !SnapLaws, Bitcoin, !BitcoinLaws, !Cbor Ad, SQLite, !WalletCrate, !WalletLaws,
  !AccountStorage}.

(** Funding a publication commits, in the script that its transaction pays to,
    to the term capped at the maximal term, but the store records the publication
    as funded for the term that was asked for; the two agree exactly up to the
    maximal term. The transaction is recorded as unconfirmed and sent. *)
Theorem fund_records_uncapped_term trunk id term amount f pass flip s tx funder fee s' :
  is_u64 amount ->
  Store.fund trunk id term amount f pass flip s = (Ok (Some (tx, funder, fee)), s') ->
  (exists acct kix acct' addr o,
     add_script_key acct (λ pk t, Store.funding_script pk (default 0 t)) (Some (vec_to_list id))
       (Some (Z.min MAX_TERM term)) = inr (kix, acct') /\
     get_key_address acct' kix = Some addr /\ compute_base_public_key acct' kix = inr funder /\
     o ∈ output tx /\ script_pubkey o = address_script_pubkey addr /\ value o = u64 (amount - fee)) /\
  (exists row, Db.txout (db s') !! to_hex_d (txid tx) = Some row /\ t_confirmed row = None /\
     WalletTables.unconfirmed_row row = Ok (tx, Some (funder, id, u16 term))) /\
  (Z.min MAX_TERM term = term <-> term <= MAX_TERM) /\
  sent s' = (λ l, l ++ [tx]) <$> sent s.
Proof.
  intros Ha Hf. unfold Store.fund in Hf. unfold mbind at 1, action_bind at 1 in Hf.
  destruct (Store.on_wallet _ s) as [[funded|e|p] s1] eqn:Hw; [|done..].
  unfold Store.on_wallet, zoom in Hw.
  destruct (WalletOps.fund _ _ _ _ _ _ _ _ _ (wallet s)) as [r w1] eqn:Hfund.
  apply pair_equal_spec in Hw as [-> <-].
  destruct funded as [[[tx0 fu0] fee0]|]; [|done].
  unfold mbind at 1, action_bind at 1 in Hf.
  set (s1 := Store.set_wallet w1 s) in *.
  destruct (Store.in_transaction _ s1) as [[[]|e|p] s2] eqn:Htx; [|done..].
  unfold Store.send_tx, modify, mbind, action_bind in Hf.
  apply pair_equal_spec in Hf as [Hr Hs']. apply (inj Ok) in Hr. injection Hr as -> -> ->. subst s'.
  destruct (fund_ok _ _ _ _ _ _ _ _ _ _ _ _ _ _ Ha Hfund)
    as (acct & kix & acct' & addr & change & Hadd & Hg & Hb & Hfee & Hp).
  destruct Hp as (_ & _ & _ & _ & _ & (o & Ho & Hsc & Hv) & _).
  split; [by exists acct, kix, acct', addr, o|].
  unfold Store.in_transaction, transaction in Htx.
  match type of Htx with context [(?b ≫= ?k) s1] =>
    destruct ((b ≫= k) s1) as [[[]|e|p] s3] eqn:Hbody; [|done..] end.
  injection Htx as <-.
  unfold mbind at 1, action_bind at 1 in Hbody.
  destruct (get_account (master (wallet s1)) (1, 0)) as [a|] eqn:Hacc; [|done]. cbn [unwrap] in Hbody.
  unfold mbind at 1, action_bind at 1 in Hbody.
  unfold Store.on_db at 1, zoom at 1 in Hbody.
  unfold WalletTables.store_account, lift, modify in Hbody.
  destruct (account_instantiated a) as [i|]; [|done].
  cbn in Hbody. injection Hbody as <-.
  split; [|split; [lia|done]].
  eexists. split; [cbn; apply lookup_insert_eq|]. split; [done|].
  unfold WalletTables.unconfirmed_row. cbn [t_tx t_publisher t_id t_term].
  rewrite tx_deserialize_serialize. cbn [unwrap_result mbind res_bind].
  rewrite pk_from_to. cbn [unwrap unwrap_result mbind res_bind]. by rewrite from_hex_to_hex.
Qed.
End StoreFund.
