(* ===== verification/PublicationSpec.v ===== *)
(** * From a funding transaction to a stored content

    The life of a publication across the wallet, the wallet's tables and the
    store: the ad that was funded is stored when its transaction is confirmed. *)

From S2P Require Import Prelude Machine IbltTable Sketch Keys Strings Text Bitcoin Content Effects Db.
From S2P Require Import DbContent Wallet DbWallet Trunk Store WalletSpec Isolation.
#[local] Open Scope Z_scope.

(** What the program relies on of bitcoin_wallet: the address of a script key is
    that of the script for the tweaked key, and a proof is of its block and
    transaction. *)
Class CommitLaws `{WalletCrate} : Prop := {
  commit_address : forall a scripter tweak term kix a' addr pk,
    add_script_key a scripter (Some tweak) (Some term) = inr (kix, a') ->
    get_key_address a' kix = Some addr -> compute_base_public_key a' kix = inr pk ->
    exists tweaked, tweak_exp_add pk tweak = Some tweaked /\
      address_script_pubkey addr = p2wsh (scripter tweaked (Some term));
  proved_block : forall b i, get_block_hash (proved_new b i) = header_hash (header b);
  proved_transaction : forall b i t, txdata b !! i = Some t -> get_transaction (proved_new b i) = t
}.

Section Publication.
Context `{SipHasher, Snap, !SnapLaws, BitcoinLaws, !Cbor Ad, SQLiteLaws, !WalletCrate, !WalletLaws,
  !CommitLaws, !AccountStorage}.
Implicit Types (s : ContentStore).

(** Stored contents stay stored. *)
Definition keeps_contents s s' : Prop :=
  forall id, is_Some (Db.content (Store.db s) !! id) -> is_Some (Db.content (Store.db s') !! id).

#[local] Instance keeps_contents_preorder : PreOrder keeps_contents.
Proof. split; [by intros s id|]. intros s1 s2 s3 H12 H23 id Hid. by apply H23, H12. Qed.

Lemma keeps_same s s' : Store.db s' = Store.db s -> keeps_contents s s'.
Proof. intros Hd id. by rewrite Hd. Qed.

Lemma update_keeps f : evolves keeps_contents (Store.update f).
Proof.
  unfold Store.update. intros s [] s' (m & s1 & Hm & Hrun)%action_bind_inv.
  injection Hm as _ <-. injection Hrun as <-. by apply keeps_same.
Qed.

(** Storing a content stores it and keeps the others. *)
Lemma store_content_run height block_id c amount s n s' :
  Store.on_db (ContentTable.store_content height block_id c amount) s = (Ok n, s') ->
  is_Some (Db.content (Store.db s') !! to_hex (AdOps.digest_of (ad c))) /\ keeps_contents s s'.
Proof.
  unfold Store.on_db, zoom, ContentTable.store_content, lift, modify, mbind, action_bind.
  destruct (expect (TextOps.as_string (Content.content (ad c)))) as [text| |]; [|done..].
  destruct (if decide (content_length c = 0) then _ else _) as [[]| |]; [|done..].
  cbn. intros [= _ <-]. cbn. split; [rewrite lookup_insert_eq; by eexists|].
  intros id Hid. cbn. rewrite lookup_insert_is_Some. destruct (decide (to_hex (AdOps.digest_of (ad c)) = id)); auto.
Qed.

(** Accepting a content stores it and keeps the others. *)
Lemma accept_content_run height header c o s b s' :
  Store.accept_content height header c o s = (Ok b, s') ->
  is_Some (Db.content (Store.db s') !! to_hex (AdOps.digest_of (ad c))) /\ keeps_contents s s'.
Proof.
  unfold Store.accept_content. intros (k & s1 & Hk & Hrun)%action_bind_inv. injection Hk as _ <-.
  apply action_bind_inv in Hrun as ([] & s2 & Hu & Hrun). apply update_keeps in Hu.
  apply action_bind_inv in Hrun as ([] & s3 & Hm & Hrun).
  assert (Store.db s3 = Store.db s2) as Hd3.
  { destruct (add_to_min_sketch (min_hashes s2) k (st_ksequence s2)); [|done..]. by injection Hm as <-. }
  apply action_bind_inv in Hrun as (n & s4 & Hs & Hrun). injection Hrun as _ <-.
  unfold Store.in_transaction, transaction in Hs.
  destruct (Store.on_db _ s3) as [[n'| |] s5] eqn:Hon; [|done..]. injection Hs as _ <-.
  apply store_content_run in Hon as [Hin Hkeep]. split; [done|].
  transitivity s2; [done|]. transitivity s3; [by apply keeps_same|done].
Qed.

Lemma accept_content_keeps height header c o : evolves keeps_contents (Store.accept_content height header c o).
Proof. intros s b s' Hrun. by apply accept_content_run in Hrun as [_ Hkeep]. Qed.

Lemma add_content_keeps trunk c : evolves keeps_contents (Store.add_content trunk c).
Proof.
  unfold Store.add_content. cbv zeta.
  evolve_by ltac:(apply accept_content_keeps).
Qed.

(** A content whose funding commits to it on the trunk is stored when
    [add_content] ends normally. *)
Lemma add_content_stores trunk c height h tweaked s b s' :
  get_height trunk (get_block_hash (funding c)) = Some height ->
  get_header trunk (get_block_hash (funding c)) = Some h ->
  trunk_len trunk <= u32 (height + term c) -> merkle_root h = proved_merkle_root (funding c) ->
  version (get_transaction (funding c)) = 2 ->
  tweak_exp_add (funder c) (vec_to_list (AdOps.digest_of (ad c))) = Some tweaked ->
  (exists o, o ∈ output (get_transaction (funding c)) /\
             script_pubkey o = Store.funding_address tweaked (term c)) ->
  Store.add_content trunk c s = (Ok b, s') ->
  is_Some (Db.content (Store.db s') !! to_hex (AdOps.digest_of (ad c))).
Proof.
  intros Hh Hhd Hlen Hm Hv Ht (o & Ho & Hsc) Hrun. unfold Store.add_content in Hrun.
  rewrite Hh in Hrun. rewrite (proj2 (Z.leb_le _ _) Hlen), Hhd in Hrun.
  rewrite decide_True in Hrun by done. cbv zeta in Hrun. rewrite Hv in Hrun.
  change (2 <=? u32 2) with true in Hrun. cbv iota in Hrun. rewrite Ht in Hrun.
  apply action_bind_inv in Hrun as (tw & s1 & Htw & Hrun). injection Htw as <- <-.
  destruct (filter (λ o, script_pubkey o = Store.funding_address tweaked (term c))
    (output (get_transaction (funding c)))) as [|o1 os] eqn:Hf.
  - exfalso. assert (o ∈ filter (λ o, script_pubkey o = Store.funding_address tweaked (term c))
      (output (get_transaction (funding c)))) as Hin by by apply list_elem_of_filter.
    rewrite Hf in Hin. by apply not_elem_of_nil in Hin.
  - cbn [head] in Hrun. by apply accept_content_run in Hrun as [Hin _].
Qed.

Lemma store_fund_wallet trunk id term amount f pass flip s tx funder fee s' :
  Store.fund trunk id term amount f pass flip s = (Ok (Some (tx, funder, fee)), s') ->
  exists w', WalletOps.fund id term pass f amount (trunk_len trunk) (get_height trunk)
    (λ pk term, Store.funding_script pk (default 0 term)) flip (wallet s) = (Ok (Some (tx, funder, fee)), w').
Proof.
  unfold Store.fund. intros (funded & s1 & Hon & Hrun)%action_bind_inv.
  unfold Store.on_wallet, zoom in Hon. destruct (WalletOps.fund _ _ _ _ _ _ _ _ _ _) as [r w] eqn:Hw.
  injection Hon as -> _. destruct funded as [[[tx0 fu0] fee0]|]; [|done].
  apply action_bind_inv in Hrun as ([] & s2 & _ & Hrun). apply action_bind_inv in Hrun as ([] & s3 & _ & Hrun).
  injection Hrun as -> -> -> _. by exists w.
Qed.

(** A confirmed publication is among those that [block_connected] adds. *)
Lemma find_transaction block i tx :
  txdata block !! i = Some tx -> NoDup (txid <$> txdata block) ->
  list_find (λ c, txid c = txid tx) (txdata block) = Some (i, tx).
Proof.
  intros Hi Hnd. apply list_find_Some. split_and!; [done|done|]. intros j y Hj Hlt Heq.
  pose proof (NoDup_lookup _ i j (txid tx) Hnd) as Hij. rewrite !list_lookup_fmap, Hi, Hj in Hij.
  cbn in Hij. rewrite Heq in Hij. specialize (Hij eq_refl eq_refl). lia.
Qed.

Lemma block_connected_split trunk block s us s' :
  WalletTables.read_unconfirmed (Store.db s) = Ok us ->
  Store.block_connected trunk block s = (Ok (), s') ->
  exists s1, for_each_do (omap (Store.confirmed_publication block (Store.db s)) us)
    (λ '(tix, funder, id, ad, term),
      match ad with
      | Some ad => _ ← Store.add_content trunk (mkContent _ ad (proved_new block tix) funder term); mret ()
      | None => mret ()
      end) s1 = (Ok (), s').
Proof.
  intros Hus. change (Store.block_connected trunk block) with (newly ← confirm block;
    for_each_do newly (λ '(tix, funder, id, ad, term),
      match ad with
      | Some ad => _ ← Store.add_content trunk (mkContent _ ad (proved_new block tix) funder term); mret ()
      | None => mret (M:=action ContentStore Error) ()
      end)).
  intros (newly & s1 & Hc & Hrun)%action_bind_inv. exists s1. by rewrite <- (confirm_newly _ _ _ _ _ Hus Hc).
Qed.

Lemma funded_publication_run trunk id term amount f pass flip s0 tx funder fee s1
    trunk' block i height a us s2 s3 :
  is_u64 amount -> 0 <= term <= MAX_TERM ->
  Store.fund trunk id term amount f pass flip s0 = (Ok (Some (tx, funder, fee)), s1) ->
  WalletTables.read_unconfirmed (Store.db s2) = Ok us -> (tx, Some (funder, id, term)) ∈ us ->
  WalletTables.read_publication id (Store.db s2) = Some a -> AdOps.digest_of a = id ->
  txdata block !! i = Some tx -> NoDup (txid <$> txdata block) ->
  proved_merkle_root (proved_new block i) = merkle_root (header block) ->
  get_height trunk' (header_hash (header block)) = Some height ->
  get_header trunk' (header_hash (header block)) = Some (header block) ->
  trunk_len trunk' <= u32 (height + term) ->
  Store.block_connected trunk' block s2 = (Ok (), s3) ->
  is_Some (Db.content (Store.db s3) !! to_hex id).
Proof.
  intros Ha Hterm Hfund Hus Hin Hpub Hid Hi Hnd Hm Hh Hhd Hlen Hrun.
  destruct (store_fund_wallet _ _ _ _ _ _ _ _ _ _ _ _ Hfund) as [w' Hw].
  destruct (fund_ok _ _ _ _ _ _ _ _ _ _ _ _ _ _ Ha Hw) as (acct & kix & acct' & addr & change & Hadd & Hg & Hb & _ & Hp).
  destruct (commit_address _ _ _ _ _ _ _ _ Hadd Hg Hb) as (tweaked & Htw & Haddr).
  destruct Hp as (_ & Hv & _ & _ & _ & (o & Ho & Hsc & _) & _).
  rewrite Z.min_r in Haddr by lia. cbn [default] in Haddr.
  destruct (block_connected_split _ _ _ _ _ Hus Hrun) as [s4 Hloop].
  set (c := mkContent _ a (proved_new block i) funder term).
  apply (for_each_do_elem keeps_contents _ _ (i, funder, id, Some a, term)) in Hloop
    as (s5 & s6 & _ & Hadd1 & Hkeep).
  - apply Hkeep. apply action_bind_inv in Hadd1 as (b & s7 & Hadd1 & Hr). injection Hr as <-.
    rewrite <- Hid. change a with (ad c). apply (add_content_stores trunk' c height (header block) tweaked) in Hadd1;
      [done|..]; cbn [Content.funding Content.ad Content.funder Content.term c].
    + by rewrite proved_block.
    + by rewrite proved_block.
    + done.
    + done.
    + by rewrite (proved_transaction _ _ tx).
    + by rewrite Hid.
    + exists o. rewrite (proved_transaction _ _ tx) by done. split; [done|]. rewrite Hsc, Haddr. done.
  - apply list_elem_of_omap. eexists. split; [exact Hin|].
    unfold Store.confirmed_publication. by rewrite (find_transaction _ i), Hpub by done.
  - intros [[[[tix fu] id'] [ad'|]] term'] _; [|evolve].
    apply evolves_bind; [apply _|apply add_content_keeps|intros _; evolve].
Qed.

(** C6: A publication that is funded for a term up to the maximal one is stored as
    a content when the block with its transaction is connected: if the store
    still knows the transaction as its own and the publication as prepared, the
    block is on the trunk with a sound merkle root and the term is not over, then
    connecting the block - whatever else it confirms - leaves the ad among the
    stored contents. *)
Theorem funded_publication_is_stored trunk id term amount f pass flip s0 tx funder fee s1
    trunk' block i height a us s2 s3 :
  is_u64 amount -> 0 <= term <= MAX_TERM ->
  Store.fund trunk id term amount f pass flip s0 = (Ok (Some (tx, funder, fee)), s1) ->
  WalletTables.read_unconfirmed (Store.db s2) = Ok us -> (tx, Some (funder, id, term)) ∈ us ->
  WalletTables.read_publication id (Store.db s2) = Some a -> AdOps.digest_of a = id ->
  txdata block !! i = Some tx -> NoDup (txid <$> txdata block) ->
  proved_merkle_root (proved_new block i) = merkle_root (header block) ->
  get_height trunk' (header_hash (header block)) = Some height ->
  get_header trunk' (header_hash (header block)) = Some (header block) ->
  trunk_len trunk' <= u32 (height + term) ->
  Store.block_connected trunk' block s2 = (Ok (), s3) ->
  is_Some (Db.content (Store.db s3) !! to_hex id).
Proof. apply funded_publication_run. Qed.
End Publication.
