(* ===== verification/PublicationReach.v ===== *)
(** * From a funding transaction to the contents of a peer

    The way of an ad through the whole network: the wallet of a node funds it, the
    node connects the block that confirms the funding, and connects to a peer. *)

From S2P Require Import Prelude Machine IbltTable IbltCells IbltAlgebra IbltRefine IbltSync Sketch Keys.
From S2P Require Import Strings Text Bitcoin Content Effects Db DbContent DbContentSpec Wallet DbWallet.
From S2P Require Import Trunk Store StoreTables StoreSpec StoreLedger Messages Updater UpdaterSync.
From S2P Require Import UpdaterPoll UpdaterSession BlockDownload Address Discovery Network Api Isolation.
From S2P Require Import WalletSpec PublicationSpec.
#[local] Open Scope Z_scope.

(** ** Connecting a block keeps tables and sketch right *)

Section Connect.
Context `{SipHasher, Snap, !SnapLaws, BitcoinLaws, !Cbor Ad, SQLiteLaws, !WalletCrate, !AccountStorage}.
Implicit Types (s : ContentStore) (c : Content).

Definition synced s : Prop := cache_ok s /\ sketch_ok s.

Lemma same_contents_rows s s' : same_contents s s' -> Db.content (db s') = Db.content (db s).
Proof. unfold same_contents, content_part, rows. congruence. Qed.

Lemma same_contents_synced s s' : same_contents s s' -> synced s -> synced s'.
Proof.
  unfold same_contents, content_part, rows. intros Hs [[Hwf Hm] (Hk & Hh & Hn)].
  assert (Db.content (db s') = Db.content (db s) /\ iblts s' = iblts s /\ min_hashes s' = min_hashes s /\
    st_ksequence s' = st_ksequence s /\ n_keys s' = n_keys s) as (H1' & H2' & H3' & H4' & H5')
    by (split_and!; congruence).
  split; [split|split_and!]; unfold stored_keys in *; by rewrite ?H1', ?H2', ?H3', ?H4', ?H5'.
Qed.

(** The contents of this node that a block confirms. *)
Definition publications (block : Block) (d : DB) (us : list (Transaction * option (PublicKey * digest * Z))) :
    list Content :=
  omap (λ '(tix, funder, id, ad, term), (λ ad, mkContent _ ad (proved_new block tix) funder term) <$> ad)
    (omap (Store.confirmed_publication block d) us).

Definition offer (trunk : Trunk) c : action ContentStore Error unit := _ ← Store.add_content trunk c; mret ().

Lemma block_connected_offers trunk block us s s' :
  WalletTables.read_unconfirmed (db s) = Ok us -> Store.block_connected trunk block s = (Ok (), s') ->
  exists s1, same_contents s s1 /\
    for_each_do (publications block (db s) us) (offer trunk) s1 = (Ok (), s').
Proof.
  intros Hus. change (Store.block_connected trunk block) with (newly ← confirm block;
    for_each_do newly (λ '(tix, funder, id, ad, term),
      match ad with
      | Some ad => offer trunk (mkContent _ ad (proved_new block tix) funder term)
      | None => mret (M:=action ContentStore Error) ()
      end)).
  intros (newly & s1 & Hc & Hrun)%action_bind_inv. exists s1.
  split. { pose proof (confirm_keeps block s) as Hk. by rewrite Hc in Hk. }
  rewrite (confirm_newly _ _ _ _ _ Hus Hc) in Hrun. clear newly Hc. unfold publications. revert s1 Hrun.
  induction (omap (Store.confirmed_publication block (db s)) us) as [|[[[[tix fu] id] [ad|]] t] newly IH];
    intros s1 Hrun; [done| |].
  - cbn [for_each_do] in Hrun. apply action_bind_inv in Hrun as ([] & s2 & H1' & Hrun).
    cbn [omap list_omap fmap option_fmap option_map for_each_do].
    rewrite (action_bind_ok _ _ s1 () s2) by exact H1'. by apply IH.
  - by apply IH.
Qed.

(** A content that is not stored yet keeps them right, whether it is accepted or not. *)
Lemma offer_synced trunk c s s' :
  synced s -> storable c -> ~ is_stored c s -> offer trunk c s = (Ok (), s') ->
  synced s' /\ (stored_keys s' ≡ₚ stored_keys s \/ stored_keys s' ≡ₚ content_key c :: stored_keys s).
Proof.
  intros [Hc Hs] Hst Hnew (b & s1 & Hrun & [= <-])%action_bind_inv.
  destruct (committed_dec trunk c) as [(height & header & o & Hcom)|Hno]; [by apply Hst| |].
  - destruct (add_fresh_sync trunk c height header o s Hc Hs Hst Hcom Hnew) as (s2 & Hrun2 & Hc2 & Hs2 & Hk2).
    rewrite Hrun in Hrun2. injection Hrun2 as _ ->. split; [done|]. by right.
  - rewrite (add_content_uncommitted trunk c s) in Hrun; [|by apply Hst|done].
    injection Hrun as _ ->. split; [done|]. by left.
Qed.

Lemma offers_synced trunk cs s s' :
  synced s -> (forall c, c ∈ cs -> storable c /\ ~ is_stored c s) -> NoDup (content_key <$> cs) ->
  for_each_do cs (offer trunk) s = (Ok (), s') -> synced s'.
Proof.
  revert s. induction cs as [|c cs IH]; intros s Hs Hcs Hnd Hrun; [by injection Hrun as <-|].
  cbn [for_each_do] in Hrun. apply action_bind_inv in Hrun as ([] & s1 & H1' & Hrun).
  rewrite fmap_cons in Hnd. apply NoDup_cons in Hnd as [Hnin Hnd].
  destruct (Hcs c (list_elem_of_here _ _)) as [Hst Hnew].
  destruct (offer_synced trunk c s s1 Hs Hst Hnew H1') as [Hs1 Hk]. apply (IH s1); [done| |done|done].
  intros c' Hin. destruct (Hcs c' (list_elem_of_further _ _ _ Hin)) as [Hst' Hnew']. split; [done|].
  intros Hstd. apply (stored_keys_elem _ _ (proj1 Hs1)) in Hstd. apply Hnew', (stored_keys_elem _ _ (proj1 Hs)).
  destruct Hk as [Hk|Hk]; rewrite Hk in Hstd; [done|]. apply elem_of_cons in Hstd as [Heq|Hstd]; [|done].
  destruct Hnin. apply list_elem_of_fmap. by exists c'.
Qed.

Lemma block_connected_synced trunk block us s s' :
  synced s -> WalletTables.read_unconfirmed (db s) = Ok us ->
  (forall c, c ∈ publications block (db s) us -> storable c /\ ~ is_stored c s) ->
  NoDup (content_key <$> publications block (db s) us) ->
  Store.block_connected trunk block s = (Ok (), s') -> synced s'.
Proof.
  intros Hs Hus Hcs Hnd Hrun. destruct (block_connected_offers trunk block us s s' Hus Hrun) as (s1 & Hsame & Hoff).
  apply (offers_synced trunk _ s1 s' (same_contents_synced _ _ Hsame Hs)) in Hoff; [done| |done].
  intros c Hc. destruct (Hcs c Hc) as [Hst Hnew]. split; [done|].
  unfold is_stored. by rewrite (same_contents_rows _ _ Hsame).
Qed.
End Connect.

(** ** To a peer *)

Section Reach.
Context `{SipHasher, Snap, !SnapLaws, BitcoinLaws, !Cbor Ad, SQLiteLaws, !WalletCrate, !WalletLaws,
  !CommitLaws, !AccountStorage}.
Context `{!Peers, !Timeouts ExpectedReply}.
Implicit Types (s : ContentStore) (u a b : Updater).

(** [a] and [b] connect and are [a'] and [b'] after four rounds of messages, with
    nothing left to send and right tables and sketches. *)
Definition exchanged fuel trunk now pa pb a b (a' b' : Updater) : Prop :=
  (ab ← Session.connect fuel trunk now pa pb (a, b); Session.rounds fuel trunk now pa pb 4 ab) = Some (a', b') /\
  outbox a' = [] /\ outbox b' = [] /\ synced (store a') /\ synced (store b').

(** C2: An ad that the wallet of a node funds, for a term up to the maximal one,
    gets to the peers: when the block with its transaction is connected and the
    node then connects to a peer at the same height, the peer stores the ad after
    four rounds of messages, besides all that either of them stored.  The store
    still knows transaction and publication as its own, the block is on the trunk
    with a sound merkle root, the term is not over, what else of its own the
    block confirms is well encoded and new, and each of the two can supply what
    the other lacks ([supplies]): a table of the size it estimates lists the
    difference, it reads these contents back from its database under their
    digests, and the other accepts them and has the room. *)
Theorem funded_ad_reaches_peer trunk0 id term amount f pass flip s0 tx funder fee s1
    trunk block i height ad us s2 s3 fuel now tip pa pb na nb fa fb a b :
  is_u64 amount -> 0 <= term <= MAX_TERM ->
  Store.fund trunk0 id term amount f pass flip s0 = (Ok (Some (tx, funder, fee)), s1) ->
  WalletTables.read_unconfirmed (db s2) = Ok us -> (tx, Some (funder, id, term)) ∈ us ->
  WalletTables.read_publication id (db s2) = Some ad -> AdOps.digest_of ad = id ->
  synced s2 -> (forall c, c ∈ publications block (db s2) us -> storable c /\ ~ is_stored c s2) ->
  NoDup (content_key <$> publications block (db s2) us) ->
  txdata block !! i = Some tx -> NoDup (txid <$> txdata block) ->
  proved_merkle_root (proved_new block i) = merkle_root (header block) ->
  get_height trunk (header_hash (header block)) = Some height ->
  get_header trunk (header_hash (header block)) = Some (header block) ->
  trunk_len trunk <= u32 (height + term) ->
  Store.block_connected trunk block s2 = (Ok (), s3) ->
  Store.get_tip trunk = Some tip -> store a = s3 -> outbox a = [] -> outbox b = [] -> synced (store b) ->
  table_for s3 (store b) na -> table_for (store b) s3 nb ->
  supplies trunk nb fb s3 (store b) -> supplies trunk na fa (store b) s3 ->
  (length (stored_keys s3) + length (stored_keys (store b)) + 2 <= fuel)%nat ->
  exists a' b', exchanged fuel trunk now pa pb a b a' b' /\ stored_in (store b') id /\
    forall d, stored_in (store b') d <-> stored_in s3 d \/ stored_in (store b) d.
Proof.
  intros Ha Hterm Hfund Hus Hin Hpub Hid Hsy Hcs Hnd Hi Htx Hm Hh Hhd Hlen Hrun Htip <- Hoa Hob [Hcb Hsb] Hta Htb
    Hsupa Hsupb Hfuel.
  destruct (block_connected_synced trunk block us s2 (store a) Hsy Hus Hcs Hnd Hrun) as [Hca Hsa].
  destruct (session_run fuel trunk now tip pa pb na nb fa fb a b Htip Hoa Hob Hca Hsa Hcb Hsb Hta Htb Hsupa Hsupb Hfuel)
    as (a' & b' & Hs & Hoa' & Hob' & Hca' & Hsa' & Hcb' & Hsb' & Hall).
  exists a', b'. split; [by split_and!|]. split; [|intros d; apply (Hall d)].
  apply (Hall id). left.
  exact (funded_publication_run trunk0 id term amount f pass flip s0 tx funder fee s1 trunk block i height ad us
    s2 (store a) Ha Hterm Hfund Hus Hin Hpub Hid Hi Htx Hm Hh Hhd Hlen Hrun).
Qed.
End Reach.
