(* ===== verification/WalletExamples.v ===== *)
(** * Examples: payments of a small wallet, the wallet's tables

    One coin of 20000 satoshis and the three accounts of [Wallet::new]. *)

From S2P Require Import Prelude Machine IbltTable Keys Strings Text Bitcoin Content Effects Db.
From S2P Require Import DbContent Wallet DbWallet Trunk Store StoreTables Toy WalletSpec PublicationSpec.
From S2P Require Import StoreExamples.
#[local] Open Scope Z_scope.

Module WalletExamples.
#[export] Instance ToyWallet_laws : WalletLaws.
Proof. split; [intros m u r tx tx' n [= <- <-]|]; done. Qed.

Definition coin0 : OutPoint * Coin * Z :=
  (mkOutPoint hash_default 0, mkCoin (mkTxOut 20000 [9]) (mkKeyDerivation 0 0 0 None None), 1).
Definition wallet0 : Wallet := mkWallet _ _ [coin0]
  (<[(0, 0) := mkToyAccount (0, 0) 0 []]> (<[(0, 1) := mkToyAccount (0, 1) 0 []]>
    (<[(1, 0) := mkToyAccount (1, 0) 0 []]> ∅))).
Definition flip0 : nat -> bool := λ _, true.

Definition target : @Address ToyBitcoin ToyWallet := [8].
Definition withdrawn := WalletOps.withdraw [] target 10 (Some 15000) 3 (λ _, None) flip0 wallet0.

Definition withdrawn_coins := choose_inputs (w_coins wallet0) 15000 3 (λ _, None).

Lemma withdraw_spec_witness :
  (withdrawn.1 = Ok None -> exists signed, 2 ^ 57 <= get_weight signed) /\
  forall tx fee, withdrawn.1 = Ok (Some (tx, fee)) ->
    exists change signed,
      pays withdrawn_coins 15000 0 3 (address_script_pubkey target) change signed /\
      fee = fee_of signed 10 /\ 1 <= fee /\
      (get_weight signed < 2 ^ 57 -> fee = (get_weight signed * 10 + 3) / 4) /\
      pays withdrawn_coins 15000 fee 3 (address_script_pubkey target) change tx.
Proof.
  apply (withdraw_spec [] target 10 (Some 15000) 3 (λ _, None) flip0 wallet0 withdrawn.1 withdrawn.2).
  - by vm_compute.
  - unfold withdrawn. apply surjective_pairing.
Defined.

(** It does succeed. *)
Example withdrawn_succeeds : exists tx, withdrawn.1 = Ok (Some (tx, 2000)) /\
  output tx = [mkTxOut 13000 [8]; mkTxOut 5000 [7; 0; 1; 0]].
Proof. eexists. split; vm_compute; reflexivity. Qed.

Definition no_lock : @Unlocker ToyBitcoin ToyWallet := ().
Definition overspent := WalletOps.spend no_lock [coin0] 600 3 100 [8] [7] flip0 wallet0.
Definition overspent_tx : Transaction :=
  mkTransaction 2 0 [mkTxIn (mkOutPoint hash_default 0) [] RBF []]
    [mkTxOut (2 ^ 64 + 600 - 20000) [8]; mkTxOut 19400 [7]].

Lemma overspent_eq : overspent = (Ok (Some (overspent_tx, 20000)), overspent.2).
Proof. vm_compute. reflexivity. Qed.

Lemma fee_above_amount_wraps_witness :
  (exists o, o ∈ output overspent_tx /\ script_pubkey o = [8] /\ value o = 2 ^ 64 + 600 - 20000) /\
  WalletOps.total_input [coin0] < sum_values (output overspent_tx).
Proof.
  apply (fee_above_amount_wraps no_lock [coin0] 600 3 100 [8] [7] flip0 wallet0 overspent_tx 20000 overspent.2).
  - unfold is_u64. lia.
  - exact overspent_eq.
  - lia.
  - vm_compute. reflexivity.
Defined.

(** ** Funding for longer than the maximal term *)

Definition store1 : ContentStore := mkStore _ _ create_tables 1000 ∅ [] [] 0 wallet0 (Some []).
Definition funded := Store.fund StoreExamples.chain_trunk (digest_of_list [1]) 5000 15000 10 [] flip0 store1.
Definition funded_tx : Transaction :=
  match funded.1 with Ok (Some (tx, _, _)) => tx | _ => mkTransaction 0 0 [] [] end.

Lemma funded_eq : funded = (Ok (Some (funded_tx, [5; 0], 2000)), funded.2).
Proof. vm_compute. reflexivity. Qed.

Lemma fund_records_uncapped_term_witness :
  (exists acct kix acct' addr o,
     add_script_key acct (λ pk t, Store.funding_script pk (default 0 t))
       (Some (vec_to_list (digest_of_list [1]))) (Some (Z.min MAX_TERM 5000)) = inr (kix, acct') /\
     get_key_address acct' kix = Some addr /\ compute_base_public_key acct' kix = inr [5; 0] /\
     o ∈ output funded_tx /\ script_pubkey o = address_script_pubkey addr /\
     value o = u64 (15000 - 2000)) /\
  (exists row, Db.txout (db funded.2) !! to_hex_d (txid funded_tx) = Some row /\ t_confirmed row = None /\
     WalletTables.unconfirmed_row row = Ok (funded_tx, Some ([5; 0], digest_of_list [1], u16 5000))) /\
  (Z.min MAX_TERM 5000 = 5000 <-> 5000 <= MAX_TERM) /\
  sent funded.2 = (λ l, l ++ [funded_tx]) <$> sent store1.
Proof.
  apply (fund_records_uncapped_term StoreExamples.chain_trunk (digest_of_list [1]) 5000 15000 10 [] flip0
           store1 funded_tx [5; 0] 2000 funded.2).
  - by vm_compute.
  - exact funded_eq.
Defined.

(** ** A publication, from its funding to the table of contents *)

#[export] Instance ToyCommit_laws : CommitLaws.
Proof.
  split; [|done|by intros b i t Hi; cbn; rewrite Hi].
  intros a scripter tweak term kix a' addr pk [= <- <-] Hg [= <-]. cbn in Hg. rewrite Nat2Z.id in Hg.
  rewrite lookup_app_r, Nat.sub_diag in Hg by done. injection Hg as <-. eexists. split; [reflexivity|]. done.
Qed.

Definition store2 : ContentStore := (Store.prepare_publication [97] [98] [99] store1).2.
Definition ad_id : digest := AdOps.digest_of StoreExamples.ad1.
Definition ad_funded := Store.fund StoreExamples.chain_trunk ad_id 10 15000 10 [] flip0 store2.
Definition ad_tx : Transaction :=
  match ad_funded.1 with Ok (Some (tx, _, _)) => tx | _ => mkTransaction 0 0 [] [] end.
Definition ad_block : Block := mkBlock (StoreExamples.hdr 1) [ad_tx].
Definition ad_connected := Store.block_connected StoreExamples.chain_trunk ad_block ad_funded.2.
Definition ad_funder : @PublicKey ToyBitcoin := [5; 0].
Definition ad_unconfirmed : list (Transaction * option (@PublicKey ToyBitcoin * digest * Z)) :=
  [(ad_tx, Some (ad_funder, ad_id, 10))].

Lemma ad_funded_eq : ad_funded = (Ok (Some (ad_tx, ad_funder, 2000)), ad_funded.2).
Proof.
  rewrite (surjective_pairing ad_funded) at 1. apply (f_equal (λ r, (r, ad_funded.2))). vm_compute. reflexivity.
Qed.
Lemma ad_connected_eq : ad_connected = (Ok (), ad_connected.2).
Proof.
  rewrite (surjective_pairing ad_connected) at 1. apply (f_equal (λ r, (r, ad_connected.2))).
  vm_compute. reflexivity.
Qed.

Lemma funded_publication_is_stored_witness :
  is_Some (Db.content (db ad_connected.2) !! to_hex ad_id).
Proof.
  apply (funded_publication_is_stored StoreExamples.chain_trunk ad_id 10 15000 10 [] flip0 store2 ad_tx
           ad_funder 2000 ad_funded.2 StoreExamples.chain_trunk ad_block 0 1 StoreExamples.ad1
           ad_unconfirmed ad_funded.2 ad_connected.2).
  - unfold is_u64. lia.
  - unfold MAX_TERM. lia.
  - exact ad_funded_eq.
  - vm_compute. reflexivity.
  - apply list_elem_of_here.
  - vm_compute. reflexivity.
  - reflexivity.
  - reflexivity.
  - apply NoDup_singleton.
  - reflexivity.
  - vm_compute. reflexivity.
  - vm_compute. reflexivity.
  - vm_compute. discriminate.
  - exact ad_connected_eq.
Defined.

(** ** The wallet's tables *)

Lemma read_seed_stable_witness :
  WalletTables.read_seed 3 4 (set_seed (Some (1, -2)) create_tables) =
    (Ok (1, 2 ^ 64 - 2), set_seed (Some (1, -2)) create_tables) /\
  (seed create_tables = None -> (1, 2 ^ 64 - 2) = (1, 2 ^ 64 - 2)).
Proof.
  apply (read_seed_stable 1 (2 ^ 64 - 2) 3 4 create_tables (1, 2 ^ 64 - 2)).
  - by vm_compute.
  - by vm_compute.
  - vm_compute. reflexivity.
Defined.

Definition pk56 : @PublicKey ToyBitcoin := [5; 6].

Lemma publication_roundtrip_witness :
  exists db', WalletTables.prepare_publication (AdOps.new [97] [98] [8364]) create_tables =
      (Ok (AdOps.digest_of (AdOps.new [97] [98] [8364])), db') /\
    WalletTables.read_publication (AdOps.digest_of (AdOps.new [97] [98] [8364])) db' =
      Some (AdOps.new [97] [98] [8364]) /\
    exists ids, WalletTables.list_publication db' = Ok ids /\
      AdOps.digest_of (AdOps.new [97] [98] [8364]) ∈ ids /\
      forall d, d ∈ ids <-> is_Some (Db.publication db' !! to_hex d).
Proof.
  apply (publication_roundtrip [97] [98] [8364] create_tables).
  - repeat constructor.
  - intros id [r Hr]. cbn in Hr. by rewrite lookup_empty in Hr.
Defined.

Lemma txout_roundtrip_witness :
  exists us, WalletTables.read_unconfirmed
      (WalletTables.store_txout overspent_tx (Some (pk56, hash_default, 10)) create_tables) = Ok us /\
    (forall u, u ∈ us <-> u = (overspent_tx, Some (pk56, hash_default, 10)) \/
       exists h r, h <> to_hex_d (txid overspent_tx) /\ Db.txout create_tables !! h = Some r /\
                   t_confirmed r = None /\ WalletTables.unconfirmed_row r = Ok u) /\
    WalletTables.read_unconfirmed (WalletTables.rescan hash_default
      (WalletTables.store_txout overspent_tx (Some (pk56, hash_default, 10)) create_tables)) = Ok [] /\
    Db.coins (WalletTables.rescan hash_default
      (WalletTables.store_txout overspent_tx (Some (pk56, hash_default, 10)) create_tables)) = ∅.
Proof.
  apply (txout_roundtrip overspent_tx pk56 hash_default 10 hash_default create_tables).
  - intros id r Hr. cbn in Hr. by rewrite lookup_empty in Hr.
  - by vm_compute.
Defined.
End WalletExamples.
