(* ===== verification/ServiceExamples.v ===== *)
(** * Examples: the relay, the interface and the main program

    The node of the wallet examples: a relayed transaction, a withdrawal that is
    served, requests to the interface, and a start with a re-scan. *)

From S2P Require Import Prelude Machine IbltTable Keys Strings Text Bitcoin Content Effects Db DbContent.
From S2P Require Import Wallet DbWallet Trunk Store Messages BlockDownload BlockDownloadStart Network.
From S2P Require Import DbContentSpec Address StoreTables StoreSpec StoreLedger Isolation Provenance.
From S2P Require Import SendTx SendTxSpec Api ApiSpec Main MainSpec ReopenSpec Toy WalletSpec StoreExamples.
From S2P Require Import Startup StartupSpec WalletExamples ToyNetwork BlockDownloadExamples.
#[local] Open Scope Z_scope.

Module ServiceExamples.
Import WalletExamples.
#[local] Opaque generate_ksequence.

(** ** The relay *)

Definition peer1 : @PeerId ToyPeers := 1.
Definition relay (d : DB) : @SendTx ToyPeers ToyLru := mkSendTx _ _ [] d (lru_new CACHE_SIZE).
Definition tx1 : Transaction := mkTransaction 2 0 [] [mkTxOut 700 [9]].
Definition tx2 : Transaction := mkTransaction 2 1 [] [mkTxOut 800 [9]].

Lemma relay_typed d : cache_typed (relay d).
Proof. intros h t Hc. cbn in Hc. done. Qed.

Definition relay_turns : list (Z * Z * @PeerMessage ToyPeers NetworkMessage) :=
  [(5, 6, Incoming 1 (NM_Tx tx1)); (70000000000, 70000000001, Incoming 2 (NM_Inv [mkInventory Inv_Transaction (txid tx1)]))].
Definition relayed := SendTxOps.run 0 relay_turns (relay create_tables).

Lemma relay_cache_typed_witness :
  relayed.1 = Ok 70000000001 /\
  (forall h t, (get_mut h (cache relayed.2)).1 = Some t -> txid t = h) /\ sx_db relayed.2 = create_tables.
Proof.
  split; [vm_compute; reflexivity|].
  apply (relay_cache_typed create_tables (relay create_tables) 0 relay_turns 70000000001 relayed.2).
  - vm_compute. reflexivity.
  - rewrite (surjective_pairing (SendTxOps.run 0 relay_turns (relay create_tables))).
    apply (f_equal (λ r, (r, relayed.2))). vm_compute. reflexivity.
Defined.

Definition own_db : DB := WalletTables.store_txout tx2 None create_tables.
Definition own0 : list (Transaction * option (@PublicKey ToyBitcoin * digest * Z)) := [(tx2, None)].
Definition asked_inv : list Inventory :=
  [mkInventory Inv_Transaction (txid tx2); mkInventory Inv_Block (txid tx1)].

Lemma get_data_answered_witness :
  exists s' ts, SendTxOps.on_message (Incoming peer1 (NM_GetData asked_inv)) (relay own_db) = (Ok (), s') /\
    sx_db s' = sx_db (relay own_db) /\
    (forall h, cached (cache s') h = cached (cache (relay own_db)) h) /\
    sx_sent s' = sx_sent (relay own_db) ++ ((λ t, SendNetwork peer1 (NM_Tx t)) <$> ts) /\
    (forall t, t ∈ ts <->
       mkInventory Inv_Transaction (txid t) ∈ asked_inv /\
       (cached (cache (relay own_db)) (txid t) = Some t \/
        cached (cache (relay own_db)) (txid t) = None /\ exists funding, (t, funding) ∈ own0)).
Proof.
  apply (get_data_answered peer1 asked_inv own0 (relay own_db)).
  - apply relay_typed.
  - vm_compute. reflexivity.
Defined.

Lemma relayed_once_witness :
  exists s', SendTxOps.run 0 [(0, 0, Incoming peer1 (NM_Tx tx1)); (0, 0, Incoming peer1 (NM_Tx tx1));
      (0, 0, Incoming peer1 (NM_Inv [mkInventory Inv_Transaction (txid tx1)]));
      (0, 0, Incoming peer1 (NM_GetData [mkInventory Inv_Transaction (txid tx1)]))] (relay create_tables) =
      (Ok 0, s') /\
    sx_sent s' = sx_sent (relay create_tables) ++
      [SendRandomNetwork (NM_Inv [mkInventory Inv_Transaction (txid tx1)]); SendNetwork peer1 (NM_Tx tx1)].
Proof. apply (relayed_once peer1 tx1 (relay create_tables)). reflexivity. Defined.

(** ** A withdrawal *)

Definition paid := Store.withdraw StoreExamples.chain_trunk [] target 10 (Some 15000) flip0 store1.
Definition paid_tx : Transaction :=
  match paid.1 with Ok (Some (tx, _)) => tx | _ => mkTransaction 0 0 [] [] end.

Lemma paid_eq : paid = (Ok (Some (paid_tx, 2000)), paid.2).
Proof.
  rewrite (surjective_pairing paid) at 1. apply (f_equal (λ r, (r, paid.2))). vm_compute. reflexivity.
Qed.

Lemma withdrawal_is_served_witness :
  sent paid.2 = (λ l, l ++ [paid_tx]) <$> sent store1 /\
  exists s', SendTxOps.run 0 [(0, 0, Outgoing (NM_Tx paid_tx));
      (0, 0, Incoming peer1 (NM_GetData [mkInventory Inv_Transaction (txid paid_tx)]))]
      (relay (Store.db paid.2)) = (Ok 0, s') /\
    exists l, sx_sent s' = sx_sent (relay (Store.db paid.2)) ++
      SendRandomNetwork (NM_Inv [mkInventory Inv_Transaction (txid paid_tx)]) :: l /\
      SendNetwork peer1 (NM_Tx paid_tx) ∈ l.
Proof.
  apply (withdrawal_is_served StoreExamples.chain_trunk [] target 10 (Some 15000) flip0 store1 paid.2
           paid_tx 2000 peer1 (relay (Store.db paid.2))).
  - intros id r Hr. cbn in Hr. by rewrite lookup_empty in Hr.
  - exact paid_eq.
  - apply relay_typed.
  - reflexivity.
  - reflexivity.
Defined.

(** ** Requests to the interface *)

Definition key0 : str := [107; 101; 121].
Definition parse_target (s : str) : option (@Address ToyBitcoin ToyWallet) := Some s.
Definition show_target (a : @Address ToyBitcoin ToyWallet) : str := a.
Definition io_text0 (k : ErrorKind) : string := "io".
Definition sql_text0 (e : SqlError) : string := "sql".
#[local] Notation call :=
  (Api.call StoreExamples.chain_trunk key0 parse_target show_target io_text0 sql_text0).

Definition wrong_key : Params.t := Params.Array [Value.String [1]; Value.String [2]].

Lemma api_key_required_witness :
  exists e, call flip0 "fund" wrong_key store1 = (Err e, store1) /\
    (is_invalid_params e \/ e = method_not_found).
Proof.
  apply (api_key_required StoreExamples.chain_trunk key0 parse_target show_target io_text0 sql_text0).
  intros [args Hargs]. discriminate Hargs.
Defined.

Definition deposit0 : Params.t := Params.Array [Value.String key0].

Lemma requests_keep_contents_witness :
  let s' := (call flip0 "deposit" deposit0 store1).2 in
  Db.content (db s') = Db.content (db store1) /\ iblts s' = iblts store1 /\
  Store.get_sketch s' = Store.get_sketch store1 /\ Store.get_nkeys s' = Store.get_nkeys store1.
Proof.
  exact (requests_keep_contents key0 parse_target show_target io_text0 sql_text0
    StoreExamples.chain_trunk flip0 "deposit" deposit0 store1).
Defined.

(** A client, both networks and the driver use a store of two contents. *)
Definition mixed_calls : list Call :=
  [Handle (Table 100); Request StoreExamples.chain_trunk flip0 "deposit" deposit0;
   Handle (Header 3); Learn 1 2 50 BITCOIN (V4 (vreplicate 4 1) 8333) 0 40 0;
   Handle (Offer StoreExamples.chain_trunk StoreExamples.content1);
   Confirm (mkBlock (StoreExamples.hdr 2) []); Handle (Unwind (StoreExamples.hdr 2)); Handle Truncate].

Lemma calls_refine_ledger_witness :
  let s := StoreExamples.store_on StoreExamples.db1 in
  let run_calls := run_calls key0 parse_target show_target io_text0 sql_text0 in
  exists ran rest s' recounts, mixed_calls = ran ++ rest /\ run_calls ran s = (Ok (), s') /\
    ledger_run (storage_limit s) recounts (ran ≫= seen) (rows s) (rows s') /\
    tables_hold (table_keys (rows s')) recounts (iblts s') /\
    (recounts = [] -> with_cells (iblts s') ->
     tables_for (Inserted <$> table_keys (rows s')) (iblts s')) /\
    (rest = [] \/ exists c rest', rest = c :: rest' /\
       stops key0 parse_target show_target io_text0 sql_text0 c s').
Proof.
  exact (calls_refine_ledger key0 parse_target show_target io_text0 sql_text0 mixed_calls
    (StoreExamples.store_on StoreExamples.db1) StoreExamples.store_on_ledger).
Defined.

(** On a store without contents: an offer, and what spares it. *)
Definition sparing_calls : list Call :=
  [Handle (Header 1); Handle (Offer StoreExamples.chain_trunk StoreExamples.content1); Handle (Table 100);
   Request StoreExamples.chain_trunk flip0 "deposit" deposit0; Handle (Header 3);
   Handle (Unwind (StoreExamples.hdr 2))].

Lemma empty_store_ledger : ledger_ok (StoreExamples.store_on create_tables).
Proof.
  split; [split|split; [|done]].
  - by apply StoreExamples.store_on_cache, ids_wf_empty.
  - apply sketch_ok_shape, StoreExamples.store_on_sketch.
  - intros id r Hr. unfold rows in Hr. cbn in Hr. by rewrite lookup_empty in Hr.
Qed.

Lemma stored_contents_are_paid_witness :
  let s := StoreExamples.store_on create_tables in
  let run_calls := run_calls key0 parse_target show_target io_text0 sql_text0 in
  exists ran rest s', sparing_calls = ran ++ rest /\ run_calls ran s = (Ok (), s') /\
    (rest = [] \/ exists call rest', rest = call :: rest' /\
       stops key0 parse_target show_target io_text0 sql_text0 call s') /\
    let es := ran ≫= seen in
    (forall id r, rows s' !! id = Some r ->
       (rows s !! id = Some r /\ Forall (spares id r) es) \/ earned es id r) /\
    (Truncate ∉ es -> forall id r,
       (rows s !! id = Some r /\ Forall (spares id r) es) \/ earned es id r -> rows s' !! id = Some r).
Proof.
  exact (stored_contents_are_paid key0 parse_target show_target io_text0 sql_text0 sparing_calls
    (StoreExamples.store_on create_tables) empty_store_ledger).
Defined.

(** The offer of that run is earned. *)
Lemma sparing_earned : earned (sparing_calls ≫= seen) StoreExamples.id1 StoreExamples.row1.
Proof.
  exists [Header 1], StoreExamples.chain_trunk, StoreExamples.content1,
    [Table 100; Header 3; Unwind (StoreExamples.hdr 2)], 1, (StoreExamples.hdr 1),
    StoreExamples.committing_output, [99].
  split_and!; [done|exact StoreExamples.content1_committed|exact StoreExamples.ad1_text|done..|].
  assert (bool_decide (r_block_id StoreExamples.row1 <> to_hex_d (header_hash (StoreExamples.hdr 2))) = true)
    as Hb by (vm_compute; reflexivity).
  apply Forall_cons. split; [done|]. apply Forall_cons. split; [by vm_compute|].
  apply Forall_singleton. exact (bool_decide_eq_true_1 _ Hb).
Qed.

Definition id_text0 : str := to_hex (digest_of_list [1]).

Lemma fund_call_witness :
  let request t := Params.Array (Value.String key0 :: Value.String [] :: Value.String id_text0 ::
    number 15000 :: number t :: number 10 :: []) in
  call flip0 "fund" (request 65546) store1 =
    answered io_text0 sql_text0 (λ '(tx, _, _), txid tx)
      (Store.fund StoreExamples.chain_trunk (digest_of_list [1]) (u16 65546) 15000 (Z.min 10 100) [] flip0) store1 /\
  (is_u64 (65546 + 65536) -> call flip0 "fund" (request (65546 + 65536)) store1 =
                             call flip0 "fund" (request 65546) store1).
Proof.
  apply (fund_call StoreExamples.chain_trunk key0 parse_target show_target io_text0 sql_text0
           flip0 [] id_text0 (digest_of_list [1]) 15000 65546 10 [] store1).
  - vm_compute. reflexivity.
  - unfold is_u64. lia.
  - unfold is_u64. lia.
  - unfold is_u64. lia.
Defined.

(** The amount was meant to be 1000. *)
Definition amount_text : Value.t := Value.String [49; 48; 48; 48].

Lemma malformed_amount_withdraws_all_witness :
  let request args := Params.Array ([Value.String key0; Value.String []; Value.String target; number 10] ++ args) in
  let all := WalletOps.available_balance (wallet store1) (trunk_len StoreExamples.chain_trunk)
               (get_height StoreExamples.chain_trunk) in
  call flip0 "withdraw" (request [amount_text]) store1 =
    answered io_text0 sql_text0 (λ '(tx, _), txid tx)
      (Store.withdraw StoreExamples.chain_trunk [] target (Z.min 10 100) (Some all) flip0) store1 /\
  (is_u64 all -> call flip0 "withdraw" (request [amount_text]) store1 =
                 call flip0 "withdraw" (request [number all]) store1).
Proof.
  apply (malformed_amount_withdraws_all StoreExamples.chain_trunk key0 parse_target show_target
           io_text0 sql_text0 flip0 [] target target 10 amount_text [] store1).
  - reflexivity.
  - unfold is_u64. lia.
  - intros n Hn. discriminate Hn.
Defined.

(** ** A start with a re-scan *)

Definition hd_old : BlockHeader := BlockDownloadExamples.hd0.
Definition chain3 : list BlockHeader := BlockDownloadExamples.chain3.
Definition db3 : @HeaderDB (ToyChain false) := mkToyHeaders chain3 [].
Definition matches0 : Matches :=
  mkMatches Net_Testnet 5 5 [] [] true true (Some (V4 [# 127; 0; 0; 1] 21767)) [V4 [# 0; 0; 0; 0] 21766] 1 true.
Definition db_synced : DB := set_processed (Some (to_hex_d (header_hash BlockDownloadExamples.hd2))) create_tables.
(** The wallet is younger than the first block. *)
Definition config0 : Config := mkMainConfig key0 [48] [1] 10 15.
Definition db_wallet : DB :=
  set_account (<[(0, 0) := mkAccountRow 0 [] [0]]> (<[(0, 1) := mkAccountRow 0 [] [0]]>
    (<[(1, 0) := mkAccountRow 0 [] [0]]> ∅))) db_synced.
Definition started := Main.main matches0 (Some config0) (Panicked AssertionFailed) key0 (trunk_rev chain3) db_wallet.
Definition node0 : Node :=
  match started with Ok n => n | _ => mkNode _ _ store1 config0 (0, [], true) (0, [], [], true, true) (http_rpc matches0) end.

Lemma started_ok : Main.main matches0 (Some config0) (Panicked AssertionFailed) key0 (trunk_rev chain3) db_wallet =
  Ok node0.
Proof. unfold node0, started. vm_compute. reflexivity. Qed.

Definition no_reply : @Timeout ToyPeers BitcoinReply ToyTimeouts := ∅.

Lemma rescan_from_birth_witness :
  w_coins (wallet (nd_store node0)) = coins_new /\ Db.coins (Store.db (nd_store node0)) = ∅ /\
  WalletTables.read_unconfirmed (Store.db (nd_store node0)) = Ok [] /\
  exists download, P2PBitcoin.catch_up 5 db3 no_reply (cfg_birth (nd_config node0)) (nd_store node0) =
      (Ok (Some download), nd_store node0) /\
    blocks_wanted download = blocks_from chain3 1 /\ blocks_asked download = [].
Proof.
  apply (rescan_from_birth matches0 (Some config0) (Panicked AssertionFailed) key0 db_wallet node0
           chain3 BlockDownloadExamples.hd2 0 hd_old 5 db3 no_reply).
  - reflexivity.
  - exact started_ok.
  - apply (toy_view_trunk db3). exact BlockDownloadExamples.chain3_linked.
  - reflexivity.
  - vm_compute. reflexivity.
  - reflexivity.
  - vm_compute. reflexivity.
  - intros k hk Hk Hkk. assert (cfg_birth (nd_config node0) = 15) as -> by (vm_compute; reflexivity).
    destruct k as [|[|[|k]]]; cbn in Hkk; simplify_eq; try (cbn; lia).
  - cbn. lia.
Defined.

(** ** The networks *)

Definition peer_a : SocketAddr := V4 [# 9; 9; 9; 1] 18333.
Definition peer_b : SocketAddr := V4 [# 9; 9; 9; 2] 5000.
Definition matches_peers : Matches :=
  mkMatches Net_Testnet 5 5 [peer_b] [peer_a] false false None [V4 [# 0; 0; 0; 0] 21766] 1 true.
Definition node_peers : Node :=
  match Main.main matches_peers (Some config0) (Panicked AssertionFailed) key0 (trunk_rev chain3) db_wallet with
  | Ok n => n | _ => node0
  end.
Lemma node_peers_ok :
  Main.main matches_peers (Some config0) (Panicked AssertionFailed) key0 (trunk_rev chain3) db_wallet = Ok node_peers.
Proof. unfold node_peers. vm_compute. reflexivity. Qed.

Definition no_answer : @Timeout ToyPeers ExpectedReply ToyTimeouts := ∅.
Definition seeds0 : list SocketAddr := [V4 [# 7; 7; 7; 7] 18333].
Definition networks :=
  Networks.start 5 matches_peers node_peers db3 no_reply no_answer 1 2 3 4 50 seeds0 (λ _ _, None) (nd_store node_peers).

Lemma networks_ok : exists net net', networks = (Ok (Some (net, net')), networks.2).
Proof.
  destruct networks as [[[[net net']|]|e|p] s'] eqn:Hn; [by exists net, net'|exfalso..];
    apply (f_equal (λ r, match r.1 with Ok (Some _) => true | _ => false end)) in Hn;
    vm_compute in Hn; discriminate.
Qed.

Lemma lost_peers_stay_lost_witness : exists net net',
  networks = (Ok (Some (net, net')), networks.2) /\
  BitcoinNetwork.added net = [peer_a] /\
  BiadNetwork.added net' = [V4 [# 9; 9; 9; 2] 21866] /\
  connects_once BITCOIN (BitcoinNetwork.added net) (BitcoinNetwork.keep_connected net) /\
  connects_once DEFIADS (BiadNetwork.added net') (BiadNetwork.keep_connected net').
Proof.
  destruct networks_ok as (net & net' & Hn). exists net, net'. split; [exact Hn|].
  exact (lost_peers_stay_lost matches_peers (Some config0) (Panicked AssertionFailed) key0 (trunk_rev chain3)
    db_wallet node_peers 5 db3 no_reply no_answer 1 2 3 4 50 seeds0 (λ _ _, None) net net' networks.2
    node_peers_ok Hn).
Defined.

(** ** The wallet of the first run and of the next *)

Definition password0 : str := [49; 50; 51; 52; 53; 54; 55; 56; 10].
Definition yes0 : str := [121; 101; 115; 10].
Definition new_wallet0 : res Error Wallet := WalletSetup.new Net_Testnet password0 yes0 [] 5.
Definition wallet0 : Wallet := match new_wallet0 with Ok w => w | _ => mkWallet _ _ coins_new ∅ end.
Definition created0 := Main.create_wallet key0 wallet0 create_tables.
Definition config1 : Config :=
  match created0.1 with Ok (config, _) => config | _ => mkMainConfig [] [] [] 0 0 end.

Lemma wallet0_new : new_wallet0 = Ok wallet0.
Proof. vm_compute. reflexivity. Qed.
Lemma created0_ok : created0 = (Ok (config1, wallet0), created0.2).
Proof.
  rewrite (surjective_pairing created0) at 1. apply (f_equal (λ r, (r, created0.2))). vm_compute. reflexivity.
Qed.

Lemma wallet_reopened_witness :
  wallet0 = wallet0 /\ apikey config1 = key0 /\
  (Net_Testnet <> Net_Regtest -> Main.open_wallet Net_Testnet config1 created0.2 = Ok wallet0) /\
  (Net_Testnet = Net_Regtest -> Main.open_wallet Net_Testnet config1 created0.2 = Panicked AssertionFailed).
Proof.
  apply (wallet_reopened Net_Testnet password0 yes0 [] 5 key0 create_tables wallet0 config1 wallet0 created0.2).
  - reflexivity.
  - exact wallet0_new.
  - exact created0_ok.
Defined.

(** The same two runs on regtest. *)
Example regtest_not_reopened :
  match WalletSetup.new Net_Regtest password0 yes0 [] 5 with
  | Ok w => match Main.create_wallet key0 w create_tables with
            | (Ok (config, _), d) => Main.open_wallet Net_Regtest config d
            | (r, _) => Ok w
            end
  | r => r
  end = Panicked AssertionFailed.
Proof. vm_compute. reflexivity. Qed.

Definition matches1 : Matches := mkMatches Net_Testnet 5 5 [] [] true true (Some (V4 [# 127; 0; 0; 1] 21767)) [] 1 false.
Definition node1 : Node :=
  match Main.main matches1 (Some config1) (Panicked AssertionFailed) key0 [] created0.2 with
  | Ok node => node | _ => node0 end.
Lemma node1_ok : Main.main matches1 (Some config1) (Panicked AssertionFailed) key0 [] created0.2 = Ok node1.
Proof.
  unfold node1. destruct (Main.main matches1 _ _ _ _ _) as [n|e|p] eqn:Hm; [done|exfalso..];
    apply (f_equal (λ r, match r with Ok _ => true | _ => false end)) in Hm; vm_compute in Hm; discriminate.
Qed.
Definition handed_out := deposit_addresses 2 (nd_store node1).
Lemma handed_out_ok : handed_out = (Ok [[7; 0; 0; 0]; [7; 0; 0; 1]], handed_out.2).
Proof.
  rewrite (surjective_pairing handed_out) at 1. apply (f_equal (λ r, (r, handed_out.2))). vm_compute. reflexivity.
Qed.

Lemma deposit_addresses_repeat_witness :
  exists node', Main.main matches1 (Some config1) new_wallet0 [] [] (Store.db handed_out.2) = Ok node' /\
    deposit_addresses 2 (nd_store node') = (Ok [[7; 0; 0; 0]; [7; 0; 0; 1]], handed_out.2).
Proof.
  apply (deposit_addresses_repeat matches1 config1 (Panicked AssertionFailed) new_wallet0 key0 [] [] []
           created0.2 node1 2 [[7; 0; 0; 0]; [7; 0; 0; 1]] handed_out.2).
  - reflexivity.
  - exact node1_ok.
  - exact handed_out_ok.
Defined.
End ServiceExamples.
