(* ===== verification/ReachExamples.v ===== *)
(** * Examples: an ad from the wallet of one node to the store of another

    The node of WalletExamples.v funds an ad, connects the block that confirms it,
    and connects to a peer that stores nothing. *)

From S2P Require Import Prelude Machine IbltTable IbltCells IbltAlgebra IbltRefine IbltPeel IbltSync.
From S2P Require Import Sketch Keys Strings Text Bitcoin Content Effects Db DbContent DbContentSpec.
From S2P Require Import Wallet DbWallet Trunk Store StoreTables StoreSpec StoreLedger Messages Toy StoreExamples.
From S2P Require Import Updater UpdaterSpec UpdaterSync UpdaterPoll UpdaterSession UpdaterExamples Isolation.
From S2P Require Import WalletSpec PublicationSpec PublicationReach WalletExamples.
#[local] Open Scope Z_scope.

Module ReachExamples.
Import StoreExamples.
Import (hints) WalletExamples.
#[local] Opaque generate_ksequence.

(** ** The publisher *)

Definition store_p0 : ContentStore :=
  mkStore _ _ create_tables 1000 ∅ (sketch_of content_ksequence (table_keys (Db.content create_tables)))
    content_ksequence (u32 (Z.of_nat (length (table_keys (Db.content create_tables))))) WalletExamples.wallet0 (Some []).
Definition store_p1 : ContentStore := (Store.prepare_publication [97] [98] [99] store_p0).2.
Definition p_funded := Store.fund chain_trunk WalletExamples.ad_id 10 15000 10 [] WalletExamples.flip0 store_p1.
Definition store_p2 : ContentStore := p_funded.2.
Definition p_connected := Store.block_connected chain_trunk WalletExamples.ad_block store_p2.
Definition store_p3 : ContentStore := p_connected.2.

Lemma store_p0_synced : synced store_p0.
Proof.
  split; [split; [exact ids_wf_empty|]|by split_and!].
  intros size t Ht. cbn in Ht. by rewrite lookup_empty in Ht.
Qed.

Lemma store_p2_contents : same_contents store_p0 store_p2.
Proof.
  transitivity store_p1; [apply store_prepare_keeps|apply fund_keeps].
Qed.
Lemma store_p2_synced : synced store_p2.
Proof. exact (same_contents_synced _ _ store_p2_contents store_p0_synced). Qed.

Lemma p_funded_eq : p_funded = (Ok (Some (WalletExamples.ad_tx, WalletExamples.ad_funder, 2000)), store_p2).
Proof.
  rewrite (surjective_pairing p_funded) at 1. apply (f_equal (λ r, (r, p_funded.2))). vm_compute. reflexivity.
Qed.
Lemma p_connected_eq : p_connected = (Ok (), store_p3).
Proof.
  rewrite (surjective_pairing p_connected) at 1. apply (f_equal (λ r, (r, p_connected.2))).
  vm_compute. reflexivity.
Qed.
Lemma p_unconfirmed : WalletTables.read_unconfirmed (db store_p2) = Ok WalletExamples.ad_unconfirmed.
Proof. vm_compute. reflexivity. Qed.

Definition content_p : Content :=
  mkContent _ ad1 (proved_new WalletExamples.ad_block 0) WalletExamples.ad_funder 10.
Lemma p_publications : publications WalletExamples.ad_block (db store_p2) WalletExamples.ad_unconfirmed = [content_p].
Proof. vm_compute. reflexivity. Qed.
Lemma content_p_storable : storable content_p.
Proof.
  split_and!; [exists [99]; reflexivity| |by eexists].
  assert (content_length content_p = 1) as -> by reflexivity. done.
Qed.
Lemma content_p_new : ~ is_stored content_p store_p2.
Proof.
  unfold is_stored. rewrite (same_contents_rows _ _ store_p2_contents). cbn [db store_p0 Db.content create_tables].
  rewrite lookup_empty. by intros [r Hr].
Qed.

(** ** What it stores *)

Definition row_p : ContentRow :=
  ContentTable.content_row 1 (header_hash (hdr 1)) content_p 13000 [99].
Lemma store_p3_rows : Db.content (db store_p3) = <[id1 := row_p]> ∅.
Proof. vm_compute. reflexivity. Qed.

Definition publisher : Updater := UpdaterOps.new store_p3 UpdaterExamples.toy_timeout 0.
Definition peer : Updater := UpdaterExamples.node_a.

Lemma store_p3_synced : synced store_p3.
Proof.
  apply (block_connected_synced chain_trunk WalletExamples.ad_block WalletExamples.ad_unconfirmed store_p2);
    [exact store_p2_synced|exact p_unconfirmed|rewrite p_publications..|exact p_connected_eq].
  - intros c ->%list_elem_of_singleton. split; [exact content_p_storable|exact content_p_new].
  - apply NoDup_singleton.
Qed.

Lemma store_p3_keys : stored_keys store_p3 = [UpdaterExamples.key1].
Proof.
  unfold stored_keys, table_keys. rewrite store_p3_rows, insert_empty, map_to_list_singleton. cbn [fmap list_fmap fst].
  exact (f_equal (λ k, [k]) (key_of_hex UpdaterExamples.digest1)).
Qed.
Lemma store_p3_length : total_length store_p3 = 1.
Proof. unfold total_length. rewrite store_p3_rows, insert_empty, map_to_list_singleton. vm_compute. reflexivity. Qed.

Lemma read_p : ContentTable.read_content UpdaterExamples.digest1 (db store_p3) = Ok (Some content_p).
Proof. vm_compute. reflexivity. Qed.

Definition output_p : TxOut := default (mkTxOut 0 []) (head (output WalletExamples.ad_tx)).
Lemma content_p_committed : committed chain_trunk content_p 1 (hdr 1) output_p.
Proof.
  split_and!; [vm_compute; reflexivity|vm_compute; intros [=]|vm_compute; reflexivity|
               vm_compute; reflexivity|vm_compute; intros [=]|].
  eexists. split; [reflexivity|]. vm_compute. reflexivity.
Qed.

(** ** What each supplies *)

Lemma peer_fits : fits (store peer) (content_length content_p + 0).
Proof.
  assert (content_length content_p = content_length content1) as -> by reflexivity.
  exact UpdaterExamples.node_a_fits.
Qed.

Lemma publisher_supplies : supplies chain_trunk 100 (λ _, content_p) (store peer) store_p3.
Proof.
  split; rewrite ?store_p3_keys, ?UpdaterExamples.node_a_keys.
  - exact UpdaterExamples.one_honest.
  - intros R. apply UpdaterExamples.single_not_stuck. by left.
  - intros d Hd _. apply (stored_keys_elem _ _ (proj1 store_p3_synced)) in Hd. rewrite store_p3_keys in Hd.
    apply list_elem_of_singleton in Hd. injection Hd as ->.
    split; [exact read_p|]. split; [reflexivity|]. split; [exact content_p_storable|].
    exists 1, (hdr 1), output_p. exact content_p_committed.
  - exact peer_fits.
Qed.

Lemma peer_supplies : supplies chain_trunk 100 (λ _, content_p) store_p3 (store peer).
Proof.
  split; rewrite ?store_p3_keys, ?UpdaterExamples.node_a_keys.
  - exact UpdaterExamples.one_honest_deleted.
  - intros R. apply UpdaterExamples.single_not_stuck. by right.
  - intros d Hd. apply (stored_keys_elem _ _ UpdaterExamples.node_a_cache) in Hd.
    rewrite UpdaterExamples.node_a_keys in Hd. by apply not_elem_of_nil in Hd.
  - cbn [list_difference fmap list_fmap foldr]. unfold fits. rewrite store_p3_length.
    split_and!; [|vm_compute; intros [=]|reflexivity].
    intros id r Hr. rewrite store_p3_rows in Hr. apply lookup_insert_Some in Hr as [[_ <-]|[_ Hr]];
      [vm_compute; intros [=]|]. by rewrite lookup_empty in Hr.
Qed.

Lemma funded_ad_reaches_peer_witness :
  exists a' b', exchanged 3 chain_trunk 0 UpdaterExamples.peer_a UpdaterExamples.peer_b publisher peer a' b' /\
    stored_in (store b') WalletExamples.ad_id /\
    forall d, stored_in (store b') d <-> stored_in store_p3 d \/ stored_in (store peer) d.
Proof.
  apply (funded_ad_reaches_peer chain_trunk WalletExamples.ad_id 10 15000 10 [] WalletExamples.flip0 store_p1
           WalletExamples.ad_tx WalletExamples.ad_funder 2000 store_p2 chain_trunk WalletExamples.ad_block 0 1 ad1
           WalletExamples.ad_unconfirmed store_p2 store_p3 3 0 UpdaterExamples.the_tip UpdaterExamples.peer_a
           UpdaterExamples.peer_b 100 100 (λ _, content_p) (λ _, content_p) publisher peer).
  - unfold is_u64. lia.
  - unfold MAX_TERM. lia.
  - exact p_funded_eq.
  - exact p_unconfirmed.
  - apply list_elem_of_here.
  - vm_compute. reflexivity.
  - reflexivity.
  - exact store_p2_synced.
  - rewrite p_publications. intros c ->%list_elem_of_singleton. split; [exact content_p_storable|exact content_p_new].
  - rewrite p_publications. apply NoDup_singleton.
  - reflexivity.
  - apply NoDup_singleton.
  - reflexivity.
  - vm_compute. reflexivity.
  - vm_compute. reflexivity.
  - vm_compute. discriminate.
  - exact p_connected_eq.
  - exact UpdaterExamples.tip_of_chain.
  - reflexivity.
  - reflexivity.
  - reflexivity.
  - split; [exact UpdaterExamples.node_a_cache|apply store_on_sketch].
  - exists 1. split_and!; [vm_compute; reflexivity|vm_compute; reflexivity|vm_compute; reflexivity].
  - exists 1. split_and!; [vm_compute; reflexivity|vm_compute; reflexivity|vm_compute; reflexivity].
  - exact peer_supplies.
  - exact publisher_supplies.
  - unfold peer. rewrite store_p3_keys, UpdaterExamples.node_a_keys. reflexivity.
Defined.
End ReachExamples.
